(* ===== verification/_CoqProject ===== *)
-Q . S2P
Prelude.v
Futures.v
RustStd.v
F64.v
Types.v
Traits.v
Instances.v
Sha256.v
Base64.v
TestKit.v
Transitions.v
Dedupe.v
Database.v
Rows.v
Samples.v
DatabaseProps.v
Postgres.v
PostgresProps.v
Rounds.v
Lifecycle.v
Fleet.v
Concurrent.v
Migrations.v
Sql.v
Schema.v
Config.v
ConfigToml.v
Providers.v
ProvidersProps.v
Metrics.v
Pipeline.v
PipelineProps.v
Node.v
Worker.v
Dispatch.v
WorkerProps.v
Memory.v
MemoryProps.v
Scenario.v
ScenarioProps.v
Harness.v
Json.v
Emitters.v
Channel.v
Serde.v
Health.v
Serve.v
ServeProps.v
Shutdown.v
Admin.v
AdminProps.v
TestServer.v
TestServerProps.v
Cli.v
CliProps.v
Process.v
HarnessSerde.v
CoreTests.v
PipelineTests.v
ProviderTests.v
ServerTests.v
RouteTests.v
CliTests.v
ConfigTests.v
StorageTests.v
FanoutTests.v
ApiTests.v
CliHandlerTests.v
