(* ===== verification/Prelude.v ===== *)
(** * Hookbox: a verification development

    Hookbox is a durable inbox for webhooks: an HTTP request from a provider is verified,
    deduplicated and stored with one delivery row per configured emitter, in one transaction;
    background workers claim the rows and forward the events to a broker, with retries and a
    dead-letter state; an administration API reads receipts and replays deliveries.  This
    library models the Rust crates under [src/crates/], with the scenario harness of
    [src/scenario-tests/], and proves what they promise.

    ** The parts and their files

    - [Prelude], [RustStd], [F64]: results and the [?] operator as a state-and-error monad
      ([M W A] is [W → A * W]); machine integers at their width, durations, UTF-8, string
      methods; the [f64] operations of the backoff on the kernel's primitive floats.
    - [Types]: [hookbox/src/{state,types,error}.rs], one module per Rust type.
    - [Traits]: [hookbox/src/traits.rs] and the [DeliveryStorage] trait as records of
      operations over a world [W]; the promises of their implementations as type classes
      ([StorageContract], [AdvisoryDedupe]); third-party crates (serde_json, hex, base64, sha2,
      hmac, uuid) and the column types of PostgreSQL ([PgTypes]: [make_interval], instants in
      whole microseconds, what [JSONB] accepts and keeps, the width of an index entry) as type classes
      with their documented laws.
      [Instances] gives a concrete instance of each, for the witnesses; [Sha256] and [Base64]
      give the real digest, HMAC and codec, on which the unit tests run.
    - [Transitions]: [hookbox/src/transitions.rs], labels, retry model, backoff, and the state
      of a receipt derived from its deliveries.
    - [Dedupe]: [hookbox/src/dedupe.rs], the bounded cache and the layered composition.
    - [Database]: the two tables, every SQL statement of [hookbox-postgres/src/storage.rs] as a
      partial function on them, and the session [Pg] that runs statements; a statement fails on a
      broken constraint and on a parameter the server refuses (a NUL in a text or in a JSON
      string, an index entry that does not fit).  [DatabaseProps]: the well-formedness invariant
      [db_wf] and the effect of each statement.  [Rows]: the decoding
      of result cells into the rows of [Database].
    - [Postgres]: the methods of [PostgresStorage] and [StorageDedupe], each the sequence of
      statements of the source; [PostgresProps]: atomicity, round trips, claims, and the two
      interfaces discharged ([postgres_contract], [storage_dedupe_advisory]).
    - [Lifecycle], [Fleet]: the state machine of a delivery row ([row_step]) which every method
      obeys, and traces of any number of processes: [trace os d d'] interleaves the methods in
      any order, each with its own clock, locks, random draws and faults.
    - [Rounds], [Concurrent]: the writing methods as trees of round trips ([Prog]; driven alone,
      each is its method of [Postgres]), and a system of any number of calls whose round trips
      interleave, with open transactions, waits for uncommitted keys, faults and abandoned calls
      ([system_step]); such a run is a [trace] of [Fleet].
    - [Config]: [hookbox-server/src/config.rs], defaults, legacy conversion and validation.
      [ConfigToml]: what its [#[derive(Deserialize)]] makes of the tree of a TOML document, and
      the [Serialize] of an emitter entry.
    - [Providers], [ProvidersProps]: the seven verifiers of [hookbox-providers] and exactly
      what they accept.
    - [Metrics], [Pipeline], [PipelineProps]: [hookbox/src/{pipeline,hash}.rs] over any storage
      and dedupe layer; the theorems use only the interfaces of [Traits].
    - [Node]: one server process ([build_pipeline] of serve.rs) over a database session.
    - [Futures]: futures as resumption trees, and [join_all], which polls them in any order.
    - [Worker], [WorkerProps]: [hookbox-server/src/worker.rs], the dispatch worker with its
      health snapshot, the batch it drives with [join_all], its supervisor, and the legacy
      worker.  [Dispatch]: the batch in any order of polls refines its claims one by one.
    - [Shutdown]: [hookbox-server/src/shutdown.rs] and the end of [serve_inner].
    - [Json], [Emitters], [Health], [Serve], [Admin] and their [Props] files: the JSON of the
      API, the broker adapters and [emitter_factory.rs], [routes/health.rs], [bootstrap.rs] and
      [serve.rs] up to the accept loop, [routes/{admin,ingest}.rs] and the router of [lib.rs].
      [Channel]: the development emitter and its drain task over a bounded channel.  [Serde]:
      the derived [Deserialize] of the values whose JSON is sent out.
    - [Memory], [MemoryProps]: [MemoryStorage] of [scenario-tests/src/world.rs] and
      [fake_emitter.rs]; [Scenario], [ScenarioProps]: the world and the steps of the core
      scenarios ([world.rs], [steps.rs]), and the feature files as lists of steps.
    - [TestServer], [TestServerProps]: [scenario-tests/src/server_harness.rs] and
      [steps_server.rs]: the router and one worker per emitter over one database, as tasks that
      interleave, and the server scenarios.
    - [Harness], [HarnessSerde]: the Kani proofs and Bolero properties of [hookbox-verify].
    - [Sql], [Schema]: a small SQL (tables, constraints, indexes, [INSERT], [SELECT], [CASE]) and
      the three migration scripts in it; the statements of [Database] are what the schema makes
      of the INSERTs, and [migrate] over the migrator of sqlx.  [Migrations]: the backfill of the
      deliveries table on the records of [Database], and that its rows stay history.
    - [Cli], [CliProps]: the subcommands of [hookbox-cli] over the storage, and what the operator's
      replay commands do to the queue.  [Process]: [main] and [serve], from the parsed command
      line to the end of the process.
    - [TestKit], [CoreTests], [PipelineTests], [ProviderTests], [ServerTests], [RouteTests],
      [CliTests], [ConfigTests]: the unit tests of the crates, each a [bool] on the definitions,
      and that they pass.  [StorageTests], [FanoutTests], [ApiTests], [CliHandlerTests]: the
      integration tests of [src/integration-tests/tests/], which run the storage, the workers, the
      router and the command line against a live database, here against the tables of [Database]
      (and, for the migration, those of [Sql]), and that they pass.

    ** State

    The state of the database is the record [Db] (receipt rows and delivery rows in order of
    insertion).  A session [Pg] adds the stream of clocks, locks and random identifiers of its
    round trips and a list of faults: each round trip may fail before its statement runs, or
    after it took effect with the reply lost.  A transaction [Tx] works on a private copy and
    commits it whole.  A process [Node] adds its cache; the ingest adds the metrics emitted; a
    worker has its backend, health, metrics and clock.  A scenario has the in-memory storage
    ([IngestWorld]: receipts and deliveries behind mutexes that a panic poisons), the fake
    emitters, and an environment [Env] of clocks and random draws.

    ** What the theorems show

    - Ingest: [accepted_webhook_is_durable], [repeated_webhook_is_not_queued_again],
      [rejected_webhook_leaves_no_trace], [webhook_status_is_truthful],
      [new_webhook_is_accepted] (when the columns can hold its receipt; else an error and nothing
      stored), [conflict_is_unreachable], [ingest_counts_one_result].
    - Storage: [store_with_deliveries_atomic], [stored_receipt_reads_back] (in the form the
      columns keep a receipt, [stored_form]), [claim_pending_takes_due_rows],
      [retry_failed_mirrors_retry_next_state]; over all
      interleavings [reachable_db_wf], [terminal_deliveries_are_final], [lease_is_exclusive]
      (until a mark, or a reclaim after the lease), [stored_receipts_are_permanent] (receipts and
      deliveries); statement by statement [rounds_refine_methods],
      [racing_stores_store_once], [holders_do_not_wait].
    - Dispatch: [due_delivery_is_settled] (the rows an iteration takes: the first that are due,
      as many as the concurrency), [failing_delivery_is_dead_lettered] (the attempts of a row
      over the iterations that take it),
      [healthy_emitter_gets_every_webhook] (a whole server, under every interleaving of requests
      and worker iterations), [join_all_refines_one_by_one] (a batch, in any order of its polls, has
      the effect of its claims settled one after the other), [compute_backoff_bounded] (release
      and debug builds), [health_counts_trailing_failures], [dev_emitter_logs_in_order].
    - Verification: [timestamped_hmac_exact], [body_hmac_exact], [timestamped_requests_are_accepted],
      [configured_provider_is_verified].
    - Schema: [migrate_brings_schema], [insert_receipt_follows_schema],
      [insert_delivery_follows_schema], [migration_0002_follows_schema],
      [schema_is_the_invariant] (the constraints hold exactly of the databases of [db_wf]),
      [hot_queries_are_indexed].
    - Configuration: [normalize_exact], [unknown_keys], [emitter_entry_reads_back].
    - JSON: [json_values_read_back].
    - API and startup: [unauthorized_request_is_inert], [check_auth_exact],
      [replay_is_all_or_nothing], [get_receipt_shows_derived_state], [readyz_unavailable_iff],
      [started_server_is_ready], [validated_entry_builds], [validated_retry_is_usable],
      [serve_exits_cleanly_iff], [validated_config_is_served].
    - Operator: [replay_id_reaches_a_worker], [dlq_retry_requeues_dead_rows],
      [parse_duration_exact], [migrated_history_is_inert].
    - Reference definitions: [cache_refines_fifo], [cache_is_last_window],
      [latest_mutable_per_emitter_spec], [receipt_aggregate_state_spec].
    - Test doubles: [memory_storage_refines_postgres] (the storage of the scenarios answers as
      PostgreSQL does, up to the form the columns keep a receipt in),
      [run_until_exhausted_settles_every_row] (the delivery loop of the scenarios ends within its
      rounds), [core_features_pass], [bolero_properties_hold],
      [kani_proofs_hold], [server_features_pass].
    - Behaviour worth knowing: [stale_mark_ends_a_newer_lease] (the lease guard is not fenced),
      [server_receipts_stay_stored] and [replay_failed_queues_nothing] (the receipt-level retry
      finds nothing, and [replay failed] never queues a delivery),
      [nan_jitter_is_accepted] and [unusable_retry_passes_and_panics]; a body with a NUL in a JSON
      string is never stored ([new_webhook_is_accepted]), and a delivery whose error text has one
      stays in flight ([settled_stuck] of [Dispatch]).

    ** Choices

    The loops of the sources are structural on a list, except three.  The two worker loops run
    as long as the schedule of their wake-ups ([EmitterWorker.run]) or a number of iterations
    ([RetryWorker.run]) says; [due_delivery_is_settled] and [failing_delivery_is_dead_lettered]
    say that their iterations return.  The rounds of the scenario loops are bounded in the
    source (50 and 200); [run_until_exhausted_settles_every_row] says that [max_attempts]
    rounds are enough.  [join_all] polls in a given order, then drives what is left to its end, so
    that every order of polls is the beginning of an instance.  The polls of [converge] in the
    server scenarios end with the list of sleeps, its deadline.  Instants and durations are in
    nanoseconds; a [TIMESTAMPTZ] parameter is cut to whole microseconds ([timestamptz]), and the
    clock of the database is any instant.  A method of the storage is one step of a trace; that
    processes also move between the statements of one changes nothing, by
    [rounds_refine_methods].  There an
    open transaction reads the committed rows and its own, an insert waits while another
    transaction holds its key, and deadlocks and serialization failures are faults.  An iteration
    of a worker is atomic with respect to other tasks in [WorkerProps] and [TestServer]; the
    workers of a server touch disjoint rows ([rows_of_other]), and [Fleet] interleaves processes
    method by method.
    A unit test is a [bool], false on a failed assertion or a panic; what it reads of clocks,
    random numbers and fresh identifiers are its arguments, and its third-party calls run on
    [fips_crypto], [std_codecs] and readers of the few documents it uses.  An integration test is
    a [bool] over a session of an empty migrated database, and is run on one schedule of its
    tasks, or on several where its assertions may depend on it.

    ** Not modelled

    Argument parsing ([clap]) and the tests of it, the reading of TOML and JSON texts into trees,
    a configuration section written as an array or a date, the HTTP framework (extractors, body
    limit with its 413, the 400 of a refused extractor, accept loop), the limits of PostgreSQL on
    the size of a value and the range of an instant, a database the migrations have not been run
    on (of the commands that run them, the model takes the outcome; [Schema] has their effect),
    delivery of operating-system signals, tracing, and the integration
    tests that need what the sources only call: a server on a socket ([serve_smoke.rs]), real
    brokers ([round_trip.rs] of the adapters) and signals ([shutdown_sig*.rs]). *)

From stdpp Require Export base tactics option list strings gmap fin_maps sorting.
From Stdlib Require Export ZArith Lia.

(** ** Results

    Rust's [Result<A, E>]; [Option] is [option]. *)
Inductive result (A E : Type) : Type :=
| Ok (a : A)
| Err (e : E).
Arguments Ok {A E} a.
Arguments Err {A E} e.

#[export] Instance result_eq_dec {A E} `{EqDecision A, EqDecision E} : EqDecision (result A E).
Proof. solve_decision. Defined.

Definition map_err {A E F} (f : E → F) (r : result A E) : result A F :=
  match r with Ok a => Ok a | Err e => Err (f e) end.

Definition ok_or {A E} (o : option A) (e : E) : result A E :=
  match o with Some a => Ok a | None => Err e end.

Definition result_ok {A E} (r : result A E) : option A :=
  match r with Ok a => Some a | Err _ => None end.

Definition unwrap_or {A} (o : option A) (d : A) : A :=
  match o with Some a => a | None => d end.

(** [iter().map(f).collect::<Result<Vec<_>, _>>()]: the first error wins. *)
Fixpoint try_collect {A B E} (f : A → result B E) (l : list A) : result (list B) E :=
  match l with
  | [] => Ok []
  | a :: l' =>
      match f a with
      | Err e => Err e
      | Ok b => match try_collect f l' with Ok bs => Ok (b :: bs) | Err e => Err e end
      end
  end.

(** [r?] in a function without effects. *)
Definition and_then {A B E} (r : result A E) (k : A → result B E) : result B E :=
  match r with Ok a => k a | Err e => Err e end.

Lemma and_then_Ok {A B E} (r : result A E) (k : A → result B E) b :
  and_then r k = Ok b → ∃ a, r = Ok a ∧ k a = Ok b.
Proof. destruct r; cbn; [eauto|done]. Qed.

(** ** State monad

    [M W A] is a computation over the world [W]; fallible code returns
    [M W (result A E)] and [<-?] is the [?] operator. *)
Definition M (W A : Type) : Type := W → A * W.

Definition ret {W A} (a : A) : M W A := λ w, (a, w).

Definition bind {W A B} (m : M W A) (k : A → M W B) : M W B :=
  λ w, let '(a, w') := m w in k a w'.

Definition bind_try {W A B E} (m : M W (result A E)) (k : A → M W (result B E)) :
    M W (result B E) :=
  bind m (λ r, match r with Ok a => k a | Err e => ret (Err e) end).

Definition lift_result {W A E} (r : result A E) : M W (result A E) := ret r.

Declare Scope rust_scope.
Delimit Scope rust_scope with rust.
Notation "x <- m ;; k" := (bind m (λ x, k))
  (at level 100, m at next level, right associativity) : rust_scope.
Notation "' p <- m ;; k" := (bind m (λ x, match x with p => k end))
  (at level 100, p pattern, m at next level, right associativity) : rust_scope.
Notation "x <-? m ;; k" := (bind_try m (λ x, k))
  (at level 100, m at next level, right associativity) : rust_scope.
Notation "' p <-? m ;; k" := (bind_try m (λ x, match x with p => k end))
  (at level 100, p pattern, m at next level, right associativity) : rust_scope.
Notation "m ;;; k" := (bind m (λ _, k))
  (at level 100, right associativity) : rust_scope.

(** A [for] loop whose body may fail with [?]. *)
Fixpoint for_try {W A E} (body : A → M W (result unit E)) (l : list A) : M W (result unit E) :=
  match l with
  | [] => ret (Ok tt)
  | a :: l' => bind_try (body a) (λ _, for_try body l')
  end.

(** A [for] loop that pushes one value per element, stopping at the first error. *)
Fixpoint map_try {W A B E} (body : A → M W (result B E)) (l : list A) :
    M W (result (list B) E) :=
  match l with
  | [] => ret (Ok [])
  | a :: l' =>
      bind_try (body a) (λ b, bind_try (map_try body l') (λ bs, ret (Ok (b :: bs))))
  end.

(** An infallible [for] loop. *)
Fixpoint for_each {W A} (body : A → M W unit) (l : list A) : M W unit :=
  match l with
  | [] => ret tt
  | a :: l' => bind (body a) (λ _, for_each body l')
  end.

(** A computation over one half of the world. *)
Definition on_fst {A B C} (m : M A C) : M (A * B) C :=
  λ w, let '(c, a) := m w.1 in (c, (a, w.2)).
Definition on_snd {A B C} (m : M B C) : M (A * B) C :=
  λ w, let '(c, b) := m w.2 in (c, (w.1, b)).

Lemma bind_try_ok {W A B E} (a : A) (k : A → M W (result B E)) :
  bind_try (ret (Ok a)) k = k a.
Proof. reflexivity. Qed.

Lemma bind_bind {W A B C} (m : M W A) (k : A → M W B) (h : B → M W C) w :
  bind (bind m k) h w = bind m (λ a, bind (k a) h) w.
Proof. unfold bind. by destruct (m w). Qed.

Lemma bind_run {W A B} (m : M W A) (k : A → M W B) w : bind m k w = k (m w).1 (m w).2.
Proof. unfold bind. by destruct (m w). Qed.

(** How a sequence with [?] ended. *)
Lemma bind_try_inv {W A B E} (m : M W (result A E)) (k : A → M W (result B E)) w res w' :
  bind_try m k w = (res, w') →
  (∃ e, m w = (Err e, w') ∧ res = Err e) ∨ (∃ a w1, m w = (Ok a, w1) ∧ k a w1 = (res, w')).
Proof.
  unfold bind_try, bind, ret. destruct (m w) as [[a|e] w1]; [eauto|]. intros [= <- <-]. eauto.
Qed.

Lemma bind_try_run {W A B E} (m : M W (result A E)) (k : A → M W (result B E)) w a w1 :
  m w = (Ok a, w1) → bind_try m k w = k a w1.
Proof. unfold bind_try, bind. by intros ->. Qed.

Lemma try_collect_Forall2 {A B E} (f : A → result B E) l bs :
  try_collect f l = Ok bs → Forall2 (λ a b, f a = Ok b) l bs.
Proof.
  revert bs. induction l as [|a l IH]; intros bs; cbn; [by intros [= <-]|].
  destruct (f a) as [b|] eqn:Ea; [|done]. destruct (try_collect f l) as [bs'|]; [|done].
  intros [= <-]. constructor; auto.
Qed.

(** ** Tactics *)

(** Case analysis on the innermost scrutinee of the goal or of a hypothesis. *)
Ltac break_match :=
  match goal with
  | |- context [match ?x with _ => _ end] =>
      lazymatch x with
      | context [match _ with _ => _ end] => fail
      | _ => let E := fresh "E" in destruct x eqn:E
      end
  end.

Ltac break_match_in H :=
  match type of H with
  | context [match ?x with _ => _ end] =>
      lazymatch x with
      | context [match _ with _ => _ end] => fail
      | _ => let E := fresh "E" in destruct x eqn:E
      end
  end.

(** Split every conjunct and close what [done] closes. *)
Ltac split_done := repeat split; try done.

(** Prove a decidable closed proposition by evaluation. *)
Ltac vm_decide := apply (bool_decide_unpack _); vm_compute; exact I.

Create HintDb hookbox discriminated.
#[export] Hint Constants Transparent : hookbox.
#[export] Hint Resolve Forall_nil_2 Forall_cons_2 Forall_app_2 : hookbox.

(** ** Lists *)

Section list_lemmas.
Context {A B : Type}.

Lemma elem_of_list_filter_map (f : A → A) (P : A → Prop) `{∀ x, Decision (P x)} (l : list A) x :
  x ∈ map (λ y, if decide (P y) then f y else y) l ↔
  ∃ y, y ∈ l ∧ x = if decide (P y) then f y else y.
Proof.
  rewrite list_elem_of_In, in_map_iff. setoid_rewrite <- list_elem_of_In. naive_solver.
Qed.

(** A conditional update preserves a projection that the update preserves. *)
Lemma map_proj_cond (f : A → A) (P : A → bool) (g : A → B) (l : list A) :
  (∀ x, g (f x) = g x) → map g (map (λ y, if P y then f y else y) l) = map g l.
Proof.
  intros Hg. rewrite map_map. apply map_ext. intros x. destruct (P x); auto.
Qed.

Lemma Forall_map_cond (f : A → A) (P : A → bool) (Q : A → Prop) (l : list A) :
  (∀ x, x ∈ l → P x = true → Q x → Q (f x)) → Forall Q l →
  Forall Q (map (λ y, if P y then f y else y) l).
Proof.
  intros Hf HQ. rewrite Forall_forall in *. intros x Hx.
  apply list_elem_of_In, in_map_iff in Hx as (y & <- & Hy%list_elem_of_In).
  destruct (P y) eqn:E; auto.
Qed.

Lemma NoDup_map_inj_on (f : A → B) (l : list A) x y :
  NoDup (map f l) → x ∈ l → y ∈ l → f x = f y → x = y.
Proof.
  intros Hnd Hx Hy Hf. induction l as [|a l IH]; [by apply elem_of_nil in Hx|].
  cbn in Hnd. apply NoDup_cons in Hnd as [Hnotin Hnd].
  assert (∀ z, z ∈ l → f a ≠ f z) as Hne.
  { intros z Hz He. apply Hnotin. rewrite He. by apply list_elem_of_fmap_2. }
  apply elem_of_cons in Hx as [->|Hx], Hy as [->|Hy]; auto.
  - by destruct (Hne y Hy).
  - by destruct (Hne x Hx).
Qed.

Lemma elem_of_take_inv (l : list A) n x : x ∈ take n l → x ∈ l.
Proof. rewrite <- (take_drop n l) at 2. rewrite elem_of_app. auto. Qed.

Lemma elem_of_drop_inv (l : list A) n x : x ∈ drop n l → x ∈ l.
Proof. rewrite <- (take_drop n l) at 2. rewrite elem_of_app. auto. Qed.

Lemma find_Some_elem (f : A → bool) (l : list A) x :
  List.find f l = Some x → x ∈ l ∧ f x = true.
Proof. intros H%List.find_some. by rewrite list_elem_of_In. Qed.

Lemma find_None_elem (f : A → bool) (l : list A) :
  List.find f l = None → ∀ x, x ∈ l → f x = false.
Proof. intros H x Hx%list_elem_of_In. by apply (List.find_none f l). Qed.

Lemma find_app (f : A → bool) (l k : list A) :
  List.find f (l ++ k) =
  match List.find f l with Some x => Some x | None => List.find f k end.
Proof. induction l as [|a l IH]; cbn; [done|]. by destruct (f a). Qed.

Lemma elem_of_List_filter (f : A → bool) (l : list A) x :
  x ∈ List.filter f l ↔ x ∈ l ∧ f x = true.
Proof. by rewrite !list_elem_of_In, filter_In. Qed.

Lemma elem_of_List_map (f : A → B) (l : list A) y : y ∈ map f l ↔ ∃ x, x ∈ l ∧ y = f x.
Proof. rewrite list_elem_of_In, in_map_iff. setoid_rewrite <- list_elem_of_In. naive_solver. Qed.

Lemma NoDup_map_sublist (f : A → B) (l k : list A) :
  l ⊆+ k → NoDup (map f k) → NoDup (map f l).
Proof.
  intros Hs Hk. assert (map f l ⊆+ map f k) as Hm by (by apply (fmap_submseteq f)).
  apply submseteq_Permutation in Hm as [r Hr]. rewrite Hr in Hk. by apply NoDup_app in Hk as [? _].
Qed.

Lemma List_filter_submseteq (f : A → bool) (l : list A) : List.filter f l ⊆+ l.
Proof.
  induction l as [|a l IH]; cbn; [done|]. destruct (f a); [by apply submseteq_skip|by apply submseteq_cons].
Qed.

Lemma length_filter_le (p q : A → bool) (l : list A) :
  (∀ x, x ∈ l → p x = true → q x = true) → (List.length (List.filter p l) ≤ List.length (List.filter q l))%nat.
Proof.
  induction l as [|a l IH]; intros Hpq; [done|]. cbn.
  assert (List.length (List.filter p l) ≤ List.length (List.filter q l))%nat.
  { apply IH. intros x Hx. apply Hpq, elem_of_cons. by right. }
  destruct (p a) eqn:Hp; [|destruct (q a); cbn; lia].
  rewrite (Hpq a) by (done || apply elem_of_cons; by left). cbn. lia.
Qed.

Lemma filter_map_comm (p : A → bool) (f : A → A) (l : list A) :
  (∀ x, p (f x) = p x) → List.filter p (map f l) = map f (List.filter p l).
Proof. intros Hp. induction l as [|a l IH]; [done|]. cbn. rewrite Hp. destruct (p a); cbn; by rewrite IH. Qed.

Lemma filter_all_length (p : A → bool) (l : list A) :
  List.length (List.filter p l) = List.length l → List.filter p l = l.
Proof.
  induction l as [|a l IH]; intros Hlen; [done|]. cbn in *. pose proof (List.filter_length_le p l).
  destruct (p a); cbn in *; [f_equal; apply IH; lia|lia].
Qed.

Lemma filter_all_true (p : A → bool) (l : list A) : Forall (λ x, p x = true) l → List.filter p l = l.
Proof. induction 1 as [|x l Hx _ IH]; [done|]. cbn. by rewrite Hx, IH. Qed.

Lemma filter_filter_impl (p q : A → bool) (l : list A) :
  (∀ x, x ∈ l → p x = true → q x = true) → List.filter p l = List.filter p (List.filter q l).
Proof.
  induction l as [|a l IH]; intros Hpq; [done|]. cbn.
  rewrite IH by (intros x Hx; apply Hpq, elem_of_cons; by right).
  destruct (p a) eqn:Hp.
  - rewrite (Hpq a) by (done || apply elem_of_cons; by left). cbn. by rewrite Hp.
  - destruct (q a); cbn; by rewrite ?Hp.
Qed.

Lemma Forall2_filter (R : A → B → Prop) (p : A → bool) (q : B → bool) l k :
  Forall2 R l k → (∀ x y, x ∈ l → R x y → p x = q y) → Forall2 R (List.filter p l) (List.filter q k).
Proof.
  induction 1 as [|x y l k Hxy _ IH]; intros Hpq; cbn; [constructor|].
  rewrite (Hpq x y) by (done || apply elem_of_cons; by left).
  assert (Forall2 R (List.filter p l) (List.filter q k)).
  { apply IH. intros a b Ha. apply Hpq, elem_of_cons. by right. }
  destruct (q y); [by constructor|done].
Qed.

(** The elements of [l] whose key is in [ks] are as many as the keys. *)
Lemma length_filter_keys `{EqDecision B} (f : A → B) (l : list A) (ks : list B) :
  NoDup (map f l) → NoDup ks → (∀ k, k ∈ ks → k ∈ map f l) →
  length (List.filter (λ x, bool_decide (f x ∈ ks)) l) = length ks.
Proof.
  intros Hl Hks Hin. rewrite <- (length_map f). apply Permutation_length, NoDup_Permutation.
  - eapply NoDup_map_sublist; [apply List_filter_submseteq|done].
  - done.
  - intros k. rewrite elem_of_List_map. setoid_rewrite elem_of_List_filter. split.
    + intros (x & [_ Hx%bool_decide_eq_true] & ->). done.
    + intros Hk. destruct (proj1 (elem_of_List_map f l k) (Hin k Hk)) as (x & Hx & ->).
      exists x. by rewrite bool_decide_eq_true.
Qed.
End list_lemmas.

Lemma Forall2_impl_in {A B} (R S : A → B → Prop) l k :
  Forall2 R l k → (∀ x y, x ∈ l → R x y → S x y) → Forall2 S l k.
Proof.
  induction 1 as [|x y l k Hxy _ IH]; intros Himp; constructor.
  - apply Himp; [apply elem_of_cons; by left|done].
  - apply IH. intros a b Ha. apply Himp, elem_of_cons. by right.
Qed.

Lemma Forall2_compose {A} (R : relation A) (l1 l2 l3 : list A) :
  (∀ x y z, R x y → R y z → R x z) → Forall2 R l1 l2 → Forall2 R l2 l3 → Forall2 R l1 l3.
Proof.
  intros HR H. revert l3. induction H as [|x y l1 l2 Hxy _ IH]; intros l3 H3; inversion H3; subst;
    constructor; eauto.
Qed.

Lemma Forall2_map_eq {A B C} (R : A → B → Prop) (f : A → C) (g : B → C) l k :
  Forall2 R l k → (∀ x y, R x y → g y = f x) → map g k = map f l.
Proof. intros H Hfg. induction H as [|x y l k Hxy _ IH]; cbn; [done|]. by rewrite (Hfg x y Hxy), IH. Qed.

(** What a round makes of a row. *)
Lemma Forall2_map_self {A} (R : relation A) (f : A → A) (l : list A) :
  (∀ x, x ∈ l → R x (f x)) → Forall2 R l (map f l).
Proof.
  induction l as [|a l IH]; intros H; constructor; [apply H, elem_of_cons; by left|].
  apply IH. intros x Hx. apply H, elem_of_cons. by right.
Qed.

Lemma pair_fst {A B} (p : A * B) a : p.1 = a → p = (a, p.2).
Proof. by destruct p; intros <-. Qed.

Lemma pair_fst2 {A B C} (p : A * (B * C)) a : p.1 = a → p = (a, (p.2.1, p.2.2)).
Proof. by destruct p as [? []]; intros <-. Qed.
