(* ===== verification/Futures.v ===== *)
(** * Futures and [join_all]

    An [async] function is its sequence of segments between suspension points.  A segment is
    atomic; what other futures do between two segments is up to the order of the polls. *)

From S2P Require Import Prelude.
Local Open Scope rust_scope.

(** [Ready]: the future has returned; [Await]: it goes on when it is next scheduled. *)
Inductive Fut (W A : Type) : Type :=
| Ready (a : A)
| Await (step : W → Fut W A * W).
Arguments Ready {W A} a.
Arguments Await {W A} step.

Section futures.
Context {W A : Type}.

(** Induction on a future, under its suspensions. *)
Lemma Fut_induction (P : Fut W A → Prop) :
  (∀ a, P (Ready a)) → (∀ step, (∀ w, P (step w).1) → P (Await step)) → ∀ f, P f.
Proof. intros Hready Hawait. fix IH 1. intros [a|step]; [apply Hready|]. apply Hawait. intros w. apply IH. Qed.

(** [k(m.await)]: the effect of [m] happens while the future is suspended; the continuation up
    to the next suspension runs when the future is polled again. *)
Definition await {B} (m : M W B) (k : B → M W (Fut W A)) : Fut W A :=
  Await (λ w, let '(b, w1) := m w in (Await (k b), w1)).

(** Nothing else runs: the future is driven to its end. *)
Fixpoint block_on (f : Fut W A) : M W A :=
  match f with
  | Ready a => ret a
  | Await step => λ w, let '(f', w') := step w in block_on f' w'
  end.

Lemma block_on_await {B} (m : M W B) (k : B → M W (Fut W A)) w :
  block_on (await m k) w = bind m (λ b, bind (k b) block_on) w.
Proof. unfold await, bind. cbn [block_on]. destruct (m w) as [b w1]. cbn [block_on]. by destruct (k b w1). Qed.

End futures.

(** ** Futures that may panic

    [join_all] polls the futures in some order, each poll running one segment; a future that has
    returned stays as it is.  What the given order leaves unfinished is then polled to its end, one
    future after the other, so that every order of polls is the beginning of an instance.  A
    panic unwinds the task: nothing is polled after it. *)
Section join.
Context {W A P : Type}.
Notation FW := (Fut W (result A P)).

Definition poll_one (i : nat) (fs : list FW) : M W (result (list FW) P) := λ w,
  match fs !! i with
  | Some (Await step) =>
      let '(f', w') := step w in
      (match f' with Ready (Err p) => Err p | _ => Ok (<[i := f']> fs) end, w')
  | _ => (Ok fs, w)
  end.

Fixpoint join_rest (fs : list FW) : M W (result (list A) P) :=
  match fs with
  | [] => ret (Ok [])
  | f :: fs' => a <-? block_on f ;; rest <-? join_rest fs' ;; ret (Ok (a :: rest))
  end.

Fixpoint join_all (order : list nat) (fs : list FW) : M W (result (list A) P) :=
  match order with
  | [] => join_rest fs
  | i :: order' => fs' <-? poll_one i fs ;; join_all order' fs'
  end.

Lemma join_all_nil order w : join_all order [] w = (Ok [], w).
Proof. induction order as [|i order IH]; [done|]. cbn [join_all]. by rewrite (bind_try_run _ _ w [] w). Qed.

(** ** Reasoning about all orders

    [J] describes the futures and the world: a future that has returned did not panic, and each
    segment keeps [J]. *)
Definition joins (J : list FW → W → Prop) : Prop :=
  ∀ fs w i f, J fs w → fs !! i = Some f →
    match f with
    | Ready r => ∃ a, r = Ok a
    | Await step => ∀ f' w', step w = (f', w') → J (<[i := f']> fs) w'
    end.

Definition returned (results : list A) : list FW := map (λ a, Ready (Ok a)) results.

Lemma block_on_joins J f i fs w :
  joins J → J fs w → fs !! i = Some f →
  ∃ a w', block_on f w = (Ok a, w') ∧ J (<[i := Ready (Ok a)]> fs) w'.
Proof.
  intros HJ. revert fs w. induction f as [r|step IH] using Fut_induction; intros fs w Hj Hi.
  - destruct (HJ fs w i _ Hj Hi) as [a ->]. exists a, w. by rewrite list_insert_id.
  - cbn [block_on]. destruct (step w) as [f' w1] eqn:Es. specialize (IH w). rewrite Es in IH.
    destruct (IH (<[i := f']> fs) w1) as (a & w' & Hrun & Hj').
    + by apply (HJ fs w i _ Hj Hi).
    + apply list_lookup_insert_eq. by eapply lookup_lt_Some.
    + exists a, w'. split; [done|]. by rewrite list_insert_insert_eq in Hj'.
Qed.

Lemma join_rest_joins J fs results w :
  joins J → J (returned results ++ fs) w →
  ∃ rest w', join_rest fs w = (Ok rest, w') ∧ J (returned (results ++ rest)) w' ∧
             List.length rest = List.length fs.
Proof.
  intros HJ. revert results w. induction fs as [|f fs IH]; intros results w Hj.
  { exists [], w. rewrite app_nil_r in *. by split_and!. }
  assert ((returned results ++ f :: fs) !! List.length results = Some f) as Hi.
  { rewrite lookup_app_r by (unfold returned; by rewrite length_map).
    unfold returned. by rewrite length_map, Nat.sub_diag. }
  destruct (block_on_joins J f _ _ _ HJ Hj Hi) as (a & w1 & Hrun & Hj1).
  destruct (IH (results ++ [a]) w1) as (rest & w' & Hrest & Hj' & Hlen).
  { unfold returned in *. rewrite map_app. cbn. rewrite <- app_assoc.
    rewrite insert_app_r_alt, length_map, Nat.sub_diag in Hj1 by by rewrite length_map. exact Hj1. }
  exists (a :: rest), w'. cbn [join_rest]. rewrite (bind_try_run _ _ _ _ _ Hrun), (bind_try_run _ _ _ _ _ Hrest).
  rewrite <- app_assoc in Hj'. split_and!; [done|done|cbn; lia].
Qed.

(** Whatever the order, every future returns, and [J] holds at the end. *)
Lemma join_all_joins J order fs w :
  joins J → J fs w →
  ∃ results w', join_all order fs w = (Ok results, w') ∧ J (returned results) w' ∧
                List.length results = List.length fs.
Proof.
  intros HJ. revert fs w. induction order as [|i order IH]; intros fs w Hj.
  { apply (join_rest_joins J fs [] w HJ Hj). }
  assert (∃ fs' w', poll_one i fs w = (Ok fs', w') ∧ J fs' w' ∧ List.length fs' = List.length fs)
    as (fs' & w1 & Hpoll & Hj' & Hlen).
  { unfold poll_one. destruct (fs !! i) as [[r|step]|] eqn:Hi; [by eexists _, _..| |by eexists _, _].
    pose proof (HJ fs w i _ Hj Hi) as Hstep. cbn in Hstep. destruct (step w) as [f' w1].
    specialize (Hstep f' w1 eq_refl). exists (<[i := f']> fs), w1. rewrite length_insert. split_and!; [|done|done].
    destruct f' as [[a|p]|step']; [done| |done].
    destruct (HJ _ _ i (Ready (Err p)) Hstep) as [a Ha]; [|done].
    apply list_lookup_insert_eq. by eapply lookup_lt_Some. }
  destruct (IH fs' w1 Hj') as (results & w' & Hrun & Hr & Hl). exists results, w'.
  cbn [join_all]. rewrite (bind_try_run _ _ _ _ _ Hpoll). split_and!; [done|done|lia].
Qed.
End join.
