(* ===== verification/RustStd.v ===== *)
(** * The parts of the Rust standard library the sources use

    Fixed-width integers (values are [Z], the operations write out what happens at the
    bounds), byte strings and [&str] (a [string] is the sequence of its UTF-8 bytes),
    integer parsing, and [std::time::Duration] (total nanoseconds). *)

From S2P Require Import Prelude.
From Stdlib Require Export Ascii String Strings.Byte.
Local Open Scope Z_scope.

(** ** Integers *)

Definition i32_min : Z := - 2 ^ 31.
Definition i32_max : Z := 2 ^ 31 - 1.
Definition u32_max : Z := 2 ^ 32 - 1.
Definition i64_min : Z := - 2 ^ 63.
Definition i64_max : Z := 2 ^ 63 - 1.
Definition u64_max : Z := 2 ^ 64 - 1.

Definition in_i32 (x : Z) : Prop := i32_min ≤ x ≤ i32_max.
Definition in_u64 (x : Z) : Prop := 0 ≤ x ≤ u64_max.

#[export] Instance in_i32_dec x : Decision (in_i32 x).
Proof. unfold in_i32. solve_decision. Defined.
#[export] Instance in_u64_dec x : Decision (in_u64 x).
Proof. unfold in_u64. solve_decision. Defined.

(** [i32::saturating_add] *)
Definition i32_saturating_add (a b : Z) : Z := Z.max i32_min (Z.min i32_max (a + b)).

(** [a + b] on [i32] in a release build: two's complement wrap-around. *)
Definition i32_wrapping_add (a b : Z) : Z := (a + b - i32_min) `mod` 2 ^ 32 + i32_min.

(** [a + b] on [u32] in a release build. *)
Definition u32_wrapping_add (a b : Z) : Z := (a + b) `mod` 2 ^ 32.

(** [u32::saturating_add] *)
Definition u32_saturating_add (a b : Z) : Z := Z.min u32_max (a + b).

(** [u64::try_from(x : i64)] *)
Definition u64_try_from (x : Z) : option Z := if decide (0 ≤ x) then Some x else None.

(** [u64::abs_diff] *)
Definition abs_diff (a b : Z) : Z := Z.abs (a - b).

Lemma i32_saturating_add_exact a b : in_i32 (a + b) → i32_saturating_add a b = a + b.
Proof. unfold in_i32, i32_saturating_add. lia. Qed.

Lemma i32_wrapping_add_exact a b : in_i32 (a + b) → i32_wrapping_add a b = a + b.
Proof.
  unfold in_i32, i32_wrapping_add, i32_min, i32_max. intros H.
  rewrite Z.mod_small; lia.
Qed.

(** ** Durations: total nanoseconds *)

Definition Duration : Type := Z.
Definition nanos_per_sec : Z := 1000000000.
Definition Duration_max : Duration := (u64_max + 1) * nanos_per_sec - 1.
Definition Duration_from_secs (s : Z) : Duration := s * nanos_per_sec.
Definition Duration_as_secs (d : Duration) : Z := d / nanos_per_sec.

Lemma Duration_as_secs_from_secs s : Duration_as_secs (Duration_from_secs s) = s.
Proof. apply Z.div_mul. done. Qed.

(** ** Byte strings *)

Notation bytes := (list byte).

#[export] Instance byte_eq_decision : EqDecision byte := Byte.byte_eq_dec.

Definition as_bytes (s : string) : bytes := list_byte_of_string s.
Definition of_bytes (b : bytes) : string := string_of_list_byte b.

Lemma of_bytes_as_bytes s : of_bytes (as_bytes s) = s.
Proof. apply string_of_list_byte_of_string. Qed.

Lemma as_bytes_of_bytes b : as_bytes (of_bytes b) = b.
Proof. apply list_byte_of_string_of_list_byte. Qed.

Lemma as_bytes_app s t : as_bytes (s +:+ t) = as_bytes s ++ as_bytes t.
Proof.
  unfold as_bytes, list_byte_of_string. induction s as [|c s IH]; [done|].
  change (String c s +:+ t) with (String c (s +:+ t)). cbn. f_equal. exact IH.
Qed.

Definition byte_in (b : byte) (lo hi : Z) : bool :=
  let n := Z.of_N (Byte.to_N b) in (lo <=? n) && (n <=? hi).

Definition utf8_cont (b : byte) : bool := byte_in b 0x80 0xBF.

(** [core::str::from_utf8] accepts exactly the well-formed byte sequences of the Unicode
    standard (table 3-7). *)
Fixpoint utf8_valid (l : bytes) : bool :=
  match l with
  | [] => true
  | b1 :: l1 =>
      if byte_in b1 0 0x7F then utf8_valid l1 else
      match l1 with
      | [] => false
      | b2 :: l2 =>
          if byte_in b1 0xC2 0xDF && utf8_cont b2 then utf8_valid l2 else
          match l2 with
          | [] => false
          | b3 :: l3 =>
              if utf8_cont b3 &&
                 ((byte_in b1 0xE0 0xE0 && byte_in b2 0xA0 0xBF) ||
                  (byte_in b1 0xE1 0xEC && utf8_cont b2) ||
                  (byte_in b1 0xED 0xED && byte_in b2 0x80 0x9F) ||
                  (byte_in b1 0xEE 0xEF && utf8_cont b2))
              then utf8_valid l3 else
              match l3 with
              | [] => false
              | b4 :: l4 =>
                  if utf8_cont b3 && utf8_cont b4 &&
                     ((byte_in b1 0xF0 0xF0 && byte_in b2 0x90 0xBF) ||
                      (byte_in b1 0xF1 0xF3 && utf8_cont b2) ||
                      (byte_in b1 0xF4 0xF4 && byte_in b2 0x80 0x8F))
                  then utf8_valid l4 else false
              end
          end
      end
  end.

Definition from_utf8 (b : bytes) : option string :=
  if utf8_valid b then Some (of_bytes b) else None.

(** ** [&str] operations *)

(** [s.split(c)] for an ASCII separator: always at least one piece. *)
Fixpoint split_on (c : ascii) (s : string) : list string :=
  match s with
  | EmptyString => [EmptyString]
  | String a s' =>
      if Ascii.eqb a c then EmptyString :: split_on c s'
      else match split_on c s' with
           | [] => [String a EmptyString]
           | p :: ps => String a p :: ps
           end
  end.

(** [s.strip_prefix(p)] *)
Fixpoint strip_prefix (p s : string) : option string :=
  match p, s with
  | EmptyString, _ => Some s
  | String a p', String b s' => if Ascii.eqb a b then strip_prefix p' s' else None
  | String _ _, EmptyString => None
  end.

Definition is_ascii_whitespace (a : ascii) : bool :=
  let n := Z.of_nat (nat_of_ascii a) in ((9 <=? n) && (n <=? 13)) || (n =? 32).

(** The characters of [char::is_whitespace] by the length of their UTF-8 encoding: white space of
    ASCII; U+0085 and U+00A0; U+1680, U+2000 to U+200A, U+2028, U+2029, U+202F, U+205F, U+3000. *)
Definition byte_at (a : ascii) (n : Z) : bool := Z.of_nat (nat_of_ascii a) =? n.
Definition is_whitespace2 (a b : ascii) : bool :=
  byte_at a 0xC2 && (byte_at b 0x85 || byte_at b 0xA0).
Definition is_whitespace3 (a b c : ascii) : bool :=
  let n := Z.of_nat (nat_of_ascii c) in
  (byte_at a 0xE1 && byte_at b 0x9A && byte_at c 0x80) ||
  (byte_at a 0xE2 && byte_at b 0x80 &&
     (((0x80 <=? n) && (n <=? 0x8A)) || byte_at c 0xA8 || byte_at c 0xA9 || byte_at c 0xAF)) ||
  (byte_at a 0xE2 && byte_at b 0x81 && byte_at c 0x9F) ||
  (byte_at a 0xE3 && byte_at b 0x80 && byte_at c 0x80).

(** [s.trim_start()] *)
Fixpoint trim_start (s : string) : string :=
  match s with
  | EmptyString => EmptyString
  | String a s1 =>
      if is_ascii_whitespace a then trim_start s1 else
      match s1 with
      | EmptyString => s
      | String b s2 =>
          if is_whitespace2 a b then trim_start s2 else
          match s2 with
          | EmptyString => s
          | String c s3 => if is_whitespace3 a b c then trim_start s3 else s
          end
      end
  end.

(** [s.trim_end()] *)
Fixpoint trim_end (s : string) : string :=
  match s with
  | EmptyString => EmptyString
  | String a s' =>
      if decide (trim_start s = EmptyString) then EmptyString else String a (trim_end s')
  end.

(** [s.trim()] *)
Definition trim (s : string) : string := trim_end (trim_start s).

(** The last byte of a string and what comes before it. *)
Fixpoint split_last (s : string) : option (string * ascii) :=
  match s with
  | EmptyString => None
  | String a s' =>
      match split_last s' with
      | None => Some (EmptyString, a)
      | Some (p, b) => Some (String a p, b)
      end
  end.

(** [s.split_at(s.len() - 1)] of a non-empty string: it panics ([None]) when the last byte
    continues a character. *)
Definition split_at_last (s : string) : option (string * string) :=
  match split_last s with
  | None => None
  | Some (p, b) =>
      if (0x80 <=? Z.of_nat (nat_of_ascii b)) && (Z.of_nat (nat_of_ascii b) <=? 0xBF)
      then None else Some (p, String b EmptyString)
  end.

(** [s.split_whitespace()] on a string without non-ASCII white space. *)
Fixpoint split_whitespace (s : string) : list string :=
  match s with
  | EmptyString => []
  | String a s' =>
      if is_ascii_whitespace a then split_whitespace s'
      else match s' with
           | EmptyString => [String a EmptyString]
           | String b _ =>
               if is_ascii_whitespace b then String a EmptyString :: split_whitespace s'
               else match split_whitespace s' with
                    | [] => [String a EmptyString]
                    | p :: ps => String a p :: ps
                    end
           end
  end.

(** [ss.join(sep)] *)
Fixpoint join (sep : string) (ss : list string) : string :=
  match ss with
  | [] => EmptyString
  | [s] => s
  | s :: ss' => s +:+ sep +:+ join sep ss'
  end.

Definition starts_with_quote (s : string) : bool :=
  match s with String a _ => Ascii.eqb a "034"%char | EmptyString => false end.

Fixpoint trim_start_quotes (s : string) : string :=
  match s with
  | String a s' => if Ascii.eqb a "034"%char then trim_start_quotes s' else s
  | EmptyString => EmptyString
  end.

Fixpoint trim_end_quotes (s : string) : string :=
  match s with
  | EmptyString => EmptyString
  | String a s' =>
      match trim_end_quotes s' with
      | EmptyString => if Ascii.eqb a "034"%char then EmptyString else String a EmptyString
      | t => String a t
      end
  end.

(** [s.trim_matches(q)] for the double quote [q]. *)
Definition trim_matches_quote (s : string) : string := trim_end_quotes (trim_start_quotes s).

(** Decimal digits, most significant first. *)
Definition digit_val (a : ascii) : option Z :=
  let n := Z.of_nat (nat_of_ascii a) in
  if (48 <=? n) && (n <=? 57) then Some (n - 48) else None.

Fixpoint parse_digits (acc : Z) (s : string) : option Z :=
  match s with
  | EmptyString => Some acc
  | String a s' => match digit_val a with Some d => parse_digits (10 * acc + d) s' | None => None end
  end.

(** At least one digit. *)
Definition parse_nat_str (s : string) : option Z :=
  match s with EmptyString => None | _ => parse_digits 0 s end.

Definition in_range (lo hi x : Z) : option Z :=
  if decide (lo ≤ x ≤ hi) then Some x else None.

(** [s.parse::<u64>()]: an optional [+], at least one digit, no overflow. *)
Definition parse_u64 (s : string) : option Z :=
  match s with
  | String "+" s' => parse_nat_str s' ≫= in_range 0 u64_max
  | _ => parse_nat_str s ≫= in_range 0 u64_max
  end.

(** [s.parse::<i64>()] *)
Definition parse_i64 (s : string) : option Z :=
  match s with
  | String "+" s' => parse_nat_str s' ≫= in_range i64_min i64_max
  | String "-" s' => parse_nat_str s' ≫= λ n, in_range i64_min i64_max (- n)
  | _ => parse_nat_str s ≫= in_range i64_min i64_max
  end.

(** [s.chars().count()] on a valid UTF-8 string: the bytes that do not continue a character. *)
Fixpoint chars_count (s : string) : Z :=
  match s with
  | EmptyString => 0
  | String a s' =>
      let n := Z.of_nat (nat_of_ascii a) in
      (if (0x80 <=? n) && (n <=? 0xBF) then 0 else 1) + chars_count s'
  end.

(** [s.chars().all(p)] for a predicate [p] that only accepts ASCII characters. *)
Fixpoint chars_all (p : ascii → bool) (s : string) : bool :=
  match s with EmptyString => true | String a s' => p a && chars_all p s' end.

(** [char::is_ascii_alphanumeric] *)
Definition is_ascii_alphanumeric (a : ascii) : bool :=
  let n := Z.of_nat (nat_of_ascii a) in
  ((48 <=? n) && (n <=? 57)) || ((65 <=? n) && (n <=? 90)) || ((97 <=? n) && (n <=? 122)).

(** [lhs.cmp(rhs)] on [str]: lexicographic on bytes. *)
Definition str_leb (s t : string) : bool :=
  match String.compare s t with Gt => false | _ => true end.

(** ** Lemmas *)

#[export] Hint Rewrite String.eqb_refl Ascii.eqb_refl : hookbox.

Lemma str_app_cons a s t : String a s +:+ t = String a (s +:+ t).
Proof. done. Qed.

Lemma str_app_nil t : EmptyString +:+ t = t.
Proof. done. Qed.

Lemma string_length_app s t : String.length (s +:+ t) = (String.length s + String.length t)%nat.
Proof. induction s as [|a s IH]; [done|]. rewrite str_app_cons. cbn. by rewrite IH. Qed.

Lemma string_app_inj_length (s1 s2 t1 t2 : string) :
  String.length t1 = String.length t2 → s1 +:+ t1 = s2 +:+ t2 → s1 = s2 ∧ t1 = t2.
Proof.
  intros Hlen. revert s2. induction s1 as [|a s1 IH]; intros [|b s2].
  - rewrite !str_app_nil. done.
  - rewrite str_app_nil, str_app_cons. intros ->. cbn in Hlen. rewrite string_length_app in Hlen. lia.
  - rewrite str_app_nil, str_app_cons. intros <-. cbn in Hlen. rewrite string_length_app in Hlen. lia.
  - rewrite !str_app_cons. intros [= -> Heq]. destruct (IH s2 Heq) as [-> ->]. done.
Qed.

Lemma split_last_app p a : split_last (p +:+ String a EmptyString) = Some (p, a).
Proof. induction p as [|b p IH]; [done|]. rewrite str_app_cons. cbn. by rewrite IH. Qed.

Lemma split_last_Some s p a : split_last s = Some (p, a) ↔ s = p +:+ String a EmptyString.
Proof.
  split; [|intros ->; apply split_last_app]. revert p.
  induction s as [|b s IH]; intros p; [done|]. cbn [split_last].
  destruct (split_last s) as [[q c]|] eqn:E; intros [= <- <-].
  - rewrite str_app_cons. f_equal. by apply IH.
  - destruct s as [|c s]; [done|]. cbn in E. destruct (split_last s) as [[??]|]; done.
Qed.

Lemma strip_prefix_Some p s r : strip_prefix p s = Some r ↔ s = p +:+ r.
Proof.
  revert s. induction p as [|a p IH]; intros s.
  { rewrite str_app_nil. cbn. split; congruence. }
  rewrite str_app_cons. destruct s as [|b s]; cbn [strip_prefix]; [split; congruence|].
  destruct (Ascii.eqb_spec a b) as [->|Hne]; [|split; congruence].
  rewrite IH. split; congruence.
Qed.

Lemma strip_prefix_app p s : strip_prefix p (p +:+ s) = Some s.
Proof. by apply strip_prefix_Some. Qed.

Lemma split_on_nonempty c s : split_on c s ≠ [].
Proof. destruct s as [|a s]; cbn; [done|]. repeat case_match; done. Qed.

(** [split] is inverse to [join] with the same separator. *)
Lemma join_cons_cons sep p q ps :
  join sep (p :: q :: ps) = p +:+ sep +:+ join sep (q :: ps).
Proof. done. Qed.

Lemma join_split_on c s : join (String c EmptyString) (split_on c s) = s.
Proof.
  induction s as [|a s IH]; [done|]. cbn [split_on].
  destruct (split_on c s) as [|p ps] eqn:E; [by destruct (split_on_nonempty c s)|].
  destruct (Ascii.eqb_spec a c) as [->|Hne].
  - rewrite join_cons_cons, IH. done.
  - rewrite <- IH. destruct ps; done.
Qed.

Lemma parse_u64_bounds s n : parse_u64 s = Some n → 0 ≤ n ≤ u64_max.
Proof.
  unfold parse_u64, in_range. intros H.
  repeat case_match; simplify_option_eq; lia.
Qed.
