(* ===== verification/F64.v ===== *)
(** * Binary64 arithmetic

    Rust's [f64] is the kernel's primitive binary64 type [float]; its operations are the
    primitive ones, which [Prim2SF] relates to the executable IEEE-754 specification
    [SpecFloat].  What the standard library adds ([min], [max], [clamp], [mul_add],
    [Duration::as_secs_f64], [Duration::from_secs_f64]) is defined here. *)

From S2P Require Import Prelude RustStd.
From Stdlib Require Export Floats.
Local Open Scope Z_scope.

Notation f64 := float.

(** [n as f64] for an integer [n]: rounded to nearest, ties to even. *)
Definition f64_of_Z (n : Z) : f64 := SF2Prim (binary_normalize prec emax n 0 false).

Definition f64_is_finite (x : f64) : bool :=
  match Prim2SF x with S754_infinity _ | S754_nan => false | _ => true end.

Definition f64_is_nan (x : f64) : bool :=
  match Prim2SF x with S754_nan => true | _ => false end.

(** [f64::min] and [f64::max] return the other operand when one is NaN. *)
Definition f64_min (x y : f64) : f64 :=
  if f64_is_nan x then y else if f64_is_nan y then x else if (y <? x)%float then y else x.
Definition f64_max (x y : f64) : f64 :=
  if f64_is_nan x then y else if f64_is_nan y then x else if (x <? y)%float then y else x.

(** [f64::clamp]; [None] is its panic when the bounds are not ordered. *)
Definition f64_clamp (x lo hi : f64) : option f64 :=
  if (lo <=? hi)%float
  then let x1 := if (x <? lo)%float then lo else x in
       Some (if (hi <? x1)%float then hi else x1)
  else None.

(** [f64::mul_add]: the exact [x * y + z], rounded once. *)
Definition sf_mul_add (x y z : spec_float) : spec_float :=
  match x, y, z with
  | S754_finite sx mx ex, S754_finite sy my ey, S754_finite sz mz ez =>
      let ep := ex + ey in
      let e := Z.min ep ez in
      let p := cond_Zopp (xorb sx sy) (Z.shiftl (Zpos (mx * my)) (ep - e)) in
      let a := cond_Zopp sz (Z.shiftl (Zpos mz) (ez - e)) in
      binary_normalize prec emax (p + a) e false
  | S754_finite _ _ _, S754_finite _ _ _, S754_infinity _ => z
  | _, _, _ => SFadd prec emax (SFmul prec emax x y) z
  end.
Definition f64_mul_add (x y z : f64) : f64 :=
  SF2Prim (sf_mul_add (Prim2SF x) (Prim2SF y) (Prim2SF z)).

(** [n / d] rounded to the nearest integer, ties to even. *)
Definition div_half_even (n d : Z) : Z :=
  let q := n / d in
  let r := n mod d in
  if decide (2 * r < d) then q
  else if decide (d < 2 * r) then q + 1
  else if Z.even q then q else q + 1.

(** The value [m * 2^e] seconds in whole nanoseconds, ties to even. *)
Definition round_nanos (m : Z) (e : Z) : Z :=
  if decide (0 ≤ e) then m * 2 ^ e * nanos_per_sec
  else div_half_even (m * nanos_per_sec) (2 ^ (- e)).

(** [Duration::from_secs_f64]; [None] is its panic on a negative, NaN or overflowing input. *)
Definition from_secs_f64 (x : f64) : option Duration :=
  match Prim2SF x with
  | S754_zero _ => Some 0
  | S754_finite false m e =>
      let ns := round_nanos (Zpos m) e in
      if decide (ns ≤ Duration_max) then Some ns else None
  | _ => None
  end.

(** [Duration::as_secs_f64] *)
Definition as_secs_f64 (d : Duration) : f64 :=
  (f64_of_Z (d / nanos_per_sec) + f64_of_Z (d mod nanos_per_sec) / f64_of_Z nanos_per_sec)%float.

(** ** Comparison of canonical numbers is comparison of values *)

(** [0 <= x <= y] as real numbers, for finite [x] and [y]. *)
Definition sf_nonneg_le (x y : spec_float) : Prop :=
  match x, y with
  | S754_zero _, S754_zero _ => True
  | S754_zero _, S754_finite false _ _ => True
  | S754_finite false m1 e1, S754_finite false m2 e2 =>
      Zpos m1 * 2 ^ (e1 + 1074) ≤ Zpos m2 * 2 ^ (e2 + 1074)
  | _, _ => False
  end.

Lemma digits2_pos_bounds m :
  2 ^ (Zpos (digits2_pos m) - 1) ≤ Zpos m < 2 ^ Zpos (digits2_pos m).
Proof.
  assert (∀ p, 2 ^ Zpos (Pos.succ p) = 2 * 2 ^ Zpos p) as Hs.
  { intros p. rewrite Pos2Z.inj_succ, Z.pow_succ_r; lia. }
  assert (∀ p, 2 ^ (Zpos (Pos.succ p) - 1) = 2 * 2 ^ (Zpos p - 1)) as Hs'.
  { intros p. rewrite <- Z.pow_succ_r by lia. f_equal. lia. }
  induction m as [m IH|m IH|]; cbn [digits2_pos]; rewrite ?Hs, ?Hs'; lia.
Qed.

Lemma canonical_exp m e :
  bounded prec emax m e = true →
  Zpos (digits2_pos m) ≤ 53 ∧ -1074 ≤ e ∧ (-1074 < e → Zpos (digits2_pos m) = 53).
Proof.
  unfold bounded, canonical_mantissa, fexp, emin. intros [H _]%andb_prop.
  apply Z.eqb_eq in H. unfold prec, emax in H. lia.
Qed.

Lemma canonical_lt m1 e1 m2 e2 :
  bounded prec emax m1 e1 = true → bounded prec emax m2 e2 = true → e1 < e2 →
  Zpos m1 * 2 ^ (e1 + 1074) ≤ Zpos m2 * 2 ^ (e2 + 1074).
Proof.
  intros (Hd1 & He1 & _)%canonical_exp (_ & _ & Hd2)%canonical_exp He.
  specialize (Hd2 ltac:(lia)).
  destruct (digits2_pos_bounds m1) as [_ Hm1], (digits2_pos_bounds m2) as [Hm2 _].
  rewrite Hd2 in Hm2.
  assert (2 ^ Zpos (digits2_pos m1) ≤ 2 ^ 53) by (apply Z.pow_le_mono_r; lia).
  trans (2 ^ 53 * 2 ^ (e1 + 1074)); [nia|].
  trans (2 ^ 52 * 2 ^ (e2 + 1074)).
  - rewrite <- !Z.pow_add_r by lia. apply Z.pow_le_mono_r; lia.
  - change (53 - 1) with 52 in Hm2. assert (0 < 2 ^ (e2 + 1074)) by (apply Z.pow_pos_nonneg; lia). nia.
Qed.

Lemma pos_compare_cont_eq a b : Pos.compare_cont Eq a b = (a ?= b)%positive.
Proof. done. Qed.

Lemma SFcompare_le x y :
  valid_binary x = true → valid_binary y = true →
  SFcompare x y = Some Lt ∨ SFcompare x y = Some Eq →
  match x with S754_finite true _ _ | S754_infinity _ | S754_nan => False | _ => True end →
  match y with S754_infinity _ => False | _ => True end →
  sf_nonneg_le x y.
Proof.
  destruct x as [|[]| |[] m1 e1], y as [|[]| |[] m2 e2]; cbn; try naive_solver.
  intros H1 H2 Hc _ _.
  destruct (Z.compare_spec e1 e2) as [He|He|He]; [|by eapply canonical_lt|naive_solver].
  subst e2. rewrite pos_compare_cont_eq in Hc.
  assert (Zpos m1 ≤ Zpos m2).
  { destruct (Pos.compare_spec m1 m2); [lia|lia|naive_solver]. }
  assert (0 ≤ 2 ^ (e1 + 1074)) by (apply Z.pow_nonneg; lia). nia.
Qed.

(** ** Rounding to nanoseconds is monotone *)

Lemma div_half_even_mono n1 n2 d : 0 < d → n1 ≤ n2 → div_half_even n1 d ≤ div_half_even n2 d.
Proof.
  intros Hd Hle. unfold div_half_even.
  pose proof (Z.div_mod n1 d ltac:(lia)) as E1. pose proof (Z.mod_pos_bound n1 d Hd) as B1.
  pose proof (Z.div_mod n2 d ltac:(lia)) as E2. pose proof (Z.mod_pos_bound n2 d Hd) as B2.
  pose proof (Z.div_le_mono n1 n2 d Hd Hle) as Hq.
  set (q1 := n1 / d) in *. set (q2 := n2 / d) in *.
  set (r1 := n1 mod d) in *. set (r2 := n2 mod d) in *.
  assert (q1 = q2 ∨ q1 + 1 ≤ q2) as [Hq'|Hq'] by lia; repeat case_decide; repeat case_match; try lia;
    try (exfalso; rewrite Hq' in *; nia); congruence.
Qed.

Lemma div_half_even_scale n d k : 0 < d → 0 < k → div_half_even (n * k) (d * k) = div_half_even n d.
Proof.
  intros Hd Hk. unfold div_half_even.
  rewrite Z.div_mul_cancel_r, Z.mul_mod_distr_r by lia.
  repeat case_decide; repeat case_match; try nia; done.
Qed.

Lemma div_half_even_exact q d : 0 < d → div_half_even (q * d) d = q.
Proof.
  intros Hd. unfold div_half_even. rewrite Z.div_mul, Z.mod_mul by lia.
  case_decide; [done|lia].
Qed.

Lemma div_half_even_nonneg n d : 0 < d → 0 ≤ n → 0 ≤ div_half_even n d.
Proof.
  intros Hd Hn. rewrite <- (div_half_even_exact 0 d Hd). apply div_half_even_mono; lia.
Qed.

Lemma round_nanos_scaled m e :
  -1074 ≤ e →
  round_nanos m e = div_half_even (m * 2 ^ (e + 1074) * nanos_per_sec) (2 ^ 1074).
Proof.
  intros He. unfold round_nanos. case_decide as H0.
  - replace (m * 2 ^ (e + 1074) * nanos_per_sec) with (m * 2 ^ e * nanos_per_sec * 2 ^ 1074).
    + symmetry. by apply div_half_even_exact, Z.pow_pos_nonneg.
    + rewrite Z.pow_add_r by lia. ring.
  - rewrite <- (div_half_even_scale _ _ (2 ^ (e + 1074))) by (apply Z.pow_pos_nonneg; lia).
    rewrite <- Z.pow_add_r by lia. f_equal; [ring|f_equal; lia].
Qed.

Lemma from_secs_f64_mono x y dy :
  sf_nonneg_le (Prim2SF x) (Prim2SF y) → from_secs_f64 y = Some dy →
  ∃ dx, from_secs_f64 x = Some dx ∧ 0 ≤ dx ≤ dy.
Proof.
  unfold from_secs_f64. intros Hle Hy.
  pose proof (Prim2SF_valid x) as Vx. pose proof (Prim2SF_valid y) as Vy.
  assert (∀ m e, bounded prec emax m e = true → 0 ≤ round_nanos (Zpos m) e) as Hnn.
  { intros m e (_ & He & _)%canonical_exp. rewrite round_nanos_scaled by done.
    apply div_half_even_nonneg; [done|]. unfold nanos_per_sec.
    assert (0 ≤ 2 ^ (e + 1074)) by (apply Z.pow_nonneg; lia). nia. }
  destruct (Prim2SF x) as [|[]| |[] m1 e1], (Prim2SF y) as [|[]| |[] m2 e2]; cbn in Hle, Vx, Vy;
    try done.
  - exists 0. injection Hy as <-. done.
  - exists 0. split; [done|]. case_decide; [|done]. injection Hy as <-. split; [done|]. by apply Hnn.
  - assert (round_nanos (Zpos m1) e1 ≤ round_nanos (Zpos m2) e2) as Hm.
    { apply canonical_exp in Vx as (_ & ? & _). apply canonical_exp in Vy as (_ & ? & _).
      rewrite !round_nanos_scaled by done. apply div_half_even_mono; [done|].
      unfold nanos_per_sec. lia. }
    case_decide; [|done]. injection Hy as <-. eexists. split; [by rewrite decide_True by lia|].
    split; [by apply Hnn|done].
Qed.

(** ** Integers up to 2^53 are represented exactly *)

Lemma digits2_pos_iter m k :
  Zpos (digits2_pos (Pos.iter xO m k)) = Zpos (digits2_pos m) + Zpos k.
Proof.
  induction k as [|k IH] using Pos.peano_ind; [cbn; lia|].
  rewrite Pos.iter_succ. cbn [digits2_pos]. lia.
Qed.

Lemma pos_iter_xO m k : Zpos (Pos.iter xO m k) = Zpos m * 2 ^ Zpos k.
Proof.
  induction k as [|k IH] using Pos.peano_ind; [cbn; lia|].
  rewrite Pos.iter_succ, Pos2Z.inj_succ, Z.pow_succ_r, Pos2Z.inj_xO by lia. lia.
Qed.

(** A mantissa of the right width is not rounded. *)
Lemma binary_round_aux_exact m e :
  bounded prec emax m e = true →
  binary_round_aux prec emax false (Zpos m) e loc_Exact = S754_finite false m e.
Proof.
  intros [Hc He]%andb_prop. unfold canonical_mantissa in Hc. apply Z.eqb_eq in Hc.
  assert (shr_fexp prec emax (Zpos m) e loc_Exact = (Build_shr_record (Zpos m) false false, e)) as Hs.
  { unfold shr_fexp. cbn [Zdigits2]. rewrite Hc, Z.sub_diag. done. }
  unfold binary_round_aux. rewrite Hs. cbn [shr_m loc_of_shr_record round_nearest_even].
  rewrite Hs. cbn [shr_m]. by rewrite He.
Qed.

Lemma f64_of_Z_exact n :
  0 < n < 2 ^ 53 →
  ∃ m e, Prim2SF (f64_of_Z n) = S754_finite false m e ∧ Zpos m * 2 ^ (e + 1074) = n * 2 ^ 1074 ∧
         bounded prec emax m e = true.
Proof.
  destruct n as [|p|p]; try lia. intros [_ Hp].
  destruct (digits2_pos_bounds p) as [Hlo _].
  assert (Zpos (digits2_pos p) ≤ 53) as Hd.
  { destruct (Z.le_gt_cases (Zpos (digits2_pos p)) 53) as [|Hgt]; [done|].
    assert (2 ^ 53 ≤ 2 ^ (Zpos (digits2_pos p) - 1)) by (apply Z.pow_le_mono_r; lia). lia. }
  unfold f64_of_Z, binary_normalize, binary_round, shl_align.
  assert (fexp prec emax (Zpos (digits2_pos p) + 0) = Zpos (digits2_pos p) - 53) as Hf.
  { unfold fexp, emin, prec, emax. lia. }
  rewrite Hf.
  assert (∀ m e, Zpos m = Zpos p * 2 ^ (53 - Zpos (digits2_pos p)) →
            Zpos (digits2_pos m) = 53 → e = Zpos (digits2_pos p) - 53 →
            bounded prec emax m e = true ∧ Zpos m * 2 ^ (e + 1074) = Zpos p * 2 ^ 1074) as Hmk.
  { intros m e Hm Hdm ->. split.
    - unfold bounded, canonical_mantissa, fexp, emin, prec, emax.
      apply andb_true_intro; split; [apply Z.eqb_eq|apply Z.leb_le]; lia.
    - rewrite Hm, <- Z.mul_assoc, <- Z.pow_add_r by lia. f_equal. f_equal. lia. }
  destruct (Zpos (digits2_pos p) - 53 - 0) as [|k|k] eqn:Ek; [|lia|].
  - destruct (Hmk p 0) as [Hb Hv]; [replace (53 - _) with 0 by lia; lia|lia|lia|].
    exists p, 0. rewrite binary_round_aux_exact, Prim2SF_SF2Prim by done. done.
  - destruct (Hmk (Pos.iter xO p k) (Zpos (digits2_pos p) - 53)) as [Hb Hv].
    + rewrite pos_iter_xO. do 2 f_equal. lia.
    + rewrite digits2_pos_iter. lia.
    + lia.
    + eexists _, _. rewrite binary_round_aux_exact, Prim2SF_SF2Prim by done. done.
Qed.

Lemma as_secs_f64_from_secs s :
  as_secs_f64 (Duration_from_secs s) = (f64_of_Z s + f64_of_Z 0 / f64_of_Z nanos_per_sec)%float.
Proof.
  unfold as_secs_f64, Duration_from_secs.
  rewrite Z.div_mul, Z.mod_mul by done. done.
Qed.

Lemma nanos_zero_quotient : (f64_of_Z 0 / f64_of_Z nanos_per_sec)%float = zero.
Proof. by vm_compute. Qed.

Lemma as_secs_f64_whole s :
  0 ≤ s < 2 ^ 53 →
  Prim2SF (as_secs_f64 (Duration_from_secs s)) = Prim2SF (f64_of_Z s).
Proof.
  intros Hs. rewrite as_secs_f64_from_secs, nanos_zero_quotient, add_spec.
  destruct (decide (s = 0)) as [->|Hne]; [by vm_compute|].
  destruct (f64_of_Z_exact s) as (m & e & -> & _); [lia|].
  by vm_compute (Prim2SF zero).
Qed.

(** Whole seconds survive the round trip through [f64]. *)
Lemma secs_f64_round_trip s :
  0 ≤ s < 2 ^ 53 →
  from_secs_f64 (as_secs_f64 (Duration_from_secs s)) = Some (Duration_from_secs s).
Proof.
  intros Hs. unfold from_secs_f64. rewrite as_secs_f64_whole by done.
  destruct (decide (s = 0)) as [->|Hne]; [by vm_compute|].
  destruct (f64_of_Z_exact s) as (m & e & -> & Hv & (_ & He & _)%canonical_exp); [lia|].
  rewrite round_nanos_scaled by done. rewrite Hv.
  replace (s * 2 ^ 1074 * nanos_per_sec) with (s * nanos_per_sec * 2 ^ 1074) by ring.
  rewrite div_half_even_exact by done.
  rewrite decide_True; [done|]. unfold Duration_max, u64_max, nanos_per_sec. lia.
Qed.

(** ** Clamping and multiplying by one *)

(** [~ (y < x)] for [x] finite and not negative, [y] finite: then [0 <= x <= y]. *)
Lemma SFltb_false_le x y :
  valid_binary x = true → valid_binary y = true → SFltb y x = false →
  match x with S754_finite true _ _ | S754_infinity _ | S754_nan => False | _ => True end →
  match y with S754_infinity _ | S754_nan => False | _ => True end →
  sf_nonneg_le x y.
Proof.
  intros Hx Hy Hlt Hx' Hy'. unfold SFltb in Hlt.
  destruct x as [| | |[] m1 e1], y as [| | |[] m2 e2]; cbn in *; try done.
  destruct (Z.compare_spec e2 e1) as [He|He|He]; [|done|by eapply canonical_lt].
  subst e2. rewrite pos_compare_cont_eq in Hlt.
  assert (Zpos m1 ≤ Zpos m2) by (destruct (Pos.compare_spec m2 m1); [lia|done|lia]).
  assert (0 ≤ 2 ^ (e1 + 1074)) by (apply Z.pow_nonneg; lia). nia.
Qed.

(** A finite value clamped to [0, hi] lies in that interval. *)
Lemma f64_clamp_bounds x hi :
  f64_is_finite x = true → f64_is_finite hi = true → (0 <=? hi)%float = true →
  ∃ r, f64_clamp x 0 hi = Some r ∧ sf_nonneg_le (Prim2SF r) (Prim2SF hi).
Proof.
  intros Hx Hhi H0. unfold f64_clamp. rewrite H0. eexists; split; [done|].
  unfold f64_is_finite in *. rewrite leb_spec in H0.
  change (Prim2SF 0) with (S754_zero false) in H0.
  pose proof (Prim2SF_valid x) as Vx. pose proof (Prim2SF_valid hi) as Vhi.
  assert (sf_nonneg_le (Prim2SF hi) (Prim2SF hi)) as Hrefl.
  { destruct (Prim2SF hi) as [|[]| |[]]; cbn in *; try done; lia. }
  set (x1 := if (x <? 0)%float then _ else _).
  destruct (hi <? x1)%float eqn:E; [done|]. rewrite ltb_spec in E. subst x1.
  destruct (x <? 0)%float eqn:E0.
  - change (Prim2SF 0) with (S754_zero false) in *.
    destruct (Prim2SF hi) as [|[]| |[]]; cbn in *; done.
  - apply SFltb_false_le; try done.
    + rewrite ltb_spec in E0. change (Prim2SF 0) with (S754_zero false) in E0.
      destruct (Prim2SF x) as [|[]| |[]]; done.
    + destruct (Prim2SF hi) as [|[]| |[]]; done.
Qed.

Lemma iter_shr_52 m :
  iter_pos shr_1 52 (Build_shr_record (Zpos (Pos.iter xO m 52)) false false) =
  Build_shr_record (Zpos m) false false.
Proof. reflexivity. Qed.

Lemma SFmul_one_r x :
  valid_binary x = true →
  match x with S754_finite true _ _ | S754_infinity _ | S754_nan => False | _ => True end →
  SF64mul x (Prim2SF 1) = x.
Proof.
  intros Hx Hpos. change (Prim2SF 1) with (S754_finite false 4503599627370496 (-52)).
  destruct x as [[]|[]| |[] m e]; try done. unfold SF64mul, SFmul. cbn [xorb].
  replace (m * 4503599627370496)%positive with (Pos.iter xO m 52).
  2: { apply (inj Zpos). rewrite pos_iter_xO, Pos2Z.inj_mul. done. }
  assert (bounded prec emax m e = true) as Hb by done. cbn in Hx.
  apply andb_prop in Hx as [Hc He]. unfold canonical_mantissa in Hc. apply Z.eqb_eq in Hc.
  assert (∀ mm, Zpos (digits2_pos mm) = Zpos (digits2_pos m) + 52 →
    shr_fexp prec emax (Zpos mm) (e + -52) loc_Exact =
    shr (Build_shr_record (Zpos mm) false false) (e + -52) 52) as Hs.
  { intros mm Hmm. unfold shr_fexp. cbn [Zdigits2 shr_record_of_loc]. rewrite Hmm.
    replace (Zpos (digits2_pos m) + 52 + (e + -52)) with (Zpos (digits2_pos m) + e) by lia.
    rewrite Hc. f_equal. lia. }
  transitivity (binary_round_aux prec emax false (Zpos m) e loc_Exact);
    [|by apply binary_round_aux_exact].
  unfold binary_round_aux at 1. rewrite Hs by (rewrite digits2_pos_iter; lia).
  unfold shr. rewrite iter_shr_52. cbn [shr_m loc_of_shr_record round_nearest_even].
  replace (e + -52 + 52) with e by lia.
  assert (shr_fexp prec emax (Zpos m) e loc_Exact = (Build_shr_record (Zpos m) false false, e)) as Hs'.
  { unfold shr_fexp. cbn [Zdigits2]. rewrite Hc, Z.sub_diag. done. }
  unfold binary_round_aux. rewrite Hs'. cbn [shr_m loc_of_shr_record round_nearest_even].
  rewrite Hs'. done.
Qed.

Definition sf_is_nonneg (x : spec_float) : bool :=
  match x with S754_finite true _ _ | S754_infinity _ | S754_nan => false | _ => true end.

Lemma f64_mul_one_r x : sf_is_nonneg (Prim2SF x) = true → (x * 1)%float = x.
Proof.
  intros H. apply Prim2SF_inj. rewrite mul_spec. apply SFmul_one_r; [apply Prim2SF_valid|].
  by destruct (Prim2SF x) as [| | |[]].
Qed.

Lemma as_secs_f64_whole_nonneg s :
  0 ≤ s < 2 ^ 53 → sf_is_nonneg (Prim2SF (as_secs_f64 (Duration_from_secs s))) = true.
Proof.
  intros Hs. rewrite as_secs_f64_whole by done.
  destruct (decide (s = 0)) as [->|Hne]; [by vm_compute|].
  by destruct (f64_of_Z_exact s) as (m & e & -> & _); [lia|].
Qed.

Lemma sf_nonneg_finite x : sf_is_nonneg (Prim2SF x) = true → f64_is_finite x = true.
Proof. unfold f64_is_finite. by destruct (Prim2SF x) as [| | |[]]. Qed.

Lemma sf_nonneg_ge_0 x : sf_is_nonneg (Prim2SF x) = true → (0 <=? x)%float = true.
Proof.
  rewrite leb_spec. change (Prim2SF 0) with (S754_zero false).
  by destruct (Prim2SF x) as [| | |[]].
Qed.

Lemma sf_nonneg_not_nan x : sf_is_nonneg (Prim2SF x) = true → f64_is_nan x = false.
Proof. unfold f64_is_nan. by destruct (Prim2SF x). Qed.

Lemma f64_ltb_irrefl x : (x <? x)%float = false.
Proof.
  rewrite ltb_spec. unfold SFltb, SFcompare.
  destruct (Prim2SF x) as [|[]| |[] m e]; try done; rewrite Z.compare_refl;
    change (Pos.compare_cont Eq m m) with (m ?= m)%positive; by rewrite Pos.compare_refl.
Qed.

Lemma f64_ltb_asym x y :
  sf_is_nonneg (Prim2SF x) = true → sf_is_nonneg (Prim2SF y) = true →
  (x <? y)%float = true → (y <? x)%float = false.
Proof.
  rewrite !ltb_spec. unfold SFltb. intros Hx Hy Hlt.
  destruct (Prim2SF x) as [| | |[] m1 e1], (Prim2SF y) as [| | |[] m2 e2]; cbn in *; try done.
  rewrite (Z.compare_antisym e1 e2). destruct (e1 ?= e2); cbn; try done.
  rewrite !pos_compare_cont_eq in *. rewrite (Pos.compare_antisym m1 m2).
  by destruct (m1 ?= m2)%positive.
Qed.

Lemma f64_ltb_0 x : sf_is_nonneg (Prim2SF x) = true → (x <? 0)%float = false.
Proof.
  intros H. rewrite ltb_spec. change (Prim2SF 0) with (S754_zero false).
  by destruct (Prim2SF x) as [| | |[]].
Qed.

Lemma from_secs_f64_le x y dx dy :
  sf_is_nonneg (Prim2SF x) = true → sf_is_nonneg (Prim2SF y) = true → (y <? x)%float = false →
  from_secs_f64 x = Some dx → from_secs_f64 y = Some dy → dx ≤ dy.
Proof.
  intros Hx Hy Hlt Hdx Hdy. rewrite ltb_spec in Hlt.
  apply SFltb_false_le in Hlt; [|apply Prim2SF_valid..| |].
  - destruct (from_secs_f64_mono _ _ _ Hlt Hdy) as (d & Hd & ?). simplify_eq. lia.
  - by destruct (Prim2SF x) as [| | |[]].
  - by destruct (Prim2SF y) as [| | |[]].
Qed.

Lemma f64_min_nonneg x y :
  sf_is_nonneg (Prim2SF x) = true → sf_is_nonneg (Prim2SF y) = true →
  sf_is_nonneg (Prim2SF (f64_min x y)) = true ∧ (y <? f64_min x y)%float = false.
Proof.
  intros Hx Hy. unfold f64_min. rewrite !sf_nonneg_not_nan by done.
  destruct (y <? x)%float eqn:E; auto using f64_ltb_irrefl.
Qed.

(** Rounding to a duration commutes with the minimum. *)
Lemma from_secs_f64_min x y dx dy :
  sf_is_nonneg (Prim2SF x) = true → sf_is_nonneg (Prim2SF y) = true →
  from_secs_f64 x = Some dx → from_secs_f64 y = Some dy →
  from_secs_f64 (f64_min x y) = Some (Z.min dx dy).
Proof.
  intros Hx Hy Hdx Hdy. unfold f64_min. rewrite !sf_nonneg_not_nan by done.
  destruct (y <? x)%float eqn:E.
  - rewrite Hdy. f_equal. symmetry. apply Z.min_r.
    apply (from_secs_f64_le y x); try done. by apply f64_ltb_asym.
  - rewrite Hdx. f_equal. symmetry. apply Z.min_l. by apply (from_secs_f64_le x y).
Qed.
