(* ===== verification/Types.v ===== *)
(** * Data types of the core crate

    [crates/hookbox/src/{state,types,error}.rs]: one module per Rust type, with the
    constructors and fields of the source.  Identifiers are 128-bit UUIDs ([N]); instants are
    nanoseconds since the epoch ([Z], the resolution of [chrono::DateTime]); what a [TIMESTAMPTZ]
    column keeps of one is [timestamptz] of [Traits.v]. *)

From S2P Require Import Prelude RustStd F64.
Local Open Scope Z_scope.

(** ** External data the sources only pass around *)

Definition Uuid : Type := N.
Definition DateTime : Type := Z.

(** [serde_json::Value]; a number is kept as its text. *)
Inductive Value : Type :=
| VNull
| VBool (b : bool)
| VNumber (repr : string)
| VString (s : string)
| VArray (l : list Value)
| VObject (m : list (string * Value)).

(** [serde_json::Map::insert]: an existing key keeps one entry, with the new value. *)
Fixpoint map_insert (k : string) (v : Value) (m : list (string * Value)) :
    list (string * Value) :=
  match m with
  | [] => [(k, v)]
  | (k', v') :: m' => if decide (k = k') then (k, v) :: m' else (k', v') :: map_insert k v m'
  end.

(** A header value, seen through the one method the sources call on it: [to_str()] is the
    text when every byte is visible ASCII and an error otherwise. *)
Record HeaderValue : Type := mkHeaderValue { to_str : option string }.

(** An [http::HeaderMap], seen through [keys()] and [get_all(name)] (the values of a header in
    order of arrival; names are case-insensitive). *)
Record HeaderMap : Type := mkHeaderMap {
  keys : list string;
  get_all : string → list HeaderValue
}.

(** [headers.get(name)]: the first value. *)
Definition header_get (name : string) (h : HeaderMap) : option HeaderValue :=
  head (get_all h name).

(** ** state.rs *)

Module ReceiptId.
Record t : Type := mk { uuid : Uuid }.
#[global] Instance eq_dec : EqDecision t.
Proof. solve_decision. Defined.

(** [drawn] is what [Uuid::new_v4()] answers. *)
Definition new (drawn : Uuid) : t := mk drawn.
Definition default (drawn : Uuid) : t := new drawn.
End ReceiptId.

Module DeliveryId.
Record t : Type := mk { uuid : Uuid }.
#[global] Instance eq_dec : EqDecision t.
Proof. solve_decision. Defined.

(** [drawn] is what [Uuid::new_v4()] answers. *)
Definition new (drawn : Uuid) : t := mk drawn.
Definition default (drawn : Uuid) : t := new drawn.
End DeliveryId.

Module ProcessingState.
Inductive t : Type :=
| Received
| Verified
| VerificationFailed
| Duplicate
| Stored
| Emitted
| Processed
| EmitFailed
| DeadLettered
| Replayed.
#[global] Instance eq_dec : EqDecision t.
Proof. solve_decision. Defined.

(** The variant names [#[serde(rename_all = "snake_case")]] gives. *)
Definition serde_name (s : t) : string :=
  match s with
  | Received => "received"
  | Verified => "verified"
  | VerificationFailed => "verification_failed"
  | Duplicate => "duplicate"
  | Stored => "stored"
  | Emitted => "emitted"
  | Processed => "processed"
  | EmitFailed => "emit_failed"
  | DeadLettered => "dead_lettered"
  | Replayed => "replayed"
  end.

Definition all : list t :=
  [Received; Verified; VerificationFailed; Duplicate; Stored; Emitted; Processed; EmitFailed;
   DeadLettered; Replayed].
End ProcessingState.

Module VerificationStatus.
Inductive t : Type :=
| Verified
| Failed
| Skipped.
#[global] Instance eq_dec : EqDecision t.
Proof. solve_decision. Defined.

Definition serde_name (s : t) : string :=
  match s with Verified => "verified" | Failed => "failed" | Skipped => "skipped" end.

Definition all : list t := [Verified; Failed; Skipped].
End VerificationStatus.

Module VerificationResult.
Record t : Type := mk { status : VerificationStatus.t; reason : option string }.
End VerificationResult.

Module DedupeDecision.
Inductive t : Type :=
| New
| Duplicate
| Conflict.
#[global] Instance eq_dec : EqDecision t.
Proof. solve_decision. Defined.
End DedupeDecision.

Module StoreResult.
Inductive t : Type :=
| Stored
| Duplicate (existing_id : ReceiptId.t).
#[global] Instance eq_dec : EqDecision t.
Proof. solve_decision. Defined.
End StoreResult.

Module IngestResult.
Inductive t : Type :=
| Accepted (receipt_id : ReceiptId.t)
| Duplicate (existing_id : ReceiptId.t)
| VerificationFailed (reason : string).
End IngestResult.

Module DeliveryState.
Inductive t : Type :=
| Pending
| InFlight
| Emitted
| Failed
| DeadLettered.
#[global] Instance eq_dec : EqDecision t.
Proof. solve_decision. Defined.

Definition serde_name (s : t) : string :=
  match s with
  | Pending => "pending"
  | InFlight => "in_flight"
  | Emitted => "emitted"
  | Failed => "failed"
  | DeadLettered => "dead_lettered"
  end.

(** [impl fmt::Display] *)
Definition fmt (s : t) : string :=
  match s with
  | Pending => "pending"
  | InFlight => "in_flight"
  | Emitted => "emitted"
  | Failed => "failed"
  | DeadLettered => "dead_lettered"
  end.

Definition all : list t := [Pending; InFlight; Emitted; Failed; DeadLettered].
End DeliveryState.

Module WebhookDelivery.
Record t : Type := mk {
  delivery_id : DeliveryId.t;
  receipt_id : ReceiptId.t;
  emitter_name : string;
  state : DeliveryState.t;
  attempt_count : Z;
  last_error : option string;
  last_attempt_at : option DateTime;
  next_attempt_at : DateTime;
  emitted_at : option DateTime;
  immutable : bool;
  created_at : DateTime
}.
End WebhookDelivery.

Module RetryPolicy.
Record t : Type := mk {
  max_attempts : Z;
  initial_backoff : Duration;
  max_backoff : Duration;
  backoff_multiplier : f64;
  jitter : f64
}.

(** [impl Default for RetryPolicy] *)
Definition default : t :=
  {| max_attempts := 5;
     initial_backoff := Duration_from_secs 30;
     max_backoff := Duration_from_secs 3600;
     backoff_multiplier := 2.0%float;
     jitter := 0.2%float |}.
End RetryPolicy.

(** ** types.rs *)

Module DedupeKey.
Record t : Type := mk { text : string }.
Definition fmt (k : t) : string := text k.
End DedupeKey.

Module PayloadHash.
Record t : Type := mk { text : string }.
Definition fmt (h : t) : string := text h.
End PayloadHash.

Module WebhookReceipt.
Record t : Type := mk {
  receipt_id : ReceiptId.t;
  provider_name : string;
  provider_event_id : option string;
  external_reference : option string;
  dedupe_key : string;
  payload_hash : string;
  raw_body : bytes;
  parsed_payload : option Value;
  raw_headers : Value;
  normalized_event_type : option string;
  verification_status : VerificationStatus.t;
  verification_reason : option string;
  processing_state : ProcessingState.t;
  emit_count : Z;
  last_error : option string;
  received_at : DateTime;
  processed_at : option DateTime;
  metadata : Value
}.
End WebhookReceipt.

Module NormalizedEvent.
Record t : Type := mk {
  receipt_id : ReceiptId.t;
  provider_name : string;
  event_type : option string;
  external_reference : option string;
  parsed_payload : option Value;
  payload_hash : string;
  received_at : DateTime;
  metadata : Value
}.

Definition from_receipt (receipt : WebhookReceipt.t) : t :=
  {| receipt_id := WebhookReceipt.receipt_id receipt;
     provider_name := WebhookReceipt.provider_name receipt;
     event_type := WebhookReceipt.normalized_event_type receipt;
     external_reference := WebhookReceipt.external_reference receipt;
     parsed_payload := WebhookReceipt.parsed_payload receipt;
     payload_hash := WebhookReceipt.payload_hash receipt;
     received_at := WebhookReceipt.received_at receipt;
     metadata := WebhookReceipt.metadata receipt |}.
End NormalizedEvent.

Module ReceiptFilter.
Record t : Type := mk {
  provider_name : option string;
  processing_state : option ProcessingState.t;
  external_reference : option string;
  provider_event_id : option string;
  limit : option Z;
  offset : option Z
}.

Definition default : t := mk None None None None None None.
End ReceiptFilter.

(** ** error.rs *)

Module StorageError.
Inductive t : Type :=
| Internal (e : string)
| Serialization (e : string)
| FanOutNotImplemented.

(** [#[error(...)]]: the [Display] text. *)
Definition to_string (e : t) : string :=
  match e with
  | Internal m => "storage error: " +:+ m
  | Serialization m => "serialization error: " +:+ m
  | FanOutNotImplemented =>
      "fan-out not implemented by this Storage backend; override store_with_deliveries to transactionally insert delivery rows"
  end.
End StorageError.

Module DedupeError.
Inductive t : Type := Internal (e : string).
Definition to_string (e : t) : string := match e with Internal m => "dedupe error: " +:+ m end.
End DedupeError.

Module EmitError.
Inductive t : Type :=
| Downstream (e : string)
| Timeout (e : string).
Definition to_string (e : t) : string :=
  match e with
  | Downstream m => "emit error: " +:+ m
  | Timeout m => "emit timeout: " +:+ m
  end.
End EmitError.

Module VerificationError.
Inductive t : Type := Internal (e : string).
Definition to_string (e : t) : string :=
  match e with Internal m => "verification error: " +:+ m end.
End VerificationError.

Module IngestError.
Inductive t : Type :=
| Storage (e : StorageError.t)
| Dedupe (e : DedupeError.t)
| Emit (e : EmitError.t)
| Verification (e : VerificationError.t).
Definition to_string (e : t) : string :=
  match e with
  | Storage x => "storage failure: " +:+ StorageError.to_string x
  | Dedupe x => "dedupe failure: " +:+ DedupeError.to_string x
  | Emit x => "emit failure: " +:+ EmitError.to_string x
  | Verification x => "verification failure: " +:+ VerificationError.to_string x
  end.
End IngestError.
