(* ===== verification/Traits.v ===== *)
(** * The extension-point traits and the external libraries

    [crates/hookbox/src/traits.rs] and the [DeliveryStorage] trait of
    [crates/hookbox-postgres/src/storage.rs] as records of operations over an arbitrary world
    [W]; what each implementation promises to its clients as type classes; the third-party
    crates the sources rely on as type classes of functions with their documented laws. *)

From S2P Require Import Prelude RustStd F64 Types.
Local Open Scope Z_scope.

(** ** Traits *)

Record Storage (W : Type) : Type := mkStorage {
  store : WebhookReceipt.t → M W (result StoreResult.t StorageError.t);
  get : Uuid → M W (result (option WebhookReceipt.t) StorageError.t);
  update_state : Uuid → ProcessingState.t → option string → M W (result unit StorageError.t);
  query : ReceiptFilter.t → M W (result (list WebhookReceipt.t) StorageError.t);
  store_with_deliveries :
    WebhookReceipt.t → list string → M W (result StoreResult.t StorageError.t)
}.
Arguments store {W}. Arguments get {W}. Arguments update_state {W}. Arguments query {W}.
Arguments store_with_deliveries {W}.

(** The provided method of the trait, for a backend that only supplies [store]. *)
Definition default_store_with_deliveries {W}
    (store : WebhookReceipt.t → M W (result StoreResult.t StorageError.t))
    (receipt : WebhookReceipt.t) (emitter_names : list string) :
    M W (result StoreResult.t StorageError.t) :=
  if negb (bool_decide (emitter_names = [])) then ret (Err StorageError.FanOutNotImplemented)
  else store receipt.

Record DedupeStrategy (W : Type) : Type := mkDedupe {
  check : string → string → M W (result DedupeDecision.t DedupeError.t);
  record : string → string → M W (result unit DedupeError.t)
}.
Arguments check {W}. Arguments record {W}.

(** [verify] takes the clock it reads, [chrono::Utc::now().timestamp()]. *)
Record SignatureVerifier : Type := mkVerifier {
  provider_name : string;
  verify : Z → HeaderMap → bytes → VerificationResult.t
}.

Record Emitter (W : Type) : Type := mkEmitter {
  emit : NormalizedEvent.t → M W (result unit EmitError.t)
}.
Arguments emit {W}.

Record DeliveryStorage (W E : Type) : Type := mkDeliveryStorage {
  claim_pending : string → Z → M W (result (list (WebhookDelivery.t * WebhookReceipt.t)) E);
  reclaim_expired : string → Duration → M W (result Z E);
  mark_emitted : DeliveryId.t → M W (result unit E);
  mark_failed : DeliveryId.t → Z → DateTime → string → M W (result unit E);
  mark_dead_lettered : DeliveryId.t → string → M W (result unit E);
  count_dlq : string → M W (result Z E);
  count_pending : string → M W (result Z E);
  count_in_flight : string → M W (result Z E);
  insert_replay : ReceiptId.t → string → M W (result DeliveryId.t E);
  insert_replays : ReceiptId.t → list string → M W (result (list DeliveryId.t) E);
  get_delivery :
    DeliveryId.t → M W (result (option (WebhookDelivery.t * WebhookReceipt.t)) E);
  get_deliveries_for_receipt : ReceiptId.t → M W (result (list WebhookDelivery.t) E);
  list_dlq :
    option string → Z → Z → M W (result (list (WebhookDelivery.t * WebhookReceipt.t)) E)
}.
Arguments claim_pending {W E}. Arguments reclaim_expired {W E}. Arguments mark_emitted {W E}.
Arguments mark_failed {W E}. Arguments mark_dead_lettered {W E}. Arguments count_dlq {W E}.
Arguments count_pending {W E}. Arguments count_in_flight {W E}. Arguments insert_replay {W E}.
Arguments insert_replays {W E}. Arguments get_delivery {W E}.
Arguments get_deliveries_for_receipt {W E}. Arguments list_dlq {W E}.

(** The provided [insert_replays]: sequential, not atomic. *)
Definition default_insert_replays {W E}
    (insert_replay : ReceiptId.t → string → M W (result DeliveryId.t E))
    (receipt_id : ReceiptId.t) (emitter_names : list string) :
    M W (result (list DeliveryId.t) E) :=
  map_try (insert_replay receipt_id) emitter_names.

(** [impl DeliveryStorage for Arc<T>]: every method is the one of the storage behind the pointer. *)
Definition arc_delivery_storage {W E} (inner : DeliveryStorage W E) : DeliveryStorage W E :=
  {| claim_pending := λ emitter_name batch_size, claim_pending inner emitter_name batch_size;
     reclaim_expired := λ emitter_name lease_duration, reclaim_expired inner emitter_name lease_duration;
     mark_emitted := λ delivery_id, mark_emitted inner delivery_id;
     mark_failed := λ delivery_id attempt_count next_attempt_at last_error,
       mark_failed inner delivery_id attempt_count next_attempt_at last_error;
     mark_dead_lettered := λ delivery_id last_error, mark_dead_lettered inner delivery_id last_error;
     count_dlq := λ emitter_name, count_dlq inner emitter_name;
     count_pending := λ emitter_name, count_pending inner emitter_name;
     count_in_flight := λ emitter_name, count_in_flight inner emitter_name;
     insert_replay := λ receipt_id emitter_name, insert_replay inner receipt_id emitter_name;
     insert_replays := λ receipt_id emitter_names, insert_replays inner receipt_id emitter_names;
     get_delivery := λ delivery_id, get_delivery inner delivery_id;
     get_deliveries_for_receipt := λ receipt_id, get_deliveries_for_receipt inner receipt_id;
     list_dlq := λ emitter_name limit offset, list_dlq inner emitter_name limit offset |}.

(** ** What implementations promise

    The storage contract, over three observations of the world: the receipt id stored under a
    dedupe key, the receipts stored verbatim, and the delivery rows ever queued, as
    (receipt, emitter) pairs. *)
Definition accepted_transition {W} (key_owner : W → string → option ReceiptId.t)
    (persisted : W → WebhookReceipt.t → Prop) (queued : W → list (ReceiptId.t * string))
    (r : WebhookReceipt.t) (names : list string) (w w' : W) : Prop :=
  let k := WebhookReceipt.dedupe_key r in
  let id := WebhookReceipt.receipt_id r in
  key_owner w k = None ∧
  (∀ k', key_owner w' k' = if decide (k' = k) then Some id else key_owner w k') ∧
  persisted w' r ∧ (∀ r', persisted w r' → persisted w' r') ∧
  queued w' = queued w ++ map (λ n, (id, n)) names.

Definition same_inbox {W} (key_owner : W → string → option ReceiptId.t)
    (persisted : W → WebhookReceipt.t → Prop) (queued : W → list (ReceiptId.t * string))
    (w w' : W) : Prop :=
  (∀ k, key_owner w' k = key_owner w k) ∧
  (∀ r, persisted w' r ↔ persisted w r) ∧ queued w' = queued w.

(** [store_with_deliveries] is atomic and decides duplicates by key; an error means that
    nothing happened, or that everything did and only the reply was lost. *)
Class StorageContract {W} (S : Storage W) : Type := {
  key_owner : W → string → option ReceiptId.t;
  persisted : W → WebhookReceipt.t → Prop;
  queued : W → list (ReceiptId.t * string);
  store_with_deliveries_spec : ∀ r names w,
    match store_with_deliveries S r names w with
    | (Ok StoreResult.Stored, w') => accepted_transition key_owner persisted queued r names w w'
    | (Ok (StoreResult.Duplicate id), w') =>
        key_owner w (WebhookReceipt.dedupe_key r) = Some id ∧
        same_inbox key_owner persisted queued w w'
    | (Err _, w') =>
        same_inbox key_owner persisted queued w w' ∨
        accepted_transition key_owner persisted queued r names w w'
    end
}.

(** The dedupe layer is advisory: it never changes what the storage holds. *)
Class AdvisoryDedupe {W} (S : Storage W) `{!StorageContract S} (D : DedupeStrategy W) : Prop := {
  check_frame : ∀ k h w, same_inbox key_owner persisted queued w (check D k h w).2;
  record_frame : ∀ k h w, same_inbox key_owner persisted queued w (record D k h w).2
}.

Section same_inbox_props.
Context {W : Type} (ko : W → string → option ReceiptId.t)
  (ps : W → WebhookReceipt.t → Prop) (qd : W → list (ReceiptId.t * string)).

#[export] Instance same_inbox_equivalence : Equivalence (same_inbox ko ps qd).
Proof.
  split.
  - intros w. split_and!; done.
  - intros w w' (H1 & H2 & H3). split_and!; [by intros k|by intros r; rewrite H2|done].
  - intros w w' w'' (H1 & H2 & H3) (K1 & K2 & K3).
    split_and!; [by intros k; rewrite K1|by intros r; rewrite K2|congruence].
Qed.

(** An accepted transition is insensitive to steps that leave the inbox alone. *)
#[export] Instance accepted_transition_proper r names :
  Proper (same_inbox ko ps qd ==> same_inbox ko ps qd ==> iff)
    (accepted_transition ko ps qd r names).
Proof.
  assert (∀ w1 w2 v1 v2, same_inbox ko ps qd w1 w2 → same_inbox ko ps qd v1 v2 →
    accepted_transition ko ps qd r names w1 v1 → accepted_transition ko ps qd r names w2 v2) as H.
  { intros w1 w2 v1 v2 (A1 & A2 & A3) (B1 & B2 & B3) (H1 & H2 & H3 & H4 & H5).
    split_and!.
    - by rewrite A1.
    - intros k'. rewrite B1, H2. by destruct (decide _); rewrite ?A1.
    - by apply B2.
    - intros r' Hr'. by apply B2, H4, A2.
    - by rewrite B3, A3. }
  intros w1 w2 Hw v1 v2 Hv. split; apply H; by try symmetry.
Qed.
End same_inbox_props.

(** ** Third-party crates

    [serde_json]: parsing a body, and the JSON text of a string.  A string without a quote, a
    backslash or a control character is written between quotes as it is, and read back. *)
Definition is_plain_char (a : ascii) : bool :=
  let n := Z.of_nat (nat_of_ascii a) in
  (32 <=? n) && (n <? 127) && negb (n =? 34) && negb (n =? 92).

Definition quote : string := String "034" EmptyString.

Class SerdeJson : Type := {
  json_from_slice : bytes → option Value;
  json_of_str : string → string;
  json_to_str : string → option string;
  json_error : string → string;
  json_of_plain : ∀ s, chars_all is_plain_char s = true → json_of_str s = quote +:+ s +:+ quote;
  json_to_plain : ∀ s, chars_all is_plain_char s = true →
    json_to_str (quote +:+ s +:+ quote) = Some s
}.

(** [hex], [base64] (the [STANDARD] engine), [sha2] and [hmac]: the codecs invert, hex output
    is lower-case hexadecimal, and an HMAC key may have any length. *)
Definition is_hex_char (a : ascii) : bool :=
  let n := Z.of_nat (nat_of_ascii a) in
  ((48 <=? n) && (n <=? 57)) || ((97 <=? n) && (n <=? 102)).

(** The alphabet of standard base64. *)
Definition is_base64_char (a : ascii) : bool :=
  is_ascii_alphanumeric a || Ascii.eqb a "+" || Ascii.eqb a "/" || Ascii.eqb a "=".

Class Codecs : Type := {
  hex_encode : bytes → string;
  hex_decode : string → option bytes;
  base64_encode : bytes → string;
  base64_decode : string → option bytes;
  hex_decode_encode : ∀ b, hex_decode (hex_encode b) = Some b;
  hex_encode_chars : ∀ b, chars_all is_hex_char (hex_encode b) = true;
  hex_encode_length : ∀ b, String.length (hex_encode b) = (2 * List.length b)%nat;
  base64_decode_encode : ∀ b, base64_decode (base64_encode b) = Some b;
  base64_encode_chars : ∀ b, chars_all is_base64_char (base64_encode b) = true
}.

(** *** The column types of PostgreSQL, behind [sqlx] *)

(** A text without the character NUL, which no text of PostgreSQL holds. *)
Definition no_nul (s : string) : bool := chars_all (λ a, negb (Ascii.eqb a "000")) s.

(** No string and no key of the value has one. *)
Fixpoint json_no_nul (v : Value) : bool :=
  match v with
  | VString s => no_nul s
  | VArray l => forallb json_no_nul l
  | VObject m => forallb (λ e, no_nul e.1 && json_no_nul e.2) m
  | VNull | VBool _ | VNumber _ => true
  end.

(** A number of at most fifteen digits and nothing else. *)
Definition plain_number (s : string) : bool :=
  chars_all (λ a, match digit_val a with Some _ => true | None => false end) s && (String.length s <=? 15)%nat &&
  match s with
  | EmptyString => false
  | String a s' => negb (Ascii.eqb a "0") || bool_decide (s' = EmptyString)
  end.

(** A value that [JSONB] keeps as it is, numbers of any other form aside. *)
Fixpoint json_exact (v : Value) : bool :=
  match v with
  | VString s => no_nul s
  | VNumber n => plain_number n
  | VArray l => forallb json_exact l
  | VObject m => bool_decide (NoDup (map fst m)) && forallb (λ e, no_nul e.1 && json_exact e.2) m
  | VNull | VBool _ => true
  end.

(** [make_interval(secs => x)] is exact on whole seconds.  [sqlx] sends an instant in whole
    microseconds, dropping what is below.  [JSONB] refuses the NUL character and may rewrite
    numbers: [jsonb v] is what is read back of [v], if it is accepted; its limits of size and depth
    are far above those of a request body and of [serde_json].  A B-tree refuses an entry
    that does not fit a third of a page (2704 bytes): [index_fits] of the texts of an entry. *)
Class PgTypes : Type := {
  make_interval : f64 → Duration;
  timestamptz : DateTime → DateTime;
  jsonb : Value → option Value;
  index_fits : list string → bool;
  make_interval_whole : ∀ s, 0 ≤ s < 2 ^ 53 →
    make_interval (as_secs_f64 (Duration_from_secs s)) = Duration_from_secs s;
  timestamptz_micros : ∀ t, timestamptz t `mod` 1000 = 0;
  timestamptz_near : ∀ t, Z.abs (timestamptz t - t) < 1000;
  timestamptz_whole : ∀ t, t `mod` 1000 = 0 → timestamptz t = t;
  timestamptz_mono : ∀ t u, t ≤ u → timestamptz t ≤ timestamptz u;
  jsonb_nul : ∀ v, json_no_nul v = false → jsonb v = None;
  jsonb_exact : ∀ v, json_exact v = true → jsonb v = Some v;
  jsonb_stable : ∀ v v', jsonb v = Some v' → jsonb v' = Some v';
  index_fits_short : ∀ l, (foldr (λ s n, String.length s + n) 0 l ≤ 2000)%nat → index_fits l = true
}.

Class Crypto : Type := {
  sha256 : bytes → bytes;
  sha256_length : ∀ b, List.length (sha256 b) = 32%nat;
  hmac_sha256 : bytes → bytes → bytes
}.

(** [uuid]: the hyphenated text of an identifier, and parsing it. *)
Class UuidText : Type := {
  uuid_to_string : Uuid → string;
  uuid_from_str : string → option Uuid;
  uuid_round_trip : ∀ u, uuid_from_str (uuid_to_string u) = Some u
}.

(** [impl Display for ReceiptId] and [for DeliveryId]. *)
Definition receipt_id_fmt `{UuidText} (id : ReceiptId.t) : string := uuid_to_string (ReceiptId.uuid id).
Definition delivery_id_fmt `{UuidText} (id : DeliveryId.t) : string := uuid_to_string (DeliveryId.uuid id).
