(* ===== verification/Instances.v ===== *)
(** * Concrete third-party functions

    One instance per class of external functions of [Traits.v], showing that the documented
    laws can hold together.  The witnesses of the development evaluate with them; no theorem
    depends on them. *)

From S2P Require Import Prelude RustStd F64 Types Traits.
Local Open Scope Z_scope.

(** ** JSON text of plain strings *)

Definition plain_json_of_str (s : string) : string := quote +:+ s +:+ quote.

(** The part before the closing quote, when the text ends there. *)
Fixpoint before_quote (s : string) : option string :=
  match s with
  | EmptyString => None
  | String a s' =>
      if Ascii.eqb a "034"%char
      then match s' with EmptyString => Some EmptyString | _ => None end
      else String a <$> before_quote s'
  end.
Definition plain_json_to_str (s : string) : option string :=
  strip_prefix quote s ≫= before_quote.

Lemma before_quote_plain s :
  chars_all is_plain_char s = true → before_quote (s +:+ quote) = Some s.
Proof.
  induction s as [|a s IH]; [done|]. cbn. intros [Ha Hs]%andb_prop. rewrite str_app_cons. cbn.
  destruct (Ascii.eqb_spec a "034"%char) as [->|_]; [done|]. by rewrite IH.
Qed.

#[export] Instance plain_json : SerdeJson.
Proof.
  refine {| json_from_slice := λ _, None; json_of_str := plain_json_of_str;
            json_to_str := plain_json_to_str; json_error := λ s, s |}; [done|].
  intros s Hs. unfold plain_json_to_str. rewrite strip_prefix_app. by apply before_quote_plain.
Defined.

(** ** Columns that round instants down and keep every JSON number as it is *)
Definition value_ind' (P : Value → Prop) (Hn : P VNull) (Hb : ∀ b, P (VBool b)) (Hnum : ∀ s, P (VNumber s))
    (Hs : ∀ s, P (VString s)) (Ha : ∀ l, Forall P l → P (VArray l))
    (Ho : ∀ m, Forall (λ e, P e.2) m → P (VObject m)) : ∀ v, P v :=
  fix go v :=
    match v with
    | VNull => Hn | VBool b => Hb b | VNumber s => Hnum s | VString s => Hs s
    | VArray l => Ha l ((fix all l : Forall P l :=
        match l with [] => Forall_nil_2 _ | v :: l => Forall_cons_2 _ _ _ (go v) (all l) end) l)
    | VObject m => Ho m ((fix all m : Forall (λ e, P e.2) m :=
        match m with [] => Forall_nil_2 _ | e :: m => Forall_cons_2 _ _ _ (go e.2) (all m) end) m)
    end.

Lemma json_exact_no_nul v : json_exact v = true → json_no_nul v = true.
Proof.
  induction v as [| | |s|l IH|m IH] using value_ind'; try done; cbn.
  - intros Hl. rewrite forallb_forall in Hl |- *. intros v Hv. rewrite Forall_forall in IH.
    apply IH; [by apply list_elem_of_In|by apply Hl].
  - intros [_ Hm]%andb_prop. rewrite forallb_forall in Hm |- *. intros e He. rewrite Forall_forall in IH.
    specialize (Hm e He). apply andb_prop in Hm as [-> Hv]. apply IH; [by apply list_elem_of_In|done].
Qed.

#[export] Instance micro_columns : PgTypes.
Proof.
  refine {| make_interval := λ x, unwrap_or (from_secs_f64 x) 0;
            timestamptz := λ t, t / 1000 * 1000;
            jsonb := λ v, if json_no_nul v then Some v else None;
            index_fits := λ l, (foldr (λ s n, String.length s + n) 0 l <=? 2000)%nat |}.
  - intros s Hs. by rewrite secs_f64_round_trip.
  - intros t. by apply Z.mod_mul.
  - intros t. pose proof (Z.div_mod t 1000 ltac:(done)). pose proof (Z.mod_pos_bound t 1000 ltac:(done)). lia.
  - intros t Ht. pose proof (Z.div_mod t 1000 ltac:(done)). lia.
  - intros t u Htu. pose proof (Z.div_le_mono t u 1000 ltac:(done) Htu). lia.
  - by intros v ->.
  - by intros v ->%json_exact_no_nul.
  - intros v v'. destruct (json_no_nul v) eqn:E; [|done]. intros [= <-]. by rewrite E.
  - intros l Hl. apply Nat.leb_le. lia.
Defined.

(** ** Hexadecimal *)

Definition hex_digit (n : N) : ascii :=
  if (n <? 10)%N then ascii_of_N (48 + n) else ascii_of_N (87 + n).
Definition hex_value (a : ascii) : option N :=
  let n := N_of_ascii a in
  if ((48 <=? n) && (n <=? 57))%N then Some (n - 48)%N
  else if ((97 <=? n) && (n <=? 102))%N then Some (n - 87)%N
  else if ((65 <=? n) && (n <=? 70))%N then Some (n - 55)%N
  else None.
Fixpoint lower_hex (b : bytes) : string :=
  match b with
  | [] => EmptyString
  | x :: b' => String (hex_digit (Byte.to_N x / 16)) (String (hex_digit (Byte.to_N x mod 16)) (lower_hex b'))
  end.
Fixpoint from_hex (s : string) : option bytes :=
  match s with
  | EmptyString => Some []
  | String a (String c s') =>
      h ← hex_value a; l ← hex_value c; x ← Byte.of_N (16 * h + l); rest ← from_hex s';
      Some (x :: rest)
  | String _ EmptyString => None
  end.

Lemma hex_byte (x : byte) :
  hex_value (hex_digit (Byte.to_N x / 16)) = Some (Byte.to_N x / 16)%N ∧
  hex_value (hex_digit (Byte.to_N x mod 16)) = Some (Byte.to_N x mod 16)%N ∧
  Byte.of_N (16 * (Byte.to_N x / 16) + Byte.to_N x mod 16) = Some x ∧
  is_hex_char (hex_digit (Byte.to_N x / 16)) = true ∧
  is_hex_char (hex_digit (Byte.to_N x mod 16)) = true.
Proof. destruct x; vm_compute; by repeat split. Qed.

Lemma from_lower_hex b : from_hex (lower_hex b) = Some b.
Proof.
  induction b as [|x b IH]; [done|]. cbn [lower_hex from_hex].
  destruct (hex_byte x) as (-> & -> & H & _). cbn [mbind option_bind].
  rewrite H. cbn [mbind option_bind]. by rewrite IH.
Qed.

Lemma lower_hex_chars b : chars_all is_hex_char (lower_hex b) = true.
Proof.
  induction b as [|x b IH]; [done|]. destruct (hex_byte x) as (_ & _ & _ & H1 & H2).
  cbn [lower_hex chars_all]. by rewrite H1, H2, IH.
Qed.

Lemma lower_hex_base64 b : chars_all is_base64_char (lower_hex b) = true.
Proof.
  assert (∀ x : byte, is_base64_char (hex_digit (Byte.to_N x / 16)) = true ∧
    is_base64_char (hex_digit (Byte.to_N x mod 16)) = true) as H by (intros []; by vm_compute).
  induction b as [|x b IH]; [done|]. destruct (H x) as [H1 H2].
  cbn [lower_hex chars_all]. by rewrite H1, H2, IH.
Qed.

Lemma lower_hex_length b : String.length (lower_hex b) = (2 * List.length b)%nat.
Proof. induction b as [|x b IH]; cbn [lower_hex String.length List.length]; lia. Qed.

(** The hexadecimal text stands in for base64: only the inversion law matters. *)
#[export] Instance hex_codecs : Codecs :=
  {| hex_encode := lower_hex; hex_decode := from_hex;
     base64_encode := lower_hex; base64_decode := from_hex;
     hex_decode_encode := from_lower_hex; hex_encode_chars := lower_hex_chars;
     hex_encode_length := lower_hex_length; base64_decode_encode := from_lower_hex;
     base64_encode_chars := lower_hex_base64 |}.

(** ** Digests: the first 32 bytes, padded *)
Definition toy_digest (b : bytes) : bytes := take 32 (b ++ replicate 32 Byte.x00).

Lemma toy_digest_length b : List.length (toy_digest b) = 32%nat.
Proof. unfold toy_digest. rewrite length_take, length_app, length_replicate. lia. Qed.

#[export] Instance toy_crypto : Crypto :=
  {| sha256 := toy_digest; sha256_length := toy_digest_length;
     hmac_sha256 := λ key msg, toy_digest (key ++ msg) |}.

(** ** Identifiers in unary *)
Fixpoint unary (n : nat) : string :=
  match n with O => EmptyString | S n' => String "1" (unary n') end.

#[export] Instance unary_uuid : UuidText.
Proof.
  refine {| uuid_to_string := λ u, unary (N.to_nat u);
            uuid_from_str := λ s, if chars_all (Ascii.eqb "1") s
                                  then Some (N.of_nat (String.length s)) else None |}.
  intros u. rewrite <- (N2Nat.id u) at 3.
  assert (∀ n, chars_all (Ascii.eqb "1") (unary n) = true ∧ String.length (unary n) = n) as H.
  { induction n as [|n [IH1 IH2]]; [done|]. cbn. by rewrite IH1, IH2. }
  destruct (H (N.to_nat u)) as [-> ->]. done.
Defined.
