(* ===== verification/Sha256.v ===== *)
(** * SHA-256 and HMAC

    The digest of FIPS 180-4 and the HMAC of RFC 2104, as an instance of [Crypto] on which the
    repository's own tests are evaluated; no theorem of the model depends on it.  A word is a
    number below [2 ^ 32]. *)

From S2P Require Import Prelude RustStd F64 Types Traits Instances.
Local Open Scope N_scope.

Definition word : Type := N.
Definition w32 (x : N) : word := N.land x 0xffffffff.
Definition add32 (x y : word) : word := w32 (x + y).
Definition not32 (x : word) : word := N.lxor x 0xffffffff.
Definition rotr (n : N) (x : word) : word := N.lor (N.shiftr x n) (w32 (N.shiftl x (32 - n))).
Definition xor3 (x y z : word) : word := N.lxor (N.lxor x y) z.

Definition Ch (x y z : word) : word := N.lxor (N.land x y) (N.land (not32 x) z).
Definition Maj (x y z : word) : word := xor3 (N.land x y) (N.land x z) (N.land y z).
Definition Sigma0 (x : word) : word := xor3 (rotr 2 x) (rotr 13 x) (rotr 22 x).
Definition Sigma1 (x : word) : word := xor3 (rotr 6 x) (rotr 11 x) (rotr 25 x).
Definition sigma0 (x : word) : word := xor3 (rotr 7 x) (rotr 18 x) (N.shiftr x 3).
Definition sigma1 (x : word) : word := xor3 (rotr 17 x) (rotr 19 x) (N.shiftr x 10).

(** The constants are the first 32 bits of the fractional parts of the cube roots, and of the square
    roots, of the first primes. *)
Definition is_prime (n : N) : bool :=
  forallb (λ d, negb (n mod d =? 0)) (map N.of_nat (seq 2 (N.to_nat n - 2))).
Definition primes : list N := List.filter is_prime (map N.of_nat (seq 2 310)).

Fixpoint cube_root_from (bit : nat) (r n : N) : N :=
  match bit with
  | O => r
  | S bit =>
      let r' := r + N.shiftl 1 (N.of_nat bit) in
      cube_root_from bit (if r' * r' * r' <=? n then r' else r) n
  end.
Definition cube_root_fraction (p : N) : word := w32 (cube_root_from 36 0 (N.shiftl p 96)).
Definition square_root_fraction (p : N) : word := w32 (N.sqrt (N.shiftl p 64)).

Definition round_constants : list word := Eval vm_compute in map cube_root_fraction primes.

(** The eight working variables. *)
Record Hash : Type := mkHash { ha : word; hb : word; hc : word; hd : word; he : word; hf : word; hg : word; hh : word }.

Definition initial_hash : Hash :=
  Eval vm_compute in
  let h i := square_root_fraction (nth i primes 0) in
  mkHash (h 0%nat) (h 1%nat) (h 2%nat) (h 3%nat) (h 4%nat) (h 5%nat) (h 6%nat) (h 7%nat).

Definition add_hash (x y : Hash) : Hash :=
  mkHash (add32 (ha x) (ha y)) (add32 (hb x) (hb y)) (add32 (hc x) (hc y)) (add32 (hd x) (hd y))
    (add32 (he x) (he y)) (add32 (hf x) (hf y)) (add32 (hg x) (hg y)) (add32 (hh x) (hh y)).

Definition round (h : Hash) (k w : word) : Hash :=
  let t1 := w32 (hh h + Sigma1 (he h) + Ch (he h) (hf h) (hg h) + k + w) in
  let t2 := add32 (Sigma0 (ha h)) (Maj (ha h) (hb h) (hc h)) in
  mkHash (add32 t1 t2) (ha h) (hb h) (hc h) (add32 (hd h) t1) (he h) (hf h) (hg h).

(** The rounds of a block: [window] holds the sixteen words from the current one on. *)
Fixpoint rounds (ks : list word) (window : list word) (h : Hash) : Hash :=
  match ks, window with
  | k :: ks, w :: rest =>
      let next := w32 (sigma1 (nth 13 rest 0) + nth 8 rest 0 + sigma0 (nth 0 rest 0) + w) in
      rounds ks (rest ++ [next]) (round h k w)
  | _, _ => h
  end.

Definition compress (h : Hash) (block : list word) : Hash := add_hash h (rounds round_constants block h).

(** *** Bytes and words, most significant byte first *)
Fixpoint to_words (b : bytes) : list word :=
  match b with
  | x :: y :: z :: t :: b =>
      (N.shiftl (Byte.to_N x) 24 + N.shiftl (Byte.to_N y) 16 + N.shiftl (Byte.to_N z) 8 + Byte.to_N t) :: to_words b
  | _ => []
  end.

Definition low_byte (x : N) : byte := default Byte.x00 (Byte.of_N (N.land x 0xff)).
Definition of_word (w : word) : bytes :=
  [low_byte (N.shiftr w 24); low_byte (N.shiftr w 16); low_byte (N.shiftr w 8); low_byte w].

(** A one bit, zeros up to eight bytes before the end of a block, and the length in bits. *)
Definition pad (b : bytes) : bytes :=
  let len := N.of_nat (List.length b) in
  let zeros := (64 - (len + 9) mod 64) mod 64 in
  b ++ [Byte.x80] ++ replicate (N.to_nat zeros) Byte.x00 ++
  of_word (N.shiftr (8 * len) 32) ++ of_word (8 * len).

Fixpoint blocks (fuel : nat) (words : list word) (h : Hash) : Hash :=
  match fuel, words with
  | S fuel, _ :: _ => blocks fuel (drop 16 words) (compress h (take 16 words))
  | _, _ => h
  end.

Definition digest (h : Hash) : bytes :=
  of_word (ha h) ++ of_word (hb h) ++ of_word (hc h) ++ of_word (hd h) ++
  of_word (he h) ++ of_word (hf h) ++ of_word (hg h) ++ of_word (hh h).

(** A padded message has fewer blocks than words. *)
Definition sha256_bytes (b : bytes) : bytes :=
  let words := to_words (pad b) in
  digest (blocks (List.length words) words initial_hash).

(** *** HMAC *)
Definition xor_byte (n : N) (x : byte) : byte := low_byte (N.lxor n (Byte.to_N x)).

Definition hmac_key (key : bytes) : bytes :=
  let key := if (List.length key <=? 64)%nat then key else sha256_bytes key in
  key ++ replicate (64 - List.length key) Byte.x00.

Definition hmac_bytes (key message : bytes) : bytes :=
  let key := hmac_key key in
  sha256_bytes (map (xor_byte 0x5c) key ++ sha256_bytes (map (xor_byte 0x36) key ++ message)).

Definition fips_crypto : Crypto :=
  {| sha256 := sha256_bytes; sha256_length := λ _, eq_refl; hmac_sha256 := hmac_bytes |}.

(** The digest of the empty message, and the first test case of RFC 4231. *)
Example sha256_empty :
  lower_hex (sha256_bytes []) = "e3b0c44298fc1c149afbf4c8996fb92427ae41e4649b934ca495991b7852b855".
Proof. vm_compute. reflexivity. Qed.

Example hmac_rfc4231_case_1 :
  lower_hex (hmac_bytes (replicate 20 Byte.x0b) (as_bytes "Hi There")) =
    "b0344c61d8db38535ca8afceaf0bf12b881dc200c9833da726e9376c2e32cff7".
Proof. vm_compute. reflexivity. Qed.
