(* ===== verification/Base64.v ===== *)
(** * Base64

    The [STANDARD] alphabet of RFC 4648, padded, as an instance of [Codecs] on which the
    repository's own tests are evaluated: a decoder that refuses characters outside the
    alphabet, missing or misplaced padding and stray trailing bits. *)

From S2P Require Import Prelude RustStd F64 Types Traits Instances.
Local Open Scope N_scope.

Definition sextet_char (n : N) : ascii :=
  if n <? 26 then ascii_of_N (65 + n)
  else if n <? 52 then ascii_of_N (71 + n)
  else if n <? 62 then ascii_of_N (n - 4)
  else if n =? 62 then "+"%char else "/"%char.

Definition char_sextet (a : ascii) : option N :=
  let n := N_of_ascii a in
  if (65 <=? n) && (n <=? 90) then Some (n - 65)
  else if (97 <=? n) && (n <=? 122) then Some (n - 71)
  else if (48 <=? n) && (n <=? 57) then Some (n + 4)
  else if n =? 43 then Some 62
  else if n =? 47 then Some 63
  else None.

Definition pad_char : ascii := "="%char.

Fixpoint encode (b : bytes) : string :=
  match b with
  | [] => EmptyString
  | [x] =>
      let x := Byte.to_N x in
      String (sextet_char (x / 4)) (String (sextet_char (x mod 4 * 16)) (String pad_char (String pad_char EmptyString)))
  | [x; y] =>
      let x := Byte.to_N x in let y := Byte.to_N y in
      String (sextet_char (x / 4)) (String (sextet_char (x mod 4 * 16 + y / 16))
        (String (sextet_char (y mod 16 * 4)) (String pad_char EmptyString)))
  | x :: y :: z :: b =>
      let x := Byte.to_N x in let y := Byte.to_N y in let z := Byte.to_N z in
      String (sextet_char (x / 4)) (String (sextet_char (x mod 4 * 16 + y / 16))
        (String (sextet_char (y mod 16 * 4 + z / 64)) (String (sextet_char (z mod 64)) (encode b))))
  end.

(** The bytes of a full group of sextets, of one with one pad and of one with two. *)
Definition three (a b c d : N) : option bytes :=
  x ← Byte.of_N (a * 4 + b / 16); y ← Byte.of_N (b mod 16 * 16 + c / 4); z ← Byte.of_N (c mod 4 * 64 + d);
  Some [x; y; z].
Definition two (a b c : N) : option bytes :=
  if c mod 4 =? 0 then x ← Byte.of_N (a * 4 + b / 16); y ← Byte.of_N (b mod 16 * 16 + c / 4); Some [x; y] else None.
Definition one (a b : N) : option bytes :=
  if b mod 16 =? 0 then x ← Byte.of_N (a * 4 + b / 16); Some [x] else None.

Fixpoint decode (s : string) : option bytes :=
  match s with
  | EmptyString => Some []
  | String a (String b (String c (String d s))) =>
      a ← char_sextet a; b ← char_sextet b;
      match s, Ascii.eqb c pad_char, Ascii.eqb d pad_char with
      | EmptyString, true, true => one a b
      | EmptyString, false, true => c ← char_sextet c; two a b c
      | _, _, _ =>
          c ← char_sextet c; d ← char_sextet d; group ← three a b c d; rest ← decode s; Some (group ++ rest)
      end
  | _ => None
  end.

(** ** The laws *)

Lemma sextet_cases (P : N → Prop) n : n < 64 → (∀ k, (k < 64)%nat → P (N.of_nat k)) → P n.
Proof. intros Hn HP. rewrite <- (N2Nat.id n). apply HP. lia. Qed.

Lemma sextet_char_spec n :
  n < 64 → char_sextet (sextet_char n) = Some n ∧ Ascii.eqb (sextet_char n) pad_char = false ∧
           is_base64_char (sextet_char n) = true.
Proof.
  intros Hn. pattern n. apply sextet_cases; [done|].
  intros k Hk. do 64 (destruct k as [|k]; [vm_compute; by repeat split|]). lia.
Qed.

Lemma char_of_sextet n : n < 64 → char_sextet (sextet_char n) = Some n.
Proof. apply sextet_char_spec. Qed.
Lemma sextet_not_pad n : n < 64 → Ascii.eqb (sextet_char n) pad_char = false.
Proof. apply sextet_char_spec. Qed.
Lemma sextet_base64 n : n < 64 → is_base64_char (sextet_char n) = true.
Proof. apply sextet_char_spec. Qed.

Lemma byte_bound (x : byte) : Byte.to_N x < 256.
Proof. pose proof (Byte.to_N_bounded x). lia. Qed.

(** Arithmetic on sextets: every variable byte is below 256. *)
Ltac sextets :=
  repeat match goal with x : byte |- _ =>
    lazymatch goal with H : Byte.to_N x < 256 |- _ => fail | _ => pose proof (byte_bound x) end end;
  zify; Z.to_euclidean_division_equations; lia.

Ltac sextet_step := rewrite char_of_sextet by sextets; cbn [mbind option_bind].

Lemma three_spec x y z :
  three (Byte.to_N x / 4) (Byte.to_N x mod 4 * 16 + Byte.to_N y / 16) (Byte.to_N y mod 16 * 4 + Byte.to_N z / 64)
    (Byte.to_N z mod 64) = Some [x; y; z].
Proof.
  unfold three.
  assert (Byte.to_N x / 4 * 4 + (Byte.to_N x mod 4 * 16 + Byte.to_N y / 16) / 16 = Byte.to_N x) as -> by sextets.
  assert ((Byte.to_N x mod 4 * 16 + Byte.to_N y / 16) mod 16 * 16 +
          (Byte.to_N y mod 16 * 4 + Byte.to_N z / 64) / 4 = Byte.to_N y) as -> by sextets.
  assert ((Byte.to_N y mod 16 * 4 + Byte.to_N z / 64) mod 4 * 64 + Byte.to_N z mod 64 = Byte.to_N z) as -> by sextets.
  by rewrite !Byte.of_to_N.
Qed.

Lemma two_spec x y :
  two (Byte.to_N x / 4) (Byte.to_N x mod 4 * 16 + Byte.to_N y / 16) (Byte.to_N y mod 16 * 4) = Some [x; y].
Proof.
  unfold two. assert (Byte.to_N y mod 16 * 4 mod 4 =? 0 = true) as -> by (apply N.eqb_eq; sextets).
  assert (Byte.to_N x / 4 * 4 + (Byte.to_N x mod 4 * 16 + Byte.to_N y / 16) / 16 = Byte.to_N x) as -> by sextets.
  assert ((Byte.to_N x mod 4 * 16 + Byte.to_N y / 16) mod 16 * 16 + Byte.to_N y mod 16 * 4 / 4 = Byte.to_N y) as -> by sextets.
  by rewrite !Byte.of_to_N.
Qed.

Lemma one_spec x : one (Byte.to_N x / 4) (Byte.to_N x mod 4 * 16) = Some [x].
Proof.
  unfold one. assert (Byte.to_N x mod 4 * 16 mod 16 =? 0 = true) as -> by (apply N.eqb_eq; sextets).
  assert (Byte.to_N x / 4 * 4 + Byte.to_N x mod 4 * 16 / 16 = Byte.to_N x) as -> by sextets.
  by rewrite Byte.of_to_N.
Qed.

(** Induction three bytes at a time. *)
Lemma three_ind (P : bytes → Prop) :
  P [] → (∀ x, P [x]) → (∀ x y, P [x; y]) → (∀ x y z b, P b → P (x :: y :: z :: b)) → ∀ b, P b.
Proof.
  intros H0 H1 H2 H3 b. assert (P b ∧ (∀ x, P (x :: b)) ∧ (∀ x y, P (x :: y :: b))) as []; [|done].
  induction b as [|x b (IH1 & IH2 & IH3)]; [done|]. split_and!; auto.
Qed.

Lemma decode_encode b : decode (encode b) = Some b.
Proof.
  induction b as [|x|x y|x y z b IH] using three_ind; [done|..]; cbn [encode decode].
  - do 2 sextet_step. apply one_spec.
  - do 2 sextet_step. rewrite sextet_not_pad by sextets.
    sextet_step. apply two_spec.
  - do 2 sextet_step. rewrite !sextet_not_pad by sextets.
    do 2 sextet_step. rewrite three_spec, IH. by destruct (encode b).
Qed.

Lemma encode_chars b : chars_all is_base64_char (encode b) = true.
Proof.
  induction b as [|x|x y|x y z b IH] using three_ind; [done|..]; cbn [encode chars_all];
    rewrite !sextet_base64 by sextets; rewrite ?IH; done.
Qed.

Definition std_codecs : Codecs :=
  {| hex_encode := lower_hex; hex_decode := from_hex;
     base64_encode := encode; base64_decode := decode;
     hex_decode_encode := from_lower_hex; hex_encode_chars := lower_hex_chars;
     hex_encode_length := lower_hex_length; base64_decode_encode := decode_encode;
     base64_encode_chars := encode_chars |}.

(** The test vectors of RFC 4648. *)
Example base64_rfc4648 :
  map (λ s, encode (as_bytes s)) [""; "f"; "fo"; "foo"; "foob"; "fooba"; "foobar"] =
    [""; "Zg=="; "Zm8="; "Zm9v"; "Zm9vYg=="; "Zm9vYmE="; "Zm9vYmFy"]%string.
Proof. reflexivity. Qed.
