(* ===== verification/TestKit.v ===== *)
(** * The language of the unit tests

    A [#[test]] of the sources is a [bool]: [false] is a failed assertion or any other panic.
    The clock, the random numbers and the identifiers a test draws are its arguments. *)

From S2P Require Import Prelude RustStd F64 Types Traits.
Local Open Scope Z_scope.

(** [assert_eq!] and [assert_ne!] *)
Definition assert_eq {A} `{EqDecision A} (a b : A) : bool := bool_decide (a = b).
Definition assert_ne {A} `{EqDecision A} (a b : A) : bool := negb (bool_decide (a = b)).

(** [.expect(...)] and [.unwrap()], and what follows. *)
Definition expect {A} (o : option A) (k : A → bool) : bool :=
  match o with Some a => k a | None => false end.
Definition unwrap {A E} (r : result A E) (k : A → bool) : bool :=
  match r with Ok a => k a | Err _ => false end.

Definition res_is_ok {A E} (r : result A E) : bool := match r with Ok _ => true | Err _ => false end.
Definition res_is_err {A E} (r : result A E) : bool := match r with Ok _ => false | Err _ => true end.
Definition opt_is_some {A} (o : option A) : bool := match o with Some _ => true | None => false end.
Definition opt_is_none {A} (o : option A) : bool := match o with Some _ => false | None => true end.

(** [for i in 0..n] with assertions in the body. *)
Definition for_range (n : nat) (body : nat → bool) : bool := forallb body (seq 0 n).

Lemma for_range_all n body : (∀ i, body i = true) → for_range n body = true.
Proof. intros H. apply forallb_forall. auto. Qed.

Lemma for_range_fails n body i : (i < n)%nat → body i = false → for_range n body = false.
Proof.
  intros Hi Hb. apply not_true_iff_false. intros H. unfold for_range in H. rewrite forallb_forall in H.
  rewrite H in Hb; [done|]. apply in_seq. lia.
Qed.

(** [b"..."] *)
Notation "'bytes!' s" := (as_bytes s) (at level 5).

(** A text with double quotes, which are written as single ones. *)
Fixpoint dq (s : string) : string :=
  match s with
  | EmptyString => EmptyString
  | String "039" s => String "034" (dq s)
  | String a s => String a (dq s)
  end.

(** Header names are compared without regard to case. *)
Definition to_lower (a : ascii) : ascii :=
  let n := nat_of_ascii a in if (65 <=? n)%nat && (n <=? 90)%nat then ascii_of_nat (n + 32) else a.
Fixpoint lower (s : string) : string :=
  match s with EmptyString => EmptyString | String a s => String (to_lower a) (lower s) end.

(** A header map with the given entries, each of one value. *)
Definition header_values (entries : list (string * HeaderValue)) : HeaderMap :=
  mkHeaderMap (map (λ e, lower e.1) entries)
    (λ name, map snd (List.filter (λ e, bool_decide (lower e.1 = lower name)) entries)).
(** Values that [to_str] reads. *)
Definition header_map (entries : list (string * string)) : HeaderMap :=
  header_values (map (λ e, (e.1, mkHeaderValue (Some e.2))) entries).
Definition no_headers : HeaderMap := header_map [].
