(* ===== verification/Transitions.v ===== *)
(** * crates/hookbox/src/transitions.rs *)

From S2P Require Import Prelude RustStd F64 Types.
Local Open Scope Z_scope.

(** ** Labels *)

Definition LABEL_ACCEPTED : string := "accepted".
Definition LABEL_DUPLICATE : string := "duplicate".
Definition LABEL_VERIFICATION_FAILED : string := "verification_failed".
Definition LABEL_STORE_FAILED : string := "store_failed".
Definition LABEL_DEDUPE_FAILED : string := "dedupe_failed".

Definition INGEST_RESULT_LABELS : list string :=
  [LABEL_ACCEPTED; LABEL_DUPLICATE; LABEL_VERIFICATION_FAILED; LABEL_STORE_FAILED;
   LABEL_DEDUPE_FAILED].

Definition verification_status_label (status : VerificationStatus.t) : string :=
  match status with
  | VerificationStatus.Verified => "verified"
  | VerificationStatus.Failed => "failed"
  | VerificationStatus.Skipped => "skipped"
  end.

Definition dedupe_decision_label (decision : DedupeDecision.t) : string :=
  match decision with
  | DedupeDecision.New => "new"
  | DedupeDecision.Duplicate => "duplicate"
  | DedupeDecision.Conflict => "conflict"
  end.

(** ** Retry state *)

Definition retry_next_state (emit_count max_attempts : Z) : Z * ProcessingState.t :=
  let new_count := i32_saturating_add emit_count 1 in
  let new_state :=
    if max_attempts <=? new_count then ProcessingState.DeadLettered
    else ProcessingState.EmitFailed in
  (new_count, new_state).

Definition reset_state : Z * ProcessingState.t := (0, ProcessingState.EmitFailed).

Definition is_findable_by_worker (emit_count : Z) (state : ProcessingState.t)
    (max_attempts : Z) : bool :=
  bool_decide (state = ProcessingState.EmitFailed) && (emit_count <? max_attempts).

(** ** Backoff

    [powi] is [f64::powi], whose precision the standard library leaves unspecified, and
    [rand] the value drawn by [fastrand::f64()].  [compute_backoff] is the release build and
    [compute_backoff_debug] the debug build, with the [debug_assert!]s.  [None] is a panic. *)
Section backoff.
Variable powi : f64 → Z → f64.

Definition duration_min (a b : Duration) : Duration := Z.min a b.

Definition compute_backoff (rand : f64) (attempt : Z) (policy : RetryPolicy.t) :
    option Duration :=
  if attempt <=? 0 then Some (RetryPolicy.initial_backoff policy)
  else if negb (f64_is_finite (RetryPolicy.backoff_multiplier policy))
          || (RetryPolicy.backoff_multiplier policy <=? 0)%float
  then Some (duration_min (RetryPolicy.initial_backoff policy) (RetryPolicy.max_backoff policy))
  else
    let exponent := attempt - 1 in
    let max_secs := as_secs_f64 (RetryPolicy.max_backoff policy) in
    let base_secs := (as_secs_f64 (RetryPolicy.initial_backoff policy) *
                      powi (RetryPolicy.backoff_multiplier policy) exponent)%float in
    let base_secs := f64_min base_secs max_secs in
    let jitter := RetryPolicy.jitter policy in
    let jitter_factor :=
      if (0 <? jitter)%float
      then (1 + f64_mul_add rand (2 * jitter) (- jitter))%float
      else 1%float in
    let jitter_factor := f64_max jitter_factor 0 in
    let jittered := f64_min (base_secs * jitter_factor)%float max_secs in
    let jittered :=
      if f64_is_finite jittered then f64_clamp jittered 0 max_secs else Some max_secs in
    jittered ≫= from_secs_f64.

(** The debug build, whose assertions panic. *)
Definition backoff_assertions (attempt : Z) (policy : RetryPolicy.t) : bool :=
  (0 <? attempt) &&
  ((0 <=? RetryPolicy.jitter policy)%float && (RetryPolicy.jitter policy <=? 1)%float) &&
  (f64_is_finite (RetryPolicy.backoff_multiplier policy) &&
   (0 <? RetryPolicy.backoff_multiplier policy)%float).

Definition compute_backoff_debug (rand : f64) (attempt : Z) (policy : RetryPolicy.t) :
    option Duration :=
  if backoff_assertions attempt policy then compute_backoff rand attempt policy else None.
End backoff.

(** ** Aggregate state of a receipt *)

Definition aggregate_from_states (states : list DeliveryState.t)
    (fallback : ProcessingState.t) : ProcessingState.t :=
  if bool_decide (states = []) then fallback
  else if bool_decide (DeliveryState.DeadLettered ∈ states) then ProcessingState.DeadLettered
  else if bool_decide (DeliveryState.Failed ∈ states) then ProcessingState.EmitFailed
  else if forallb (λ s, bool_decide (s = DeliveryState.Emitted)) states
  then ProcessingState.Emitted
  else ProcessingState.Stored.

(** One iteration of the loop over the deliveries: immutable rows are skipped; an entry is
    inserted, or replaced by a strictly younger row. *)
Definition latest_step (map : gmap string (DateTime * DeliveryState.t))
    (d : WebhookDelivery.t) : gmap string (DateTime * DeliveryState.t) :=
  if WebhookDelivery.immutable d then map
  else
    let entry := (WebhookDelivery.created_at d, WebhookDelivery.state d) in
    match map !! WebhookDelivery.emitter_name d with
    | None => <[WebhookDelivery.emitter_name d := entry]> map
    | Some (ts, st) =>
        if ts <? WebhookDelivery.created_at d
        then <[WebhookDelivery.emitter_name d := entry]> map
        else map
    end.

Definition latest_mutable_per_emitter (deliveries : list WebhookDelivery.t) :
    gmap string DeliveryState.t :=
  snd <$> foldl latest_step ∅ deliveries.

Definition receipt_aggregate_state (deliveries : list WebhookDelivery.t)
    (fallback : ProcessingState.t) : ProcessingState.t :=
  let latest := latest_mutable_per_emitter deliveries in
  let states := map snd (map_to_list latest) in
  aggregate_from_states states fallback.

Definition receipt_deliveries_summary (deliveries : list WebhookDelivery.t) :
    gmap string DeliveryState.t :=
  latest_mutable_per_emitter deliveries.

(** ** Backoff is total and bounded *)

Section backoff_props.
Variable powi : f64 → Z → f64.

(** The cap as [compute_backoff] applies it: the duration that [max_secs] converts back to. *)
Definition backoff_cap (policy : RetryPolicy.t) : option Duration :=
  from_secs_f64 (as_secs_f64 (RetryPolicy.max_backoff policy)).

Lemma from_secs_f64_some x d : from_secs_f64 x = Some d → sf_is_nonneg (Prim2SF x) = true.
Proof. unfold from_secs_f64. by destruct (Prim2SF x) as [|[]| |[]]. Qed.

(** The last step: whatever was computed before it, the clamp and the cap leave a value that
    [from_secs_f64] accepts and that is at most the cap. *)
Lemma clamp_to_cap jittered max_secs cap :
  from_secs_f64 max_secs = Some cap → 0 ≤ cap →
  ∃ d, (if f64_is_finite jittered then f64_clamp jittered 0 max_secs else Some max_secs)
         ≫= from_secs_f64 = Some d ∧ 0 ≤ d ≤ cap.
Proof.
  intros Hcap H0. pose proof (from_secs_f64_some _ _ Hcap) as Hnn.
  destruct (f64_is_finite jittered) eqn:Hfin.
  - destruct (f64_clamp_bounds jittered max_secs) as (r & -> & Hr);
      [done|by apply sf_nonneg_finite|by apply sf_nonneg_ge_0|].
    destruct (from_secs_f64_mono _ _ _ Hr Hcap) as (d & Hd & Hb). eauto.
  - exists cap. cbn. split; [done|lia].
Qed.

Lemma backoff_cap_nonneg policy cap : backoff_cap policy = Some cap → 0 ≤ cap.
Proof.
  unfold backoff_cap. intros H. pose proof (from_secs_f64_some _ _ H) as Hnn.
  edestruct (from_secs_f64_mono (as_secs_f64 (RetryPolicy.max_backoff policy))) as (d & Hd & Hb);
    [|exact H|congruence || lia].
  revert Hnn. destruct (Prim2SF _) as [|[]| |[] m e]; cbn; try done; lia.
Qed.

(** A whole number of seconds below 2^53 is applied as it is. *)
Lemma backoff_cap_whole policy s :
  RetryPolicy.max_backoff policy = Duration_from_secs s → 0 ≤ s < 2 ^ 53 →
  backoff_cap policy = Some (RetryPolicy.max_backoff policy).
Proof. intros Hmax Hs. unfold backoff_cap. rewrite Hmax. by apply secs_f64_round_trip. Qed.

Lemma compute_backoff_capped rand attempt policy cap :
  backoff_cap policy = Some cap →
  0 ≤ RetryPolicy.initial_backoff policy → 0 ≤ RetryPolicy.max_backoff policy → 1 ≤ attempt →
  ∃ d, compute_backoff powi rand attempt policy = Some d ∧
       0 ≤ d ≤ Z.max cap (RetryPolicy.max_backoff policy).
Proof.
  intros Hcap Hinit Hmax Ha. pose proof (backoff_cap_nonneg _ _ Hcap) as H0.
  unfold compute_backoff, duration_min. destruct (Z.leb_spec attempt 0); [lia|].
  case_match; [eexists; split; [done|]; lia|].
  edestruct clamp_to_cap as (d & Hd & Hb); [exact Hcap|done|].
  exists d. split; [exact Hd|lia].
Qed.

Lemma compute_backoff_in_cap rand attempt policy s :
  RetryPolicy.max_backoff policy = Duration_from_secs s → 0 ≤ s < 2 ^ 53 →
  0 ≤ RetryPolicy.initial_backoff policy →
  ∃ d, compute_backoff powi rand attempt policy = Some d ∧ 0 ≤ d ∧
       (1 ≤ attempt → d ≤ RetryPolicy.max_backoff policy).
Proof.
  intros Hmax Hs Hinit. destruct (Z.leb_spec attempt 0).
  - exists (RetryPolicy.initial_backoff policy). unfold compute_backoff.
    rewrite (proj2 (Z.leb_le attempt 0)) by done. auto with lia.
  - edestruct (compute_backoff_capped rand attempt policy) as (d & Hd & Hb);
      [by eapply backoff_cap_whole|done| |lia|exists d; split; [done|lia]].
    rewrite Hmax. unfold Duration_from_secs, nanos_per_sec. lia.
Qed.

Lemma backoff_assertions_spec attempt policy :
  backoff_assertions attempt policy = true ↔
  0 < attempt ∧
  (0 <=? RetryPolicy.jitter policy)%float = true ∧
  (RetryPolicy.jitter policy <=? 1)%float = true ∧
  f64_is_finite (RetryPolicy.backoff_multiplier policy) = true ∧
  (0 <? RetryPolicy.backoff_multiplier policy)%float = true.
Proof. unfold backoff_assertions. rewrite !andb_true_iff, Z.ltb_lt. tauto. Qed.

(** C29: for every random draw, jitter and multiplier (NaN, infinite, zero and negative
    included) and every behaviour of [powi], when [max_backoff] converts to seconds and back
    (to [cap], which is [max_backoff] itself for a whole number of seconds below 2^53):
    - the release build does not panic; for attempts from 1 on it answers a delay between zero
      and the cap, and for the misuse [attempt <= 0] it answers [initial_backoff], uncapped;
    - the debug build panics exactly when one of its assertions fails, that is, unless the
      attempt is positive, the jitter within [0, 1] and the multiplier finite and positive;
      otherwise it answers what the release build does. *)
Theorem compute_backoff_bounded rand attempt policy cap :
  backoff_cap policy = Some cap →
  0 ≤ RetryPolicy.initial_backoff policy → 0 ≤ RetryPolicy.max_backoff policy →
  (1 ≤ attempt →
     ∃ d, compute_backoff powi rand attempt policy = Some d ∧
          0 ≤ d ≤ Z.max cap (RetryPolicy.max_backoff policy)) ∧
  (attempt ≤ 0 →
     compute_backoff powi rand attempt policy = Some (RetryPolicy.initial_backoff policy)) ∧
  (∀ s, RetryPolicy.max_backoff policy = Duration_from_secs s → 0 ≤ s < 2 ^ 53 →
     cap = RetryPolicy.max_backoff policy) ∧
  (compute_backoff_debug powi rand attempt policy =
     if bool_decide (0 < attempt ∧
          (0 <=? RetryPolicy.jitter policy)%float = true ∧
          (RetryPolicy.jitter policy <=? 1)%float = true ∧
          f64_is_finite (RetryPolicy.backoff_multiplier policy) = true ∧
          (0 <? RetryPolicy.backoff_multiplier policy)%float = true)
     then compute_backoff powi rand attempt policy else None).
Proof.
  intros Hcap Hinit Hmax. split_and!.
  - by apply compute_backoff_capped.
  - intros Ha. unfold compute_backoff. by rewrite (proj2 (Z.leb_le attempt 0)).
  - intros s Hs Hb. pose proof (backoff_cap_whole _ _ Hs Hb). congruence.
  - unfold compute_backoff_debug.
    rewrite <- (bool_decide_ext _ _ (backoff_assertions_spec attempt policy)).
    by destruct (backoff_assertions attempt policy).
Qed.

Lemma backoff_whole_step x m :
  sf_is_nonneg (Prim2SF x) = true → sf_is_nonneg (Prim2SF m) = true →
  let b := f64_min x m in
  f64_min (b * 1)%float m = b ∧ f64_is_finite b = true ∧ f64_clamp b 0 m = Some b.
Proof.
  intros Hx Hm b. destruct (f64_min_nonneg x m Hx Hm) as [Hb Hlt]. fold b in Hb, Hlt.
  rewrite f64_mul_one_r by done. split; [|split; [by apply sf_nonneg_finite|]].
  - unfold f64_min. by rewrite !sf_nonneg_not_nan, Hlt by done.
  - unfold f64_clamp. by rewrite sf_nonneg_ge_0, f64_ltb_0, Hlt by done.
Qed.

(** Without jitter the first retry waits exactly [min(initial_backoff, max_backoff)], for
    whole-second delays and a usable multiplier, as soon as [powi(m, 0)] is 1. *)
Theorem compute_backoff_first_attempt rand policy i s :
  RetryPolicy.initial_backoff policy = Duration_from_secs i → 0 ≤ i < 2 ^ 53 →
  RetryPolicy.max_backoff policy = Duration_from_secs s → 0 ≤ s < 2 ^ 53 →
  (0 <? RetryPolicy.jitter policy)%float = false →
  powi (RetryPolicy.backoff_multiplier policy) 0 = 1%float →
  compute_backoff powi rand 1 policy =
    Some (Z.min (RetryPolicy.initial_backoff policy) (RetryPolicy.max_backoff policy)).
Proof.
  intros Hi Hib Hs Hsb Hj Hp. unfold compute_backoff, duration_min. change (1 <=? 0) with false.
  cbv iota. destruct (negb _ || _)%bool; [done|]. change (1 - 1) with 0. rewrite Hp, Hj, Hi, Hs.
  pose proof (as_secs_f64_whole_nonneg i Hib) as Hx.
  pose proof (as_secs_f64_whole_nonneg s Hsb) as Hm.
  rewrite (f64_mul_one_r _ Hx). change (f64_max 1 0) with 1%float.
  destruct (backoff_whole_step _ _ Hx Hm) as (-> & -> & ->). cbn [mbind option_bind].
  apply from_secs_f64_min; auto using secs_f64_round_trip.
Qed.
End backoff_props.

(** A [powi] for the witnesses: repeated multiplication. *)
Definition powi_iter (x : f64) (n : Z) : f64 := Z.iter n (PrimFloat.mul x) 1%float.

(** A cap of one second and a half. *)
Definition short_policy : RetryPolicy.t :=
  RetryPolicy.mk 5 (Duration_from_secs 1) 1500000000 2%float 0.25%float.

Lemma compute_backoff_bounded_witness :
  (∃ d, compute_backoff powi_iter 0.75%float 7 short_policy = Some d ∧ 0 ≤ d ≤ 1500000000) ∧
  compute_backoff powi_iter 0.75%float 0 short_policy = Some (Duration_from_secs 1) ∧
  compute_backoff_debug powi_iter 0.75%float 0 short_policy = None.
Proof.
  split_and!.
  - exact (proj1 (compute_backoff_bounded powi_iter 0.75%float 7 short_policy 1500000000
      ltac:(vm_compute; reflexivity) ltac:(vm_compute; congruence) ltac:(vm_compute; congruence))
      ltac:(lia)).
  - vm_compute; reflexivity.
  - vm_compute; reflexivity.
Defined.

Lemma compute_backoff_first_attempt_witness :
  compute_backoff powi_iter 0.75%float 1
    (RetryPolicy.mk 5 (Duration_from_secs 30) (Duration_from_secs 3600) 2%float 0%float) =
  Some (Duration_from_secs 30).
Proof.
  exact (compute_backoff_first_attempt powi_iter 0.75%float
    (RetryPolicy.mk 5 (Duration_from_secs 30) (Duration_from_secs 3600) 2%float 0%float)
    30 3600 eq_refl ltac:(lia) eq_refl ltac:(lia) eq_refl eq_refl).
Defined.

(** ** The aggregate state *)

Definition is_mutable_for (e : string) (d : WebhookDelivery.t) : bool :=
  negb (WebhookDelivery.immutable d) && bool_decide (WebhookDelivery.emitter_name d = e).

(** [d] is the row [SELECT DISTINCT ON (emitter_name) ... ORDER BY created_at DESC] keeps for
    emitter [e]: mutable, strictly younger than the rows before it and at least as young as the
    rows after it. *)
Definition is_latest (ds : list WebhookDelivery.t) (e : string) (d : WebhookDelivery.t) : Prop :=
  ∃ l1 l2, ds = l1 ++ d :: l2 ∧ is_mutable_for e d = true ∧
    (∀ x, x ∈ l1 → is_mutable_for e x = true →
          WebhookDelivery.created_at x < WebhookDelivery.created_at d) ∧
    (∀ x, x ∈ l2 → is_mutable_for e x = true →
          WebhookDelivery.created_at x ≤ WebhookDelivery.created_at d).

Lemma is_latest_max ds e d y :
  is_latest ds e d → y ∈ ds → is_mutable_for e y = true →
  WebhookDelivery.created_at y ≤ WebhookDelivery.created_at d.
Proof.
  intros (l1 & l2 & -> & Hd & H1 & H2) [Hy|[->|Hy]%elem_of_cons]%elem_of_app Hmy; [|lia|auto].
  specialize (H1 y Hy Hmy). lia.
Qed.

(** Appending a row keeps the latest one unless the new row is strictly younger. *)
Lemma is_latest_keep ds x e d :
  is_latest ds e d →
  (is_mutable_for e x = true → WebhookDelivery.created_at x ≤ WebhookDelivery.created_at d) →
  is_latest (ds ++ [x]) e d.
Proof.
  intros (l1 & l2 & -> & Hd & H1 & H2) Hx. exists l1, (l2 ++ [x]).
  rewrite <- app_assoc. split_and!; try done.
  intros y [Hy| ->%list_elem_of_singleton]%elem_of_app; auto.
Qed.

Lemma is_latest_new ds x e :
  is_mutable_for e x = true →
  (∀ y, y ∈ ds → is_mutable_for e y = true →
        WebhookDelivery.created_at y < WebhookDelivery.created_at x) →
  is_latest (ds ++ [x]) e x.
Proof.
  intros Hx Hlt. exists ds, []. split_and!; try done. by intros y Hy%elem_of_nil.
Qed.

Lemma latest_step_other m x e :
  is_mutable_for e x = false → latest_step m x !! e = m !! e.
Proof.
  unfold is_mutable_for, latest_step. intros Hx.
  destruct (WebhookDelivery.immutable x); [done|]. cbn in Hx. apply bool_decide_eq_false in Hx.
  repeat case_match; by rewrite ?lookup_insert_ne.
Qed.

Lemma latest_step_same m x e :
  is_mutable_for e x = true →
  latest_step m x !! e =
    match m !! e with
    | Some (ts, st) => if ts <? WebhookDelivery.created_at x
                       then Some (WebhookDelivery.created_at x, WebhookDelivery.state x)
                       else Some (ts, st)
    | None => Some (WebhookDelivery.created_at x, WebhookDelivery.state x)
    end.
Proof.
  unfold is_mutable_for, latest_step. intros [Hi%negb_true_iff He%bool_decide_eq_true]%andb_prop.
  rewrite Hi. subst e. destruct (m !! _) as [[ts st]|] eqn:E; [|apply lookup_insert_eq].
  destruct (ts <? _); [apply lookup_insert_eq|done].
Qed.

Lemma latest_lookup ds e :
  match foldl latest_step ∅ ds !! e with
  | Some (ts, s) => ∃ d, is_latest ds e d ∧ ts = WebhookDelivery.created_at d ∧
                         s = WebhookDelivery.state d
  | None => ∀ d, d ∈ ds → is_mutable_for e d = false
  end.
Proof.
  induction ds as [|x ds IH] using rev_ind.
  { cbn. rewrite lookup_empty. by intros d Hd%elem_of_nil. }
  rewrite foldl_app. cbn [foldl]. set (m := foldl latest_step ∅ ds) in *.
  destruct (is_mutable_for e x) eqn:Ex.
  - rewrite latest_step_same by done. destruct (m !! e) as [[ts s]|].
    + destruct IH as (d & Hd & -> & ->). destruct (Z.ltb_spec (WebhookDelivery.created_at d)
        (WebhookDelivery.created_at x)); [exists x|exists d]; (split; [|done]).
      * apply is_latest_new; [done|]. intros y Hy Hmy.
        pose proof (is_latest_max _ _ _ _ Hd Hy Hmy). lia.
      * apply is_latest_keep; auto with lia.
    + exists x. split; [|done]. apply is_latest_new; [done|].
      intros y Hy Hmy. by rewrite IH in Hmy.
  - rewrite latest_step_other by done. destruct (m !! e) as [[ts s]|].
    + destruct IH as (d & Hd & -> & ->). exists d. split; [|done]. apply is_latest_keep; congruence.
    + intros d [Hd| ->%list_elem_of_singleton]%elem_of_app; auto.
Qed.

Lemma app_cons_split {A} (l1 l2 k1 k2 : list A) x y :
  l1 ++ x :: l2 = k1 ++ y :: k2 →
  (x = y ∧ l1 = k1) ∨ (x ∈ k1 ∧ y ∈ l2) ∨ (y ∈ l1 ∧ x ∈ k2).
Proof.
  intros [([|z k] & -> & Ek)|([|z k] & -> & Ek)]%app_eq_inv; cbn in Ek; injection Ek as -> Ek;
    rewrite ?app_nil_r; [left| |left|]; try done.
  - right; right. subst. set_solver.
  - right; left. subst. set_solver.
Qed.

Lemma is_latest_unique ds e d d' :
  is_latest ds e d → is_latest ds e d' → d = d'.
Proof.
  intros (l1 & l2 & E & Hd & H1 & H2) (k1 & k2 & E' & Hd' & K1 & K2). rewrite E in E'.
  apply app_cons_split in E' as [[-> _]|[[Hi Hi']|[Hi Hi']]]; [done| |]; exfalso.
  - specialize (K1 d Hi Hd). specialize (H2 d' Hi' Hd'). lia.
  - specialize (H1 d' Hi Hd'). specialize (K2 d Hi' Hd). lia.
Qed.

Lemma latest_state_lookup ds e s :
  latest_mutable_per_emitter ds !! e = Some s ↔
  ∃ d, is_latest ds e d ∧ WebhookDelivery.state d = s.
Proof.
  unfold latest_mutable_per_emitter. rewrite lookup_fmap. pose proof (latest_lookup ds e) as H.
  destruct (foldl latest_step ∅ ds !! e) as [[ts st]|]; cbn.
  - destruct H as (d & Hd & -> & ->). split; [intros [= <-]; eauto|].
    intros (d' & Hd' & <-). by rewrite (is_latest_unique _ _ _ _ Hd Hd').
  - split; [done|]. intros (d & (l1 & l2 & -> & Hd & _) & _).
    rewrite H in Hd; [done|set_solver].
Qed.

(** [latest_mutable_per_emitter] computes the [SELECT DISTINCT ON (emitter_name) state ...
    ORDER BY emitter_name, created_at DESC] its comment promises: emitter [e] maps to [s]
    exactly when [s] is the state of the latest mutable row of [e]. *)
Theorem latest_mutable_per_emitter_spec ds e s :
  latest_mutable_per_emitter ds !! e = Some s ↔
  ∃ d, is_latest ds e d ∧ WebhookDelivery.state d = s.
Proof. apply latest_state_lookup. Qed.

(** The states the aggregation sees are those of the latest mutable rows. *)
Lemma elem_of_latest_states ds s :
  s ∈ map snd (map_to_list (latest_mutable_per_emitter ds)) ↔
  ∃ e d, is_latest ds e d ∧ WebhookDelivery.state d = s.
Proof.
  rewrite list_elem_of_In, in_map_iff. setoid_rewrite <- list_elem_of_In. split.
  - intros ([e s'] & <- & Hin%elem_of_map_to_list). exists e.
    by apply latest_state_lookup.
  - intros (e & H%latest_state_lookup). exists (e, s).
    by rewrite elem_of_map_to_list.
Qed.

Lemma latest_exists ds :
  (∃ d, d ∈ ds ∧ WebhookDelivery.immutable d = false) ↔ ∃ e d, is_latest ds e d.
Proof.
  split.
  - intros (d & Hd & Him). exists (WebhookDelivery.emitter_name d).
    pose proof (latest_lookup ds (WebhookDelivery.emitter_name d)) as H.
    destruct (_ !! _) as [[ts st]|]; [naive_solver|].
    specialize (H d Hd). unfold is_mutable_for in H. rewrite Him, bool_decide_true in H; done.
  - intros (e & d & l1 & l2 & -> & [Hd%negb_true_iff _]%andb_prop & _). exists d.
    split; [set_solver|done].
Qed.

(** C28: The visible state of a receipt, by the documented precedence over the latest mutable
    row of each emitter: [DeadLettered], then [EmitFailed], then [Emitted] when all are
    emitted, then [Stored]; the stored state only when no row is mutable. *)
Theorem receipt_aggregate_state_spec ds fallback :
  let latest s := ∃ e d, is_latest ds e d ∧ WebhookDelivery.state d = s in
  let r := receipt_aggregate_state ds fallback in
  (Forall (λ d, WebhookDelivery.immutable d = true) ds → r = fallback) ∧
  (latest DeliveryState.DeadLettered → r = ProcessingState.DeadLettered) ∧
  (¬ latest DeliveryState.DeadLettered → latest DeliveryState.Failed →
     r = ProcessingState.EmitFailed) ∧
  (Exists (λ d, WebhookDelivery.immutable d = false) ds →
     (∀ s, latest s → s = DeliveryState.Emitted) → r = ProcessingState.Emitted) ∧
  (¬ latest DeliveryState.DeadLettered → ¬ latest DeliveryState.Failed →
     (∃ s, latest s ∧ s ≠ DeliveryState.Emitted) → r = ProcessingState.Stored).
Proof.
  intros latest r. subst r. unfold receipt_aggregate_state, aggregate_from_states.
  set (states := map snd _).
  assert (∀ s, s ∈ states ↔ latest s) as Hin by apply elem_of_latest_states.
  assert (states = [] ↔ ∀ s, ¬ latest s) as Hnil.
  { setoid_rewrite <- Hin. split; [intros ->; by intros s ?%elem_of_nil|].
    destruct states as [|s l]; [done|]. intros H. destruct (H s). set_solver. }
  rewrite <- (Hin DeliveryState.DeadLettered), <- (Hin DeliveryState.Failed).
  split_and!.
  - intros Him. rewrite bool_decide_true; [done|]. apply Hnil. intros s (e & d & Hd & _).
    destruct (proj2 (latest_exists ds)) as (y & Hy & Hyi); [eauto|].
    rewrite Forall_forall in Him. by rewrite Him in Hyi.
  - intros H. rewrite bool_decide_false by (intros ->; by apply elem_of_nil in H).
    by rewrite bool_decide_true.
  - intros H H'. rewrite bool_decide_false by (intros ->; by apply elem_of_nil in H').
    by rewrite bool_decide_false, bool_decide_true.
  - intros (d & Hd & Him)%Exists_exists Hall.
    destruct (proj1 (latest_exists ds)) as (e & d' & Hd'); [eauto|].
    rewrite bool_decide_false by (rewrite Hnil; intros H; apply (H (WebhookDelivery.state d')); unfold latest; eauto).
    rewrite !bool_decide_false by (intros H%Hin%Hall; done).
    assert (forallb (λ s, bool_decide (s = DeliveryState.Emitted)) states = true) as ->; [|done].
    apply forallb_forall. intros s Hs%list_elem_of_In%Hin%Hall. by apply bool_decide_true.
  - intros H1 H2 (s & Hs & Hne). rewrite !bool_decide_false; try done.
    2: { rewrite Hnil. intros H. by apply (H s). }
    destruct (forallb _ states) eqn:E; [|done]. exfalso. apply Hne.
    rewrite forallb_forall in E. apply Hin, list_elem_of_In in Hs.
    by apply E, bool_decide_eq_true in Hs.
Qed.
