(* ===== verification/Dedupe.v ===== *)
(** * crates/hookbox/src/dedupe.rs

    The bounded in-memory cache and the layered strategy. *)

From S2P Require Import Prelude RustStd Types Traits.
Local Open Scope nat_scope.
Local Open Scope rust_scope.

(** ** InMemoryRecentDedupe *)

Module InMemoryRecentDedupe.

(** [InMemoryRecentDedupeInner]: the map and the insertion order. *)
Record Inner : Type := mkInner {
  map : gmap string string;
  order : list string
}.

Record t : Type := mk { capacity : nat; inner : Inner }.

(** [new] panics ([None]) on capacity zero. *)
Definition new (capacity : nat) : option t :=
  if decide (0 < capacity) then Some (mk capacity (mkInner ∅ [])) else None.

Definition check (dedupe_key payload_hash : string) :
    M Inner (result DedupeDecision.t DedupeError.t) := λ inner,
  match map inner !! dedupe_key with
  | None => (Ok DedupeDecision.New, inner)
  | Some stored_hash =>
      if decide (stored_hash = payload_hash) then (Ok DedupeDecision.Duplicate, inner)
      else (Ok DedupeDecision.Conflict, inner)
  end.

(** The eviction: the front of the queue leaves the map when the map is full. *)
Definition evict (capacity : nat) (inner : Inner) : Inner :=
  if decide (capacity ≤ size (map inner)) then
    match order inner with
    | oldest_key :: rest => mkInner (delete oldest_key (map inner)) rest
    | [] => inner
    end
  else inner.

Definition record (capacity : nat) (dedupe_key payload_hash : string) :
    M Inner (result unit DedupeError.t) := λ inner,
  match map inner !! dedupe_key with
  | Some _ => (Ok tt, inner)
  | None =>
      let inner1 := evict capacity inner in
      (Ok tt, mkInner (<[dedupe_key := payload_hash]> (map inner1)) (order inner1 ++ [dedupe_key]))
  end.

(** The strategy as a trait object over a world that holds the cache. *)
Definition strategy {W} (capacity : nat) (get : W → Inner) (set : Inner → W → W) :
    DedupeStrategy W :=
  {| Traits.check := λ k h w, let '(r, i) := check k h (get w) in (r, set i w);
     Traits.record := λ k h w, let '(r, i) := record capacity k h (get w) in (r, set i w) |}.

(** *** The invariant: the queue lists the keys of the map, once each *)

Definition wf (capacity : nat) (i : Inner) : Prop :=
  NoDup (order i) ∧ (∀ k, k ∈ order i ↔ is_Some (map i !! k)) ∧ List.length (order i) ≤ capacity.

Lemma wf_size capacity i : wf capacity i → size (map i) = List.length (order i).
Proof.
  intros (Hnd & Hk & _).
  assert (list_to_set (order i) = dom (map i)) as Hdom.
  { apply set_eq. intros k. rewrite elem_of_list_to_set, elem_of_dom. apply Hk. }
  by rewrite <- size_dom, <- Hdom, size_list_to_set.
Qed.

Lemma wf_new capacity c : new capacity = Some c → wf capacity (inner c).
Proof.
  unfold new. case_decide; [|done]. intros [= <-]. split_and!; cbn; [constructor| |lia].
  intros k. rewrite lookup_empty, elem_of_nil. split; [done|by intros [? ?]].
Qed.

Lemma evict_wf capacity i :
  0 < capacity → wf capacity i →
  wf capacity (evict capacity i) ∧ List.length (order (evict capacity i)) < capacity ∧
  (∀ k, map i !! k = None → map (evict capacity i) !! k = None).
Proof.
  intros Hc Hwf. pose proof (wf_size _ _ Hwf) as Hsz. destruct Hwf as (Hnd & Hk & Hlen).
  unfold evict. case_decide as Hfull; [|split_and!; done || lia].
  destruct (order i) as [|o rest] eqn:Eo; [cbn in *; lia|]. cbn in *.
  apply NoDup_cons in Hnd as [Hno Hnd]. unfold wf. split_and!; cbn; try done; try lia.
  - intros k. rewrite lookup_delete. case_decide as Hok; [subst k|].
    + split; [done|by intros [? ?]].
    + rewrite <- Hk, elem_of_cons. naive_solver.
  - intros k Hn. rewrite lookup_delete. by case_decide.
Qed.

(** The cache never exceeds its capacity, its queue stays duplicate-free and lists exactly
    the cached keys: [record] preserves the invariant that [new] establishes. *)
Theorem record_preserves_wf capacity k h i :
  0 < capacity → wf capacity i →
  wf capacity (record capacity k h i).2 ∧ size (map (record capacity k h i).2) ≤ capacity.
Proof.
  intros Hc Hwf.
  assert (wf capacity (record capacity k h i).2) as Hwf'.
  { unfold record. destruct (map i !! k) eqn:Ek; [done|]. cbn.
    destruct (evict_wf capacity i Hc Hwf) as ((Hnd & Hk & _) & Hlt & Hnone).
    specialize (Hnone k Ek).
    assert (k ∉ order (evict capacity i)) as Hni by (rewrite Hk, Hnone; by intros [? ?]).
    split_and!; cbn.
    - apply NoDup_app. split_and!; [done| |apply NoDup_singleton]. set_solver.
    - intros k'. rewrite elem_of_app, list_elem_of_singleton, Hk, lookup_insert.
      case_decide; [subst; split; [by eauto|by right]|]. naive_solver.
    - rewrite length_app. cbn. lia. }
  split; [done|]. rewrite (wf_size _ _ Hwf'). apply Hwf'.
Qed.

Lemma record_preserves_wf_witness :
  let i := mkInner {["a" := "1"]} ["a"] in
  wf 1 (record 1 "b" "2" i).2 ∧ size (map (record 1 "b" "2" i).2) ≤ 1.
Proof.
  apply record_preserves_wf; [lia|]. split_and!; cbn; [apply NoDup_singleton| |lia].
  intros k. rewrite list_elem_of_singleton, lookup_singleton. case_decide; naive_solver.
Defined.

(** *** Refinement: a bounded FIFO list of (key, hash) pairs *)

Fixpoint assoc (k : string) (l : list (string * string)) : option string :=
  match l with
  | [] => None
  | (k', h) :: l' => if decide (k' = k) then Some h else assoc k l'
  end.

(** What the documentation promises: a known key is left alone, a new one is appended and
    pushes the oldest out when the list is full. *)
Definition spec_record (capacity : nat) (k h : string) (l : list (string * string)) :
    list (string * string) :=
  match assoc k l with
  | Some _ => l
  | None => (if decide (capacity ≤ List.length l) then tail l else l) ++ [(k, h)]
  end.

Definition spec_check (k h : string) (l : list (string * string)) : DedupeDecision.t :=
  match assoc k l with
  | None => DedupeDecision.New
  | Some h' => if decide (h' = h) then DedupeDecision.Duplicate else DedupeDecision.Conflict
  end.

Definition refines (i : Inner) (l : list (string * string)) : Prop :=
  order i = List.map fst l ∧ NoDup (List.map fst l) ∧ ∀ k, map i !! k = assoc k l.

Lemma assoc_None k l : assoc k l = None ↔ k ∉ List.map fst l.
Proof.
  induction l as [|[k' h'] l IH]; cbn; [set_solver|].
  case_decide; [subst; set_solver|]. rewrite IH, not_elem_of_cons. naive_solver.
Qed.

Lemma assoc_app k l l' :
  assoc k (l ++ l') = match assoc k l with Some h => Some h | None => assoc k l' end.
Proof. induction l as [|[k' h'] l IH]; cbn; [done|]. by case_decide. Qed.

Lemma refines_wf i l : refines i l → wf (List.length l) i.
Proof.
  intros (Ho & Hnd & Hm). split_and!; rewrite ?Ho; [done| |by rewrite length_map].
  intros k. rewrite Hm. destruct (assoc k l) eqn:E.
  - split; [eauto|]. intros _. destruct (decide (k ∈ List.map fst l)) as [|Hn]; [done|].
    apply assoc_None in Hn. congruence.
  - apply assoc_None in E. split; [done|by intros [? ?]].
Qed.

Lemma evict_refines capacity i l :
  refines i l →
  refines (evict capacity i) (if decide (capacity ≤ List.length l) then tail l else l).
Proof.
  intros Hr. pose proof (wf_size _ _ (refines_wf _ _ Hr)) as Hsz.
  destruct Hr as (Ho & Hnd & Hm). unfold evict. rewrite Hsz, Ho, length_map.
  case_decide; [|done]. destruct l as [|[k h] l]; [done|]. cbn in *.
  apply NoDup_cons in Hnd as [Hno Hnd]. split_and!; cbn; try done.
  intros k'. rewrite lookup_delete, Hm. case_decide; [|done]. subst. symmetry. by apply assoc_None.
Qed.

Lemma check_refines k h i l : refines i l → check k h i = (Ok (spec_check k h l), i).
Proof. intros (_ & _ & Hm). unfold check, spec_check. rewrite Hm. repeat case_match; done. Qed.

Lemma record_refines capacity k h i l :
  refines i l → refines (record capacity k h i).2 (spec_record capacity k h l).
Proof.
  intros Hr. pose proof (evict_refines capacity i l Hr) as (Ho' & Hnd' & Hm').
  unfold record, spec_record. destruct Hr as (Ho & Hnd & Hm). rewrite Hm.
  destruct (assoc k l) eqn:E; [done|].
  set (l1 := if decide (capacity ≤ List.length l) then tail l else l) in *.
  assert (assoc k l1 = None) as Hk.
  { subst l1. case_decide; [|done]. rewrite assoc_None in *. destruct l; [done|]. set_solver. }
  split_and!; cbn.
  - by rewrite map_app, Ho'.
  - rewrite map_app. apply NoDup_app. split_and!; [done| |apply NoDup_singleton].
    rewrite assoc_None in Hk. set_solver.
  - intros k'. rewrite lookup_insert, assoc_app, Hm'. cbn.
    case_decide; [subst; by rewrite Hk|]. by destruct (assoc k' l1).
Qed.

(** C33: [record] and [check] refine the bounded-FIFO specification: from related states they
    return the specified decision and reach related states. *)
Theorem cache_refines_fifo capacity k h i l :
  refines i l →
  check k h i = (Ok (spec_check k h l), i) ∧
  (record capacity k h i).1 = Ok tt ∧
  refines (record capacity k h i).2 (spec_record capacity k h l).
Proof.
  intros Hr. split_and!; [by apply check_refines| |by apply record_refines].
  unfold record. by case_match.
Qed.

Lemma refines_empty : refines (mkInner ∅ []) [].
Proof. split_and!; [done|constructor|done]. Qed.

Lemma refines_singleton k h : refines (mkInner {[k := h]} [k]) [(k, h)].
Proof.
  split_and!; [done|apply NoDup_singleton|]. intros k'. cbn. by rewrite lookup_singleton.
Qed.

Lemma cache_refines_fifo_witness :
  let i := mkInner {["a" := "1"]} ["a"] in
  check "b" "2" i = (Ok DedupeDecision.New, i) ∧
  (record 1 "b" "2" i).1 = Ok tt ∧ refines (record 1 "b" "2" i).2 [("b", "2")].
Proof. exact (cache_refines_fifo 1 "b" "2" _ [("a", "1")] (refines_singleton "a" "1")). Defined.

(** *** What a run of records leaves in the cache *)

Fixpoint record_all (capacity : nat) (l : list (string * string)) (i : Inner) : Inner :=
  match l with
  | [] => i
  | (k, h) :: l' => record_all capacity l' (record capacity k h i).2
  end.

Lemma spec_record_window capacity (l : list (string * string)) k h :
  0 < capacity → k ∉ List.map fst l →
  spec_record capacity k h (drop (List.length l - capacity) l) =
  drop (List.length (l ++ [(k, h)]) - capacity) (l ++ [(k, h)]).
Proof.
  intros Hc Hk. unfold spec_record.
  assert (assoc k (drop (List.length l - capacity) l) = None) as ->.
  { apply assoc_None. contradict Hk. rewrite <- List.skipn_map in Hk.
    by apply elem_of_drop_inv in Hk. }
  rewrite length_drop, length_app. cbn. case_decide as Hfull.
  - rewrite drop_app_le by lia.
    f_equal. assert (∀ x : list (string * string), tail x = drop 1 x) as -> by (by intros []).
    rewrite drop_drop. f_equal. lia.
  - replace (List.length l - capacity) with 0 by lia.
    replace (List.length l + 1 - capacity) with 0 by lia. done.
Qed.

Lemma record_all_app capacity l l' i :
  record_all capacity (l ++ l') i = record_all capacity l' (record_all capacity l i).
Proof. revert i. induction l as [|[k h] l IH]; intros i; cbn; [done|]. apply IH. Qed.

Lemma record_all_refines capacity l :
  0 < capacity → NoDup (List.map fst l) →
  refines (record_all capacity l (mkInner ∅ [])) (drop (List.length l - capacity) l).
Proof.
  intros Hc. induction l as [|[k h] l IH] using rev_ind; intros Hnd; [apply refines_empty|].
  rewrite map_app in Hnd. apply NoDup_app in Hnd as (Hnd & Hdisj & _).
  rewrite record_all_app. cbn. rewrite <- spec_record_window; [|done|set_solver].
  by apply record_refines, IH.
Qed.

(** After recording distinct keys, the cache answers exactly for the last [capacity] of
    them: [Duplicate] for a recorded pair in that window, [Conflict] for its key with another
    hash, [New] for every key outside the window. *)
Theorem cache_is_last_window capacity l k h :
  0 < capacity → NoDup (List.map fst l) →
  let window := drop (List.length l - capacity) l in
  let decision := (check k h (record_all capacity l (mkInner ∅ []))).1 in
  ((k, h) ∈ window → decision = Ok DedupeDecision.Duplicate) ∧
  (∀ h', (k, h') ∈ window → h' ≠ h → decision = Ok DedupeDecision.Conflict) ∧
  (k ∉ List.map fst window → decision = Ok DedupeDecision.New).
Proof.
  intros Hc Hnd window decision. pose proof (record_all_refines capacity l Hc Hnd) as Hr.
  fold window in Hr.
  assert (decision = Ok (spec_check k h window)) as ->.
  { subst decision. by rewrite (check_refines k h _ _ Hr). }
  destruct Hr as (_ & Hndw & _). unfold spec_check.
  assert (∀ h', (k, h') ∈ window → assoc k window = Some h') as Hassoc.
  { intros h' Hin. clear -Hin Hndw. induction window as [|[k1 h1] w IH]; [set_solver|].
    cbn in *. apply NoDup_cons in Hndw as [Hni Hndw]. case_decide as Hk.
    - subst. apply elem_of_cons in Hin as [[= ->]|Hin]; [done|].
      destruct Hni. by apply (list_elem_of_fmap_2 fst) in Hin.
    - apply IH; [done|]. set_solver. }
  split_and!.
  - intros ->%Hassoc. by rewrite decide_True.
  - intros h' ->%Hassoc Hne. by rewrite decide_False.
  - intros ->%assoc_None. done.
Qed.

Lemma cache_is_last_window_witness :
  let l := [("a", "1"); ("b", "2"); ("c", "3")] in
  let d := (check "a" "1" (record_all 2 l (mkInner ∅ []))).1 in
  (("a", "1") ∈ [("b", "2"); ("c", "3")] → d = Ok DedupeDecision.Duplicate) ∧
  (∀ h', ("a", h') ∈ [("b", "2"); ("c", "3")] → h' ≠ "1" → d = Ok DedupeDecision.Conflict) ∧
  ("a" ∉ ["b"; "c"] → d = Ok DedupeDecision.New).
Proof.
  apply (cache_is_last_window 2 [("a", "1"); ("b", "2"); ("c", "3")] "a" "1").
  - lia.
  - apply (bool_decide_unpack _). reflexivity.
Defined.

End InMemoryRecentDedupe.

(** ** LayeredDedupe *)

Module LayeredDedupe.
Section layered.
Context {W : Type}.

Record t : Type := mk { fast : DedupeStrategy W; authoritative : DedupeStrategy W }.

Definition check (self : t) (dedupe_key payload_hash : string) :
    M W (result DedupeDecision.t DedupeError.t) :=
  fast_result <-? Traits.check (fast self) dedupe_key payload_hash ;;
  match fast_result with
  | DedupeDecision.New => Traits.check (authoritative self) dedupe_key payload_hash
  | other => ret (Ok other)
  end.

Definition record (self : t) (dedupe_key payload_hash : string) :
    M W (result unit DedupeError.t) :=
  _ <-? Traits.record (fast self) dedupe_key payload_hash ;;
  _ <-? Traits.record (authoritative self) dedupe_key payload_hash ;;
  ret (Ok tt).

Definition strategy (self : t) : DedupeStrategy W :=
  {| Traits.check := check self; Traits.record := record self |}.

(** Every outcome of the layered check: an error of the fast layer is final; a decision
    other than [New] of the fast layer is returned without consulting the authoritative layer
    (whose state is untouched); otherwise the answer is the authoritative layer's. *)
Theorem layered_check_cases self k h w :
  match Traits.check (fast self) k h w with
  | (Err e, w1) => check self k h w = (Err e, w1)
  | (Ok DedupeDecision.New, w1) => check self k h w = Traits.check (authoritative self) k h w1
  | (Ok d, w1) => check self k h w = (Ok d, w1)
  end.
Proof.
  unfold check, bind_try, bind. destruct (Traits.check (fast self) k h w) as [[[]|e] w1]; done.
Qed.

(** Both layers advisory: so is their composition. *)
#[export] Instance strategy_advisory (S : Storage W) `{!StorageContract S} self :
  AdvisoryDedupe S (fast self) → AdvisoryDedupe S (authoritative self) →
  AdvisoryDedupe S (strategy self).
Proof.
  intros Hf Ha. split; intros k h w; cbn; unfold check, record, bind_try, bind.
  - pose proof (check_frame (D := fast self) k h w) as H1.
    destruct (Traits.check (fast self) k h w) as [[[]|e] w1]; cbn in *; try done.
    etrans; [exact H1|]. apply (check_frame (D := authoritative self)).
  - pose proof (record_frame (D := fast self) k h w) as H1.
    destruct (Traits.record (fast self) k h w) as [[[]|e] w1]; cbn in *; try done.
    pose proof (record_frame (D := authoritative self) k h w1) as H2.
    destruct (Traits.record (authoritative self) k h w1) as [[[]|e] w2]; cbn in *; by etrans.
Qed.
End layered.
Arguments t : clear implicits.
End LayeredDedupe.
