(* ===== verification/Database.v ===== *)
(** * The database: tables, statements, sessions

    The two tables of [crates/hookbox-postgres/migrations/] and the SQL statements of
    [crates/hookbox-postgres/src/storage.rs] and [dedupe.rs], one definition per statement.
    A table is the list of its rows in insertion order.  A statement is a function of the
    database clock [now()], of one [gen_random_uuid()] draw, of the rows other sessions hold
    locked, and of the database; it returns an error and leaves no effect when a constraint
    or a range check fails, or when the server refuses a parameter.  The parameters that carry
    what came with a request, a receipt or an error of a broker are checked; emitter names, which
    [validate_emitter_entries] keeps to ASCII letters, digits, [_] and [-], and the arguments of
    the command line, which are C strings, hold no NUL.  Orders the statement does not ask for
    (ties, [RETURNING]) are table order.

    A session ([Pg]) carries an arbitrary list of infrastructure faults: any statement may
    fail before it takes effect or after (the reply is lost), and a transaction commits all
    its statements or none. *)

From S2P Require Import Prelude RustStd F64 Types Traits.
Local Open Scope Z_scope.

Module ReceiptRow.
Record t : Type := mk {
  receipt_id : Uuid;
  provider_name : string;
  provider_event_id : option string;
  external_reference : option string;
  dedupe_key : string;
  payload_hash : string;
  raw_body : bytes;
  parsed_payload : option Value;
  raw_headers : Value;
  normalized_event_type : option string;
  verification_status : string;
  verification_reason : option string;
  processing_state : string;
  emit_count : Z;
  last_error : option string;
  received_at : DateTime;
  processed_at : option DateTime;
  metadata : Value
}.

(** [UPDATE ... SET processing_state, emit_count, last_error]. *)
Definition set_state (st : string) (count : Z) (err : option string) (r : t) : t :=
  {| receipt_id := receipt_id r;
     provider_name := provider_name r;
     provider_event_id := provider_event_id r;
     external_reference := external_reference r;
     dedupe_key := dedupe_key r;
     payload_hash := payload_hash r;
     raw_body := raw_body r;
     parsed_payload := parsed_payload r;
     raw_headers := raw_headers r;
     normalized_event_type := normalized_event_type r;
     verification_status := verification_status r;
     verification_reason := verification_reason r;
     processing_state := st;
     emit_count := count;
     last_error := err;
     received_at := received_at r;
     processed_at := processed_at r;
     metadata := metadata r |}.
End ReceiptRow.

Module DeliveryRow.
Record t : Type := mk {
  delivery_id : Uuid;
  receipt_id : Uuid;
  emitter_name : string;
  state : string;
  attempt_count : Z;
  last_error : option string;
  last_attempt_at : option DateTime;
  next_attempt_at : DateTime;
  emitted_at : option DateTime;
  immutable : bool;
  created_at : DateTime
}.

Definition set_in_flight (now : DateTime) (d : t) : t :=
  mk (delivery_id d) (receipt_id d) (emitter_name d) "in_flight" (attempt_count d)
    (last_error d) (Some now) (next_attempt_at d) (emitted_at d) (immutable d) (created_at d).

Definition set_emitted (now : DateTime) (d : t) : t :=
  mk (delivery_id d) (receipt_id d) (emitter_name d) "emitted" (attempt_count d)
    None (last_attempt_at d) (next_attempt_at d) (Some now) (immutable d) (created_at d).

Definition set_failed (count : Z) (next : DateTime) (err : string) (d : t) : t :=
  mk (delivery_id d) (receipt_id d) (emitter_name d) "failed" count
    (Some err) (last_attempt_at d) next (emitted_at d) (immutable d) (created_at d).

Definition set_dead_lettered (err : string) (d : t) : t :=
  mk (delivery_id d) (receipt_id d) (emitter_name d) "dead_lettered" (attempt_count d)
    (Some err) (last_attempt_at d) (next_attempt_at d) (emitted_at d) (immutable d) (created_at d).

(** [COALESCE(last_error || ' ', '') || '[reclaimed: lease expired]'] *)
Definition reclaim_error (last : option string) : string :=
  match last with Some e => e +:+ " " | None => EmptyString end +:+ "[reclaimed: lease expired]".

Definition set_reclaimed (now : DateTime) (d : t) : t :=
  mk (delivery_id d) (receipt_id d) (emitter_name d) "failed" (attempt_count d)
    (Some (reclaim_error (last_error d))) (last_attempt_at d) now (emitted_at d) (immutable d)
    (created_at d).
End DeliveryRow.

Record Db : Type := mkDb {
  webhook_receipts : list ReceiptRow.t;
  webhook_deliveries : list DeliveryRow.t
}.

Definition empty_db : Db := mkDb [] [].

(** ** Statements *)

Record Clock : Type := mkClock { now : DateTime; gen_random_uuid : Uuid; locked : Uuid → bool }.

Definition Stmt (A : Type) : Type := Clock → Db → result (A * Db) string.

Definition set_receipts (f : ReceiptRow.t → ReceiptRow.t) (d : Db) : Db :=
  mkDb (map f (webhook_receipts d)) (webhook_deliveries d).
Definition set_deliveries (f : DeliveryRow.t → DeliveryRow.t) (d : Db) : Db :=
  mkDb (webhook_receipts d) (map f (webhook_deliveries d)).

(** [bind] of texts: the server refuses the whole statement when one holds a NUL. *)
Definition bind_text {A} (texts : list (option string)) (s : Stmt A) : Stmt A := λ c d,
  if forallb (λ t, match t with Some t => no_nul t | None => true end) texts then s c d
  else Err "invalid byte sequence for encoding UTF8: 0x00".

(** [LIMIT lim OFFSET off] *)
Definition limit_offset {A} (lim off : Z) (l : list A) : result (list A) string :=
  if lim <? 0 then Err "LIMIT must not be negative"
  else if off <? 0 then Err "OFFSET must not be negative"
  else Ok (take (Z.to_nat lim) (drop (Z.to_nat off) l)).

(** [ORDER BY key ASC] and [ORDER BY key DESC] *)
Definition key_le {A} (key : A → Z) (a b : A) : Prop := key a ≤ key b.
#[export] Instance key_le_dec {A} (key : A → Z) : RelDecision (key_le key).
Proof. intros a b. unfold key_le. apply _. Defined.
Definition order_asc {A} (key : A → Z) (l : list A) : list A := merge_sort (key_le key) l.
Definition order_desc {A} (key : A → Z) (l : list A) : list A :=
  merge_sort (key_le (λ a, - key a)) l.

Definition read {A} (f : Clock → Db → result A string) : Stmt A := λ c d,
  match f c d with Ok a => Ok (a, d) | Err e => Err e end.

(** [UPDATE webhook_deliveries SET f WHERE p]: the rows affected. *)
Definition update_deliveries (p : Clock → DeliveryRow.t → bool)
    (f : Clock → DeliveryRow.t → DeliveryRow.t) : Stmt Z := λ c d,
  Ok (Z.of_nat (List.length (List.filter (p c) (webhook_deliveries d))),
      set_deliveries (λ r, if p c r then f c r else r) d).

Definition update_receipts (p : ReceiptRow.t → bool) (f : ReceiptRow.t → ReceiptRow.t) : Stmt Z :=
  λ c d,
  Ok (Z.of_nat (List.length (List.filter p (webhook_receipts d))),
      set_receipts (λ r, if p r then f r else r) d).

(** *** webhook_receipts *)

Definition has_receipt_id (id : Uuid) (r : ReceiptRow.t) : bool :=
  bool_decide (ReceiptRow.receipt_id r = id).
Definition has_dedupe_key (k : string) (r : ReceiptRow.t) : bool :=
  bool_decide (ReceiptRow.dedupe_key r = k).

(** The parameters of the INSERT, as the server reads them: [TEXT] values hold no NUL, and the
    [JSONB] ones are what [JSONB] makes of them. *)
Definition row_texts (row : ReceiptRow.t) : list (option string) :=
  [Some (ReceiptRow.provider_name row); ReceiptRow.provider_event_id row;
   ReceiptRow.external_reference row; Some (ReceiptRow.dedupe_key row);
   Some (ReceiptRow.payload_hash row); ReceiptRow.normalized_event_type row;
   Some (ReceiptRow.verification_status row); ReceiptRow.verification_reason row;
   Some (ReceiptRow.processing_state row); ReceiptRow.last_error row].
Definition accepts_json `{PgTypes} (v : Value) : bool := match jsonb v with Some _ => true | None => false end.
Definition json_form `{PgTypes} (v : Value) : Value := unwrap_or (jsonb v) v.
Definition json_columns `{PgTypes} (row : ReceiptRow.t) : ReceiptRow.t :=
  {| ReceiptRow.receipt_id := ReceiptRow.receipt_id row;
     ReceiptRow.provider_name := ReceiptRow.provider_name row;
     ReceiptRow.provider_event_id := ReceiptRow.provider_event_id row;
     ReceiptRow.external_reference := ReceiptRow.external_reference row;
     ReceiptRow.dedupe_key := ReceiptRow.dedupe_key row;
     ReceiptRow.payload_hash := ReceiptRow.payload_hash row;
     ReceiptRow.raw_body := ReceiptRow.raw_body row;
     ReceiptRow.parsed_payload := json_form <$> ReceiptRow.parsed_payload row;
     ReceiptRow.raw_headers := json_form (ReceiptRow.raw_headers row);
     ReceiptRow.normalized_event_type := ReceiptRow.normalized_event_type row;
     ReceiptRow.verification_status := ReceiptRow.verification_status row;
     ReceiptRow.verification_reason := ReceiptRow.verification_reason row;
     ReceiptRow.processing_state := ReceiptRow.processing_state row;
     ReceiptRow.emit_count := ReceiptRow.emit_count row;
     ReceiptRow.last_error := ReceiptRow.last_error row;
     ReceiptRow.received_at := ReceiptRow.received_at row;
     ReceiptRow.processed_at := ReceiptRow.processed_at row;
     ReceiptRow.metadata := json_form (ReceiptRow.metadata row) |}.
Definition accepts_columns `{PgTypes} (row : ReceiptRow.t) : bool :=
  match ReceiptRow.parsed_payload row with Some v => accepts_json v | None => true end &&
  accepts_json (ReceiptRow.raw_headers row) && accepts_json (ReceiptRow.metadata row).

(** The entries of a row in the indexes on texts; the partial one has none for a NULL. *)
Definition index_entries (row : ReceiptRow.t) : list (list string) :=
  let text o := match o with Some s => [s] | None => [] end in
  [[ReceiptRow.dedupe_key row]; ReceiptRow.provider_name row :: text (ReceiptRow.provider_event_id row);
   text (ReceiptRow.external_reference row); [ReceiptRow.processing_state row];
   [ReceiptRow.provider_name row; ReceiptRow.processing_state row]].
Definition indexable `{PgTypes} (row : ReceiptRow.t) : bool := forallb index_fits (index_entries row).

(** [INSERT INTO webhook_receipts ... ON CONFLICT (dedupe_key) DO NOTHING RETURNING receipt_id];
    the primary key is not covered by the conflict clause. *)
Definition insert_stored `{PgTypes} (row : ReceiptRow.t) : Stmt (option Uuid) := λ _ d,
  if existsb (has_dedupe_key (ReceiptRow.dedupe_key row)) (webhook_receipts d) then Ok (None, d)
  else if existsb (has_receipt_id (ReceiptRow.receipt_id row)) (webhook_receipts d)
  then Err "duplicate key value violates unique constraint webhook_receipts_pkey"
  else if negb (indexable row) then Err "index row size exceeds btree version 4 maximum 2704"
  else Ok (Some (ReceiptRow.receipt_id row),
           mkDb (webhook_receipts d ++ [row]) (webhook_deliveries d)).
Definition insert_receipt `{PgTypes} (row : ReceiptRow.t) : Stmt (option Uuid) :=
  bind_text (row_texts row) (λ c d,
    if accepts_columns row then insert_stored (json_columns row) c d
    else Err "unsupported Unicode escape sequence").

(** [SELECT receipt_id FROM webhook_receipts WHERE dedupe_key = $1], [fetch_one] *)
Definition select_id_by_key (k : string) : Stmt Uuid := bind_text [Some k] (read (λ _ d,
  match List.find (has_dedupe_key k) (webhook_receipts d) with
  | Some r => Ok (ReceiptRow.receipt_id r)
  | None => Err "no rows returned by a query that expected to return at least one row"
  end)).

(** [SELECT payload_hash FROM webhook_receipts WHERE dedupe_key = $1], [fetch_optional] *)
Definition select_hash_by_key (k : string) : Stmt (option string) := bind_text [Some k] (read (λ _ d,
  Ok (ReceiptRow.payload_hash <$> List.find (has_dedupe_key k) (webhook_receipts d)))).

(** [SELECT ... WHERE receipt_id = $1], [fetch_optional] *)
Definition select_receipt (id : Uuid) : Stmt (option ReceiptRow.t) := read (λ _ d,
  Ok (List.find (has_receipt_id id) (webhook_receipts d))).

Definition update_receipt_state (state : string) (error : option string) (id : Uuid) : Stmt Z :=
  bind_text [error]
    (update_receipts (has_receipt_id id) (λ r, ReceiptRow.set_state state (ReceiptRow.emit_count r) error r)).

(** [$n::text IS NULL OR column = $n]; a NULL column never equals the parameter. *)
Definition opt_filter (p : option string) (column : option string) : bool :=
  match p with None => true | Some v => bool_decide (column = Some v) end.

Definition select_receipts (provider state external event : option string) (lim off : Z) :
    Stmt (list ReceiptRow.t) := bind_text [provider; external; event] (read (λ _ d,
  limit_offset lim off
    (order_desc ReceiptRow.received_at
      (List.filter (λ r,
         opt_filter provider (Some (ReceiptRow.provider_name r)) &&
         opt_filter state (Some (ReceiptRow.processing_state r)) &&
         opt_filter external (ReceiptRow.external_reference r) &&
         opt_filter event (ReceiptRow.provider_event_id r)) (webhook_receipts d))))).

(** [WHERE processing_state = 'emit_failed' AND emit_count < $1 ORDER BY received_at ASC LIMIT 100] *)
Definition retry_where (max_attempts : Z) (r : ReceiptRow.t) : bool :=
  bool_decide (ReceiptRow.processing_state r = "emit_failed") &&
  (ReceiptRow.emit_count r <? max_attempts).
Definition select_for_retry (max_attempts : Z) : Stmt (list ReceiptRow.t) := read (λ _ d,
  limit_offset 100 0
    (order_asc ReceiptRow.received_at (List.filter (retry_where max_attempts) (webhook_receipts d)))).

(** [SET emit_count = emit_count + 1, processing_state = CASE WHEN emit_count + 1 >= $2 THEN
    'dead_lettered' ELSE 'emit_failed' END WHERE receipt_id = $1]; [INTEGER] addition out of
    range is an error. *)
Definition retry_case (max_attempts : Z) (r : ReceiptRow.t) : ReceiptRow.t :=
  let count := ReceiptRow.emit_count r + 1 in
  ReceiptRow.set_state (if max_attempts <=? count then "dead_lettered" else "emit_failed")
    count (ReceiptRow.last_error r) r.
Definition update_retry_failed (id : Uuid) (max_attempts : Z) : Stmt Z := λ c d,
  if existsb (λ r, has_receipt_id id r && (i32_max <? ReceiptRow.emit_count r + 1))
       (webhook_receipts d)
  then Err "integer out of range"
  else update_receipts (has_receipt_id id) (retry_case max_attempts) c d.

Definition update_reset_for_retry (id : Uuid) : Stmt Z :=
  update_receipts (has_receipt_id id)
    (λ r, ReceiptRow.set_state "emit_failed" 0 (ReceiptRow.last_error r) r).

Definition select_by_external_reference (ext : string) (lim : Z) : Stmt (list ReceiptRow.t) :=
  read (λ _ d,
  limit_offset lim 0
    (order_desc ReceiptRow.received_at
      (List.filter (λ r, bool_decide (ReceiptRow.external_reference r = Some ext))
         (webhook_receipts d)))).

Definition select_failed_since (since : DateTime) (lim : Z) (provider : option string) :
    Stmt (list ReceiptRow.t) := read (λ _ d,
  limit_offset lim 0
    (order_asc ReceiptRow.received_at
      (List.filter (λ r,
         bool_decide (ReceiptRow.processing_state r ∈ ["emit_failed"; "dead_lettered"]) &&
         (since <=? ReceiptRow.received_at r) &&
         opt_filter provider (Some (ReceiptRow.provider_name r))) (webhook_receipts d)))).

(** *** webhook_deliveries *)

Definition has_delivery_id (id : Uuid) (r : DeliveryRow.t) : bool :=
  bool_decide (DeliveryRow.delivery_id r = id).

Definition new_delivery (c : Clock) (receipt_id : Uuid) (emitter_name : string) : DeliveryRow.t :=
  {| DeliveryRow.delivery_id := gen_random_uuid c;
     DeliveryRow.receipt_id := receipt_id;
     DeliveryRow.emitter_name := emitter_name;
     DeliveryRow.state := "pending";
     DeliveryRow.attempt_count := 0;
     DeliveryRow.last_error := None;
     DeliveryRow.last_attempt_at := None;
     DeliveryRow.next_attempt_at := now c;
     DeliveryRow.emitted_at := None;
     DeliveryRow.immutable := false;
     DeliveryRow.created_at := now c |}.

(** [INSERT INTO webhook_deliveries (...) VALUES (gen_random_uuid(), $1, $2, 'pending', now(),
    ...) RETURNING delivery_id]: the omitted columns take their defaults; the foreign key and
    the primary key are enforced. *)
Definition insert_delivery (receipt_id : Uuid) (emitter_name : string) : Stmt Uuid := λ c d,
  if existsb (has_delivery_id (gen_random_uuid c)) (webhook_deliveries d)
  then Err "duplicate key value violates unique constraint webhook_deliveries_pkey"
  else if negb (existsb (has_receipt_id receipt_id) (webhook_receipts d))
  then Err "insert or update on table webhook_deliveries violates foreign key constraint"
  else Ok (gen_random_uuid c,
           mkDb (webhook_receipts d)
                (webhook_deliveries d ++ [new_delivery c receipt_id emitter_name])).

(** The dispatch predicate: [emitter_name = $1 AND state IN ('pending', 'failed') AND
    next_attempt_at <= now() AND immutable = FALSE]. *)
Definition dispatchable (emitter_name : string) (c : Clock) (d : DeliveryRow.t) : bool :=
  bool_decide (DeliveryRow.emitter_name d = emitter_name) &&
  bool_decide (DeliveryRow.state d ∈ ["pending"; "failed"]) &&
  (DeliveryRow.next_attempt_at d <=? now c) &&
  negb (DeliveryRow.immutable d).

(** [claim_pending]: [SELECT ... ORDER BY next_attempt_at LIMIT $2 FOR UPDATE SKIP LOCKED],
    then [UPDATE ... SET state = 'in_flight', last_attempt_at = now() ... RETURNING]. *)
Definition claim_ids (emitter_name : string) (batch : Z) (c : Clock) (d : Db) : list Uuid :=
  map DeliveryRow.delivery_id
    (take (Z.to_nat batch)
      (order_asc DeliveryRow.next_attempt_at
        (List.filter (λ r, dispatchable emitter_name c r && negb (locked c (DeliveryRow.delivery_id r)))
           (webhook_deliveries d)))).
Definition claim (emitter_name : string) (batch : Z) : Stmt (list DeliveryRow.t) := λ c d,
  if batch <? 0 then Err "LIMIT must not be negative"
  else
    let ids := claim_ids emitter_name batch c d in
    let claimed r := bool_decide (DeliveryRow.delivery_id r ∈ ids) in
    let d' := set_deliveries (λ r, if claimed r then DeliveryRow.set_in_flight (now c) r else r) d in
    Ok (List.filter claimed (webhook_deliveries d'), d').

(** [last_attempt_at < now() - make_interval(...)]: a NULL timestamp does not match. *)
Definition lease_expired (emitter_name : string) (interval : Z) (c : Clock) (d : DeliveryRow.t) :
    bool :=
  bool_decide (DeliveryRow.emitter_name d = emitter_name) &&
  bool_decide (DeliveryRow.state d = "in_flight") &&
  match DeliveryRow.last_attempt_at d with Some t => t <? now c - interval | None => false end &&
  negb (DeliveryRow.immutable d).
Definition update_reclaim (emitter_name : string) (interval : Z) : Stmt Z :=
  update_deliveries (lease_expired emitter_name interval)
    (λ c d, DeliveryRow.set_reclaimed (now c) d).

(** [WHERE delivery_id = $1 AND state = 'in_flight'] *)
Definition leased (id : Uuid) (_ : Clock) (d : DeliveryRow.t) : bool :=
  has_delivery_id id d && bool_decide (DeliveryRow.state d = "in_flight").
Definition update_emitted (id : Uuid) : Stmt Z :=
  update_deliveries (leased id) (λ c d, DeliveryRow.set_emitted (now c) d).
Definition update_failed (id : Uuid) (count : Z) (next : DateTime) (err : string) : Stmt Z :=
  bind_text [Some err] (update_deliveries (leased id) (λ _ d, DeliveryRow.set_failed count next err d)).
Definition update_dead_lettered (id : Uuid) (err : string) : Stmt Z :=
  bind_text [Some err] (update_deliveries (leased id) (λ _ d, DeliveryRow.set_dead_lettered err d)).

Definition count_where (p : Clock → DeliveryRow.t → bool) : Stmt Z := read (λ c d,
  Ok (Z.of_nat (List.length (List.filter (p c) (webhook_deliveries d))))).

Definition dead_lettered_for (emitter_name : string) (_ : Clock) (d : DeliveryRow.t) : bool :=
  bool_decide (DeliveryRow.emitter_name d = emitter_name) &&
  bool_decide (DeliveryRow.state d = "dead_lettered").
Definition in_flight_for (emitter_name : string) (_ : Clock) (d : DeliveryRow.t) : bool :=
  bool_decide (DeliveryRow.emitter_name d = emitter_name) &&
  bool_decide (DeliveryRow.state d = "in_flight") && negb (DeliveryRow.immutable d).

Definition select_delivery (id : Uuid) : Stmt (option DeliveryRow.t) := read (λ _ d,
  Ok (List.find (has_delivery_id id) (webhook_deliveries d))).

Definition select_deliveries_for_receipt (id : Uuid) : Stmt (list DeliveryRow.t) := read (λ _ d,
  Ok (order_asc DeliveryRow.created_at
        (List.filter (λ r, bool_decide (DeliveryRow.receipt_id r = id)) (webhook_deliveries d)))).

Definition select_dlq (emitter_name : option string) (lim off : Z) : Stmt (list DeliveryRow.t) :=
  bind_text [emitter_name] (read (λ _ d,
  limit_offset lim off
    (order_desc DeliveryRow.created_at
      (List.filter (λ r,
         bool_decide (DeliveryRow.state r = "dead_lettered") &&
         opt_filter emitter_name (Some (DeliveryRow.emitter_name r))) (webhook_deliveries d))))).

(** ** Sessions *)

Inductive Fault : Type :=
| Before (e : string)
| After (e : string).

(** The clock, random draws and locks of each round trip are arbitrary. *)
Record Pg : Type := mkPg {
  db : Db;
  rounds : nat;
  clock_at : nat → Clock;
  faults : list (option Fault)
}.

Definition set_db (d : Db) (w : Pg) : Pg := mkPg d (rounds w) (clock_at w) (faults w).

(** One round trip: consumes the next fault. *)
Definition next_round (w : Pg) : option Fault * Clock * Pg :=
  (match faults w with f :: _ => f | [] => None end,
   clock_at w (rounds w),
   mkPg (db w) (S (rounds w)) (clock_at w) (tail (faults w))).

Definition internal {A} (e : string) : result A StorageError.t := Err (StorageError.Internal e).

(** A statement run on the pool, in a transaction of its own. *)
Definition execute {A} (s : Stmt A) : M Pg (result A StorageError.t) := λ w,
  let '(f, c, w1) := next_round w in
  match f with
  | Some (Before e) => (internal e, w1)
  | _ =>
      match s c (db w1) with
      | Err e => (internal e, w1)
      | Ok (a, d') =>
          (match f with Some (After e) => internal e | _ => Ok a end, set_db d' w1)
      end
  end.

(** An open transaction: its private copy of the database, and the instant it began, which
    is what [now()] returns inside it. *)
Record Tx : Type := mkTx { tx_db : Db; tx_now : DateTime }.

Definition begin : M Pg (result Tx StorageError.t) := λ w,
  let '(f, c, w1) := next_round w in
  match f with
  | Some (Before e) | Some (After e) => (internal e, w1)
  | None => (Ok (mkTx (db w1) (now c)), w1)
  end.

(** A failed statement aborts the transaction: dropping [Tx] without [commit] rolls back. *)
Definition tx_execute {A} (s : Stmt A) (tx : Tx) : M Pg (result (A * Tx) StorageError.t) := λ w,
  let '(f, c, w1) := next_round w in
  match f with
  | Some (Before e) | Some (After e) => (internal e, w1)
  | None =>
      match s (mkClock (tx_now tx) (gen_random_uuid c) (locked c)) (tx_db tx) with
      | Err e => (internal e, w1)
      | Ok (a, d') => (Ok (a, mkTx d' (tx_now tx)), w1)
      end
  end.

Definition commit (tx : Tx) : M Pg (result unit StorageError.t) := λ w,
  let '(f, _, w1) := next_round w in
  match f with
  | Some (Before e) => (internal e, w1)
  | Some (After e) => (internal e, set_db (tx_db tx) w1)
  | None => (Ok tt, set_db (tx_db tx) w1)
  end.

Definition rollback (tx : Tx) : M Pg (result unit StorageError.t) := λ w,
  let '(f, _, w1) := next_round w in
  match f with
  | Some (Before e) | Some (After e) => (internal e, w1)
  | None => (Ok tt, w1)
  end.
