(* ===== verification/Rows.v ===== *)
(** * crates/hookbox-postgres/src/storage.rs: from SQL rows to structs

    The column lists of the SELECT statements and the decoding of what [sqlx] returns for them,
    which the statements of [Database.v] leave out by returning rows as records. *)

From S2P Require Import Prelude RustStd F64 Types Traits Database.
Local Open Scope Z_scope.
Local Open Scope rust_scope.

(** A cell of a result row, with its SQL type. *)
Inductive Cell : Type :=
| CNull
| CUuid (u : Uuid)
| CText (s : string)
| CBytea (b : bytes)
| CJsonb (v : Value)
| CInt4 (n : Z)
| CTimestamptz (t : DateTime)
| CBool (b : bool).

(** A result row: named cells. *)
Definition PgRow : Type := list (string * Cell).

Fixpoint column (name : string) (r : PgRow) : option Cell :=
  match r with
  | [] => None
  | (n, c) :: r' => if decide (n = name) then Some c else column name r'
  end.

(** The texts of [sqlx::Error]. *)
Class SqlxText : Type := {
  column_not_found : string → string;
  column_decode : string → Cell → string
}.

(** [sqlx::Decode]: the Rust type decides which cells are accepted; only an [Option] accepts NULL. *)
Definition as_uuid (c : Cell) : option Uuid := match c with CUuid u => Some u | _ => None end.
Definition as_text (c : Cell) : option string := match c with CText s => Some s | _ => None end.
Definition as_bytea (c : Cell) : option bytes := match c with CBytea b => Some b | _ => None end.
Definition as_jsonb (c : Cell) : option Value := match c with CJsonb v => Some v | _ => None end.
Definition as_int4 (c : Cell) : option Z := match c with CInt4 n => Some n | _ => None end.
Definition as_time (c : Cell) : option DateTime := match c with CTimestamptz t => Some t | _ => None end.
Definition as_bool (c : Cell) : option bool := match c with CBool b => Some b | _ => None end.
Definition nullable {A} (decode : Cell → option A) (c : Cell) : option (option A) :=
  match c with CNull => Some None | _ => Some <$> decode c end.

Section decoding.
Context `{SqlxText}.

(** [r.try_get(name).map_err(|e| StorageError::Internal(e.to_string()))?] *)
Definition try_get {A} (decode : Cell → option A) (name : string) (r : PgRow) : result A StorageError.t :=
  match column name r with
  | None => Err (StorageError.Internal (column_not_found name))
  | Some c => ok_or (decode c) (StorageError.Internal (column_decode name c))
  end.

Notation "'get' x := e ; k" := (and_then e (λ x, k)) (at level 200, x name, k at level 200).

Definition pg_row_to_receipt_row (r : PgRow) : result ReceiptRow.t StorageError.t :=
  get receipt_id := try_get as_uuid "receipt_id" r;
  get provider_name := try_get as_text "provider_name" r;
  get provider_event_id := try_get (nullable as_text) "provider_event_id" r;
  get external_reference := try_get (nullable as_text) "external_reference" r;
  get dedupe_key := try_get as_text "dedupe_key" r;
  get payload_hash := try_get as_text "payload_hash" r;
  get raw_body := try_get as_bytea "raw_body" r;
  get parsed_payload := try_get (nullable as_jsonb) "parsed_payload" r;
  get raw_headers := try_get as_jsonb "raw_headers" r;
  get normalized_event_type := try_get (nullable as_text) "normalized_event_type" r;
  get verification_status := try_get as_text "verification_status" r;
  get verification_reason := try_get (nullable as_text) "verification_reason" r;
  get processing_state := try_get as_text "processing_state" r;
  get emit_count := try_get as_int4 "emit_count" r;
  get last_error := try_get (nullable as_text) "last_error" r;
  get received_at := try_get as_time "received_at" r;
  get processed_at := try_get (nullable as_time) "processed_at" r;
  get metadata := try_get as_jsonb "metadata" r;
  Ok (ReceiptRow.mk receipt_id provider_name provider_event_id external_reference dedupe_key
        payload_hash raw_body parsed_payload raw_headers normalized_event_type verification_status
        verification_reason processing_state emit_count last_error received_at processed_at metadata).

Definition SELECT_COLUMNS : list string :=
  ["receipt_id"; "provider_name"; "provider_event_id"; "external_reference";
   "dedupe_key"; "payload_hash"; "raw_body"; "parsed_payload"; "raw_headers";
   "normalized_event_type"; "verification_status"; "verification_reason";
   "processing_state"; "emit_count"; "last_error"; "received_at"; "processed_at";
   "metadata"].

Definition pg_row_to_delivery_row (r : PgRow) : result DeliveryRow.t StorageError.t :=
  get delivery_id := try_get as_uuid "delivery_id" r;
  get receipt_id := try_get as_uuid "receipt_id" r;
  get emitter_name := try_get as_text "emitter_name" r;
  get state := try_get as_text "state" r;
  get attempt_count := try_get as_int4 "attempt_count" r;
  get last_error := try_get (nullable as_text) "last_error" r;
  get last_attempt_at := try_get (nullable as_time) "last_attempt_at" r;
  get next_attempt_at := try_get as_time "next_attempt_at" r;
  get emitted_at := try_get (nullable as_time) "emitted_at" r;
  get immutable := try_get as_bool "immutable" r;
  get created_at := try_get as_time "created_at" r;
  Ok (DeliveryRow.mk delivery_id receipt_id emitter_name state attempt_count last_error
        last_attempt_at next_attempt_at emitted_at immutable created_at).

Definition SELECT_DELIVERY_COLUMNS : list string :=
  ["delivery_id"; "receipt_id"; "emitter_name"; "state"; "attempt_count";
   "last_error"; "last_attempt_at"; "next_attempt_at"; "emitted_at";
   "immutable"; "created_at"].

(** ** What PostgreSQL returns

    The cells of a table row, in the types of the migrations, and a SELECT of some of them. *)
Definition opt_cell {A} (f : A → Cell) (o : option A) : Cell :=
  match o with Some a => f a | None => CNull end.

Definition receipt_cells (r : ReceiptRow.t) : PgRow :=
  [("receipt_id", CUuid (ReceiptRow.receipt_id r));
   ("provider_name", CText (ReceiptRow.provider_name r));
   ("provider_event_id", opt_cell CText (ReceiptRow.provider_event_id r));
   ("external_reference", opt_cell CText (ReceiptRow.external_reference r));
   ("dedupe_key", CText (ReceiptRow.dedupe_key r));
   ("payload_hash", CText (ReceiptRow.payload_hash r));
   ("raw_body", CBytea (ReceiptRow.raw_body r));
   ("parsed_payload", opt_cell CJsonb (ReceiptRow.parsed_payload r));
   ("raw_headers", CJsonb (ReceiptRow.raw_headers r));
   ("normalized_event_type", opt_cell CText (ReceiptRow.normalized_event_type r));
   ("verification_status", CText (ReceiptRow.verification_status r));
   ("verification_reason", opt_cell CText (ReceiptRow.verification_reason r));
   ("processing_state", CText (ReceiptRow.processing_state r));
   ("emit_count", CInt4 (ReceiptRow.emit_count r));
   ("last_error", opt_cell CText (ReceiptRow.last_error r));
   ("received_at", CTimestamptz (ReceiptRow.received_at r));
   ("processed_at", opt_cell CTimestamptz (ReceiptRow.processed_at r));
   ("metadata", CJsonb (ReceiptRow.metadata r))].

Definition delivery_cells (d : DeliveryRow.t) : PgRow :=
  [("delivery_id", CUuid (DeliveryRow.delivery_id d));
   ("receipt_id", CUuid (DeliveryRow.receipt_id d));
   ("emitter_name", CText (DeliveryRow.emitter_name d));
   ("state", CText (DeliveryRow.state d));
   ("attempt_count", CInt4 (DeliveryRow.attempt_count d));
   ("last_error", opt_cell CText (DeliveryRow.last_error d));
   ("last_attempt_at", opt_cell CTimestamptz (DeliveryRow.last_attempt_at d));
   ("next_attempt_at", CTimestamptz (DeliveryRow.next_attempt_at d));
   ("emitted_at", opt_cell CTimestamptz (DeliveryRow.emitted_at d));
   ("immutable", CBool (DeliveryRow.immutable d));
   ("created_at", CTimestamptz (DeliveryRow.created_at d))].

(** [SELECT columns FROM ...]; a column the table lacks is an SQL error ([None]). *)
Definition select (columns : list string) (cells : PgRow) : option PgRow :=
  mapM (λ name, pair name <$> column name cells) columns.

(** *** Decoding *)

Lemma nullable_opt_cell {A} (f : A → Cell) (decode : Cell → option A) (o : option A) :
  (∀ a, decode (f a) = Some a) → (∀ a, f a ≠ CNull) → nullable decode (opt_cell f o) = Some o.
Proof.
  intros Hf Hnull. destruct o as [a|]; [|done]. cbn [opt_cell]. unfold nullable.
  rewrite Hf. by destruct (f a) eqn:E; [destruct (Hnull a)|..].
Qed.

Lemma and_then_try_get {A B} (decode : Cell → option A) name r (k : A → result B StorageError.t) c a res :
  column name r = Some c → decode c = Some a → k a = res → and_then (try_get decode name r) k = res.
Proof. intros Hc Ha Hk. unfold try_get. by rewrite Hc, Ha. Qed.

Ltac decode_columns :=
  repeat (eapply and_then_try_get; [reflexivity|first [reflexivity | by apply nullable_opt_cell]|]).

(** The columns of a SELECT list all exist, and decode to the row they come from. *)
Theorem receipt_columns_round_trip r :
  ∃ row, select SELECT_COLUMNS (receipt_cells r) = Some row ∧ pg_row_to_receipt_row row = Ok r.
Proof. eexists. split; [reflexivity|]. unfold pg_row_to_receipt_row. decode_columns. by destruct r. Qed.

Theorem delivery_columns_round_trip d :
  ∃ row, select SELECT_DELIVERY_COLUMNS (delivery_cells d) = Some row ∧ pg_row_to_delivery_row row = Ok d.
Proof. eexists. split; [reflexivity|]. unfold pg_row_to_delivery_row. decode_columns. by destruct d. Qed.

Lemma try_get_column {A} (decode : Cell → option A) name r a :
  try_get decode name r = Ok a → is_Some (column name r).
Proof. unfold try_get. destruct (column name r); [eauto|done]. Qed.

Ltac needs_columns Hrow :=
  repeat match type of Hrow with and_then _ _ = Ok _ =>
    let a := fresh "a" in let Ha := fresh "Ha" in
    apply and_then_Ok in Hrow as (a & Ha%try_get_column & Hrow) end.

(** The decoding fails on a row without one of its columns: the SELECT lists ask for nothing more
    than it needs. *)
Theorem every_column_is_needed r :
  (∀ row, pg_row_to_receipt_row r = Ok row → ∀ c, c ∈ SELECT_COLUMNS → is_Some (column c r)) ∧
  (∀ row, pg_row_to_delivery_row r = Ok row → ∀ c, c ∈ SELECT_DELIVERY_COLUMNS → is_Some (column c r)).
Proof.
  split; intros row Hrow c Hc; [unfold pg_row_to_receipt_row in Hrow|unfold pg_row_to_delivery_row in Hrow];
    needs_columns Hrow; repeat (apply elem_of_cons in Hc as [->|Hc]; [done|]);
    by apply not_elem_of_nil in Hc.
Qed.
End decoding.
