(* ===== verification/Samples.v ===== *)
(** * Sample data

    Concrete receipts, tables and sessions that the witnesses run the definitions on. *)

From S2P Require Import Prelude RustStd F64 Types Traits Database.
Local Open Scope Z_scope.

Definition sample_receipt_at (t : DateTime) : WebhookReceipt.t :=
  {| WebhookReceipt.receipt_id := ReceiptId.mk 1%N;
     WebhookReceipt.provider_name := "stripe";
     WebhookReceipt.provider_event_id := None;
     WebhookReceipt.external_reference := None;
     WebhookReceipt.dedupe_key := "stripe:00";
     WebhookReceipt.payload_hash := "00";
     WebhookReceipt.raw_body := [Byte.x7b; Byte.x7d];
     WebhookReceipt.parsed_payload := Some (VObject []);
     WebhookReceipt.raw_headers := VObject [];
     WebhookReceipt.normalized_event_type := None;
     WebhookReceipt.verification_status := VerificationStatus.Verified;
     WebhookReceipt.verification_reason := None;
     WebhookReceipt.processing_state := ProcessingState.Stored;
     WebhookReceipt.emit_count := 0;
     WebhookReceipt.last_error := None;
     WebhookReceipt.received_at := t;
     WebhookReceipt.processed_at := None;
     WebhookReceipt.metadata := VObject [] |}.
Definition sample_receipt : WebhookReceipt.t := sample_receipt_at 1000.

Definition sample_row : ReceiptRow.t :=
  {| ReceiptRow.receipt_id := 1%N;
     ReceiptRow.provider_name := "stripe";
     ReceiptRow.provider_event_id := None;
     ReceiptRow.external_reference := None;
     ReceiptRow.dedupe_key := "stripe:00";
     ReceiptRow.payload_hash := "00";
     ReceiptRow.raw_body := [Byte.x7b; Byte.x7d];
     ReceiptRow.parsed_payload := Some (VObject []);
     ReceiptRow.raw_headers := VObject [];
     ReceiptRow.normalized_event_type := None;
     ReceiptRow.verification_status := "verified";
     ReceiptRow.verification_reason := None;
     ReceiptRow.processing_state := "stored";
     ReceiptRow.emit_count := 0;
     ReceiptRow.last_error := None;
     ReceiptRow.received_at := 1000;
     ReceiptRow.processed_at := None;
     ReceiptRow.metadata := VObject [] |}.

(** A delivery of the sample receipt. *)
Definition sample_delivery (id : Uuid) (state : string) (attempts : Z) (last : option DateTime) :
    DeliveryRow.t :=
  {| DeliveryRow.delivery_id := id;
     DeliveryRow.receipt_id := 1%N;
     DeliveryRow.emitter_name := "kafka";
     DeliveryRow.state := state;
     DeliveryRow.attempt_count := attempts;
     DeliveryRow.last_error := None;
     DeliveryRow.last_attempt_at := last;
     DeliveryRow.next_attempt_at := 1000;
     DeliveryRow.emitted_at := None;
     DeliveryRow.immutable := false;
     DeliveryRow.created_at := 1000 |}.

Definition sample_db (ds : list DeliveryRow.t) : Db := mkDb [sample_row] ds.

(** A session without faults at instant [t], drawing the identifiers [u], [u + 1], ... *)
Definition session (d : Db) (t : DateTime) (u : Uuid) : Pg :=
  mkPg d 0 (λ n, mkClock t (u + N.of_nat n)%N (λ _, false)) [].
