(* ===== verification/DatabaseProps.v ===== *)
(** * Properties of the statements

    The invariant of the two tables and its preservation by every statement, what one round
    trip of a session can do, and the life cycle of a delivery row. *)

From S2P Require Import Prelude RustStd F64 Types Traits Database.
Local Open Scope Z_scope.

(** ** The invariant: the primary keys, the unique index on [dedupe_key], the foreign key, and
    state columns that hold names of the enums. *)
Record db_wf (d : Db) : Prop := mk_db_wf {
  wf_receipt_ids : NoDup (map ReceiptRow.receipt_id (webhook_receipts d));
  wf_dedupe_keys : NoDup (map ReceiptRow.dedupe_key (webhook_receipts d));
  wf_delivery_ids : NoDup (map DeliveryRow.delivery_id (webhook_deliveries d));
  wf_receipt_fk : Forall (λ x, DeliveryRow.receipt_id x ∈ map ReceiptRow.receipt_id (webhook_receipts d))
            (webhook_deliveries d);
  wf_processing_states :
    Forall (λ r, ReceiptRow.processing_state r ∈ map ProcessingState.serde_name ProcessingState.all)
      (webhook_receipts d);
  wf_verification_states :
    Forall (λ r, ReceiptRow.verification_status r
                   ∈ map VerificationStatus.serde_name VerificationStatus.all) (webhook_receipts d);
  wf_delivery_states :
    Forall (λ x, DeliveryRow.state x ∈ map DeliveryState.serde_name DeliveryState.all)
      (webhook_deliveries d)
}.

Definition preserves {A} (I : Db → Prop) (s : Stmt A) : Prop :=
  ∀ c d a d', I d → s c d = Ok (a, d') → I d'.

Create HintDb stmt discriminated.
#[export] Hint Constants Transparent : stmt.

(** A name of an enum, written as a literal. *)
Ltac enum_name := repeat first [apply elem_of_cons; left; reflexivity | apply elem_of_cons; right].

Lemma empty_db_wf : db_wf empty_db.
Proof. split; cbn; repeat constructor. Qed.

Lemma preserves_read {A} I (f : Clock → Db → result A string) : preserves I (read f).
Proof. intros c d a d' HI. unfold read. destruct (f c d); by intros [= <- <-]. Qed.

Lemma Forall_map_keep {A} (P : A → Prop) (f : A → A) l :
  (∀ x, P x → P (f x)) → Forall P l → Forall P (map f l).
Proof. intros Hf Hl. apply Forall_map. eapply Forall_impl; [exact Hl|exact Hf]. Qed.

(** Updates that keep the identifying columns. *)
Lemma set_deliveries_wf f d :
  (∀ x, DeliveryRow.delivery_id (f x) = DeliveryRow.delivery_id x) →
  (∀ x, DeliveryRow.receipt_id (f x) = DeliveryRow.receipt_id x) →
  (∀ x, DeliveryRow.state x ∈ map DeliveryState.serde_name DeliveryState.all →
        DeliveryRow.state (f x) ∈ map DeliveryState.serde_name DeliveryState.all) →
  db_wf d → db_wf (set_deliveries f d).
Proof.
  intros Hid Hr Hs []. split; cbn; try done.
  - rewrite map_map, (map_ext _ _ Hid). done.
  - apply Forall_map_keep; [|done]. intros x. by rewrite Hr.
  - by apply Forall_map_keep.
Qed.

Lemma set_receipts_wf f d :
  (∀ x, ReceiptRow.receipt_id (f x) = ReceiptRow.receipt_id x) →
  (∀ x, ReceiptRow.dedupe_key (f x) = ReceiptRow.dedupe_key x) →
  (∀ x, ReceiptRow.verification_status (f x) = ReceiptRow.verification_status x) →
  (∀ x, ReceiptRow.processing_state x ∈ map ProcessingState.serde_name ProcessingState.all →
        ReceiptRow.processing_state (f x) ∈ map ProcessingState.serde_name ProcessingState.all) →
  db_wf d → db_wf (set_receipts f d).
Proof.
  intros Hid Hk Hv Hs []. split; cbn; try done.
  - rewrite map_map, (map_ext _ _ Hid). done.
  - rewrite map_map, (map_ext _ _ Hk). done.
  - rewrite map_map, (map_ext _ _ Hid). done.
  - by apply Forall_map_keep.
  - apply Forall_map_keep; [|done]. intros x. by rewrite Hv.
Qed.

Lemma update_deliveries_wf p f :
  (∀ c x, DeliveryRow.delivery_id (f c x) = DeliveryRow.delivery_id x) →
  (∀ c x, DeliveryRow.receipt_id (f c x) = DeliveryRow.receipt_id x) →
  (∀ c x, DeliveryRow.state (f c x) ∈ map DeliveryState.serde_name DeliveryState.all) →
  preserves db_wf (update_deliveries p f).
Proof.
  intros Hid Hr Hs c d a d' Hwf [= <- <-]. apply set_deliveries_wf; [..|done].
  all: intros x; destruct (p c x); auto.
Qed.

Lemma update_receipts_wf p f :
  (∀ x, ReceiptRow.receipt_id (f x) = ReceiptRow.receipt_id x) →
  (∀ x, ReceiptRow.dedupe_key (f x) = ReceiptRow.dedupe_key x) →
  (∀ x, ReceiptRow.verification_status (f x) = ReceiptRow.verification_status x) →
  (∀ x, ReceiptRow.processing_state (f x) ∈ map ProcessingState.serde_name ProcessingState.all) →
  preserves db_wf (update_receipts p f).
Proof.
  intros Hid Hk Hv Hs c d a d' Hwf [= <- <-]. apply set_receipts_wf; [..|done].
  all: intros x; destruct (p x); auto.
Qed.

Lemma existsb_false_not_in {A B} `{EqDecision B} (g : A → B) b (l : list A) :
  existsb (λ x, bool_decide (g x = b)) l = false → b ∉ map g l.
Proof.
  intros H Hin. apply list_elem_of_In, in_map_iff in Hin as (x & <- & Hx).
  assert (existsb (λ y, bool_decide (g y = g x)) l = true) as Hc.
  { apply existsb_exists. exists x. split; [done|]. by apply bool_decide_eq_true. }
  congruence.
Qed.

Lemma existsb_true_in {A B} `{EqDecision B} (g : A → B) b (l : list A) :
  existsb (λ x, bool_decide (g x = b)) l = true → b ∈ map g l.
Proof.
  intros (x & Hx & He)%existsb_exists. apply bool_decide_eq_true in He as <-.
  apply list_elem_of_In, in_map, Hx.
Qed.

Lemma NoDup_map_snoc {A B} (g : A → B) (l : list A) x :
  NoDup (map g l) → g x ∉ map g l → NoDup (map g (l ++ [x])).
Proof.
  intros Hnd Hx. rewrite map_app. cbn. apply NoDup_app. split_and!; [done| |apply NoDup_singleton].
  intros y Hy ->%list_elem_of_singleton. done.
Qed.

(** A statement that binds texts and succeeds is the statement itself, on texts without a NUL. *)
Definition texts_ok (texts : list (option string)) : bool :=
  forallb (λ t, match t with Some t => no_nul t | None => true end) texts.

Lemma bind_text_Ok {A} texts (s : Stmt A) c d r :
  bind_text texts s c d = Ok r → texts_ok texts = true ∧ s c d = Ok r.
Proof. unfold bind_text. fold (texts_ok texts). by destruct (texts_ok texts). Qed.
Lemma bind_text_run {A} texts (s : Stmt A) c d : texts_ok texts = true → bind_text texts s c d = s c d.
Proof. unfold bind_text. fold (texts_ok texts). by intros ->. Qed.
Lemma bind_text_refused {A} texts (s : Stmt A) c d :
  texts_ok texts = false → bind_text texts s c d = Err "invalid byte sequence for encoding UTF8: 0x00".
Proof. unfold bind_text. fold (texts_ok texts). by intros ->. Qed.
Lemma texts_ok_one t : texts_ok [Some t] = no_nul t.
Proof. apply andb_true_r. Qed.
Lemma preserves_bind_text {A} I texts (s : Stmt A) : preserves I s → preserves I (bind_text texts s).
Proof. intros Hs c d a d' HI [_ Hrun]%bind_text_Ok. by eapply Hs. Qed.

Section insert_receipt.
Context `{PgTypes}.

(** The parameters the server accepts, and a row it can store. *)
Definition accepted_row (row : ReceiptRow.t) : bool := texts_ok (row_texts row) && accepts_columns row.
Definition storable_row (row : ReceiptRow.t) : bool := accepted_row row && indexable (json_columns row).

Lemma insert_receipt_run row c d :
  accepted_row row = true → insert_receipt row c d = insert_stored (json_columns row) c d.
Proof. intros [Ht Hc]%andb_prop. unfold insert_receipt. by rewrite bind_text_run, Hc. Qed.

Lemma insert_receipt_refused row c d :
  accepted_row row = false → ∃ e, insert_receipt row c d = Err e.
Proof.
  unfold accepted_row, insert_receipt. destruct (texts_ok (row_texts row)) eqn:Et; cbn.
  - rewrite bind_text_run by done. intros ->. eauto.
  - rewrite bind_text_refused by done. eauto.
Qed.

Lemma insert_receipt_Ok row c d r :
  insert_receipt row c d = Ok r → accepted_row row = true ∧ insert_stored (json_columns row) c d = Ok r.
Proof.
  destruct (accepted_row row) eqn:E.
  - by rewrite insert_receipt_run.
  - destruct (insert_receipt_refused row c d E) as [e ->]. done.
Qed.

Lemma insert_receipt_storable row c d u d' : insert_receipt row c d = Ok (Some u, d') → storable_row row = true.
Proof.
  intros [Hacc Hrun]%insert_receipt_Ok. unfold storable_row. rewrite Hacc. unfold insert_stored in Hrun.
  destruct (existsb _ _); [done|]. destruct (existsb _ _); [done|]. by destruct (indexable _).
Qed.

Lemma storable_accepted row : storable_row row = true → accepted_row row = true.
Proof. by intros [? _]%andb_prop. Qed.
End insert_receipt.

Lemma snoc_receipt_wf row d :
  db_wf d → ReceiptRow.dedupe_key row ∉ map ReceiptRow.dedupe_key (webhook_receipts d) →
  ReceiptRow.receipt_id row ∉ map ReceiptRow.receipt_id (webhook_receipts d) →
  ReceiptRow.processing_state row ∈ map ProcessingState.serde_name ProcessingState.all →
  ReceiptRow.verification_status row ∈ map VerificationStatus.serde_name VerificationStatus.all →
  db_wf (mkDb (webhook_receipts d ++ [row]) (webhook_deliveries d)).
Proof.
  intros [] Hk Hi Hp Hv. split; cbn; try done.
  - by apply NoDup_map_snoc.
  - by apply NoDup_map_snoc.
  - eapply Forall_impl; [exact wf_receipt_fk0|]. intros x Hx. cbn. rewrite map_app.
    apply elem_of_app. by left.
  - apply Forall_app; auto.
  - apply Forall_app; auto.
Qed.

Lemma insert_receipt_wf `{PgTypes} row :
  ReceiptRow.processing_state row ∈ map ProcessingState.serde_name ProcessingState.all →
  ReceiptRow.verification_status row ∈ map VerificationStatus.serde_name VerificationStatus.all →
  preserves db_wf (insert_receipt row).
Proof.
  intros Hp Hv c d a d' Hwf [_ Hrun]%insert_receipt_Ok. revert Hrun. unfold insert_stored.
  destruct (existsb _ _) eqn:E1; [by intros [= <- <-]|].
  destruct (existsb (has_receipt_id _) _) eqn:E2; [done|].
  destruct (indexable _); [|done]. intros [= <- <-].
  apply snoc_receipt_wf; [done|by apply existsb_false_not_in..|done|done].
Qed.

Lemma insert_delivery_run receipt_id name c d u d' :
  insert_delivery receipt_id name c d = Ok (u, d') →
  existsb (has_delivery_id (gen_random_uuid c)) (webhook_deliveries d) = false ∧
  existsb (has_receipt_id receipt_id) (webhook_receipts d) = true ∧
  u = gen_random_uuid c ∧
  d' = mkDb (webhook_receipts d) (webhook_deliveries d ++ [new_delivery c receipt_id name]).
Proof.
  unfold insert_delivery. destruct (existsb (has_delivery_id _) _); [done|].
  destruct (existsb _ _); [|done]. by intros [= <- <-].
Qed.

Lemma insert_delivery_wf receipt_id name : preserves db_wf (insert_delivery receipt_id name).
Proof.
  intros c d a d' Hwf (E2 & E1 & -> & ->)%insert_delivery_run. destruct Hwf. split; cbn; try done.
  - apply NoDup_map_snoc; [done|]. by apply existsb_false_not_in.
  - apply Forall_app; split; [done|]. apply Forall_singleton. cbn. by apply existsb_true_in.
  - apply Forall_app; split; [done|]. apply Forall_singleton. cbn. by enum_name.
Qed.

Lemma claim_wf name batch : preserves db_wf (claim name batch).
Proof.
  intros c d a d' Hwf. unfold claim. destruct (batch <? 0); [done|]. intros [= <- <-].
  apply set_deliveries_wf; [..|done].
  all: intros x; destruct (bool_decide _); try done. intros _. cbn. by enum_name.
Qed.

Lemma update_receipt_state_wf st err id :
  st ∈ map ProcessingState.serde_name ProcessingState.all →
  preserves db_wf (update_receipt_state st err id).
Proof. intros Hs. by apply preserves_bind_text, update_receipts_wf. Qed.

Lemma update_reset_for_retry_wf id : preserves db_wf (update_reset_for_retry id).
Proof. apply update_receipts_wf; try done. intros x. by enum_name. Qed.

Lemma update_retry_failed_wf id m : preserves db_wf (update_retry_failed id m).
Proof.
  intros c d a d' Hwf. unfold update_retry_failed. destruct (existsb _ _); [done|].
  revert c d a d' Hwf. apply update_receipts_wf; try done.
  intros x. unfold retry_case. cbn. destruct (_ <=? _); by enum_name.
Qed.

Lemma update_reclaim_wf name i : preserves db_wf (update_reclaim name i).
Proof. apply update_deliveries_wf; try done. intros c x. cbn. by enum_name. Qed.
Lemma update_emitted_wf id : preserves db_wf (update_emitted id).
Proof. apply update_deliveries_wf; try done. intros c x. cbn. by enum_name. Qed.
Lemma update_failed_wf id n t e : preserves db_wf (update_failed id n t e).
Proof. apply preserves_bind_text, update_deliveries_wf; try done. intros c x. cbn. by enum_name. Qed.
Lemma update_dead_lettered_wf id e : preserves db_wf (update_dead_lettered id e).
Proof. apply preserves_bind_text, update_deliveries_wf; try done. intros c x. cbn. by enum_name. Qed.

#[export] Hint Resolve preserves_read preserves_bind_text insert_delivery_wf claim_wf update_reset_for_retry_wf
  update_retry_failed_wf update_reclaim_wf update_emitted_wf update_failed_wf
  update_dead_lettered_wf : stmt.

(** ** Round trips *)

Definition tick (w : Pg) : Pg := mkPg (db w) (S (rounds w)) (clock_at w) (tail (faults w)).
Definition clock (w : Pg) : Clock := clock_at w (rounds w).
Definition healthy (w : Pg) : Prop := faults w = [].

(** What a statement on the pool can do: fail with the database untouched, or take effect; in
    the second case the reply may still be lost. *)
Lemma execute_inv {A} (s : Stmt A) w r w' :
  execute s w = (r, w') →
  (∃ e, r = internal e ∧ db w' = db w) ∨
  (∃ a, s (clock w) (db w) = Ok (a, db w') ∧ (r = Ok a ∨ ∃ e, r = internal e)).
Proof.
  unfold execute, next_round, clock. cbn.
  destruct (match faults w with f :: _ => f | [] => None end) as [[e|e]|].
  - intros [= <- <-]. left. eauto.
  - destruct (s _ _) as [[a d']|e'] eqn:E; intros [= <- <-]; [right|left]; cbn; eauto 10.
  - destruct (s _ _) as [[a d']|e'] eqn:E; intros [= <- <-]; [right|left]; cbn; eauto 10.
Qed.

Lemma execute_preserves {A} I (s : Stmt A) w :
  preserves I s → I (db w) → I (db (execute s w).2).
Proof.
  intros Hs HI. destruct (execute s w) as [r w'] eqn:E. cbn.
  apply execute_inv in E as [(e & -> & ->)|(a & Ha & _)]; [done|]. by eapply Hs.
Qed.

Lemma execute_healthy {A} (s : Stmt A) w :
  healthy w →
  execute s w =
  match s (clock w) (db w) with
  | Ok (a, d') => (Ok a, set_db d' (tick w))
  | Err e => (internal e, tick w)
  end.
Proof.
  unfold healthy, execute, next_round, clock, tick. intros ->. cbn.
  by destruct (s _ _) as [[a d']|e].
Qed.

(** A query on the pool never changes the database. *)
Lemma execute_read {A} (f : Clock → Db → result A string) w : db (execute (read f) w).2 = db w.
Proof.
  destruct (execute (read f) w) as [r w'] eqn:E. cbn.
  apply execute_inv in E as [(e & -> & ->)|(a & Ha & _)]; [done|].
  unfold read in Ha. by destruct (f _ _); simplify_eq.
Qed.

Lemma execute_bind_read {A} texts (f : Clock → Db → result A string) w :
  db (execute (bind_text texts (read f)) w).2 = db w.
Proof.
  destruct (execute (bind_text texts (read f)) w) as [r w'] eqn:E. cbn.
  apply execute_inv in E as [(e & -> & ->)|(a & [_ Ha]%bind_text_Ok & _)]; [done|].
  unfold read in Ha. by destruct (f _ _); simplify_eq.
Qed.

Lemma select_id_by_key_db k w : db (execute (select_id_by_key k) w).2 = db w.
Proof. apply execute_bind_read. Qed.

Lemma select_receipt_db id w : db (execute (select_receipt id) w).2 = db w.
Proof. apply execute_read. Qed.

(** Inside a transaction the database itself does not move. *)
Lemma tx_execute_db {A} (s : Stmt A) tx w : db (tx_execute s tx w).2 = db w.
Proof.
  unfold tx_execute, next_round.
  destruct (match faults w with f :: _ => f | [] => None end) as [[e|e]|]; try done.
  by destruct (s _ _) as [[a d']|e].
Qed.

Lemma tx_execute_inv {A} (s : Stmt A) tx w a tx' w' :
  tx_execute s tx w = (Ok (a, tx'), w') →
  db w' = db w ∧ tx_now tx' = tx_now tx ∧
  ∃ u, s (mkClock (tx_now tx) u (locked (clock w))) (tx_db tx) = Ok (a, tx_db tx').
Proof.
  unfold tx_execute, next_round, clock. cbn.
  destruct (match faults w with f :: _ => f | [] => None end) as [[e|e]|]; try done.
  destruct (s _ _) as [[b d']|e] eqn:E; intros [= <- <- <-]. eauto.
Qed.

Lemma begin_inv w r w' :
  begin w = (r, w') →
  db w' = db w ∧ match r with Ok tx => tx_db tx = db w ∧ tx_now tx = now (clock w) | Err _ => True end.
Proof.
  unfold begin, next_round.
  destruct (match faults w with f :: _ => f | [] => None end) as [[e|e]|];
    by intros [= <- <-].
Qed.

Lemma commit_inv tx w r w' :
  commit tx w = (r, w') →
  match r with Ok _ => db w' = tx_db tx | Err _ => db w' = db w ∨ db w' = tx_db tx end.
Proof.
  unfold commit, next_round.
  destruct (match faults w with f :: _ => f | [] => None end) as [[e|e]|];
    intros [= <- <-]; cbn; auto.
Qed.

Lemma rollback_db tx w : db (rollback tx w).2 = db w.
Proof.
  unfold rollback, next_round.
  by destruct (match faults w with f :: _ => f | [] => None end) as [[e|e]|].
Qed.

(** ** Claims *)

(** The rows a claim may take: dispatchable, and locked by nobody else. *)
Definition ready (name : string) (c : Clock) (d : Db) : list DeliveryRow.t :=
  List.filter (λ r, dispatchable name c r && negb (locked c (DeliveryRow.delivery_id r)))
    (webhook_deliveries d).
Definition due_first (name : string) (c : Clock) (d : Db) : list DeliveryRow.t :=
  order_asc DeliveryRow.next_attempt_at (ready name c d).

#[export] Instance key_le_total {A} (key : A → Z) : Total (key_le key).
Proof. intros x y. unfold key_le. lia. Qed.
#[export] Instance key_le_trans {A} (key : A → Z) : Transitive (key_le key).
Proof. intros x y z. unfold key_le. lia. Qed.

Lemma order_asc_perm {A} (key : A → Z) l : order_asc key l ≡ₚ l.
Proof. apply merge_sort_Permutation. Qed.

Lemma order_asc_sorted {A} (key : A → Z) l : StronglySorted (key_le key) (order_asc key l).
Proof. apply StronglySorted_merge_sort; apply _. Qed.

Lemma elem_of_due_first name c d r :
  r ∈ due_first name c d ↔
  r ∈ webhook_deliveries d ∧ dispatchable name c r = true ∧ locked c (DeliveryRow.delivery_id r) = false.
Proof.
  unfold due_first, ready. rewrite order_asc_perm, elem_of_List_filter, andb_true_iff, negb_true_iff.
  done.
Qed.

Lemma due_first_ids_NoDup name c d :
  db_wf d → NoDup (map DeliveryRow.delivery_id (due_first name c d)).
Proof.
  intros Hwf. eapply NoDup_map_sublist; [|apply (wf_delivery_ids _ Hwf)].
  unfold due_first. rewrite order_asc_perm. apply List_filter_submseteq.
Qed.

Lemma claim_ids_take name batch c d :
  claim_ids name batch c d =
  map DeliveryRow.delivery_id (take (Z.to_nat batch) (due_first name c d)).
Proof. done. Qed.

Lemma claim_ids_NoDup name batch c d : db_wf d → NoDup (claim_ids name batch c d).
Proof.
  intros Hwf. eapply NoDup_map_sublist; [|apply (due_first_ids_NoDup name c d Hwf)].
  apply sublist_submseteq, sublist_take.
Qed.

Lemma elem_of_claim_ids name batch c d i :
  i ∈ claim_ids name batch c d →
  ∃ r, r ∈ webhook_deliveries d ∧ DeliveryRow.delivery_id r = i ∧
       dispatchable name c r = true ∧ locked c i = false.
Proof.
  rewrite claim_ids_take, elem_of_List_map. intros (r & Hr%elem_of_take_inv & ->).
  apply elem_of_due_first in Hr as (? & ? & ?). eauto.
Qed.

Lemma length_claim_ids name batch c d :
  List.length (claim_ids name batch c d) = Nat.min (Z.to_nat batch) (List.length (ready name c d)).
Proof.
  rewrite claim_ids_take, length_map, length_take. unfold due_first. by rewrite order_asc_perm.
Qed.

(** A ready row that is left behind is due no earlier than any row that is taken. *)
Lemma claim_oldest_first name batch c d r r' :
  db_wf d → r ∈ due_first name c d → DeliveryRow.delivery_id r ∉ claim_ids name batch c d →
  r' ∈ webhook_deliveries d → DeliveryRow.delivery_id r' ∈ claim_ids name batch c d →
  DeliveryRow.next_attempt_at r' ≤ DeliveryRow.next_attempt_at r.
Proof.
  intros Hwf Hr Hnot Hr' Hin. rewrite claim_ids_take in *.
  apply elem_of_List_map in Hin as (r2 & Hr2 & Hid).
  assert (r' = r2) as <-.
  { eapply (NoDup_map_inj_on DeliveryRow.delivery_id); [apply (wf_delivery_ids _ Hwf)|done| |done].
    by apply elem_of_take_inv, elem_of_due_first in Hr2 as [? _]. }
  pose proof (order_asc_sorted DeliveryRow.next_attempt_at (ready name c d)) as Hs.
  fold (due_first name c d) in Hs.
  rewrite <- (take_drop (Z.to_nat batch) (due_first name c d)) in Hr, Hs.
  apply elem_of_app in Hr as [Hr|Hr].
  - destruct Hnot. apply elem_of_List_map. eauto.
  - eapply (StronglySorted_app_1_elem_of (key_le _)) in Hs; [|exact Hr2|exact Hr]. done.
Qed.

Lemma claim_effect name batch c d :
  0 ≤ batch →
  claim name batch c d =
  Ok (List.filter (λ r, bool_decide (DeliveryRow.delivery_id r ∈ claim_ids name batch c d))
        (webhook_deliveries (set_deliveries (λ r,
           if bool_decide (DeliveryRow.delivery_id r ∈ claim_ids name batch c d)
           then DeliveryRow.set_in_flight (now c) r else r) d)),
      set_deliveries (λ r,
        if bool_decide (DeliveryRow.delivery_id r ∈ claim_ids name batch c d)
        then DeliveryRow.set_in_flight (now c) r else r) d).
Proof. intros Hb. unfold claim. destruct (batch <? 0) eqn:E; [lia|done]. Qed.

Lemma claimed_rows name batch c d rows d' :
  db_wf d → claim name batch c d = Ok (rows, d') →
  List.length rows = Nat.min (Z.to_nat batch) (List.length (ready name c d)) ∧
  ∀ x, x ∈ rows ↔
    x ∈ webhook_deliveries d' ∧ DeliveryRow.delivery_id x ∈ claim_ids name batch c d.
Proof.
  intros Hwf Hrun. pose proof Hrun as Hwf'. apply (claim_wf _ _ _ _ _ _ Hwf) in Hwf'.
  unfold claim in Hrun. destruct (batch <? 0); [done|]. injection Hrun as <- <-.
  split.
  - rewrite length_filter_keys; [by apply length_claim_ids|exact (wf_delivery_ids _ Hwf')|by apply claim_ids_NoDup|].
    intros i (r & Hr & <- & _)%elem_of_claim_ids. cbn. rewrite map_map.
    apply elem_of_List_map. exists r. split; [done|]. by destruct (bool_decide _).
  - intros x. by rewrite elem_of_List_filter, bool_decide_eq_true.
Qed.

(** A claimed row is a ready row, now in flight. *)
Lemma claimed_row_origin name batch c d rows d' x :
  db_wf d → claim name batch c d = Ok (rows, d') → x ∈ rows →
  ∃ r, r ∈ webhook_deliveries d ∧ x = DeliveryRow.set_in_flight (now c) r ∧
       dispatchable name c r = true ∧ locked c (DeliveryRow.delivery_id r) = false.
Proof.
  intros Hwf Hrun Hx. unfold claim in Hrun. destruct (batch <? 0); [done|].
  injection Hrun as <- <-. apply elem_of_List_filter in Hx as [Hx Hin%bool_decide_eq_true].
  cbn in Hx. apply elem_of_List_map in Hx as (r & Hr & ->).
  destruct (bool_decide (DeliveryRow.delivery_id r ∈ _)) eqn:E; [|by apply bool_decide_eq_false in E].
  cbn in Hin. apply elem_of_claim_ids in Hin as (r' & Hr' & Hid & Hdis & Hlock).
  assert (r' = r) as -> by (eapply (NoDup_map_inj_on DeliveryRow.delivery_id);
    [apply (wf_delivery_ids _ Hwf)|done..]).
  eauto.
Qed.

(** ** Deciding the invariant, for concrete tables *)
#[export] Instance db_wf_dec d : Decision (db_wf d).
Proof.
  refine (cast_if (decide (
    NoDup (map ReceiptRow.receipt_id (webhook_receipts d)) ∧
    NoDup (map ReceiptRow.dedupe_key (webhook_receipts d)) ∧
    NoDup (map DeliveryRow.delivery_id (webhook_deliveries d)) ∧
    Forall (λ x, DeliveryRow.receipt_id x ∈ map ReceiptRow.receipt_id (webhook_receipts d))
      (webhook_deliveries d) ∧
    Forall (λ r, ReceiptRow.processing_state r ∈ map ProcessingState.serde_name ProcessingState.all)
      (webhook_receipts d) ∧
    Forall (λ r, ReceiptRow.verification_status r
                   ∈ map VerificationStatus.serde_name VerificationStatus.all) (webhook_receipts d) ∧
    Forall (λ x, DeliveryRow.state x ∈ map DeliveryState.serde_name DeliveryState.all)
      (webhook_deliveries d))));
  [by split; naive_solver|intros []; naive_solver].
Defined.
