(* ===== verification/Postgres.v ===== *)
(** * crates/hookbox-postgres: PostgresStorage and StorageDedupe

    The methods of [src/storage.rs] and [src/dedupe.rs], each the sequence of statements the
    source runs, over the session [Pg] of [Database.v]. *)

From S2P Require Import Prelude RustStd F64 Types Traits Transitions Database.
Local Open Scope Z_scope.
Local Open Scope rust_scope.

(** ** Rows *)

Section rows.
Context `{SerdeJson}.

(** [serialize_enum]: the JSON text of the variant name, without its quotes. *)
Definition serialize_enum (serde_name : string) : result string StorageError.t :=
  Ok (trim_matches_quote (json_of_str serde_name)).

(** [deserialize_enum]: the text in quotes is parsed as a JSON string, which must be a variant
    name of the enum. *)
Definition deserialize_enum {T} (all : list T) (serde_name : T → string) (s : string) :
    result T StorageError.t :=
  let quoted := quote +:+ s +:+ quote in
  match json_to_str quoted with
  | None => Err (StorageError.Serialization (json_error quoted))
  | Some n =>
      match List.find (λ v, bool_decide (serde_name v = n)) all with
      | Some v => Ok v
      | None => Err (StorageError.Serialization (json_error quoted))
      end
  end.

Definition receipt_from_row (row : ReceiptRow.t) : result WebhookReceipt.t StorageError.t :=
  match deserialize_enum VerificationStatus.all VerificationStatus.serde_name
          (ReceiptRow.verification_status row) with
  | Err e => Err e
  | Ok verification_status =>
  match deserialize_enum ProcessingState.all ProcessingState.serde_name
          (ReceiptRow.processing_state row) with
  | Err e => Err e
  | Ok processing_state =>
      Ok {| WebhookReceipt.receipt_id := ReceiptId.mk (ReceiptRow.receipt_id row);
            WebhookReceipt.provider_name := ReceiptRow.provider_name row;
            WebhookReceipt.provider_event_id := ReceiptRow.provider_event_id row;
            WebhookReceipt.external_reference := ReceiptRow.external_reference row;
            WebhookReceipt.dedupe_key := ReceiptRow.dedupe_key row;
            WebhookReceipt.payload_hash := ReceiptRow.payload_hash row;
            WebhookReceipt.raw_body := ReceiptRow.raw_body row;
            WebhookReceipt.parsed_payload := ReceiptRow.parsed_payload row;
            WebhookReceipt.raw_headers := ReceiptRow.raw_headers row;
            WebhookReceipt.normalized_event_type := ReceiptRow.normalized_event_type row;
            WebhookReceipt.verification_status := verification_status;
            WebhookReceipt.verification_reason := ReceiptRow.verification_reason row;
            WebhookReceipt.processing_state := processing_state;
            WebhookReceipt.emit_count := ReceiptRow.emit_count row;
            WebhookReceipt.last_error := ReceiptRow.last_error row;
            WebhookReceipt.received_at := ReceiptRow.received_at row;
            WebhookReceipt.processed_at := ReceiptRow.processed_at row;
            WebhookReceipt.metadata := ReceiptRow.metadata row |}
  end
  end.

Definition delivery_from_row (row : DeliveryRow.t) : result WebhookDelivery.t StorageError.t :=
  match deserialize_enum DeliveryState.all DeliveryState.serde_name (DeliveryRow.state row) with
  | Err e => Err e
  | Ok state =>
      Ok {| WebhookDelivery.delivery_id := DeliveryId.mk (DeliveryRow.delivery_id row);
            WebhookDelivery.receipt_id := ReceiptId.mk (DeliveryRow.receipt_id row);
            WebhookDelivery.emitter_name := DeliveryRow.emitter_name row;
            WebhookDelivery.state := state;
            WebhookDelivery.attempt_count := DeliveryRow.attempt_count row;
            WebhookDelivery.last_error := DeliveryRow.last_error row;
            WebhookDelivery.last_attempt_at := DeliveryRow.last_attempt_at row;
            WebhookDelivery.next_attempt_at := DeliveryRow.next_attempt_at row;
            WebhookDelivery.emitted_at := DeliveryRow.emitted_at row;
            WebhookDelivery.immutable := DeliveryRow.immutable row;
            WebhookDelivery.created_at := DeliveryRow.created_at row |}
  end.

(** The bindings of the [INSERT INTO webhook_receipts] statement, as [sqlx] sends them. *)
Definition receipt_row `{PgTypes} (receipt : WebhookReceipt.t) (processing_state verification_status : string) :
    ReceiptRow.t :=
  {| ReceiptRow.receipt_id := ReceiptId.uuid (WebhookReceipt.receipt_id receipt);
     ReceiptRow.provider_name := WebhookReceipt.provider_name receipt;
     ReceiptRow.provider_event_id := WebhookReceipt.provider_event_id receipt;
     ReceiptRow.external_reference := WebhookReceipt.external_reference receipt;
     ReceiptRow.dedupe_key := WebhookReceipt.dedupe_key receipt;
     ReceiptRow.payload_hash := WebhookReceipt.payload_hash receipt;
     ReceiptRow.raw_body := WebhookReceipt.raw_body receipt;
     ReceiptRow.parsed_payload := WebhookReceipt.parsed_payload receipt;
     ReceiptRow.raw_headers := WebhookReceipt.raw_headers receipt;
     ReceiptRow.normalized_event_type := WebhookReceipt.normalized_event_type receipt;
     ReceiptRow.verification_status := verification_status;
     ReceiptRow.verification_reason := WebhookReceipt.verification_reason receipt;
     ReceiptRow.processing_state := processing_state;
     ReceiptRow.emit_count := WebhookReceipt.emit_count receipt;
     ReceiptRow.last_error := WebhookReceipt.last_error receipt;
     ReceiptRow.received_at := timestamptz (WebhookReceipt.received_at receipt);
     ReceiptRow.processed_at := timestamptz <$> WebhookReceipt.processed_at receipt;
     ReceiptRow.metadata := WebhookReceipt.metadata receipt |}.

Definition processing_state_text (r : WebhookReceipt.t) : result string StorageError.t :=
  serialize_enum (ProcessingState.serde_name (WebhookReceipt.processing_state r)).
Definition verification_status_text (r : WebhookReceipt.t) : result string StorageError.t :=
  serialize_enum (VerificationStatus.serde_name (WebhookReceipt.verification_status r)).

End rows.

Module PostgresStorage.
Section methods.
Context `{SerdeJson} `{PgTypes} `{UuidText}.

(** ** impl Storage for PostgresStorage *)

Definition store (receipt : WebhookReceipt.t) : M Pg (result StoreResult.t StorageError.t) :=
  processing_state <-? lift_result (processing_state_text receipt) ;;
  verification_status <-? lift_result (verification_status_text receipt) ;;
  inserted <-? execute (insert_receipt (receipt_row receipt processing_state verification_status)) ;;
  match inserted with
  | Some _ => ret (Ok StoreResult.Stored)
  | None =>
      existing <-? execute (select_id_by_key (WebhookReceipt.dedupe_key receipt)) ;;
      ret (Ok (StoreResult.Duplicate (ReceiptId.mk existing)))
  end.

(** The loop over the emitter names, inside the transaction. *)
Fixpoint insert_deliveries (receipt_id : Uuid) (names : list string) (tx : Tx) :
    M Pg (result (list Uuid * Tx) StorageError.t) :=
  match names with
  | [] => ret (Ok ([], tx))
  | name :: names' =>
      '(id, tx1) <-? tx_execute (insert_delivery receipt_id name) tx ;;
      '(ids, tx2) <-? insert_deliveries receipt_id names' tx1 ;;
      ret (Ok (id :: ids, tx2))
  end.

Definition store_with_deliveries (receipt : WebhookReceipt.t) (emitter_names : list string) :
    M Pg (result StoreResult.t StorageError.t) :=
  processing_state <-? lift_result (processing_state_text receipt) ;;
  verification_status <-? lift_result (verification_status_text receipt) ;;
  tx <-? begin ;;
  '(inserted, tx) <-?
    tx_execute (insert_receipt (receipt_row receipt processing_state verification_status)) tx ;;
  match inserted with
  | None =>
      _ <-? rollback tx ;;
      existing <-? execute (select_id_by_key (WebhookReceipt.dedupe_key receipt)) ;;
      ret (Ok (StoreResult.Duplicate (ReceiptId.mk existing)))
  | Some _ =>
      '(_, tx) <-?
        insert_deliveries (ReceiptId.uuid (WebhookReceipt.receipt_id receipt)) emitter_names tx ;;
      _ <-? commit tx ;;
      ret (Ok StoreResult.Stored)
  end.

Definition get (id : Uuid) : M Pg (result (option WebhookReceipt.t) StorageError.t) :=
  row <-? execute (select_receipt id) ;;
  ret (match row with
       | None => Ok None
       | Some r => match receipt_from_row r with Ok x => Ok (Some x) | Err e => Err e end
       end).

Definition update_state (id : Uuid) (state : ProcessingState.t) (error : option string) :
    M Pg (result unit StorageError.t) :=
  state_str <-? lift_result (serialize_enum (ProcessingState.serde_name state)) ;;
  _ <-? execute (update_receipt_state state_str error id) ;;
  ret (Ok tt).

Definition query (filter : ReceiptFilter.t) : M Pg (result (list WebhookReceipt.t) StorageError.t) :=
  state_str <-? lift_result
    (match ReceiptFilter.processing_state filter with
     | None => Ok None
     | Some s => match serialize_enum (ProcessingState.serde_name s) with
                 | Ok t => Ok (Some t) | Err e => Err e end
     end) ;;
  rows <-? execute (select_receipts (ReceiptFilter.provider_name filter) state_str
    (ReceiptFilter.external_reference filter) (ReceiptFilter.provider_event_id filter)
    (unwrap_or (ReceiptFilter.limit filter) 1000) (unwrap_or (ReceiptFilter.offset filter) 0)) ;;
  ret (try_collect receipt_from_row rows).

(** ** Ops-specific queries *)

Definition query_for_retry (max_attempts : Z) :
    M Pg (result (list WebhookReceipt.t) StorageError.t) :=
  rows <-? execute (select_for_retry max_attempts) ;;
  ret (try_collect receipt_from_row rows).

Definition retry_failed (id : Uuid) (max_attempts : Z) : M Pg (result unit StorageError.t) :=
  _ <-? execute (update_retry_failed id max_attempts) ;;
  ret (Ok tt).

Definition reset_for_retry (id : Uuid) : M Pg (result unit StorageError.t) :=
  rows_affected <-? execute (update_reset_for_retry id) ;;
  if decide (rows_affected = 0)
  then ret (Err (StorageError.Internal ("no receipt found with id " +:+ uuid_to_string id)))
  else ret (Ok tt).

Definition query_by_external_reference (external_ref : string) (limit : option Z) :
    M Pg (result (list WebhookReceipt.t) StorageError.t) :=
  rows <-? execute (select_by_external_reference external_ref (unwrap_or limit 50)) ;;
  ret (try_collect receipt_from_row rows).

Definition query_failed_since (provider : option string) (since : DateTime) (limit : option Z) :
    M Pg (result (list WebhookReceipt.t) StorageError.t) :=
  rows <-? execute (select_failed_since (timestamptz since) (unwrap_or limit 100) provider) ;;
  ret (try_collect receipt_from_row rows).

(** ** impl DeliveryStorage for PostgresStorage *)

(** The receipt of a delivery row, which must exist. *)
Definition with_receipt (row : DeliveryRow.t) :
    M Pg (result (WebhookDelivery.t * WebhookReceipt.t) StorageError.t) :=
  delivery <-? lift_result (delivery_from_row row) ;;
  receipt <-? get (DeliveryRow.receipt_id row) ;;
  ret (match receipt with
       | Some r => Ok (delivery, r)
       | None => Err (StorageError.Internal "delivery references missing receipt")
       end).

Definition claim_pending (emitter_name : string) (batch_size : Z) :
    M Pg (result (list (WebhookDelivery.t * WebhookReceipt.t)) StorageError.t) :=
  rows <-? execute (claim emitter_name batch_size) ;;
  map_try with_receipt rows.

Definition reclaim_expired (emitter_name : string) (lease_duration : Duration) :
    M Pg (result Z StorageError.t) :=
  let lease_secs := as_secs_f64 lease_duration in
  execute (update_reclaim emitter_name (make_interval lease_secs)).

Definition mark_emitted (delivery_id : DeliveryId.t) : M Pg (result unit StorageError.t) :=
  _ <-? execute (update_emitted (DeliveryId.uuid delivery_id)) ;;
  ret (Ok tt).

Definition mark_failed (delivery_id : DeliveryId.t) (attempt_count : Z)
    (next_attempt_at : DateTime) (last_error : string) : M Pg (result unit StorageError.t) :=
  _ <-? execute (update_failed (DeliveryId.uuid delivery_id) attempt_count (timestamptz next_attempt_at)
                   last_error) ;;
  ret (Ok tt).

Definition mark_dead_lettered (delivery_id : DeliveryId.t) (last_error : string) :
    M Pg (result unit StorageError.t) :=
  _ <-? execute (update_dead_lettered (DeliveryId.uuid delivery_id) last_error) ;;
  ret (Ok tt).

(** [u64::try_from(count)] *)
Definition count_u64 (p : Clock → DeliveryRow.t → bool) : M Pg (result Z StorageError.t) :=
  count <-? execute (count_where p) ;;
  ret (ok_or (u64_try_from count)
         (StorageError.Internal "out of range integral type conversion attempted")).

Definition count_dlq (emitter_name : string) : M Pg (result Z StorageError.t) :=
  count_u64 (dead_lettered_for emitter_name).

Definition count_pending (emitter_name : string) : M Pg (result Z StorageError.t) :=
  count_u64 (dispatchable emitter_name).

Definition count_in_flight (emitter_name : string) : M Pg (result Z StorageError.t) :=
  count_u64 (in_flight_for emitter_name).

Definition insert_replay (receipt_id : ReceiptId.t) (emitter_name : string) :
    M Pg (result DeliveryId.t StorageError.t) :=
  delivery_id <-? execute (insert_delivery (ReceiptId.uuid receipt_id) emitter_name) ;;
  ret (Ok (DeliveryId.mk delivery_id)).

Definition insert_replays (receipt_id : ReceiptId.t) (emitter_names : list string) :
    M Pg (result (list DeliveryId.t) StorageError.t) :=
  tx <-? begin ;;
  '(ids, tx) <-? insert_deliveries (ReceiptId.uuid receipt_id) emitter_names tx ;;
  _ <-? commit tx ;;
  ret (Ok (map DeliveryId.mk ids)).

Definition get_delivery (delivery_id : DeliveryId.t) :
    M Pg (result (option (WebhookDelivery.t * WebhookReceipt.t)) StorageError.t) :=
  row <-? execute (select_delivery (DeliveryId.uuid delivery_id)) ;;
  match row with
  | None => ret (Ok None)
  | Some r => p <-? with_receipt r ;; ret (Ok (Some p))
  end.

Definition get_deliveries_for_receipt (receipt_id : ReceiptId.t) :
    M Pg (result (list WebhookDelivery.t) StorageError.t) :=
  rows <-? execute (select_deliveries_for_receipt (ReceiptId.uuid receipt_id)) ;;
  ret (try_collect delivery_from_row rows).

Definition list_dlq (emitter_name : option string) (limit offset : Z) :
    M Pg (result (list (WebhookDelivery.t * WebhookReceipt.t)) StorageError.t) :=
  rows <-? execute (select_dlq emitter_name limit offset) ;;
  map_try with_receipt rows.

(** The trait objects. *)
Definition storage : Storage Pg :=
  {| Traits.store := store;
     Traits.get := get;
     Traits.update_state := update_state;
     Traits.query := query;
     Traits.store_with_deliveries := store_with_deliveries |}.

Definition delivery_storage : DeliveryStorage Pg StorageError.t :=
  {| Traits.claim_pending := claim_pending;
     Traits.reclaim_expired := reclaim_expired;
     Traits.mark_emitted := mark_emitted;
     Traits.mark_failed := mark_failed;
     Traits.mark_dead_lettered := mark_dead_lettered;
     Traits.count_dlq := count_dlq;
     Traits.count_pending := count_pending;
     Traits.count_in_flight := count_in_flight;
     Traits.insert_replay := insert_replay;
     Traits.insert_replays := insert_replays;
     Traits.get_delivery := get_delivery;
     Traits.get_deliveries_for_receipt := get_deliveries_for_receipt;
     Traits.list_dlq := list_dlq |}.

End methods.
End PostgresStorage.

(** ** StorageDedupe *)

Module StorageDedupe.

Definition check (dedupe_key payload_hash : string) :
    M Pg (result DedupeDecision.t DedupeError.t) :=
  stored <- execute (select_hash_by_key dedupe_key) ;;
  ret (match stored with
       | Err e => Err (DedupeError.Internal
                         (match e with StorageError.Internal m => m | _ => StorageError.to_string e end))
       | Ok None => Ok DedupeDecision.New
       | Ok (Some h) =>
           if decide (h = payload_hash) then Ok DedupeDecision.Duplicate
           else Ok DedupeDecision.Conflict
       end).

Definition record (_dedupe_key _payload_hash : string) : M Pg (result unit DedupeError.t) :=
  ret (Ok tt).

Definition strategy : DedupeStrategy Pg :=
  {| Traits.check := check; Traits.record := record |}.

End StorageDedupe.
