(* ===== verification/PostgresProps.v ===== *)
(** * Properties of PostgresStorage

    Rows read back as they were written; [store_with_deliveries] is atomic and meets the
    storage contract of [Traits.v]; [StorageDedupe] is advisory; every method keeps the
    invariant of the tables; what a claim, a reclaim and the legacy retry statements do. *)

From S2P Require Import Prelude RustStd F64 Types Traits Transitions Database DatabaseProps Postgres Instances Samples.
Local Open Scope Z_scope.
Local Open Scope rust_scope.

(** ** Rows *)

(** The row that reads as the receipt. *)
Definition db_receipt (r : WebhookReceipt.t) : ReceiptRow.t :=
  {| ReceiptRow.receipt_id := ReceiptId.uuid (WebhookReceipt.receipt_id r);
     ReceiptRow.provider_name := WebhookReceipt.provider_name r;
     ReceiptRow.provider_event_id := WebhookReceipt.provider_event_id r;
     ReceiptRow.external_reference := WebhookReceipt.external_reference r;
     ReceiptRow.dedupe_key := WebhookReceipt.dedupe_key r;
     ReceiptRow.payload_hash := WebhookReceipt.payload_hash r;
     ReceiptRow.raw_body := WebhookReceipt.raw_body r;
     ReceiptRow.parsed_payload := WebhookReceipt.parsed_payload r;
     ReceiptRow.raw_headers := WebhookReceipt.raw_headers r;
     ReceiptRow.normalized_event_type := WebhookReceipt.normalized_event_type r;
     ReceiptRow.verification_status := VerificationStatus.serde_name (WebhookReceipt.verification_status r);
     ReceiptRow.verification_reason := WebhookReceipt.verification_reason r;
     ReceiptRow.processing_state := ProcessingState.serde_name (WebhookReceipt.processing_state r);
     ReceiptRow.emit_count := WebhookReceipt.emit_count r;
     ReceiptRow.last_error := WebhookReceipt.last_error r;
     ReceiptRow.received_at := WebhookReceipt.received_at r;
     ReceiptRow.processed_at := WebhookReceipt.processed_at r;
     ReceiptRow.metadata := WebhookReceipt.metadata r |}.

(** What an INSERT binds for a receipt, and the receipt its row then reads as: the columns keep
    whole microseconds and the [JSONB] form of values. *)
Definition bound_receipt `{PgTypes} (r : WebhookReceipt.t) : ReceiptRow.t :=
  receipt_row r (ProcessingState.serde_name (WebhookReceipt.processing_state r))
    (VerificationStatus.serde_name (WebhookReceipt.verification_status r)).
Definition stored_form `{PgTypes} (r : WebhookReceipt.t) : WebhookReceipt.t :=
  {| WebhookReceipt.receipt_id := WebhookReceipt.receipt_id r;
     WebhookReceipt.provider_name := WebhookReceipt.provider_name r;
     WebhookReceipt.provider_event_id := WebhookReceipt.provider_event_id r;
     WebhookReceipt.external_reference := WebhookReceipt.external_reference r;
     WebhookReceipt.dedupe_key := WebhookReceipt.dedupe_key r;
     WebhookReceipt.payload_hash := WebhookReceipt.payload_hash r;
     WebhookReceipt.raw_body := WebhookReceipt.raw_body r;
     WebhookReceipt.parsed_payload := json_form <$> WebhookReceipt.parsed_payload r;
     WebhookReceipt.raw_headers := json_form (WebhookReceipt.raw_headers r);
     WebhookReceipt.normalized_event_type := WebhookReceipt.normalized_event_type r;
     WebhookReceipt.verification_status := WebhookReceipt.verification_status r;
     WebhookReceipt.verification_reason := WebhookReceipt.verification_reason r;
     WebhookReceipt.processing_state := WebhookReceipt.processing_state r;
     WebhookReceipt.emit_count := WebhookReceipt.emit_count r;
     WebhookReceipt.last_error := WebhookReceipt.last_error r;
     WebhookReceipt.received_at := timestamptz (WebhookReceipt.received_at r);
     WebhookReceipt.processed_at := timestamptz <$> WebhookReceipt.processed_at r;
     WebhookReceipt.metadata := json_form (WebhookReceipt.metadata r) |}.

(** A receipt whose parameters the server accepts, and one it can store. *)
Definition accepted_receipt `{PgTypes} (r : WebhookReceipt.t) : bool := accepted_row (bound_receipt r).
Definition storable `{PgTypes} (r : WebhookReceipt.t) : bool := storable_row (bound_receipt r).

Section stored.
Context `{PgTypes}.

Lemma stored_columns r : json_columns (bound_receipt r) = db_receipt (stored_form r).
Proof. done. Qed.

(** A receipt in whole microseconds and plain JSON is stored as it is. *)
Definition exact_receipt (r : WebhookReceipt.t) : bool :=
  (WebhookReceipt.received_at r `mod` 1000 =? 0) &&
  match WebhookReceipt.processed_at r with Some t => t `mod` 1000 =? 0 | None => true end &&
  match WebhookReceipt.parsed_payload r with Some v => json_exact v | None => true end &&
  json_exact (WebhookReceipt.raw_headers r) && json_exact (WebhookReceipt.metadata r).

Lemma json_form_exact v : json_exact v = true → json_form v = v.
Proof. intros Hv. unfold json_form. by rewrite jsonb_exact. Qed.

Lemma exact_stored_form r : exact_receipt r = true → stored_form r = r.
Proof.
  unfold exact_receipt. intros [[[[Ht%Z.eqb_eq Hp]%andb_prop Hj]%andb_prop Hh]%andb_prop Hm]%andb_prop.
  unfold stored_form. rewrite (timestamptz_whole _ Ht), !json_form_exact by done.
  destruct r as [? ? ? ? ? ? ? payload ? ? ? ? ? ? ? ? processed ?]. cbn in *. f_equal.
  - destruct payload as [v|]; cbn; [|done]. by rewrite json_form_exact.
  - destruct processed as [t|]; cbn; [|done]. apply Z.eqb_eq in Hp. by rewrite timestamptz_whole.
Qed.

Lemma timestamptz_idemp t : timestamptz (timestamptz t) = timestamptz t.
Proof. apply timestamptz_whole, timestamptz_micros. Qed.
End stored.

Section rows.
Context `{SerdeJson}.

Lemma serialize_processing_state s :
  serialize_enum (ProcessingState.serde_name s) = Ok (ProcessingState.serde_name s).
Proof. unfold serialize_enum. by destruct s; cbn [ProcessingState.serde_name]; rewrite json_of_plain. Qed.

Lemma serialize_verification_status s :
  serialize_enum (VerificationStatus.serde_name s) = Ok (VerificationStatus.serde_name s).
Proof. unfold serialize_enum. by destruct s; cbn [VerificationStatus.serde_name]; rewrite json_of_plain. Qed.

Lemma deserialize_processing_state s :
  deserialize_enum ProcessingState.all ProcessingState.serde_name (ProcessingState.serde_name s) = Ok s.
Proof. unfold deserialize_enum. rewrite json_to_plain; by destruct s. Qed.

Lemma deserialize_verification_status s :
  deserialize_enum VerificationStatus.all VerificationStatus.serde_name
    (VerificationStatus.serde_name s) = Ok s.
Proof. unfold deserialize_enum. rewrite json_to_plain; by destruct s. Qed.

Lemma deserialize_delivery_state s :
  deserialize_enum DeliveryState.all DeliveryState.serde_name (DeliveryState.serde_name s) = Ok s.
Proof. unfold deserialize_enum. rewrite json_to_plain; by destruct s. Qed.

Lemma delivery_state_of_name n :
  n ∈ map DeliveryState.serde_name DeliveryState.all → ∃ s, n = DeliveryState.serde_name s.
Proof. intros (s & -> & _)%list_elem_of_fmap_1. eauto. Qed.

Lemma receipt_round_trip r : receipt_from_row (db_receipt r) = Ok r.
Proof.
  unfold receipt_from_row, db_receipt. cbn.
  rewrite deserialize_verification_status, deserialize_processing_state. by destruct r as [[]].
Qed.

(** Every row of a well-formed table is readable. *)
Lemma receipt_from_row_total row :
  ReceiptRow.processing_state row ∈ map ProcessingState.serde_name ProcessingState.all →
  ReceiptRow.verification_status row ∈ map VerificationStatus.serde_name VerificationStatus.all →
  ∃ r, receipt_from_row row = Ok r ∧ db_receipt r = row.
Proof.
  intros (p & Hp & _)%list_elem_of_fmap_1 (v & Hv & _)%list_elem_of_fmap_1.
  unfold receipt_from_row. rewrite Hp, Hv.
  rewrite deserialize_verification_status, deserialize_processing_state.
  eexists; split; [done|]. unfold db_receipt. destruct row; cbn in *. by subst.
Qed.

Definition db_delivery (d : WebhookDelivery.t) : DeliveryRow.t :=
  DeliveryRow.mk (DeliveryId.uuid (WebhookDelivery.delivery_id d))
    (ReceiptId.uuid (WebhookDelivery.receipt_id d)) (WebhookDelivery.emitter_name d)
    (DeliveryState.serde_name (WebhookDelivery.state d)) (WebhookDelivery.attempt_count d)
    (WebhookDelivery.last_error d) (WebhookDelivery.last_attempt_at d)
    (WebhookDelivery.next_attempt_at d) (WebhookDelivery.emitted_at d)
    (WebhookDelivery.immutable d) (WebhookDelivery.created_at d).

Lemma delivery_from_row_total row :
  DeliveryRow.state row ∈ map DeliveryState.serde_name DeliveryState.all →
  ∃ d, delivery_from_row row = Ok d ∧ db_delivery d = row.
Proof.
  intros (s & Hs)%delivery_state_of_name. unfold delivery_from_row. rewrite Hs.
  rewrite deserialize_delivery_state. eexists; split; [done|]. unfold db_delivery.
  destruct row; cbn in *. by subst.
Qed.

Lemma delivery_from_row_inv row d : delivery_from_row row = Ok d → 
  DeliveryRow.state row ∈ map DeliveryState.serde_name DeliveryState.all → db_delivery d = row.
Proof. intros Hd (d' & Hd' & <-)%delivery_from_row_total. congruence. Qed.
End rows.

(** ** The inbox of a session *)

Definition pg_key_owner (w : Pg) (k : string) : option ReceiptId.t :=
  (λ r, ReceiptId.mk (ReceiptRow.receipt_id r)) <$>
  List.find (has_dedupe_key k) (webhook_receipts (db w)).
Definition pg_persisted `{PgTypes} (w : Pg) (r : WebhookReceipt.t) : Prop :=
  db_receipt (stored_form r) ∈ webhook_receipts (db w).
Definition pg_queued (w : Pg) : list (ReceiptId.t * string) :=
  map (λ d, (ReceiptId.mk (DeliveryRow.receipt_id d), DeliveryRow.emitter_name d))
    (webhook_deliveries (db w)).
Notation pg_same_inbox := (same_inbox pg_key_owner pg_persisted pg_queued).
Notation pg_accepted := (accepted_transition pg_key_owner pg_persisted pg_queued).

Lemma pg_same_inbox_db `{PgTypes} w w' : db w' = db w → pg_same_inbox w w'.
Proof.
  intros E. unfold same_inbox, pg_key_owner, pg_persisted, pg_queued. by rewrite E.
Qed.

Lemma find_has_key_None k (l : list ReceiptRow.t) :
  existsb (has_dedupe_key k) l = false → List.find (has_dedupe_key k) l = None.
Proof. induction l as [|r l IH]; cbn; [done|]. by destruct (has_dedupe_key k r). Qed.

Lemma find_has_key_Some k (l : list ReceiptRow.t) :
  existsb (has_dedupe_key k) l = true → ∃ r, List.find (has_dedupe_key k) l = Some r.
Proof. induction l as [|r l IH]; cbn; [done|]. destruct (has_dedupe_key k r); eauto. Qed.

Section inserts.
Context `{SerdeJson}.

(** The rows a loop of [INSERT]s appends to the transaction. *)
Lemma insert_deliveries_inv id names tx w ids tx' w' :
  PostgresStorage.insert_deliveries id names tx w = (Ok (ids, tx'), w') →
  db w' = db w ∧ ∃ new,
    tx_db tx' = mkDb (webhook_receipts (tx_db tx)) (webhook_deliveries (tx_db tx) ++ new) ∧
    map DeliveryRow.delivery_id new = ids ∧
    Forall2 (λ d n, ∃ u, d = new_delivery (mkClock (tx_now tx) u (λ _, false)) id n) new names ∧
    (db_wf (tx_db tx) → db_wf (tx_db tx')).
Proof.
  revert tx w ids tx' w'. induction names as [|n names IH]; intros tx w ids tx' w'.
  { cbn. intros [= <- <- <-]. split; [done|]. exists []. rewrite app_nil_r.
    split_and!; [by destruct (tx_db tx)|done|constructor|done]. }
  cbn. unfold bind_try, bind.
  destruct (tx_execute _ tx w) as [[[u tx1]|e] w1] eqn:E1; [|done].
  apply tx_execute_inv in E1 as (Hw & Ht & u' & Hins).
  destruct (PostgresStorage.insert_deliveries id names tx1 w1) as [[[us tx2]|e] w2] eqn:E2; [|done].
  intros [= <- <- <-]. apply IH in E2 as (Hw2 & new & Htx & Hids & Hnew & Hwf).
  split; [congruence|].
  pose proof (λ H, insert_delivery_wf _ _ _ _ _ _ H Hins) as Hwf1.
  apply insert_delivery_run in Hins as (_ & _ & -> & Hdb).
  exists (new_delivery (mkClock (tx_now tx) u' (locked (clock w))) id n :: new).
  rewrite Hdb in Htx. cbn in Htx. rewrite <- app_assoc in Htx. cbn [app] in Htx.
  split_and!; [done|by cbn; rewrite Hids| |by auto]. constructor; [by exists u'|]. by rewrite <- Ht.
Qed.

Lemma insert_deliveries_db id names tx w :
  db (PostgresStorage.insert_deliveries id names tx w).2 = db w.
Proof.
  revert tx w. induction names as [|n names IH]; intros tx w; [done|].
  cbn. unfold bind_try, bind.
  pose proof (tx_execute_db (insert_delivery id n) tx w) as Hw.
  destruct (tx_execute _ tx w) as [[[u tx1]|e] w1]; [|done]. cbn in Hw.
  specialize (IH tx1 w1).
  destruct (PostgresStorage.insert_deliveries id names tx1 w1) as [[[us tx2]|e] w2];
    cbn in *; congruence.
Qed.
End inserts.

(** ** insert_replays *)

(** The rows a replay adds: one pending row per name, in order. *)
Definition replayed (id : Uuid) (names : list string) (d d' : Db) (new : list DeliveryRow.t) : Prop :=
  d' = mkDb (webhook_receipts d) (webhook_deliveries d ++ new) ∧
  ∃ t, Forall2 (λ x n, ∃ u, x = new_delivery (mkClock t u (λ _, false)) id n) new names.

Lemma insert_replays_inv id names w res w' :
  PostgresStorage.insert_replays id names w = (res, w') →
  match res with
  | Ok ids => ∃ new, replayed (ReceiptId.uuid id) names (db w) (db w') new ∧
                     (db_wf (db w) → db_wf (db w')) ∧
                     ids = map (λ x, DeliveryId.mk (DeliveryRow.delivery_id x)) new
  | Err _ => db w' = db w ∨ ∃ new, replayed (ReceiptId.uuid id) names (db w) (db w') new ∧
                                   (db_wf (db w) → db_wf (db w'))
  end.
Proof.
  unfold PostgresStorage.insert_replays, bind_try, bind, ret.
  destruct (begin w) as [[tx|e] w1] eqn:Eb; apply begin_inv in Eb as [Hw1 Htx];
    [destruct Htx as [Htx _]|intros [= <- <-]; by left].
  pose proof (insert_deliveries_db (ReceiptId.uuid id) names tx w1) as Hw2.
  destruct (PostgresStorage.insert_deliveries _ names tx w1) as [[[ids tx2]|e] w2] eqn:Ei;
    cbn in Hw2; [|intros [= <- <-]; left; congruence].
  apply insert_deliveries_inv in Ei as (_ & new & Htx2 & <- & Hnew & Hwf). rewrite Htx in Htx2, Hwf.
  assert (replayed (ReceiptId.uuid id) names (db w) (tx_db tx2) new) as Hrep by (split; eauto).
  destruct (commit tx2 w2) as [[[]|e] w3] eqn:Ec; apply commit_inv in Ec; intros [= <- <-].
  - exists new. rewrite Ec. split_and!; [done..|]. by rewrite map_map.
  - destruct Ec as [->| ->]; [left; congruence|right; eauto].
Qed.

Lemma insert_replays_effect id names w :
  db (PostgresStorage.insert_replays id names w).2 = db w ∨
  ∃ new, replayed (ReceiptId.uuid id) names (db w) (db (PostgresStorage.insert_replays id names w).2) new ∧
    (db_wf (db w) → db_wf (db (PostgresStorage.insert_replays id names w).2)).
Proof.
  destruct (PostgresStorage.insert_replays id names w) as [res w'] eqn:E.
  apply insert_replays_inv in E. destruct res; naive_solver.
Qed.

(** ** store_with_deliveries *)

(** The rows of a committed call: the receipt in the form the columns keep and, for each emitter
    name in order, a fresh pending row due at the instant [t] the transaction began. *)
Definition committed `{PgTypes} (r : WebhookReceipt.t) (names : list string) (t : DateTime) (d d' : Db) : Prop :=
  WebhookReceipt.dedupe_key r ∉ map ReceiptRow.dedupe_key (webhook_receipts d) ∧
  ReceiptId.uuid (WebhookReceipt.receipt_id r) ∉ map ReceiptRow.receipt_id (webhook_receipts d) ∧
  ∃ new,
    d' = mkDb (webhook_receipts d ++ [db_receipt (stored_form r)]) (webhook_deliveries d ++ new) ∧
    Forall2 (λ x n, ∃ u, x = new_delivery (mkClock t u (λ _, false))
                               (ReceiptId.uuid (WebhookReceipt.receipt_id r)) n) new names.

(** It keeps the invariant of the tables, and the server could store the receipt. *)
Definition commits `{PgTypes} (r : WebhookReceipt.t) (names : list string) (t : DateTime) (d d' : Db) : Prop :=
  committed r names t d d' ∧ (db_wf d → db_wf d') ∧ storable r = true.

Section store.
Context `{SerdeJson} `{PgTypes} `{UuidText}.

Lemma processing_state_text_ok r :
  processing_state_text r = Ok (ProcessingState.serde_name (WebhookReceipt.processing_state r)).
Proof. apply serialize_processing_state. Qed.
Lemma verification_status_text_ok r :
  verification_status_text r = Ok (VerificationStatus.serde_name (WebhookReceipt.verification_status r)).
Proof. apply serialize_verification_status. Qed.

Lemma insert_receipt_inv row c d a d' :
  insert_receipt row c d = Ok (a, d') →
  (a = None ∧ d' = d ∧ ∃ x, List.find (has_dedupe_key (ReceiptRow.dedupe_key row)) (webhook_receipts d) = Some x) ∨
  (a = Some (ReceiptRow.receipt_id row) ∧
   ReceiptRow.dedupe_key row ∉ map ReceiptRow.dedupe_key (webhook_receipts d) ∧
   ReceiptRow.receipt_id row ∉ map ReceiptRow.receipt_id (webhook_receipts d) ∧
   d' = mkDb (webhook_receipts d ++ [json_columns row]) (webhook_deliveries d)).
Proof.
  intros [_ Hrun]%insert_receipt_Ok. revert Hrun. unfold insert_stored. destruct (existsb _ _) eqn:E1.
  - intros [= <- <-]. left. split_and!; [done..|]. by apply find_has_key_Some.
  - destruct (existsb (has_receipt_id _) _) eqn:E2; [done|]. destruct (indexable _); [|done].
    intros [= <- <-]. right. split_and!; [done| | |done]; by apply existsb_false_not_in.
Qed.

(** The reply to a duplicate: the id of the stored receipt, or an infrastructure error. *)
Lemma fetch_existing_inv k w res w' :
  bind_try (execute (select_id_by_key k))
    (λ existing, ret (Ok (StoreResult.Duplicate (ReceiptId.mk existing)))) w = (res, w') →
  (∃ x, List.find (has_dedupe_key k) (webhook_receipts (db w)) = Some x) →
  db w' = db w ∧
  match res with
  | Ok (StoreResult.Duplicate id) => pg_key_owner w k = Some id
  | Ok StoreResult.Stored => False
  | Err _ => True
  end.
Proof.
  unfold bind_try, bind. intros Hrun (x & Hx).
  pose proof (select_id_by_key_db k w) as Hdb.
  destruct (execute _ w) as [r w1] eqn:E. cbn in Hdb.
  apply execute_inv in E as [(e & -> & _)|(a & Ha & Hr)].
  { injection Hrun as <- <-. done. }
  apply bind_text_Ok in Ha as [_ Ha]. unfold read in Ha. rewrite Hx in Ha. injection Ha as <- _.
  destruct Hr as [->|[e ->]]; injection Hrun as <- <-; split; try done.
  unfold pg_key_owner. by rewrite Hx.
Qed.

Lemma db_wf_snoc_receipt r d :
  db_wf d →
  ReceiptRow.dedupe_key (db_receipt r) ∉ map ReceiptRow.dedupe_key (webhook_receipts d) →
  ReceiptRow.receipt_id (db_receipt r) ∉ map ReceiptRow.receipt_id (webhook_receipts d) →
  db_wf (mkDb (webhook_receipts d ++ [db_receipt r]) (webhook_deliveries d)).
Proof.
  intros Hd Hk Hi. apply snoc_receipt_wf; [done..| |].
  - cbn. destruct (WebhookReceipt.processing_state r); enum_name.
  - cbn. destruct (WebhookReceipt.verification_status r); enum_name.
Qed.

Lemma store_with_deliveries_inv r names w res w' :
  PostgresStorage.store_with_deliveries r names w = (res, w') →
  match res with
  | Ok StoreResult.Stored => commits r names (now (clock w)) (db w) (db w')
  | Ok (StoreResult.Duplicate id) =>
      db w' = db w ∧ pg_key_owner w (WebhookReceipt.dedupe_key r) = Some id
  | Err _ => db w' = db w ∨ commits r names (now (clock w)) (db w) (db w')
  end.
Proof.
  unfold PostgresStorage.store_with_deliveries, lift_result.
  rewrite processing_state_text_ok, verification_status_text_ok.
  unfold bind_try at 1 2, bind at 1 2. cbn [ret]. fold (bound_receipt r).
  unfold bind_try at 1, bind at 1.
  destruct (begin w) as [[tx|e] w1] eqn:Eb; apply begin_inv in Eb as [Hw1 Htx];
    [destruct Htx as [Htx Hnow]|intros [= <- <-]; by left].
  unfold bind_try at 1, bind at 1.
  pose proof (tx_execute_db (insert_receipt (bound_receipt r)) tx w1) as Hw2.
  destruct (tx_execute (insert_receipt (bound_receipt r)) tx w1) as [[[ins tx2]|e] w2] eqn:Ei;
    [|intros [= <- <-]; left; cbn in Hw2; congruence].
  apply tx_execute_inv in Ei as (_ & Ht2 & u & Hins). cbn in Hw2. rewrite Htx in Hins.
  pose proof Hins as Hst. apply insert_receipt_inv in Hins as [(-> & _ & Hx)|(-> & Hk & Hid & Htx2)].
  - unfold bind_try at 1, bind at 1. pose proof (rollback_db tx2 w2) as Hw3.
    destruct (rollback tx2 w2) as [[[]|e] w3]; cbn in Hw3;
      [|intros [= <- <-]; left; congruence].
    rewrite <- Hw1, <- Hw2, <- Hw3 in Hx. intros Hrun.
    destruct (fetch_existing_inv _ _ _ _ Hrun Hx) as [Hdb Hres].
    destruct res as [[|id]|e]; [done| |left; congruence].
    split; [congruence|]. unfold pg_key_owner in *. by rewrite <- Hw1, <- Hw2, <- Hw3.
  - unfold bind_try at 1, bind at 1.
    pose proof (insert_deliveries_db (ReceiptId.uuid (WebhookReceipt.receipt_id r)) names tx2 w2) as Hw3.
    destruct (PostgresStorage.insert_deliveries _ names tx2 w2) as [[[ids tx3]|e] w3] eqn:Ed;
      cbn in Hw3; [|intros [= <- <-]; left; congruence].
    apply insert_deliveries_inv in Ed as (_ & new & Htx3 & _ & Hnew & Hwf).
    rewrite Htx2 in Htx3. cbn in Htx3. rewrite Ht2, Hnow in Hnew.
    assert (commits r names (now (clock w)) (db w) (tx_db tx3)) as Hcom.
    { rewrite stored_columns in Htx2, Htx3. split_and!; [split_and!; [done..|]; eauto| |].
      - intros Hd. apply Hwf. rewrite Htx2. by apply db_wf_snoc_receipt.
      - by eapply insert_receipt_storable. }
    unfold bind_try, bind. destruct (commit tx3 w3) as [[[]|e] w4] eqn:Ec;
      apply commit_inv in Ec; intros [= <- <-]; [by rewrite Ec|].
    destruct Ec as [->| ->]; [left; congruence|by right].
Qed.

Lemma mk_uuid i : ReceiptId.mk (ReceiptId.uuid i) = i.
Proof. by destruct i. Qed.

(** A committed call is an accepted transition of the inbox. *)
Lemma committed_accepted r names t w w' :
  committed r names t (db w) (db w') → pg_accepted r names w w'.
Proof.
  intros (Hk & Hid & new & Hdb & Hnew).
  assert (∀ k, k = WebhookReceipt.dedupe_key r →
    List.find (has_dedupe_key k) (webhook_receipts (db w)) = None) as Hnone.
  { intros k ->. apply find_has_key_None. destruct (existsb _ _) eqn:E; [|done].
    by apply existsb_true_in in E. }
  unfold accepted_transition, pg_key_owner, pg_persisted, pg_queued. rewrite Hdb. cbn. split_and!.
  - by rewrite Hnone.
  - intros k'. rewrite find_app. destruct (decide _) as [->|Hne].
    + rewrite Hnone by done. cbn. unfold has_dedupe_key. rewrite bool_decide_true by done.
      cbn. by rewrite mk_uuid.
    + destruct (List.find _ _); [done|]. cbn. unfold has_dedupe_key.
      rewrite bool_decide_false; [done|]. cbn. congruence.
  - apply elem_of_app. right. by apply list_elem_of_singleton.
  - intros r' Hr'. apply elem_of_app. by left.
  - rewrite map_app. f_equal. clear -Hnew. induction Hnew as [|x n new names (u & ->) _ IH]; [done|].
    cbn. by rewrite IH, mk_uuid.
Qed.

#[export] Instance postgres_contract : StorageContract PostgresStorage.storage.
Proof.
  refine {| key_owner := pg_key_owner; persisted := pg_persisted; queued := pg_queued |}.
  intros r names w. cbn [store_with_deliveries PostgresStorage.storage].
  destruct (PostgresStorage.store_with_deliveries r names w) as [res w'] eqn:E.
  apply store_with_deliveries_inv in E. destruct res as [[|id]|e].
  - eapply committed_accepted, E.
  - destruct E as [Hdb Hown]. split; [done|]. by apply pg_same_inbox_db.
  - destruct E as [Hdb|Hc]; [left; by apply pg_same_inbox_db|right; eapply committed_accepted, Hc].
Defined.

Lemma storage_dedupe_check_db k h w : db (StorageDedupe.check k h w).2 = db w.
Proof.
  unfold StorageDedupe.check, bind, select_hash_by_key.
  pose proof (execute_bind_read [Some k] (λ _ d, Ok (ReceiptRow.payload_hash <$>
    List.find (has_dedupe_key k) (webhook_receipts d))) w) as Hdb.
  by destruct (execute _ w) as [r w1].
Qed.

(** [Conflict] names a stored row with the key and another hash. *)
Lemma storage_dedupe_conflict k h w :
  (StorageDedupe.check k h w).1 = Ok DedupeDecision.Conflict →
  ∃ row, row ∈ webhook_receipts (db w) ∧ ReceiptRow.dedupe_key row = k ∧
         ReceiptRow.payload_hash row ≠ h.
Proof.
  unfold StorageDedupe.check, bind.
  destruct (execute (select_hash_by_key k) w) as [r w1] eqn:Ex.
  apply execute_inv in Ex as [(e & -> & _)|(a & Ha & [->|[e ->]])]; [done| |done].
  destruct a as [h'|]; [|done]. cbn. destruct (decide (h' = h)) as [|Hne]; [done|]. intros _.
  apply bind_text_Ok in Ha as [_ Ha]. injection Ha as Hfind _.
  apply fmap_Some in Hfind as (row & Hrow & ->).
  apply find_Some_elem in Hrow as [Hin Hk%bool_decide_eq_true]. eauto.
Qed.

#[export] Instance storage_dedupe_advisory :
  AdvisoryDedupe PostgresStorage.storage StorageDedupe.strategy.
Proof.
  split; intros k h w; cbn [Traits.check Traits.record StorageDedupe.strategy].
  - apply pg_same_inbox_db, storage_dedupe_check_db.
  - by apply pg_same_inbox_db.
Qed.
End store.

(** ** Sessions that run without faults *)

Lemma healthy_set_db d w : healthy (set_db d (tick w)) ↔ healthy (tick w).
Proof. done. Qed.
Lemma healthy_tick w : healthy w → healthy (tick w).
Proof. unfold healthy, tick. cbn. by intros ->. Qed.

(** Two sessions that differ by round trips only. *)
Definition advanced (w w' : Pg) : Prop :=
  db w' = db w ∧ clock_at w' = clock_at w ∧ (rounds w ≤ rounds w')%nat ∧ (healthy w → healthy w').

#[export] Instance advanced_preorder : PreOrder advanced.
Proof.
  split; [intros w; by repeat split|].
  intros w1 w2 w3 (? & ? & ? & ?) (? & ? & ? & ?). split_and!; [congruence..|lia|auto].
Qed.
Lemma advanced_tick w : advanced w (tick w).
Proof. split_and!; [done|done|cbn; lia|apply healthy_tick]. Qed.

(** Time passed on a session, whatever was done. *)
Definition ticked (p p' : Pg) : Prop :=
  clock_at p' = clock_at p ∧ (rounds p ≤ rounds p')%nat ∧ (healthy p → healthy p').

#[export] Instance ticked_preorder : PreOrder ticked.
Proof.
  split; [intros p; by repeat split|].
  intros p1 p2 p3 (? & ? & ?) (? & ? & ?). split_and!; [congruence|lia|auto].
Qed.

Lemma advanced_ticked p p' : advanced p p' → ticked p p'.
Proof. by intros (_ & ? & ? & ?). Qed.

(** Every method lets time pass, and causes no faults. *)
Definition timely {A} (m : M Pg A) : Prop := ∀ p, ticked p (m p).2.

Lemma timely_ret {A} (a : A) : timely (ret a).
Proof. intros p. reflexivity. Qed.

Lemma timely_bind {A C} (m : M Pg A) (k : A → M Pg C) : timely m → (∀ a, timely (k a)) → timely (bind m k).
Proof.
  intros Hm Hk p. unfold bind. pose proof (Hm p) as H1'. destruct (m p) as [a p1].
  etrans; [exact H1'|apply Hk].
Qed.

Lemma timely_bind_try {A C E} (m : M Pg (result A E)) (k : A → M Pg (result C E)) :
  timely m → (∀ a, timely (k a)) → timely (bind_try m k).
Proof. intros Hm Hk. apply timely_bind; [done|]. intros [a|e]; [apply Hk|apply timely_ret]. Qed.

Lemma ticked_round p d : ticked p (set_db d (tick p)).
Proof. split_and!; cbn; [done|lia|apply healthy_tick]. Qed.

Lemma ticked_next_round p f c p1 : next_round p = (f, c, p1) → p1 = tick p.
Proof. by intros [= _ _ <-]. Qed.

Ltac one_round p :=
  let Hr := fresh "Hr" in
  destruct (next_round p) as [[f c] p1] eqn:Hr; apply ticked_next_round in Hr as ->;
  repeat case_match; subst; apply ticked_round || (split_and!; cbn; [done|lia|apply healthy_tick]).

Lemma timely_execute {A} (s : Stmt A) : timely (execute s).
Proof. intros p. unfold execute. one_round p. Qed.
Lemma timely_tx_execute {A} (s : Stmt A) tx : timely (tx_execute s tx).
Proof. intros p. unfold tx_execute. one_round p. Qed.
Lemma timely_begin : timely begin.
Proof. intros p. unfold begin. one_round p. Qed.
Lemma timely_commit tx : timely (commit tx).
Proof. intros p. unfold commit. one_round p. Qed.
Lemma timely_rollback tx : timely (rollback tx).
Proof. intros p. unfold rollback. one_round p. Qed.

Create HintDb timely discriminated.
#[export] Hint Resolve timely_ret timely_bind timely_bind_try timely_execute timely_tx_execute
  timely_begin timely_commit timely_rollback : timely.

Section reads.
Context `{SerdeJson} `{PgTypes} `{UuidText}.

Lemma execute_read_healthy {A} (f : Clock → Db → result A string) w a :
  healthy w → f (clock w) (db w) = Ok a →
  execute (read f) w = (Ok a, set_db (db w) (tick w)).
Proof. intros Hw Hf. rewrite execute_healthy by done. unfold read. by rewrite Hf. Qed.

Lemma execute_read_advanced {A} (f : Clock → Db → result A string) w :
  advanced w (execute (read f) w).2.
Proof.
  split_and!; [apply execute_read| | |]; unfold execute, next_round, read, healthy.
  all: destruct (match faults w with f :: _ => f | [] => None end) as [[e|e]|];
    try destruct (f _ _); cbn; (done || lia || by intros ->).
Qed.

Lemma set_db_same w : set_db (db w) (tick w) = tick w.
Proof. by destruct w. Qed.

Lemma find_receipt_by_id d row :
  db_wf d → row ∈ webhook_receipts d →
  List.find (has_receipt_id (ReceiptRow.receipt_id row)) (webhook_receipts d) = Some row.
Proof.
  intros Hwf Hrow. destruct (List.find _ _) as [x|] eqn:E.
  - apply find_Some_elem in E as [Hx Hid%bool_decide_eq_true]. f_equal.
    by eapply (NoDup_map_inj_on ReceiptRow.receipt_id); [apply (wf_receipt_ids _ Hwf)|..].
  - eapply find_None_elem in E; [|exact Hrow]. unfold has_receipt_id in E.
    by rewrite bool_decide_true in E.
Qed.

Lemma readable_row d row :
  db_wf d → row ∈ webhook_receipts d → ∃ r, receipt_from_row row = Ok r ∧ db_receipt r = row.
Proof.
  intros Hwf Hrow. apply receipt_from_row_total.
  - eapply Forall_forall in Hrow; [exact Hrow|apply (wf_processing_states _ Hwf)].
  - eapply Forall_forall in Hrow; [exact Hrow|apply (wf_verification_states _ Hwf)].
Qed.

(** [get] finds exactly the stored receipt. *)
Lemma get_healthy w row :
  healthy w → db_wf (db w) → row ∈ webhook_receipts (db w) →
  ∃ r, db_receipt r = row ∧
       PostgresStorage.get (ReceiptRow.receipt_id row) w = (Ok (Some r), tick w).
Proof.
  intros Hw Hwf Hrow. destruct (readable_row _ _ Hwf Hrow) as (r & Hr & Hdb).
  exists r. split; [done|]. unfold PostgresStorage.get, bind_try, bind, select_receipt.
  erewrite execute_read_healthy; [|done|reflexivity].
  rewrite find_receipt_by_id by done. rewrite Hr. cbn. by rewrite set_db_same.
Qed.

Lemma with_receipt_healthy w x :
  healthy w → db_wf (db w) → x ∈ webhook_deliveries (db w) →
  ∃ d r, db_delivery d = x ∧ db_receipt r ∈ webhook_receipts (db w) ∧
         WebhookReceipt.receipt_id r = WebhookDelivery.receipt_id d ∧
         PostgresStorage.with_receipt x w = (Ok (d, r), tick w).
Proof.
  intros Hw Hwf Hx.
  pose proof (wf_delivery_states _ Hwf) as Hst. rewrite Forall_forall in Hst.
  destruct (delivery_from_row_total x (Hst x Hx)) as (d & Hd & Hdx).
  pose proof (wf_receipt_fk _ Hwf) as Hfk. rewrite Forall_forall in Hfk.
  apply Hfk, elem_of_List_map in Hx as (row & Hrow & Hid).
  destruct (get_healthy w row Hw Hwf Hrow) as (r & Hr & Hget).
  exists d, r. split_and!; [done|by rewrite Hr| |].
  - apply (f_equal ReceiptRow.receipt_id) in Hr. apply (f_equal DeliveryRow.receipt_id) in Hdx.
    cbn in Hr, Hdx. destruct (WebhookReceipt.receipt_id r), (WebhookDelivery.receipt_id d).
    cbn in *. congruence.
  - unfold PostgresStorage.with_receipt, bind_try, bind, lift_result, ret. rewrite Hd, Hid.
    by rewrite Hget.
Qed.

(** A loop over rows of the table reads each with its receipt and changes nothing. *)
Lemma map_with_receipt_healthy rows w :
  healthy w → db_wf (db w) → (∀ x, x ∈ rows → x ∈ webhook_deliveries (db w)) →
  ∃ l w', map_try PostgresStorage.with_receipt rows w = (Ok l, w') ∧ advanced w w' ∧
    map (λ p, db_delivery (fst p)) l = rows ∧
    Forall (λ p, db_receipt (snd p) ∈ webhook_receipts (db w) ∧
                 WebhookReceipt.receipt_id (snd p) = WebhookDelivery.receipt_id (fst p)) l.
Proof.
  revert w. induction rows as [|x rows IH]; intros w Hw Hwf Hrows.
  { exists [], w. by split_and!. }
  destruct (with_receipt_healthy w x) as (d & r & Hd & Hr & Hid & Hrun); [done..| |].
  { apply Hrows, elem_of_cons. by left. }
  destruct (IH (tick w)) as (l & w' & Hl & Hadv & Hmap & Hall); [by apply healthy_tick|done| |].
  { intros y Hy. apply Hrows, elem_of_cons. by right. }
  exists ((d, r) :: l), w'. cbn. unfold bind_try, bind, ret. rewrite Hrun, Hl. split_and!.
  - done.
  - etrans; [apply advanced_tick|done].
  - by rewrite Hmap, Hd.
  - by constructor.
Qed.

(** [claim_pending], without faults. *)
Lemma claim_pending_healthy name batch w :
  healthy w → db_wf (db w) → 0 ≤ batch →
  ∃ rows d' l w',
    claim name batch (clock w) (db w) = Ok (rows, d') ∧
    PostgresStorage.claim_pending name batch w = (Ok l, w') ∧
    advanced (set_db d' w) w' ∧
    map (λ p, db_delivery (fst p)) l = rows ∧
    Forall (λ p, db_receipt (snd p) ∈ webhook_receipts (db w) ∧
                 WebhookReceipt.receipt_id (snd p) = WebhookDelivery.receipt_id (fst p)) l.
Proof.
  intros Hw Hwf Hb.
  destruct (claim name batch (clock w) (db w)) as [[rows d']|e] eqn:E;
    [|by rewrite claim_effect in E].
  assert (webhook_receipts d' = webhook_receipts (db w)) as Hrec.
  { unfold claim in E. destruct (batch <? 0); [done|]. by injection E as _ <-. }
  destruct (map_with_receipt_healthy rows (set_db d' (tick w))) as (l & w' & Hl & Hadv & Hmap & Hall).
  { by apply healthy_tick. }
  { exact (claim_wf _ _ _ _ _ _ Hwf E). }
  { intros x Hx. apply (claimed_rows _ _ _ _ _ _ Hwf E) in Hx. apply Hx. }
  exists rows, d', l, w'. split_and!; [done| | |done|by rewrite <- Hrec].
  - unfold PostgresStorage.claim_pending, bind_try, bind. by rewrite execute_healthy, E.
  - etrans; [|exact Hadv]. split_and!; [done|done|cbn; lia|].
    intros _. by apply healthy_tick.
Qed.
Lemma get_inv id w res w' :
  PostgresStorage.get id w = (res, w') →
  db w' = db w ∧
  match res with
  | Ok (Some r) => ReceiptId.uuid (WebhookReceipt.receipt_id r) = id ∧
                   id ∈ map ReceiptRow.receipt_id (webhook_receipts (db w))
  | _ => True
  end.
Proof.
  unfold PostgresStorage.get, bind_try, bind, ret.
  destruct (execute (select_receipt id) w) as [r w1] eqn:Ex.
  pose proof (select_receipt_db id w) as Hdb. rewrite Ex in Hdb. cbn in Hdb.
  apply execute_inv in Ex as [(e & -> & _)|(a & Ha & Hr)]; [by intros [= <- <-]|].
  unfold select_receipt, read in Ha. injection Ha as Ha _.
  destruct Hr as [-> |(e & ->)]; [|by intros [= <- <-]]. intros [= <- <-]. split; [done|].
  destruct a as [row|]; [|done]. apply find_Some_elem in Ha as [Hin Hid%bool_decide_eq_true].
  destruct (receipt_from_row row) as [r|e] eqn:Er; [|done].
  assert (ReceiptId.uuid (WebhookReceipt.receipt_id r) = ReceiptRow.receipt_id row) as ->.
  { unfold receipt_from_row in Er.
    destruct (deserialize_enum _ _ (ReceiptRow.verification_status row)); [|done].
    destruct (deserialize_enum _ _ (ReceiptRow.processing_state row)); [|done].
    by injection Er as <-. }
  split; [done|]. rewrite <- Hid. by apply list_elem_of_fmap_2.
Qed.

Lemma try_collect_deliveries rows :
  (∀ x, x ∈ rows → DeliveryRow.state x ∈ map DeliveryState.serde_name DeliveryState.all) →
  ∃ ds, try_collect delivery_from_row rows = Ok ds ∧ map db_delivery ds = rows.
Proof.
  induction rows as [|x rows IH]; intros Hst; [by exists []|].
  destruct (delivery_from_row_total x) as (d & Hd & Hx); [apply Hst, elem_of_cons; by left|].
  destruct IH as (ds & Hds & Hm); [intros y Hy; apply Hst, elem_of_cons; by right|].
  exists (d :: ds). cbn. by rewrite Hd, Hds, Hx, Hm.
Qed.

Definition deliveries_of (id : Uuid) (d : Db) : list DeliveryRow.t :=
  List.filter (λ r, bool_decide (DeliveryRow.receipt_id r = id)) (webhook_deliveries d).

Lemma get_deliveries_healthy id w :
  healthy w → db_wf (db w) →
  ∃ ds, PostgresStorage.get_deliveries_for_receipt (ReceiptId.mk id) w = (Ok ds, tick w) ∧
        map db_delivery ds ≡ₚ deliveries_of id (db w).
Proof.
  intros Hw Hwf.
  destruct (try_collect_deliveries (order_asc DeliveryRow.created_at (deliveries_of id (db w))))
    as (ds & Hds & Hm).
  { intros x. rewrite order_asc_perm. intros [Hx _]%elem_of_List_filter.
    pose proof (wf_delivery_states _ Hwf) as Hst. rewrite Forall_forall in Hst. auto. }
  exists ds. split; [|by rewrite Hm, order_asc_perm].
  unfold PostgresStorage.get_deliveries_for_receipt, select_deliveries_for_receipt, bind_try, bind.
  cbn [ReceiptId.uuid]. erewrite execute_read_healthy by done || reflexivity.
  unfold deliveries_of in Hds. cbn. by rewrite Hds, set_db_same.
Qed.

End reads.

(** ** Theorems *)

(** The delivery ids a claim returned. *)
Definition claimed_ids (l : list (WebhookDelivery.t * WebhookReceipt.t)) : list Uuid :=
  map (λ p, DeliveryRow.delivery_id (db_delivery (fst p))) l.

Section theorems.
Context `{SerdeJson} `{PgTypes} `{UuidText}.

(** C5: [store_with_deliveries] is atomic under any faults: the receipt and one pending row per
    emitter name are committed together or nothing is, a duplicate key changes nothing and
    returns the id stored under it, and a success means the key was new. *)
Theorem store_with_deliveries_atomic r names w res w' :
  PostgresStorage.store_with_deliveries r names w = (res, w') →
  match res with
  | Ok StoreResult.Stored => committed r names (now (clock w)) (db w) (db w')
  | Ok (StoreResult.Duplicate id) =>
      db w' = db w ∧
      ∃ row, row ∈ webhook_receipts (db w) ∧
             ReceiptRow.dedupe_key row = WebhookReceipt.dedupe_key r ∧
             ReceiptRow.receipt_id row = ReceiptId.uuid id
  | Err _ => db w' = db w ∨ committed r names (now (clock w)) (db w) (db w')
  end.
Proof.
  intros Hrun. apply store_with_deliveries_inv in Hrun. unfold commits in Hrun.
  destruct res as [[|id]|e]; [tauto| |tauto].
  destruct Hrun as [Hdb Hown]. split; [done|].
  unfold pg_key_owner in Hown. destruct (List.find _ _) as [row|] eqn:E; [|done].
  apply find_Some_elem in E as [Hin Hk%bool_decide_eq_true]. injection Hown as <-. eauto.
Qed.

(** C6: what is stored is what is read: a receipt that [store_with_deliveries] has stored was one
    the columns can hold, and [get] of its id returns it in the form they keep: instants in whole
    microseconds, less than one off, JSON values as [JSONB] accepted them, and every other field,
    the raw body included, as given.  A receipt whose instants are in whole microseconds and
    whose JSON has plain numbers comes back itself. *)
Theorem stored_receipt_reads_back r names w w1 w2 :
  PostgresStorage.store_with_deliveries r names w = (Ok StoreResult.Stored, w1) →
  db_wf (db w) → db w2 = db w1 → healthy w2 →
  storable r = true ∧
  (PostgresStorage.get (ReceiptId.uuid (WebhookReceipt.receipt_id r)) w2).1 = Ok (Some (stored_form r)) ∧
  Z.abs (WebhookReceipt.received_at (stored_form r) - WebhookReceipt.received_at r) < 1000 ∧
  (exact_receipt r = true → stored_form r = r).
Proof.
  intros Hrun Hwf Hdb Hw2.
  apply store_with_deliveries_inv in Hrun as [(_ & _ & new & Hc & _) [Hwf1 Hst]]. split; [done|].
  split_and!; [|apply timestamptz_near|apply exact_stored_form].
  destruct (get_healthy w2 (db_receipt (stored_form r))) as (r' & Hr' & Hget); [done|rewrite Hdb; auto| |].
  { rewrite Hdb, Hc. apply elem_of_app. right. by apply list_elem_of_singleton. }
  cbn [db_receipt stored_form WebhookReceipt.receipt_id ReceiptRow.receipt_id] in Hget. rewrite Hget. cbn.
  apply (f_equal receipt_from_row) in Hr'. rewrite !receipt_round_trip in Hr'. congruence.
Qed.

(** C12: without faults [claim_pending] returns as many ready rows as the batch allows, the
    longest due first, each now in flight and paired with its receipt; the rest of the
    database is left as it was. *)
Theorem claim_pending_takes_due_rows name batch w :
  healthy w → db_wf (db w) → 0 ≤ batch →
  ∃ l w',
    PostgresStorage.claim_pending name batch w = (Ok l, w') ∧
    List.length l = Nat.min (Z.to_nat batch) (List.length (ready name (clock w) (db w))) ∧
    (∀ d r, (d, r) ∈ l →
       WebhookReceipt.receipt_id r = WebhookDelivery.receipt_id d ∧
       db_receipt r ∈ webhook_receipts (db w) ∧
       ∃ row, row ∈ ready name (clock w) (db w) ∧
              db_delivery d = DeliveryRow.set_in_flight (now (clock w)) row) ∧
    db w' = set_deliveries (λ row,
      if bool_decide (DeliveryRow.delivery_id row ∈ claimed_ids l)
      then DeliveryRow.set_in_flight (now (clock w)) row else row) (db w) ∧
    (∀ row d r, row ∈ ready name (clock w) (db w) →
       DeliveryRow.delivery_id row ∉ claimed_ids l → (d, r) ∈ l →
       WebhookDelivery.next_attempt_at d ≤ DeliveryRow.next_attempt_at row).
Proof.
  intros Hw Hwf Hb.
  destruct (claim_pending_healthy name batch w Hw Hwf Hb)
    as (rows & d' & l & w' & Hclaim & Hrun & (Hdb & _) & Hmap & Hall).
  assert (claimed_ids l = map DeliveryRow.delivery_id rows) as Hids.
  { rewrite <- Hmap, map_map. done. }
  destruct (claimed_rows _ _ _ _ _ _ Hwf Hclaim) as [Hlen Hrows].
  assert (∀ d r, (d, r) ∈ l → ∃ row, row ∈ ready name (clock w) (db w) ∧
    db_delivery d = DeliveryRow.set_in_flight (now (clock w)) row ∧ db_delivery d ∈ rows) as Horig.
  { intros d r Hin. assert (db_delivery d ∈ rows) as Hd.
    { rewrite <- Hmap. apply elem_of_List_map. exists (d, r). done. }
    destruct (claimed_row_origin _ _ _ _ _ _ _ Hwf Hclaim Hd) as (row & Hrow & Heq & Hdis & Hlock).
    exists row. split_and!; [|done..]. unfold ready. rewrite elem_of_List_filter. by rewrite Hdis, Hlock. }
  assert (∀ row, row ∈ webhook_deliveries (db w) →
    (DeliveryRow.delivery_id row ∈ claimed_ids l ↔
     DeliveryRow.delivery_id row ∈ claim_ids name batch (clock w) (db w))) as Hiff.
  { intros row Hrow. rewrite Hids. pose proof Hclaim as Heff. rewrite claim_effect in Heff by done.
    injection Heff as <- Hd'. rewrite elem_of_List_map. split.
    - intros (x & Hx & ->). apply elem_of_List_filter in Hx as [_ Hx]. by apply bool_decide_eq_true in Hx.
    - intros Hin. exists (DeliveryRow.set_in_flight (now (clock w)) row). split; [|done].
      apply Hrows. rewrite <- Hd'. split; [|done]. cbn. apply elem_of_List_map. exists row.
      by rewrite bool_decide_true. }
  exists l, w'. split_and!; [done| | | |].
  - rewrite <- (length_map (λ p, db_delivery p.1)), Hmap. exact Hlen.
  - intros d r Hin. rewrite Forall_forall in Hall. destruct (Hall _ Hin) as [Hr Hid].
    destruct (Horig d r Hin) as (row & ? & ? & _). eauto.
  - rewrite Hdb. cbn. rewrite claim_effect in Hclaim by done. injection Hclaim as _ <-.
    unfold set_deliveries. f_equal. apply map_ext_in. intros row Hrow%list_elem_of_In.
    by rewrite (bool_decide_ext _ _ (Hiff row Hrow)).
  - intros row d r Hrow Hnot Hin. destruct (Horig d r Hin) as (row' & Hrow' & Heq & Hd).
    apply (f_equal DeliveryRow.next_attempt_at) in Heq as Hnext. cbn in Hnext. rewrite Hnext.
    assert (∀ z, z ∈ ready name (clock w) (db w) → z ∈ webhook_deliveries (db w)) as Hsub.
    { intros z [? _]%elem_of_List_filter. done. }
    eapply (claim_oldest_first name batch (clock w) (db w)); [done| | |by apply Hsub|].
    + unfold due_first. by rewrite order_asc_perm.
    + intros Hc. apply Hnot, Hiff; [by apply Hsub|done].
    + apply Hiff; [by apply Hsub|]. rewrite Hids. apply elem_of_List_map.
      exists (db_delivery d). split; [done|]. by rewrite Heq.
Qed.

(** C36: the legacy retry statement computes [transitions::retry_next_state]: on a receipt whose
    [emit_count] can still be incremented, [retry_failed] writes exactly the count and state
    of the pure function and nothing else. *)
Theorem retry_failed_mirrors_retry_next_state id max_attempts w r :
  healthy w → db_wf (db w) → db_receipt r ∈ webhook_receipts (db w) →
  ReceiptId.uuid (WebhookReceipt.receipt_id r) = id →
  i32_min ≤ WebhookReceipt.emit_count r < i32_max →
  let '(count, state) := retry_next_state (WebhookReceipt.emit_count r) max_attempts in
  PostgresStorage.retry_failed id max_attempts w =
    (Ok tt,
     set_db (set_receipts (λ row,
       if has_receipt_id id row
       then ReceiptRow.set_state (ProcessingState.serde_name state) count
              (WebhookReceipt.last_error r) row
       else row) (db w)) (tick w)).
Proof.
  intros Hw Hwf Hr <- Hc. unfold retry_next_state.
  rewrite i32_saturating_add_exact by (unfold in_i32; lia).
  assert (∀ row, row ∈ webhook_receipts (db w) →
    has_receipt_id (ReceiptId.uuid (WebhookReceipt.receipt_id r)) row = true → row = db_receipt r) as Huniq.
  { intros row Hrow Hid%bool_decide_eq_true.
    eapply (NoDup_map_inj_on ReceiptRow.receipt_id); [apply (wf_receipt_ids _ Hwf)|done..]. }
  unfold PostgresStorage.retry_failed, bind_try, bind.
  rewrite execute_healthy by done. unfold update_retry_failed.
  destruct (existsb _ _) eqn:E.
  { exfalso. apply existsb_exists in E as (row & Hrow%list_elem_of_In & [Hid Hov]%andb_prop).
    rewrite (Huniq row Hrow Hid) in Hov. cbn in Hov. lia. }
  unfold update_receipts, ret. cbn [fst snd]. do 2 f_equal.
  unfold set_receipts. f_equal. apply map_ext_in. intros row Hrow%list_elem_of_In.
  destruct (has_receipt_id _ row) eqn:Hid; [|done]. rewrite (Huniq row Hrow Hid).
  unfold retry_case. cbn. by destruct (_ <=? _).
Qed.
End theorems.

(** *** Witnesses *)

Definition sample_pending : DeliveryRow.t := sample_delivery 10%N "pending" 0 None.

Lemma store_with_deliveries_atomic_witness :
  let w := session empty_db 1000 10%N in
  let p := PostgresStorage.store_with_deliveries sample_receipt ["kafka"] w in
  p.1 = Ok StoreResult.Stored ∧ committed sample_receipt ["kafka"] 1000 empty_db (db p.2).
Proof.
  intros w p. split; [vm_compute; reflexivity|].
  apply (store_with_deliveries_atomic sample_receipt ["kafka"] w (Ok StoreResult.Stored) p.2).
  apply pair_fst. vm_compute. reflexivity.
Defined.

Lemma stored_receipt_reads_back_witness :
  let r := sample_receipt_at 1234567 in
  let w1 := (PostgresStorage.store_with_deliveries r ["kafka"] (session empty_db 9000 10%N)).2 in
  (PostgresStorage.get 1%N (session (db w1) 9000 50%N)).1 = Ok (Some (sample_receipt_at 1234000)).
Proof.
  intros r w1.
  destruct (stored_receipt_reads_back r ["kafka"] (session empty_db 9000 10%N) w1
    (session (db w1) 9000 50%N)) as (_ & Hget & _).
  - apply pair_fst. vm_compute. reflexivity.
  - vm_decide.
  - reflexivity.
  - reflexivity.
  - etransitivity; [exact Hget|]. vm_compute. reflexivity.
Defined.

Lemma claim_pending_takes_due_rows_witness :
  let w := session (sample_db [sample_pending; sample_delivery 11%N "emitted" 0 None]) 2000 20%N in
  ∃ l w', PostgresStorage.claim_pending "kafka" 8 w = (Ok l, w') ∧ List.length l = 1%nat.
Proof.
  intros w. destruct (claim_pending_takes_due_rows "kafka" 8 w) as (l & w' & Hrun & Hlen & _).
  - reflexivity.
  - vm_decide.
  - lia.
  - exists l, w'. split; [exact Hrun|exact Hlen].
Defined.

Lemma retry_failed_mirrors_retry_next_state_witness :
  let w := session (sample_db []) 2000 20%N in
  PostgresStorage.retry_failed 1%N 5 w =
    (Ok tt,
     set_db (set_receipts (λ row,
       if has_receipt_id 1%N row then ReceiptRow.set_state "emit_failed" 1 None row else row)
       (db w)) (tick w)).
Proof.
  intros w. apply (retry_failed_mirrors_retry_next_state 1%N 5 w sample_receipt).
  - reflexivity.
  - vm_decide.
  - apply elem_of_cons. left. reflexivity.
  - reflexivity.
  - vm_compute. split; [discriminate|reflexivity].
Defined.

(** ** A new receipt is stored when nothing fails *)

(** The identifiers PostgreSQL will draw are fresh. *)
Definition fresh_draws (w : Pg) (d : Db) : Prop :=
  ∀ i, (rounds w ≤ i)%nat →
    gen_random_uuid (clock_at w i) ∉ map DeliveryRow.delivery_id (webhook_deliveries d) ∧
    ∀ j, (rounds w ≤ j)%nat → gen_random_uuid (clock_at w i) = gen_random_uuid (clock_at w j) → i = j.

Lemma fresh_draws_advanced w w' d : advanced w w' → fresh_draws w d → fresh_draws w' d.
Proof.
  intros (_ & Hc & Hr & _) Hf i Hi. rewrite Hc. destruct (Hf i) as [H1 H2]; [lia|].
  split; [done|]. intros j Hj. apply H2. lia.
Qed.

Lemma tx_execute_healthy {A} (s : Stmt A) tx w :
  healthy w →
  tx_execute s tx w =
  match s (mkClock (tx_now tx) (gen_random_uuid (clock w)) (locked (clock w))) (tx_db tx) with
  | Ok (a, d') => (Ok (a, mkTx d' (tx_now tx)), tick w)
  | Err e => (internal e, tick w)
  end.
Proof. unfold healthy, tx_execute, next_round, clock, tick. by intros ->. Qed.

Lemma existsb_of_in {A B} `{EqDecision B} (g : A → B) b (l : list A) :
  b ∈ map g l → existsb (λ x, bool_decide (g x = b)) l = true.
Proof.
  intros (x & Hx & ->)%elem_of_List_map. apply existsb_exists. exists x.
  split; [by apply list_elem_of_In|]. by apply bool_decide_eq_true.
Qed.

Lemma existsb_of_not_in {A B} `{EqDecision B} (g : A → B) b (l : list A) :
  b ∉ map g l → existsb (λ x, bool_decide (g x = b)) l = false.
Proof. intros H. destruct (existsb _ l) eqn:E; [|done]. by apply existsb_true_in in E. Qed.

Lemma insert_deliveries_healthy id names tx w :
  healthy w → id ∈ map ReceiptRow.receipt_id (webhook_receipts (tx_db tx)) →
  fresh_draws w (tx_db tx) →
  ∃ ids tx' w', PostgresStorage.insert_deliveries id names tx w = (Ok (ids, tx'), w') ∧
                advanced w w' ∧ fresh_draws w' (tx_db tx').
Proof.
  revert tx w. induction names as [|n names IH]; intros tx w Hw Hid Hf; [by exists [], tx, w|].
  cbn [PostgresStorage.insert_deliveries]. unfold bind_try, bind.
  rewrite tx_execute_healthy by done. unfold insert_delivery.
  pose proof (Hf (rounds w)) as Hfw. destruct Hfw as [Hnew Hinj]; [lia|].
  unfold has_delivery_id. rewrite existsb_of_not_in by done.
  unfold has_receipt_id. rewrite existsb_of_in by done. cbn [negb].
  destruct (IH (mkTx (mkDb (webhook_receipts (tx_db tx))
      (webhook_deliveries (tx_db tx) ++
       [new_delivery (mkClock (tx_now tx) (gen_random_uuid (clock w)) (locked (clock w))) id n]))
      (tx_now tx)) (tick w)) as (ids & tx' & w' & Hrun & Hadv & Hfresh).
  - by apply healthy_tick.
  - done.
  - intros i Hi. cbn in Hi. cbn. destruct (Hf i) as [Hn Hj]; [lia|]. split.
    + rewrite map_app. intros [?|Heq%list_elem_of_singleton]%elem_of_app; [done|].
      cbn in Heq. unfold clock in Heq. apply Hj in Heq; lia.
    + intros j Hj'. apply Hj. lia.
  - cbn. rewrite Hrun. eexists _, _, _. split_and!; [done| |done]. etrans; [apply advanced_tick|done].
Qed.

Section progress.
Context `{SerdeJson} `{PgTypes} `{UuidText}.

Lemma timely_insert_deliveries id names tx : timely (PostgresStorage.insert_deliveries id names tx).
Proof.
  revert tx. induction names as [|n names IH]; intros tx; cbn [PostgresStorage.insert_deliveries];
    [auto with timely|].
  apply timely_bind_try; [auto with timely|]. intros [u tx1].
  apply timely_bind_try; [apply IH|]. intros [us tx2]. auto with timely.
Qed.

Lemma timely_store_with_deliveries r names : timely (PostgresStorage.store_with_deliveries r names).
Proof.
  unfold PostgresStorage.store_with_deliveries, lift_result.
  do 2 (apply timely_bind_try; [auto with timely|intros ?]).
  apply timely_bind_try; [auto with timely|]. intros tx.
  apply timely_bind_try; [auto with timely|]. intros [[u|] tx1].
  - apply timely_bind_try; [apply timely_insert_deliveries|]. intros [us tx2]. auto with timely.
  - auto with timely.
Qed.

(** A new receipt that the server cannot store is refused, and nothing is stored. *)
Lemma store_with_deliveries_refused r names w :
  storable r = false →
  WebhookReceipt.dedupe_key r ∉ map ReceiptRow.dedupe_key (webhook_receipts (db w)) →
  ∃ e w', PostgresStorage.store_with_deliveries r names w = (Err e, w') ∧ db w' = db w.
Proof.
  intros Hst Hk. destruct (PostgresStorage.store_with_deliveries r names w) as [res w'] eqn:E.
  apply store_with_deliveries_inv in E. unfold commits in E. rewrite Hst in E.
  destruct res as [[|id]|e]; [naive_solver| |naive_solver].
  destruct E as [_ Hown]. exfalso. unfold pg_key_owner in Hown.
  destruct (List.find _ _) as [row|] eqn:Hf; [|done].
  apply find_Some_elem in Hf as [Hin Heq%bool_decide_eq_true]. apply Hk, elem_of_List_map. eauto.
Qed.

Lemma store_with_deliveries_healthy r names w :
  healthy w → storable r = true →
  WebhookReceipt.dedupe_key r ∉ map ReceiptRow.dedupe_key (webhook_receipts (db w)) →
  ReceiptId.uuid (WebhookReceipt.receipt_id r) ∉ map ReceiptRow.receipt_id (webhook_receipts (db w)) →
  fresh_draws w (db w) →
  ∃ w', PostgresStorage.store_with_deliveries r names w = (Ok StoreResult.Stored, w') ∧
        healthy w' ∧ fresh_draws w' (db w').
Proof.
  intros Hw Hst Hk Hi Hf. unfold PostgresStorage.store_with_deliveries, lift_result.
  rewrite processing_state_text_ok, verification_status_text_ok, !bind_try_ok. fold (bound_receipt r).
  assert (begin w = (Ok (mkTx (db w) (now (clock w))), tick w)) as Hb
    by (unfold begin, next_round, tick; by rewrite Hw).
  unfold bind_try at 1, bind at 1. rewrite Hb.
  unfold bind_try at 1, bind at 1. rewrite tx_execute_healthy by by apply healthy_tick.
  rewrite insert_receipt_run by (by apply storable_accepted). unfold insert_stored. cbn [tx_db tx_now].
  unfold has_dedupe_key, has_receipt_id. rewrite !existsb_of_not_in by done.
  apply andb_prop in Hst as [_ ->]. cbn [negb].
  unfold bind_try at 1, bind at 1.
  set (tx1 := mkTx _ _). set (w2 := tick (tick w)).
  destruct (insert_deliveries_healthy (ReceiptId.uuid (WebhookReceipt.receipt_id r)) names tx1 w2)
    as (ids & tx2 & w3 & Hrun & (_ & _ & _ & Hw3) & Hf3).
  - by do 2 apply healthy_tick.
  - cbn. rewrite map_app. apply elem_of_app. right. by apply list_elem_of_singleton.
  - eapply (fresh_draws_advanced w); [|done].
    etrans; apply advanced_tick.
  - rewrite Hrun. unfold bind_try, bind, commit, next_round.
    assert (healthy w3) as Hh3 by (apply Hw3; by do 2 apply healthy_tick).
    rewrite Hh3. eexists. split; [done|]. split; [unfold healthy; cbn; by rewrite ?Hh3|].
    intros i Hle. cbn in Hle |- *. destruct (Hf3 i) as [Hn Hj]; [lia|]. split; [done|].
    intros j Hij. apply Hj. cbn in Hij. lia.
Qed.
End progress.

(** ** Replays and single deliveries *)

Lemma insert_delivery_inv id n c d u d' :
  insert_delivery id n c d = Ok (u, d') → replayed id [n] d d' [new_delivery c id n].
Proof.
  intros (_ & _ & _ & ->)%insert_delivery_run. split; [done|].
  exists (now c). constructor; [|done]. by exists (gen_random_uuid c).
Qed.

Lemma insert_replay_inv id n w res w' :
  PostgresStorage.insert_replay id n w = (res, w') →
  match res with
  | Ok _ => ∃ new, replayed (ReceiptId.uuid id) [n] (db w) (db w') new
  | Err _ => db w' = db w ∨ ∃ new, replayed (ReceiptId.uuid id) [n] (db w) (db w') new
  end.
Proof.
  unfold PostgresStorage.insert_replay.
  intros [(e & Hex & ->)|(u & w1 & Hex & [= <- <-])]%bind_try_inv;
    apply execute_inv in Hex as [(e' & Heq & Hdb)|(a & Ha & Hr)]; eauto using insert_delivery_inv.
  discriminate.
Qed.

Section deliveries.
Context `{SerdeJson} `{PgTypes} `{UuidText}.

Lemma get_deliveries_inv id w res w' :
  PostgresStorage.get_deliveries_for_receipt id w = (res, w') →
  db w' = db w ∧
  ∀ ds, res = Ok ds →
    map WebhookDelivery.emitter_name ds ≡ₚ
    map DeliveryRow.emitter_name (deliveries_of (ReceiptId.uuid id) (db w)).
Proof.
  unfold PostgresStorage.get_deliveries_for_receipt. intros Hrun.
  pose proof (execute_read (λ _ d, Ok (order_asc DeliveryRow.created_at
    (deliveries_of (ReceiptId.uuid id) d))) w) as Hdb.
  apply bind_try_inv in Hrun as [(e & Hex & ->)|(rows & w1 & Hex & [= <- <-])];
    (unfold select_deliveries_for_receipt in Hex; unfold deliveries_of in Hdb; rewrite Hex in Hdb);
    (split; [done|]); [done|].
  intros ds Hds%try_collect_Forall2.
  apply execute_inv in Hex as [(e & [=] & _)|(a & Ha & [[= <-]|(e & [=])])].
  injection Ha as <- _. rewrite <- (order_asc_perm DeliveryRow.created_at (deliveries_of _ _)).
  apply reflexive_eq. unfold deliveries_of. revert Hds.
  generalize (order_asc DeliveryRow.created_at (List.filter
    (λ r, bool_decide (DeliveryRow.receipt_id r = ReceiptId.uuid id)) (webhook_deliveries (db w)))).
  intros rows Hds. induction Hds as [|x d l l' Hx _ IH]; [done|]. cbn. f_equal; [|done].
  unfold delivery_from_row in Hx. destruct (deserialize_enum _ _ _); [|done]. by injection Hx as <-.
Qed.

Lemma get_delivery_inv id w res w' :
  PostgresStorage.get_delivery id w = (res, w') → db_wf (db w) →
  db w' = db w ∧
  ∀ d r, res = Ok (Some (d, r)) →
    db_delivery d ∈ webhook_deliveries (db w) ∧ WebhookDelivery.delivery_id d = id ∧
    ReceiptId.uuid (WebhookReceipt.receipt_id r) = ReceiptId.uuid (WebhookDelivery.receipt_id d).
Proof.
  unfold PostgresStorage.get_delivery. intros Hrun Hwf.
  pose proof (execute_read (λ _ d, Ok (List.find (has_delivery_id (DeliveryId.uuid id))
    (webhook_deliveries d))) w) as Hdb.
  apply bind_try_inv in Hrun as [(e & Hex & ->)|(row & w1 & Hex & Hrun)];
    (unfold select_delivery in Hex; rewrite Hex in Hdb); [done|]. cbn in Hdb.
  destruct row as [x|]; [|by injection Hrun as <- <-].
  apply execute_inv in Hex as [(e & [=] & _)|(a & Ha & [[= <-]|(e & [=])])].
  injection Ha as Hx _. apply find_Some_elem in Hx as [Hin Hid%bool_decide_eq_true].
  apply bind_try_inv in Hrun as [(e & Hrun & ->)|([d r] & w2 & Hrun & [= <- <-])];
    unfold PostgresStorage.with_receipt, lift_result in Hrun;
    apply bind_try_inv in Hrun as [(e' & [= Hd <-] & ?)|(d' & w3 & [= Hd <-] & Hrun)]; try done;
    apply bind_try_inv in Hrun as [(e' & Hget & ?)|(r' & w3 & Hget & [= Hr <-])];
    apply get_inv in Hget as [Hdb2 Hget]; try (split; congruence).
  split; [congruence|]. intros ? ? [= <- <-]. destruct r' as [r'|]; [|done]. simplify_eq.
  pose proof (wf_delivery_states _ Hwf) as Hst. rewrite Forall_forall in Hst.
  apply delivery_from_row_inv in Hd as Hdx; [|by apply Hst]. rewrite Hdx. split; [done|].
  rewrite <- Hdx in Hid, Hget. cbn in Hid, Hget. destruct Hget as [<- _]. split; [|done].
  destruct id, (WebhookDelivery.delivery_id d). cbn in *. congruence.
Qed.

(** Without faults. *)
Lemma insert_replay_healthy id n w :
  healthy w → ReceiptId.uuid id ∈ map ReceiptRow.receipt_id (webhook_receipts (db w)) →
  fresh_draws w (db w) → ∃ new w', PostgresStorage.insert_replay id n w = (Ok new, w').
Proof.
  intros Hw Hid Hf. destruct (Hf (rounds w)) as [Hnew _]; [lia|].
  unfold PostgresStorage.insert_replay, bind_try, bind. rewrite execute_healthy by done.
  unfold insert_delivery, has_receipt_id, has_delivery_id, clock.
  rewrite existsb_of_not_in, existsb_of_in by done. cbn. by eexists _, _.
Qed.

Lemma insert_replays_healthy id names w :
  healthy w → ReceiptId.uuid id ∈ map ReceiptRow.receipt_id (webhook_receipts (db w)) →
  fresh_draws w (db w) → ∃ new w', PostgresStorage.insert_replays id names w = (Ok new, w').
Proof.
  intros Hw Hid Hf. unfold PostgresStorage.insert_replays.
  assert (begin w = (Ok (mkTx (db w) (now (clock w))), tick w)) as Hb
    by (unfold begin, next_round, tick; by rewrite Hw).
  rewrite (bind_try_run _ _ _ _ _ Hb).
  destruct (insert_deliveries_healthy (ReceiptId.uuid id) names (mkTx (db w) (now (clock w))) (tick w))
    as (ids & tx & w2 & Hrun & (_ & _ & _ & Hw2) & _).
  - by apply healthy_tick.
  - done.
  - eapply fresh_draws_advanced; [apply advanced_tick|done].
  - rewrite (bind_try_run _ _ _ _ _ Hrun). unfold bind_try, bind, commit, next_round.
    rewrite Hw2 by by apply healthy_tick. by eexists _, _.
Qed.

Lemma get_delivery_healthy x w :
  healthy w → db_wf (db w) → x ∈ webhook_deliveries (db w) →
  ∃ d r, PostgresStorage.get_delivery (DeliveryId.mk (DeliveryRow.delivery_id x)) w =
           (Ok (Some (d, r)), tick (tick w)) ∧
         db_delivery d = x ∧ WebhookReceipt.receipt_id r = WebhookDelivery.receipt_id d ∧
         db_receipt r ∈ webhook_receipts (db w).
Proof.
  intros Hw Hwf Hx.
  destruct (with_receipt_healthy (tick w) x) as (d & r & Hd & Hr & Hid & Hrun); [by apply healthy_tick|done..|].
  exists d, r. split; [|done]. unfold PostgresStorage.get_delivery, select_delivery.
  erewrite bind_try_run; [|apply execute_read_healthy; [done|reflexivity]].
  rewrite set_db_same. cbn [DeliveryId.uuid].
  assert (List.find (has_delivery_id (DeliveryRow.delivery_id x)) (webhook_deliveries (db w)) = Some x)
    as ->.
  { destruct (List.find _ _) as [y|] eqn:E.
    - apply find_Some_elem in E as [Hy Hyx%bool_decide_eq_true]. f_equal.
      by eapply (NoDup_map_inj_on DeliveryRow.delivery_id); [apply (wf_delivery_ids _ Hwf)|..].
    - eapply find_None_elem in E; [|exact Hx]. unfold has_delivery_id in E. by rewrite bool_decide_true in E. }
  by rewrite (bind_try_run _ _ _ _ _ Hrun).
Qed.
End deliveries.
