(* ===== verification/Rounds.v ===== *)
(** * The methods of PostgresStorage as trees of round trips

    A method that runs alone is one computation over its session ([Postgres.v]).  To interleave
    methods between two statements of one of them, each writing method is written again as the
    tree of its round trips to the database; [run_alone] drives such a tree in one session, and
    each tree, driven so, is the method. *)

From S2P Require Import Prelude RustStd F64 Types Traits Database DatabaseProps Postgres PostgresProps.
Local Open Scope Z_scope.
Local Open Scope rust_scope.

(** [Execute]: a statement on the pool, in a transaction of its own.  The two inserts run in the
    open transaction if there is one, else on the pool. *)
Inductive Prog (A : Type) : Type :=
| Return (a : A)
| Execute (B : Type) (s : Stmt B) (k : result B StorageError.t → Prog A)
| InsertReceipt (row : ReceiptRow.t) (k : result (option Uuid) StorageError.t → Prog A)
| InsertDelivery (receipt_id : Uuid) (name : string) (k : result Uuid StorageError.t → Prog A)
| Begin (k : result unit StorageError.t → Prog A)
| Commit (k : result unit StorageError.t → Prog A)
| Rollback (k : result unit StorageError.t → Prog A).
Arguments Return {A} a. Arguments Execute {A B} s k. Arguments InsertReceipt {A} row k.
Arguments InsertDelivery {A} receipt_id name k. Arguments Begin {A} k. Arguments Commit {A} k.
Arguments Rollback {A} k.

Fixpoint prog_bind {A B} (p : Prog A) (f : A → Prog B) : Prog B :=
  match p with
  | Return a => f a
  | Execute s k => Execute s (λ r, prog_bind (k r) f)
  | InsertReceipt row k => InsertReceipt row (λ r, prog_bind (k r) f)
  | InsertDelivery id name k => InsertDelivery id name (λ r, prog_bind (k r) f)
  | Begin k => Begin (λ r, prog_bind (k r) f)
  | Commit k => Commit (λ r, prog_bind (k r) f)
  | Rollback k => Rollback (λ r, prog_bind (k r) f)
  end.

Definition prog_bind_try {A B E} (p : Prog (result A E)) (f : A → Prog (result B E)) : Prog (result B E) :=
  prog_bind p (λ r, match r with Ok a => f a | Err e => Return (Err e) end).

Declare Scope rounds_scope.
Notation "x <~? m ;; k" := (prog_bind_try m (λ x, k))
  (at level 100, m at next level, right associativity) : rounds_scope.
Local Open Scope rounds_scope.

(** ** The methods *)

Module Rounds.
Definition execute {A} (s : Stmt A) : Prog (result A StorageError.t) := Execute s Return.
Definition begin : Prog (result unit StorageError.t) := Begin Return.
Definition commit : Prog (result unit StorageError.t) := Commit Return.
Definition rollback : Prog (result unit StorageError.t) := Rollback Return.

Section methods.
Context `{SerdeJson} `{PgTypes} `{UuidText}.

Definition store (receipt : WebhookReceipt.t) : Prog (result StoreResult.t StorageError.t) :=
  processing_state <~? Return (processing_state_text receipt) ;;
  verification_status <~? Return (verification_status_text receipt) ;;
  inserted <~? InsertReceipt (receipt_row receipt processing_state verification_status) Return ;;
  match inserted with
  | Some _ => Return (Ok StoreResult.Stored)
  | None =>
      existing <~? execute (select_id_by_key (WebhookReceipt.dedupe_key receipt)) ;;
      Return (Ok (StoreResult.Duplicate (ReceiptId.mk existing)))
  end.

Fixpoint insert_deliveries (receipt_id : Uuid) (names : list string) : Prog (result (list Uuid) StorageError.t) :=
  match names with
  | [] => Return (Ok [])
  | name :: names' =>
      id <~? InsertDelivery receipt_id name Return ;;
      ids <~? insert_deliveries receipt_id names' ;;
      Return (Ok (id :: ids))
  end.

Definition store_with_deliveries (receipt : WebhookReceipt.t) (emitter_names : list string) :
    Prog (result StoreResult.t StorageError.t) :=
  processing_state <~? Return (processing_state_text receipt) ;;
  verification_status <~? Return (verification_status_text receipt) ;;
  _ <~? begin ;;
  inserted <~? InsertReceipt (receipt_row receipt processing_state verification_status) Return ;;
  match inserted with
  | None =>
      _ <~? rollback ;;
      existing <~? execute (select_id_by_key (WebhookReceipt.dedupe_key receipt)) ;;
      Return (Ok (StoreResult.Duplicate (ReceiptId.mk existing)))
  | Some _ =>
      _ <~? insert_deliveries (ReceiptId.uuid (WebhookReceipt.receipt_id receipt)) emitter_names ;;
      _ <~? commit ;;
      Return (Ok StoreResult.Stored)
  end.

Definition update_state (id : Uuid) (state : ProcessingState.t) (error : option string) :
    Prog (result unit StorageError.t) :=
  state_str <~? Return (serialize_enum (ProcessingState.serde_name state)) ;;
  _ <~? execute (update_receipt_state state_str error id) ;;
  Return (Ok tt).

Definition retry_failed (id : Uuid) (max_attempts : Z) : Prog (result unit StorageError.t) :=
  _ <~? execute (update_retry_failed id max_attempts) ;;
  Return (Ok tt).

Definition reset_for_retry (id : Uuid) : Prog (result unit StorageError.t) :=
  rows_affected <~? execute (update_reset_for_retry id) ;;
  if decide (rows_affected = 0)
  then Return (Err (StorageError.Internal ("no receipt found with id " +:+ uuid_to_string id)))
  else Return (Ok tt).

Definition get (id : Uuid) : Prog (result (option WebhookReceipt.t) StorageError.t) :=
  row <~? execute (select_receipt id) ;;
  Return (match row with
          | None => Ok None
          | Some r => match receipt_from_row r with Ok x => Ok (Some x) | Err e => Err e end
          end).

Definition with_receipt (row : DeliveryRow.t) :
    Prog (result (WebhookDelivery.t * WebhookReceipt.t) StorageError.t) :=
  delivery <~? Return (delivery_from_row row) ;;
  receipt <~? get (DeliveryRow.receipt_id row) ;;
  Return (match receipt with
          | Some r => Ok (delivery, r)
          | None => Err (StorageError.Internal "delivery references missing receipt")
          end).

Fixpoint with_receipts (rows : list DeliveryRow.t) :
    Prog (result (list (WebhookDelivery.t * WebhookReceipt.t)) StorageError.t) :=
  match rows with
  | [] => Return (Ok [])
  | row :: rows' =>
      p <~? with_receipt row ;;
      ps <~? with_receipts rows' ;;
      Return (Ok (p :: ps))
  end.

Definition claim_pending (emitter_name : string) (batch_size : Z) :
    Prog (result (list (WebhookDelivery.t * WebhookReceipt.t)) StorageError.t) :=
  rows <~? execute (claim emitter_name batch_size) ;;
  with_receipts rows.

Definition reclaim_expired (emitter_name : string) (lease_duration : Duration) : Prog (result Z StorageError.t) :=
  let lease_secs := as_secs_f64 lease_duration in
  execute (update_reclaim emitter_name (make_interval lease_secs)).

Definition mark_emitted (delivery_id : DeliveryId.t) : Prog (result unit StorageError.t) :=
  _ <~? execute (update_emitted (DeliveryId.uuid delivery_id)) ;;
  Return (Ok tt).

Definition mark_failed (delivery_id : DeliveryId.t) (attempt_count : Z) (next_attempt_at : DateTime)
    (last_error : string) : Prog (result unit StorageError.t) :=
  _ <~? execute (update_failed (DeliveryId.uuid delivery_id) attempt_count (timestamptz next_attempt_at)
                   last_error) ;;
  Return (Ok tt).

Definition mark_dead_lettered (delivery_id : DeliveryId.t) (last_error : string) :
    Prog (result unit StorageError.t) :=
  _ <~? execute (update_dead_lettered (DeliveryId.uuid delivery_id) last_error) ;;
  Return (Ok tt).

Definition insert_replay (receipt_id : ReceiptId.t) (emitter_name : string) :
    Prog (result DeliveryId.t StorageError.t) :=
  delivery_id <~? InsertDelivery (ReceiptId.uuid receipt_id) emitter_name Return ;;
  Return (Ok (DeliveryId.mk delivery_id)).

Definition insert_replays (receipt_id : ReceiptId.t) (emitter_names : list string) :
    Prog (result (list DeliveryId.t) StorageError.t) :=
  _ <~? begin ;;
  ids <~? insert_deliveries (ReceiptId.uuid receipt_id) emitter_names ;;
  _ <~? commit ;;
  Return (Ok (map DeliveryId.mk ids)).
End methods.
End Rounds.

(** ** One session that runs alone

    A failed round trip ends the transaction; [Commit] and [Rollback] without one do nothing. *)

Definition in_tx {A} (tx : option Tx) (s : Stmt A) : M Pg (result A StorageError.t * option Tx) :=
  match tx with
  | None => r <- Database.execute s ;; ret (r, None)
  | Some t =>
      r <- tx_execute s t ;;
      ret (match r with Ok (a, t') => (Ok a, Some t') | Err e => (Err e, None) end)
  end.

Section driver.
Context `{PgTypes}.

Fixpoint run {A} (p : Prog A) (tx : option Tx) : M Pg (A * option Tx) :=
  match p with
  | Return a => ret (a, tx)
  | Execute s k => r <- Database.execute s ;; run (k r) tx
  | InsertReceipt row k => '(r, tx') <- in_tx tx (insert_receipt row) ;; run (k r) tx'
  | InsertDelivery id name k => '(r, tx') <- in_tx tx (insert_delivery id name) ;; run (k r) tx'
  | Begin k =>
      r <- Database.begin ;;
      match r with Ok t => run (k (Ok tt)) (Some t) | Err e => run (k (Err e)) None end
  | Commit k =>
      match tx with
      | Some t => r <- Database.commit t ;; run (k r) None
      | None => run (k (Ok tt)) None
      end
  | Rollback k =>
      match tx with
      | Some t => r <- Database.rollback t ;; run (k r) None
      | None => run (k (Ok tt)) None
      end
  end.

Definition run_alone {A} (p : Prog A) : M Pg A := '(a, _) <- run p None ;; ret a.

Lemma run_bind {A B} (p : Prog A) (f : A → Prog B) tx w :
  run (prog_bind p f) tx w = bind (run p tx) (λ '(a, tx'), run (f a) tx') w.
Proof.
  revert tx w. induction p as [a|C s k IH|row k IH|id name k IH|k IH|k IH|k IH]; intros tx w; cbn.
  - done.
  - unfold bind. destruct (Database.execute s w) as [r w1]. apply IH.
  - unfold bind. destruct (in_tx tx _ w) as [[r tx'] w1]. apply IH.
  - unfold bind. destruct (in_tx tx _ w) as [[r tx'] w1]. apply IH.
  - unfold bind. destruct (Database.begin w) as [[t|e] w1]; apply IH.
  - destruct tx as [t|]; [|apply IH]. unfold bind. destruct (Database.commit t w) as [r w1]. apply IH.
  - destruct tx as [t|]; [|apply IH]. unfold bind. destruct (Database.rollback t w) as [r w1]. apply IH.
Qed.

Lemma run_bind_try {A B E} (p : Prog (result A E)) (f : A → Prog (result B E)) tx w :
  run (prog_bind_try p f) tx w =
  bind (run p tx) (λ '(r, tx'), match r with Ok a => run (f a) tx' | Err e => ret (Err e, tx') end) w.
Proof.
  unfold prog_bind_try. rewrite run_bind. unfold bind. destruct (run p tx w) as [[[a|e] tx'] w1]; done.
Qed.

(** Driven alone, a tree does what the method [m] does. *)
Definition is_method {A} (p : Prog A) (m : M Pg A) : Prop := ∀ w, run_alone p w = m w.

(** No transaction is open, and the tree does what [m] does. *)
Definition pool_method {A} (p : Prog A) (m : M Pg A) : Prop :=
  ∀ w, run p None w = (λ '(a, w'), ((a, None), w')) (m w).

Lemma pool_method_alone {A} (p : Prog A) (m : M Pg A) : pool_method p m → is_method p m.
Proof. intros Hpm w. unfold run_alone, bind. rewrite Hpm. by destruct (m w). Qed.

Lemma pool_return {A} (a : A) : pool_method (Return a) (ret a).
Proof. by intros w. Qed.
Lemma pool_execute {A} (s : Stmt A) : pool_method (Rounds.execute s) (Database.execute s).
Proof. intros w. cbn [run in_tx Rounds.execute]. unfold bind. by destruct (Database.execute s w). Qed.
Lemma pool_insert_receipt row : pool_method (InsertReceipt row Return) (Database.execute (insert_receipt row)).
Proof. intros w. cbn [run in_tx Rounds.execute]. unfold bind. by destruct (Database.execute _ w). Qed.
Lemma pool_insert_delivery id name :
  pool_method (InsertDelivery id name Return) (Database.execute (insert_delivery id name)).
Proof. intros w. cbn [run in_tx Rounds.execute]. unfold bind. by destruct (Database.execute _ w). Qed.
Lemma pool_bind_try {A B E} (p : Prog (result A E)) m (f : A → Prog (result B E)) k :
  pool_method p m → (∀ a, pool_method (f a) (k a)) → pool_method (prog_bind_try p f) (bind_try m k).
Proof.
  intros Hp Hf w. rewrite run_bind_try. unfold bind_try, bind. rewrite Hp.
  destruct (m w) as [[a|e] w1]; [apply Hf|done].
Qed.
End driver.

Create HintDb rounds discriminated.
#[export] Hint Constants Transparent : rounds.
#[export] Hint Resolve pool_return pool_execute pool_insert_receipt pool_insert_delivery pool_bind_try : rounds.

Section alone.
Context `{SerdeJson} `{PgTypes} `{UuidText}.

Lemma pool_get id : pool_method (Rounds.get id) (PostgresStorage.get id).
Proof. unfold Rounds.get, PostgresStorage.get. auto with rounds. Qed.

Lemma pool_with_receipt row : pool_method (Rounds.with_receipt row) (PostgresStorage.with_receipt row).
Proof.
  unfold Rounds.with_receipt, PostgresStorage.with_receipt, lift_result.
  apply pool_bind_try; [apply pool_return|]. intros d. apply pool_bind_try; [apply pool_get|]. auto with rounds.
Qed.

Lemma pool_with_receipts rows :
  pool_method (Rounds.with_receipts rows) (map_try PostgresStorage.with_receipt rows).
Proof.
  induction rows as [|row rows IH]; cbn; [apply pool_return|].
  apply pool_bind_try; [apply pool_with_receipt|]. intros p. apply pool_bind_try; [done|]. auto with rounds.
Qed.

(** The inserts of a transaction. *)
Lemma run_insert_deliveries id names tx w :
  run (Rounds.insert_deliveries id names) (Some tx) w =
  match PostgresStorage.insert_deliveries id names tx w with
  | (Ok (ids, tx'), w') => ((Ok ids, Some tx'), w')
  | (Err e, w') => ((Err e, None), w')
  end.
Proof.
  revert tx w. induction names as [|name names IH]; intros tx w; [done|].
  cbn [Rounds.insert_deliveries PostgresStorage.insert_deliveries].
  rewrite run_bind_try. unfold bind_try, bind. cbn [run in_tx]. unfold bind.
  destruct (tx_execute (insert_delivery id name) tx w) as [[[u tx1]|e] w1]; cbn; [|done].
  rewrite run_bind_try. unfold bind. rewrite IH.
  by destruct (PostgresStorage.insert_deliveries id names tx1 w1) as [[[us tx2]|e] w2].
Qed.

Lemma store_with_deliveries_rounds r names :
  is_method (Rounds.store_with_deliveries r names) (PostgresStorage.store_with_deliveries r names).
Proof.
  intros w. unfold run_alone, Rounds.store_with_deliveries, PostgresStorage.store_with_deliveries, lift_result.
  rewrite processing_state_text_ok, verification_status_text_ok, !bind_try_ok. unfold bind at 1.
  do 2 (rewrite run_bind_try; unfold bind at 1; cbn [run ret]).
  rewrite run_bind_try. unfold bind_try at 1, bind. cbn [Rounds.begin run]. unfold bind.
  destruct (Database.begin w) as [[tx|e] w1]; [|done]. cbn [run ret].
  rewrite run_bind_try. unfold bind_try at 1, bind. cbn [run in_tx]. unfold bind.
  destruct (tx_execute _ tx w1) as [[[[u|] tx1]|e] w2]; [| |done]; cbn [run ret];
    rewrite run_bind_try; unfold bind_try, bind.
  - rewrite run_insert_deliveries.
    destruct (PostgresStorage.insert_deliveries _ names tx1 w2) as [[[us tx2]|e] w3]; [|done].
    rewrite run_bind_try. cbn [run Rounds.commit]. unfold bind. by destruct (Database.commit tx2 w3) as [[[]|e] w4].
  - cbn [run Rounds.rollback]. unfold bind. destruct (Database.rollback tx1 w2) as [[[]|e] w3]; [|done].
    cbn [run ret]. rewrite run_bind_try. cbn [run Rounds.execute]. unfold bind.
    by destruct (Database.execute _ w3) as [[i|e] w4].
Qed.

Lemma insert_replays_rounds id names :
  is_method (Rounds.insert_replays id names) (PostgresStorage.insert_replays id names).
Proof.
  intros w. unfold run_alone, Rounds.insert_replays, PostgresStorage.insert_replays. unfold bind at 1.
  rewrite run_bind_try. unfold bind_try, bind. cbn [Rounds.begin run]. unfold bind.
  destruct (Database.begin w) as [[tx|e] w1]; [|done]. cbn [run ret].
  rewrite run_bind_try. unfold bind. rewrite run_insert_deliveries.
  destruct (PostgresStorage.insert_deliveries _ names tx w1) as [[[us tx1]|e] w2]; [|done].
  rewrite run_bind_try. cbn [run Rounds.commit]. unfold bind. by destruct (Database.commit tx1 w2) as [[[]|e] w3].
Qed.

(** The trees are the methods. *)
Theorem rounds_are_the_methods :
  (∀ r, is_method (Rounds.store r) (PostgresStorage.store r)) ∧
  (∀ r names, is_method (Rounds.store_with_deliveries r names) (PostgresStorage.store_with_deliveries r names)) ∧
  (∀ id s e, is_method (Rounds.update_state id s e) (PostgresStorage.update_state id s e)) ∧
  (∀ id m, is_method (Rounds.retry_failed id m) (PostgresStorage.retry_failed id m)) ∧
  (∀ id, is_method (Rounds.reset_for_retry id) (PostgresStorage.reset_for_retry id)) ∧
  (∀ n b, is_method (Rounds.claim_pending n b) (PostgresStorage.claim_pending n b)) ∧
  (∀ n l, is_method (Rounds.reclaim_expired n l) (PostgresStorage.reclaim_expired n l)) ∧
  (∀ id, is_method (Rounds.mark_emitted id) (PostgresStorage.mark_emitted id)) ∧
  (∀ id c t e, is_method (Rounds.mark_failed id c t e) (PostgresStorage.mark_failed id c t e)) ∧
  (∀ id e, is_method (Rounds.mark_dead_lettered id e) (PostgresStorage.mark_dead_lettered id e)) ∧
  (∀ r n, is_method (Rounds.insert_replay r n) (PostgresStorage.insert_replay r n)) ∧
  (∀ r names, is_method (Rounds.insert_replays r names) (PostgresStorage.insert_replays r names)).
Proof.
  split_and!; intros; try apply store_with_deliveries_rounds; try apply insert_replays_rounds;
    apply pool_method_alone.
  - unfold Rounds.store, PostgresStorage.store, lift_result.
    do 2 (apply pool_bind_try; [apply pool_return|intros ?]).
    apply pool_bind_try; [apply pool_insert_receipt|]. intros [u|]; auto with rounds.
  - unfold Rounds.update_state, PostgresStorage.update_state, lift_result. auto with rounds.
  - unfold Rounds.retry_failed, PostgresStorage.retry_failed. auto with rounds.
  - unfold Rounds.reset_for_retry, PostgresStorage.reset_for_retry.
    apply pool_bind_try; [apply pool_execute|]. intros n. case_decide; auto with rounds.
  - unfold Rounds.claim_pending, PostgresStorage.claim_pending.
    apply pool_bind_try; [apply pool_execute|]. apply pool_with_receipts.
  - apply pool_execute.
  - unfold Rounds.mark_emitted, PostgresStorage.mark_emitted. auto with rounds.
  - unfold Rounds.mark_failed, PostgresStorage.mark_failed. auto with rounds.
  - unfold Rounds.mark_dead_lettered, PostgresStorage.mark_dead_lettered. auto with rounds.
  - unfold Rounds.insert_replay, PostgresStorage.insert_replay. auto with rounds.
Qed.
End alone.
