(* ===== verification/Lifecycle.v ===== *)
(** * The life cycle of the rows

    The transitions a delivery row may take, what of a receipt row may change, and that every
    method of [PostgresStorage] and [StorageDedupe], under any faults, makes only such
    transitions and keeps the invariant of the tables. *)

From S2P Require Import Prelude RustStd F64 Types Traits Database DatabaseProps Postgres PostgresProps Instances.
Local Open Scope Z_scope.

(** ** Rows *)

Inductive row_step : DeliveryRow.t → DeliveryRow.t → Prop :=
| step_claim t x :
    DeliveryRow.state x ∈ ["pending"; "failed"] → DeliveryRow.immutable x = false →
    DeliveryRow.next_attempt_at x ≤ t → row_step x (DeliveryRow.set_in_flight t x)
| step_reclaim t x :
    DeliveryRow.state x = "in_flight" → DeliveryRow.immutable x = false →
    row_step x (DeliveryRow.set_reclaimed t x)
| step_emitted t x :
    DeliveryRow.state x = "in_flight" → row_step x (DeliveryRow.set_emitted t x)
| step_failed n t e x :
    DeliveryRow.state x = "in_flight" → row_step x (DeliveryRow.set_failed n t e x)
| step_dead_lettered e x :
    DeliveryRow.state x = "in_flight" → row_step x (DeliveryRow.set_dead_lettered e x).

(** A delivery row is born pending, unattempted and due. *)
Definition newborn (x : DeliveryRow.t) : Prop :=
  DeliveryRow.state x = "pending" ∧ DeliveryRow.attempt_count x = 0 ∧
  DeliveryRow.last_error x = None ∧ DeliveryRow.emitted_at x = None ∧
  DeliveryRow.immutable x = false ∧ DeliveryRow.next_attempt_at x = DeliveryRow.created_at x.

(** What of a receipt never changes: everything but its processing state, its emit count and
    its last error. *)
Definition same_receipt (r r' : ReceiptRow.t) : Prop :=
  r' = ReceiptRow.set_state (ReceiptRow.processing_state r') (ReceiptRow.emit_count r')
         (ReceiptRow.last_error r') r.

#[export] Instance same_receipt_preorder : PreOrder same_receipt.
Proof.
  split; [by intros []|]. intros r1 r2 r3 H12 H23. unfold same_receipt in *.
  rewrite H23. rewrite H12. done.
Qed.

(** Rows are never deleted or reordered; the old ones move along their life cycle, the new
    ones are appended. *)
Definition evolves (d d' : Db) : Prop :=
  (∃ old new, webhook_receipts d' = old ++ new ∧ Forall2 same_receipt (webhook_receipts d) old) ∧
  (∃ old new, webhook_deliveries d' = old ++ new ∧
              Forall2 (rtc row_step) (webhook_deliveries d) old ∧
              ∀ x, x ∈ new → ∃ y, newborn y ∧ rtc row_step y x).

Definition legal (d d' : Db) : Prop := db_wf d → evolves d d' ∧ db_wf d'.

#[export] Instance evolves_preorder : PreOrder evolves.
Proof.
  split.
  - intros d. split.
    + exists (webhook_receipts d), []. rewrite app_nil_r. split; [done|].
      reflexivity.
    + exists (webhook_deliveries d), []. rewrite app_nil_r. split_and!; [done| |].
      * reflexivity.
      * intros x Hx. by apply elem_of_nil in Hx.
  - intros d1 d2 d3 [(o1 & n1 & E1 & F1) (p1 & m1 & G1 & H1 & K1)]
      [(o2 & n2 & E2 & F2) (p2 & m2 & G2 & H2 & K2)].
    rewrite E1 in F2. rewrite G1 in H2.
    apply Forall2_app_inv_l in F2 as (a & b & Fa & Fb & ->).
    apply Forall2_app_inv_l in H2 as (x & y & Hx & Hy & ->).
    split.
    + exists a, (b ++ n2). rewrite E2, app_assoc. split; [done|].
      by etrans.
    + exists x, (y ++ m2). rewrite G2, app_assoc. split_and!; [done|by etrans|].
      intros z [Hz|Hz]%elem_of_app; [|by apply K2].
      apply list_elem_of_lookup in Hz as [i Hi].
      apply (Forall2_lookup_r _ _ _ _ _ Hy) in Hi as (z0 & Hz0 & Hs).
      destruct (K1 z0) as (v & Hv & Hvz); [by eapply list_elem_of_lookup_2|].
      exists v. split; [done|]. by etrans.
Qed.

#[export] Instance legal_preorder : PreOrder legal.
Proof.
  split; [intros d Hd; by split|]. intros d1 d2 d3 H12 H23 W1.
  destruct (H12 W1) as [E1 W2]. destruct (H23 W2) as [E2 W3]. split; [by etrans|done].
Qed.

(** ** Statements and methods *)

Definition stmt_legal {A} (s : Stmt A) : Prop :=
  ∀ c d a d', s c d = Ok (a, d') → legal d d'.
Definition method_legal {A} (m : M Pg A) : Prop := ∀ w, legal (db w) (db (m w).2).

Create HintDb legal discriminated.
#[export] Hint Constants Transparent : legal.

Lemma legal_update_deliveries p f :
  (∀ c x, p c x = true → row_step x (f c x)) →
  preserves db_wf (update_deliveries p f) → stmt_legal (update_deliveries p f).
Proof.
  intros Hstep Hwf c d a d' Hrun Hd. split; [|by eapply Hwf].
  injection Hrun as <- <-. split; cbn.
  - exists (webhook_receipts d), []. rewrite app_nil_r. split; [done|].
    reflexivity.
  - eexists _, []. rewrite app_nil_r. split_and!; [done| |].
    + apply Forall2_map_self. intros x _.
      destruct (p c x) eqn:E; [by apply rtc_once, Hstep|reflexivity].
    + intros x Hx. by apply elem_of_nil in Hx.
Qed.

Lemma legal_update_receipts p f :
  (∀ x, same_receipt x (f x)) →
  preserves db_wf (update_receipts p f) → stmt_legal (update_receipts p f).
Proof.
  intros Hs Hwf c d a d' Hrun Hd. split; [|by eapply Hwf].
  injection Hrun as <- <-. split; cbn.
  - eexists _, []. rewrite app_nil_r. split; [done|].
    apply Forall2_map_self. intros x _. destruct (p x); [apply Hs|reflexivity].
  - exists (webhook_deliveries d), []. rewrite app_nil_r. split_and!; [done| |].
    + reflexivity.
    + intros x Hx. by apply elem_of_nil in Hx.
Qed.

Lemma legal_read {A} (f : Clock → Db → result A string) : stmt_legal (read f).
Proof. intros c d a d'. unfold read. destruct (f c d); [|done]. by intros [= <- <-]. Qed.

(** Rows appended to both tables. *)
Lemma evolves_append d rs xs :
  (∀ x, x ∈ xs → newborn x) →
  evolves d (mkDb (webhook_receipts d ++ rs) (webhook_deliveries d ++ xs)).
Proof.
  intros Hnew. split; cbn.
  - exists (webhook_receipts d), rs. split; [done|].
    reflexivity.
  - exists (webhook_deliveries d), xs. split_and!; [done| |].
    + reflexivity.
    + intros x Hx. exists x. split; [by apply Hnew|reflexivity].
Qed.

Lemma newborn_new_delivery c id n : newborn (new_delivery c id n).
Proof. by repeat split. Qed.

Lemma legal_insert_delivery id n : stmt_legal (insert_delivery id n).
Proof.
  intros c d a d' Hrun Hd. split; [|by eapply insert_delivery_wf].
  apply insert_delivery_run in Hrun as (_ & _ & _ & ->).
  rewrite <- (app_nil_r (webhook_receipts d)). apply evolves_append.
  intros x ->%list_elem_of_singleton. apply newborn_new_delivery.
Qed.

(** A row of a table, with a name of each enum. *)
Definition insertable (row : ReceiptRow.t) : Prop :=
  ReceiptRow.processing_state row ∈ map ProcessingState.serde_name ProcessingState.all ∧
  ReceiptRow.verification_status row ∈ map VerificationStatus.serde_name VerificationStatus.all.

Lemma legal_insert_receipt `{PgTypes} row : insertable row → stmt_legal (insert_receipt row).
Proof.
  intros [Hp Hv] c d a d' Hrun Hd. split; [|exact (insert_receipt_wf row Hp Hv c d a d' Hd Hrun)].
  apply insert_receipt_inv in Hrun as [(_ & -> & _)|(_ & _ & _ & ->)]; [reflexivity|].
  rewrite <- (app_nil_r (webhook_deliveries d)). apply evolves_append.
  intros x Hx. by apply elem_of_nil in Hx.
Qed.

Lemma insertable_bound `{PgTypes} r : insertable (bound_receipt r).
Proof.
  split; cbn.
  - destruct (WebhookReceipt.processing_state r); enum_name.
  - destruct (WebhookReceipt.verification_status r); enum_name.
Qed.

Lemma legal_bind_text {A} texts (s : Stmt A) : stmt_legal s → stmt_legal (bind_text texts s).
Proof. intros Hs c d a d' [_ Hrun]%bind_text_Ok. by eapply Hs. Qed.

Lemma leased_in_flight id c x : leased id c x = true → DeliveryRow.state x = "in_flight".
Proof. unfold leased. by intros [_ H%bool_decide_eq_true]%andb_prop. Qed.

Lemma legal_claim name b : stmt_legal (claim name b).
Proof.
  intros c d a d' Hrun Hd. split; [|by eapply claim_wf].
  unfold claim in Hrun. destruct (b <? 0); [done|]. injection Hrun as _ <-. split; cbn.
  - exists (webhook_receipts d), []. rewrite app_nil_r. split; [done|].
    reflexivity.
  - eexists _, []. rewrite app_nil_r. split_and!; [done| |intros x Hx; by apply elem_of_nil in Hx].
    apply Forall2_map_self. intros x Hx.
    destruct (bool_decide _) eqn:E; [|reflexivity]. apply bool_decide_eq_true in E.
    apply elem_of_claim_ids in E as (r & Hr & Hid & Hdis & _).
    assert (r = x) as -> by (eapply (NoDup_map_inj_on DeliveryRow.delivery_id);
      [apply (wf_delivery_ids _ Hd)|done..]).
    apply rtc_once. unfold dispatchable in Hdis.
    apply andb_prop in Hdis as [[[_ Hst%bool_decide_eq_true]%andb_prop Hdue]%andb_prop Him].
    apply step_claim; [done|by apply negb_true_iff|lia].
Qed.

Lemma legal_update_receipt_state s err id :
  stmt_legal (update_receipt_state (ProcessingState.serde_name s) err id).
Proof.
  apply legal_bind_text, legal_update_receipts; [by intros []|apply update_receipts_wf; try done].
  intros x. destruct s; enum_name.
Qed.
Lemma legal_update_reset_for_retry id : stmt_legal (update_reset_for_retry id).
Proof. apply legal_update_receipts; [by intros []|apply update_reset_for_retry_wf]. Qed.
Lemma legal_update_retry_failed id m : stmt_legal (update_retry_failed id m).
Proof.
  intros c d a d' Hrun Hd. split; [|by eapply update_retry_failed_wf].
  unfold update_retry_failed in Hrun. destruct (existsb _ _); [done|].
  injection Hrun as _ <-. split; cbn.
  - eexists _, []. rewrite app_nil_r. split; [done|].
    apply Forall2_map_self. intros x _.
    destruct (has_receipt_id id x); [by destruct x|reflexivity].
  - exists (webhook_deliveries d), []. rewrite app_nil_r. split_and!; [done| |].
    + reflexivity.
    + intros x Hx. by apply elem_of_nil in Hx.
Qed.

Lemma legal_update_reclaim name i : stmt_legal (update_reclaim name i).
Proof.
  apply legal_update_deliveries; [|apply update_reclaim_wf]. intros c x. unfold lease_expired.
  intros [[[_ H%bool_decide_eq_true]%andb_prop _]%andb_prop Him%negb_true_iff]%andb_prop.
  by apply step_reclaim.
Qed.
Lemma legal_update_emitted id : stmt_legal (update_emitted id).
Proof.
  apply legal_update_deliveries; [|apply update_emitted_wf].
  intros c x H%leased_in_flight. by apply step_emitted.
Qed.
Lemma legal_update_failed id n t e : stmt_legal (update_failed id n t e).
Proof.
  apply legal_bind_text, legal_update_deliveries; [|apply update_deliveries_wf; try done; intros c x; cbn; enum_name].
  intros c x H%leased_in_flight. by apply step_failed.
Qed.
Lemma legal_update_dead_lettered id e : stmt_legal (update_dead_lettered id e).
Proof.
  apply legal_bind_text, legal_update_deliveries; [|apply update_deliveries_wf; try done; intros c x; cbn; enum_name].
  intros c x H%leased_in_flight. by apply step_dead_lettered.
Qed.

#[export] Hint Resolve legal_read legal_bind_text legal_insert_delivery legal_insert_receipt insertable_bound legal_claim
  legal_update_receipt_state legal_update_reset_for_retry legal_update_retry_failed
  legal_update_reclaim legal_update_emitted legal_update_failed legal_update_dead_lettered : legal.

(** Methods are built from statements with the monad's operations. *)
Lemma legal_ret {A} (a : A) : method_legal (ret a).
Proof. intros w. reflexivity. Qed.
Lemma legal_bind {A B} (m : M Pg A) (k : A → M Pg B) :
  method_legal m → (∀ a, method_legal (k a)) → method_legal (bind m k).
Proof.
  intros Hm Hk w. unfold bind. specialize (Hm w). destruct (m w) as [a w1].
  cbn in Hm. etrans; [exact Hm|apply Hk].
Qed.
Lemma legal_bind_try {A B E} (m : M Pg (result A E)) (k : A → M Pg (result B E)) :
  method_legal m → (∀ a, method_legal (k a)) → method_legal (bind_try m k).
Proof.
  intros Hm Hk. apply legal_bind; [done|]. intros [a|e]; [apply Hk|apply legal_ret].
Qed.
Lemma legal_execute {A} (s : Stmt A) : stmt_legal s → method_legal (execute s).
Proof.
  intros Hs w. destruct (execute s w) as [r w'] eqn:E. cbn.
  apply execute_inv in E as [(e & _ & ->)|(a & Ha & _)]; [reflexivity|by eapply Hs].
Qed.
Lemma legal_map_try {A B E} (f : A → M Pg (result B E)) l :
  (∀ a, method_legal (f a)) → method_legal (map_try f l).
Proof.
  intros Hf. induction l as [|a l IH]; cbn; [apply legal_ret|].
  apply legal_bind_try; [apply Hf|]. intros b. apply legal_bind_try; [done|].
  intros bs. apply legal_ret.
Qed.
#[export] Hint Resolve legal_ret legal_bind legal_bind_try legal_execute legal_map_try : legal.

Section methods.
Context `{SerdeJson} `{PgTypes} `{UuidText}.

Lemma legal_get id : method_legal (PostgresStorage.get id).
Proof. unfold PostgresStorage.get, select_receipt. auto with legal. Qed.

Lemma legal_with_receipt x : method_legal (PostgresStorage.with_receipt x).
Proof.
  unfold PostgresStorage.with_receipt, lift_result.
  apply legal_bind_try; [apply legal_ret|]. intros d.
  apply legal_bind_try; [apply legal_get|]. intros r. apply legal_ret.
Qed.

Lemma legal_commits r names t d d' : commits r names t d d' → legal d d'.
Proof.
  intros [(Hk & Hi & new & -> & Hnew) [Hwf _]] Hd. split; [|auto].
  apply evolves_append. intros x Hx.
  apply list_elem_of_lookup in Hx as [i Hx].
  apply (Forall2_lookup_l _ _ _ _ _ Hnew) in Hx as (n & _ & u & ->).
  apply newborn_new_delivery.
Qed.

Lemma legal_store_with_deliveries r names :
  method_legal (PostgresStorage.store_with_deliveries r names).
Proof.
  intros w. destruct (PostgresStorage.store_with_deliveries r names w) as [res w'] eqn:E.
  apply store_with_deliveries_inv in E. cbn.
  destruct res as [[|id]|e].
  - by eapply legal_commits.
  - by destruct E as [-> _].
  - destruct E as [->|E]; [done|by eapply legal_commits].
Qed.

Lemma legal_insert_replays id names : method_legal (PostgresStorage.insert_replays id names).
Proof.
  intros w. destruct (insert_replays_effect id names w) as [->|(new & [Hdb (t & Hnew)] & Hwf)]; [done|].
  intros Hd. split; [|auto]. rewrite Hdb.
  rewrite <- (app_nil_r (webhook_receipts (db w))). apply evolves_append. intros x Hx.
  apply list_elem_of_lookup in Hx as [i Hx].
  apply (Forall2_lookup_l _ _ _ _ _ Hnew) in Hx as (n & _ & u & ->).
  apply newborn_new_delivery.
Qed.
#[local] Hint Resolve legal_get legal_with_receipt legal_store_with_deliveries
  legal_insert_replays : legal.

Lemma legal_store r : method_legal (PostgresStorage.store r).
Proof.
  unfold PostgresStorage.store, lift_result.
  rewrite processing_state_text_ok, verification_status_text_ok, !bind_try_ok. fold (bound_receipt r).
  unfold select_id_by_key. apply legal_bind_try; [auto with legal|]. intros [u|]; auto with legal.
Qed.

Lemma legal_update_state id s err : method_legal (PostgresStorage.update_state id s err).
Proof.
  unfold PostgresStorage.update_state, lift_result.
  rewrite serialize_processing_state, bind_try_ok. auto with legal.
Qed.

Lemma legal_reset_for_retry id : method_legal (PostgresStorage.reset_for_retry id).
Proof.
  unfold PostgresStorage.reset_for_retry. apply legal_bind_try; [auto with legal|].
  intros n. destruct (decide (n = 0)); auto with legal.
Qed.

Lemma legal_get_delivery id : method_legal (PostgresStorage.get_delivery id).
Proof.
  unfold PostgresStorage.get_delivery, select_delivery.
  apply legal_bind_try; [auto with legal|]. intros [x|]; auto with legal.
Qed.

Lemma legal_query f : method_legal (PostgresStorage.query f).
Proof.
  unfold PostgresStorage.query, lift_result, select_receipts. auto with legal.
Qed.

Lemma legal_claim_pending e b : method_legal (PostgresStorage.claim_pending e b).
Proof. unfold PostgresStorage.claim_pending. auto 6 with legal. Qed.
Lemma legal_list_dlq e l o : method_legal (PostgresStorage.list_dlq e l o).
Proof. unfold PostgresStorage.list_dlq, select_dlq. auto 6 with legal. Qed.
Lemma legal_insert_replay r n : method_legal (PostgresStorage.insert_replay r n).
Proof. unfold PostgresStorage.insert_replay. auto with legal. Qed.
Lemma legal_count p : method_legal (PostgresStorage.count_u64 p).
Proof. unfold PostgresStorage.count_u64, count_where. auto with legal. Qed.
End methods.
