(* ===== verification/Fleet.v ===== *)
(** * Concurrent sessions

    Any number of server processes, emitter workers and command-line tools work on the same
    database.  A step of a trace is one whole writing method of
    [PostgresStorage], run by a session of its own with its own clock and faults; [Concurrent]
    shows that interleaving the methods statement by statement reaches no other database. *)

From S2P Require Import Prelude RustStd F64 Types Traits Database DatabaseProps Postgres PostgresProps Lifecycle Instances Samples.
Local Open Scope Z_scope.
Local Open Scope rust_scope.

(** The writing methods. *)
Inductive Op : Type :=
| Store (r : WebhookReceipt.t)
| StoreWithDeliveries (r : WebhookReceipt.t) (names : list string)
| UpdateState (id : Uuid) (s : ProcessingState.t) (err : option string)
| RetryFailed (id : Uuid) (max_attempts : Z)
| ResetForRetry (id : Uuid)
| ClaimPending (name : string) (batch : Z)
| ReclaimExpired (name : string) (lease : Duration)
| MarkEmitted (id : DeliveryId.t)
| MarkFailed (id : DeliveryId.t) (count : Z) (next : DateTime) (err : string)
| MarkDeadLettered (id : DeliveryId.t) (err : string)
| InsertReplay (r : ReceiptId.t) (name : string)
| InsertReplays (r : ReceiptId.t) (names : list string).

Section fleet.
Context `{SerdeJson} `{PgTypes} `{UuidText}.

Definition run_op (o : Op) (w : Pg) : Pg :=
  match o with
  | Store r => (PostgresStorage.store r w).2
  | StoreWithDeliveries r names => (PostgresStorage.store_with_deliveries r names w).2
  | UpdateState id s err => (PostgresStorage.update_state id s err w).2
  | RetryFailed id m => (PostgresStorage.retry_failed id m w).2
  | ResetForRetry id => (PostgresStorage.reset_for_retry id w).2
  | ClaimPending name batch => (PostgresStorage.claim_pending name batch w).2
  | ReclaimExpired name lease => (PostgresStorage.reclaim_expired name lease w).2
  | MarkEmitted id => (PostgresStorage.mark_emitted id w).2
  | MarkFailed id n t e => (PostgresStorage.mark_failed id n t e w).2
  | MarkDeadLettered id e => (PostgresStorage.mark_dead_lettered id e w).2
  | InsertReplay r n => (PostgresStorage.insert_replay r n w).2
  | InsertReplays r names => (PostgresStorage.insert_replays r names w).2
  end.

(** Some session performs the method. *)
Inductive step (o : Op) : Db → Db → Prop :=
| step_run w : step o (db w) (db (run_op o w)).

Inductive trace : list Op → Db → Db → Prop :=
| trace_nil d : trace [] d d
| trace_cons o os d d' d'' : step o d d' → trace os d' d'' → trace (o :: os) d d''.

Lemma trace_app os1 os2 d1 d2 d3 : trace os1 d1 d2 → trace os2 d2 d3 → trace (os1 ++ os2) d1 d3.
Proof. induction 1; cbn; [done|]. intros Ht. econstructor; eauto. Qed.

Lemma step_legal o d d' : step o d d' → legal d d'.
Proof.
  intros [w]. destruct o; cbn [run_op].
  - apply legal_store.
  - apply legal_store_with_deliveries.
  - apply legal_update_state.
  - unfold PostgresStorage.retry_failed.
    refine (legal_bind_try _ _ _ _ w); auto with legal.
  - apply legal_reset_for_retry.
  - apply legal_claim_pending.
  - unfold PostgresStorage.reclaim_expired. refine (legal_execute _ _ w). auto with legal.
  - unfold PostgresStorage.mark_emitted. refine (legal_bind_try _ _ _ _ w); auto with legal.
  - unfold PostgresStorage.mark_failed. refine (legal_bind_try _ _ _ _ w); auto with legal.
  - unfold PostgresStorage.mark_dead_lettered. refine (legal_bind_try _ _ _ _ w); auto with legal.
  - apply legal_insert_replay.
  - apply legal_insert_replays.
Qed.

Lemma trace_legal os d d' : trace os d d' → legal d d'.
Proof. induction 1; [done|]. etrans; [by eapply step_legal|done]. Qed.

(** ** Terminal rows *)

Definition terminal (x : DeliveryRow.t) : Prop :=
  DeliveryRow.state x = "emitted" ∨ DeliveryRow.state x = "dead_lettered".

Lemma terminal_no_step x y : terminal x → row_step x y → False.
Proof.
  intros Ht Hs. destruct Hs as [t x Hst _ _|t x Hst _|t x Hst|n t e x Hst|e x Hst].
  { apply elem_of_cons in Hst as [Hst|Hst%list_elem_of_singleton];
      destruct Ht as [Ht|Ht]; rewrite Hst in Ht; discriminate. }
  all: destruct Ht as [Ht|Ht]; rewrite Hst in Ht; discriminate.
Qed.

Lemma terminal_rtc x y : terminal x → rtc row_step x y → y = x.
Proof. intros Ht Hs. destruct Hs as [|x z y Hxz _]; [done|]. by destruct (terminal_no_step x z). Qed.

Lemma evolves_row d d' x :
  evolves d d' → x ∈ webhook_deliveries d →
  ∃ y, y ∈ webhook_deliveries d' ∧ rtc row_step x y.
Proof.
  intros [_ (old & new & -> & Hall & _)] Hx. apply list_elem_of_lookup in Hx as [i Hx].
  apply (Forall2_lookup_l _ _ _ _ _ Hall) in Hx as (y & Hy & Hs).
  exists y. split; [|done]. apply elem_of_app. left. by eapply list_elem_of_lookup_2.
Qed.

Lemma evolves_receipt d d' r :
  evolves d d' → r ∈ webhook_receipts d →
  ∃ r', r' ∈ webhook_receipts d' ∧ same_receipt r r'.
Proof.
  intros [(old & new & -> & Hall) _] Hx. apply list_elem_of_lookup in Hx as [i Hx].
  apply (Forall2_lookup_l _ _ _ _ _ Hall) in Hx as (y & Hy & Hs).
  exists y. split; [|done]. apply elem_of_app. left. by eapply list_elem_of_lookup_2.
Qed.

(** The identity of a row never changes. *)
Lemma row_step_id x y : row_step x y →
  DeliveryRow.delivery_id y = DeliveryRow.delivery_id x ∧
  DeliveryRow.receipt_id y = DeliveryRow.receipt_id x ∧
  DeliveryRow.emitter_name y = DeliveryRow.emitter_name x ∧
  DeliveryRow.immutable y = DeliveryRow.immutable x ∧
  DeliveryRow.created_at y = DeliveryRow.created_at x.
Proof. by intros []. Qed.

Lemma row_rtc_id x y : rtc row_step x y →
  DeliveryRow.delivery_id y = DeliveryRow.delivery_id x ∧
  DeliveryRow.receipt_id y = DeliveryRow.receipt_id x ∧
  DeliveryRow.emitter_name y = DeliveryRow.emitter_name x ∧
  DeliveryRow.immutable y = DeliveryRow.immutable x ∧
  DeliveryRow.created_at y = DeliveryRow.created_at x.
Proof. induction 1 as [|x y z Hs%row_step_id _ IH]; [done|]. intuition congruence. Qed.

(** ** Leases *)

(** The lease of a claimed row has run out: it was claimed more than [lease] ago. *)
Definition lease_over (x : DeliveryRow.t) (lease : Duration) (t : DateTime) : bool :=
  match DeliveryRow.last_attempt_at x with
  | Some claimed => claimed + make_interval (as_secs_f64 lease) <? t
  | None => false
  end.

(** The operations that end the lease of a delivery, run at the instant [t]: a mark of the
    delivery, and a reclaim of its emitter once the lease it is run with is over. *)
Definition releases (x : DeliveryRow.t) (o : Op) (t : DateTime) : bool :=
  match o with
  | ReclaimExpired name lease => bool_decide (DeliveryRow.emitter_name x = name) && lease_over x lease t
  | MarkEmitted id | MarkFailed id _ _ _ | MarkDeadLettered id _ =>
      bool_decide (DeliveryRow.delivery_id x = DeliveryId.uuid id)
  | _ => false
  end.

(** A trace in which no operation ends the lease of the row. *)
Inductive holding (x : DeliveryRow.t) : list Op → Db → Db → Prop :=
| holding_nil d : holding x [] d d
| holding_cons o os w d :
    releases x o (now (clock w)) = false → holding x os (db (run_op o w)) d →
    holding x (o :: os) (db w) d.

Lemma holding_trace x os d d' : holding x os d d' → trace os d d'.
Proof. induction 1; econstructor; eauto. constructor. Qed.

(** The rows a method leaves in place. *)
Definition frames {A} (x : DeliveryRow.t) (m : M Pg A) : Prop :=
  ∀ w, db_wf (db w) → x ∈ webhook_deliveries (db w) → x ∈ webhook_deliveries (db (m w).2).
Definition stmt_frames {A} (x : DeliveryRow.t) (s : Stmt A) : Prop :=
  ∀ c d a d', db_wf d → s c d = Ok (a, d') → x ∈ webhook_deliveries d → x ∈ webhook_deliveries d'.

Lemma frames_execute {A} x (s : Stmt A) : stmt_frames x s → frames x (execute s).
Proof.
  intros Hs w Hwf Hx. destruct (execute s w) as [r w'] eqn:E. cbn.
  apply execute_inv in E as [(e & _ & ->)|(a & Ha & _)]; [done|by eapply Hs].
Qed.

(** After its only write, a method may only read. *)
Lemma frames_write_then {A B E} x (s : Stmt A) (k : A → M Pg (result B E)) f :
  stmt_frames x s → (∀ a w, db (k a w).2 = db w) →
  frames x (bind (execute s) (λ r, match r with Ok a => k a | Err e => ret (Err (f e)) end)).
Proof.
  intros Hs Hk w Hwf Hx. unfold bind. pose proof (frames_execute x s Hs w Hwf Hx) as Hx1.
  destruct (execute s w) as [[a|e] w1]; cbn in *; [by rewrite Hk|done].
Qed.

Lemma frames_update_deliveries x p f :
  (∀ c, p c x = false) → stmt_frames x (update_deliveries p f).
Proof.
  intros Hp c d a d' _ [= <- <-] Hx. cbn. apply elem_of_List_map. exists x. by rewrite Hp.
Qed.

Lemma frames_receipts x p f : stmt_frames x (update_receipts p f).
Proof. by intros c d a d' _ [= <- <-] Hx. Qed.

Lemma frames_claim x name batch :
  DeliveryRow.state x = "in_flight" → stmt_frames x (claim name batch).
Proof.
  intros Hst c d a d' Hwf Hrun Hx. unfold claim in Hrun. destruct (batch <? 0); [done|].
  injection Hrun as _ <-. cbn. apply elem_of_List_map. exists x. split; [done|].
  destruct (bool_decide _) eqn:E; [|done]. apply bool_decide_eq_true in E.
  apply elem_of_claim_ids in E as (r & Hr & Hid & Hdis & _).
  assert (r = x) as -> by (eapply (NoDup_map_inj_on DeliveryRow.delivery_id);
    [apply (wf_delivery_ids _ Hwf)|done..]).
  unfold dispatchable in Hdis. rewrite Hst in Hdis.
  rewrite (bool_decide_false ("in_flight" ∈ _)) in Hdis by (by inversion 1 as [|? ? ? H'];
    inversion H' as [|? ? ? H'']; inversion H'').
  by rewrite andb_false_r in Hdis.
Qed.

Lemma frames_insert_delivery x id n : stmt_frames x (insert_delivery id n).
Proof.
  intros c d a d' _ (_ & _ & _ & ->)%insert_delivery_run Hx. cbn. apply elem_of_app. by left.
Qed.

Lemma frames_insert_receipt x row : stmt_frames x (insert_receipt row).
Proof. by intros c d a d' _ [(_ & -> & _)|(_ & _ & _ & ->)]%insert_receipt_inv. Qed.

Lemma frames_bind_text {A} x texts (s : Stmt A) : stmt_frames x s → stmt_frames x (bind_text texts s).
Proof. intros Hs c d a d' Hwf [_ Hrun]%bind_text_Ok. by eapply Hs. Qed.

(** A reclaim leaves a lease that is not over. *)
Lemma frames_reclaim x name lease w :
  releases x (ReclaimExpired name lease) (now (clock w)) = false →
  x ∈ webhook_deliveries (db w) →
  x ∈ webhook_deliveries (db (PostgresStorage.reclaim_expired name lease w).2).
Proof.
  intros Hrel Hx. unfold PostgresStorage.reclaim_expired. set (iv := make_interval _).
  destruct (execute (update_reclaim name iv) w) as [r w'] eqn:E. cbn.
  apply execute_inv in E as [(e & _ & ->)|(a & Ha & _)]; [done|]. injection Ha as _ Ha.
  rewrite <- Ha. cbn.
  apply elem_of_List_map. exists x. split; [done|].
  enough (lease_expired name iv (clock w) x = false) as -> by done.
  cbn in Hrel. unfold lease_over in Hrel. fold iv in Hrel. unfold lease_expired.
  destruct (bool_decide (DeliveryRow.emitter_name x = name)); [cbn in Hrel |- *|done].
  destruct (DeliveryRow.last_attempt_at x) as [t|]; [|by rewrite andb_false_r].
  destruct (Z.ltb_spec t (now (clock w) - iv)); [lia|by rewrite andb_false_r].
Qed.

Lemma map_with_receipt_db rows w :
  db (map_try PostgresStorage.with_receipt rows w).2 = db w.
Proof.
  revert w. induction rows as [|x rows IH]; intros w; [done|]. cbn. unfold bind_try, bind.
  assert (db (PostgresStorage.with_receipt x w).2 = db w) as Hw.
  { unfold PostgresStorage.with_receipt, bind_try, bind, lift_result, ret.
    destruct (delivery_from_row x); [|done].
    unfold PostgresStorage.get, bind_try, bind.
    pose proof (select_receipt_db (DeliveryRow.receipt_id x) w) as Hr.
    destruct (execute _ w) as [[[r|]|e] w1]; cbn in *; [|done..].
    by destruct (receipt_from_row r). }
  destruct (PostgresStorage.with_receipt x w) as [[p|e] w1]; [|done]. cbn in Hw.
  specialize (IH w1). destruct (map_try _ rows w1) as [[l|e] w2]; cbn in *; congruence.
Qed.

(** A row in flight stays as it is until an operation ends its lease. *)
Lemma step_keeps_lease o w x :
  db_wf (db w) → x ∈ webhook_deliveries (db w) → DeliveryRow.state x = "in_flight" →
  releases x o (now (clock w)) = false → x ∈ webhook_deliveries (db (run_op o w)).
Proof.
  intros Hwf Hx Hst Hrel. revert Hwf Hx. destruct o; cbn [run_op].
  - unfold PostgresStorage.store, lift_result.
    rewrite processing_state_text_ok, verification_status_text_ok, !bind_try_ok.
    refine (frames_write_then x _ _ id (frames_insert_receipt x _) _ w).
    intros [u|] w1; [done|]. unfold bind_try, bind.
    pose proof (select_id_by_key_db (WebhookReceipt.dedupe_key r) w1) as Hr.
    by destruct (execute _ w1) as [[] ?].
  - intros _ Hx. destruct (PostgresStorage.store_with_deliveries r names w) as [res w'] eqn:E.
    apply store_with_deliveries_inv in E. cbn.
    assert (commits r names (now (clock w)) (db w) (db w') → x ∈ webhook_deliveries (db w')) as Hc.
    { intros [(_ & _ & new & -> & _) _]. apply elem_of_app. by left. }
    destruct res as [[|i]|e]; [auto|by destruct E as [-> _]|].
    destruct E as [->|E]; auto.
  - unfold PostgresStorage.update_state, lift_result.
    rewrite serialize_processing_state, bind_try_ok.
    by refine (frames_write_then x _ _ Datatypes.id (frames_bind_text x _ _ (frames_receipts x _ _)) _ w).
  - unfold PostgresStorage.retry_failed. refine (frames_write_then x _ _ Datatypes.id _ _ w); [|done].
    intros c d a d' Hd Hrun. unfold update_retry_failed in Hrun.
    destruct (existsb _ _); [done|]. by eapply (frames_receipts x).
  - unfold PostgresStorage.reset_for_retry.
    refine (frames_write_then x _ _ Datatypes.id (frames_receipts x _ _) _ w).
    intros n w1. by destruct (decide (n = 0)).
  - unfold PostgresStorage.claim_pending.
    refine (frames_write_then x _ _ Datatypes.id (frames_claim x _ _ Hst) _ w).
    apply map_with_receipt_db.
  - intros _. by apply frames_reclaim.
  - unfold PostgresStorage.mark_emitted. refine (frames_write_then x _ _ Datatypes.id _ _ w); [|done].
    apply frames_update_deliveries. intros c. unfold leased, has_delivery_id. cbn in Hrel. by rewrite Hrel.
  - unfold PostgresStorage.mark_failed. refine (frames_write_then x _ _ Datatypes.id _ _ w); [|done].
    apply frames_bind_text, frames_update_deliveries. intros c. unfold leased, has_delivery_id.
    cbn in Hrel. by rewrite Hrel.
  - unfold PostgresStorage.mark_dead_lettered. refine (frames_write_then x _ _ Datatypes.id _ _ w); [|done].
    apply frames_bind_text, frames_update_deliveries. intros c. unfold leased, has_delivery_id.
    cbn in Hrel. by rewrite Hrel.
  - unfold PostgresStorage.insert_replay.
    by refine (frames_write_then x _ _ Datatypes.id (frames_insert_delivery x _ _) _ w).
  - intros _ Hx. destruct (insert_replays_effect r names w) as [->|(new & [-> _] & _)]; [done|].
    apply elem_of_app. by left.
Qed.

Lemma holding_keeps_lease os d d' x :
  holding x os d d' → db_wf d → x ∈ webhook_deliveries d → DeliveryRow.state x = "in_flight" →
  x ∈ webhook_deliveries d'.
Proof.
  induction 1 as [|o os w d Hrel _ IH]; intros Hwf Hx Hst; [done|].
  apply IH; [|by apply step_keeps_lease|done]. by eapply (step_legal o), Hwf; constructor.
Qed.

(** ** Theorems *)

(** C7: whatever the interleaving of methods, the faults and the clocks, every reachable
    database keeps the keys unique, the foreign key valid and the states well formed. *)
Theorem reachable_db_wf os d : trace os empty_db d → db_wf d.
Proof. intros Ht. apply (trace_legal _ _ _ Ht), empty_db_wf. Qed.

(** C8: a delivery that is emitted or dead-lettered is never touched again: its row is still
    there, unchanged, after any interleaving of methods. *)
Theorem terminal_deliveries_are_final os d d' x :
  trace os d d' → db_wf d → x ∈ webhook_deliveries d → terminal x → x ∈ webhook_deliveries d'.
Proof.
  intros Ht Hwf Hx Hterm. destruct (trace_legal _ _ _ Ht Hwf) as [He _].
  destruct (evolves_row _ _ _ He Hx) as (y & Hy & Hs).
  by rewrite (terminal_rtc x y Hterm Hs) in Hy.
Qed.

(** What of a delivery never changes. *)
Definition same_delivery (x y : DeliveryRow.t) : Prop :=
  DeliveryRow.delivery_id y = DeliveryRow.delivery_id x ∧
  DeliveryRow.receipt_id y = DeliveryRow.receipt_id x ∧
  DeliveryRow.emitter_name y = DeliveryRow.emitter_name x ∧
  DeliveryRow.immutable y = DeliveryRow.immutable x ∧
  DeliveryRow.created_at y = DeliveryRow.created_at x.

(** C16: rows are never lost.  A stored receipt is still there, the one row with its key, and
    only its processing state, emit count and last error may have moved; a delivery is still
    there, the one row with its id, for the same receipt and emitter. *)
Theorem stored_receipts_are_permanent os d d' :
  trace os d d' → db_wf d →
  (∀ r, r ∈ webhook_receipts d →
     ∃ r', r' ∈ webhook_receipts d' ∧ same_receipt r r' ∧
           ∀ r'', r'' ∈ webhook_receipts d' →
                  ReceiptRow.dedupe_key r'' = ReceiptRow.dedupe_key r → r'' = r') ∧
  (∀ x, x ∈ webhook_deliveries d →
     ∃ y, y ∈ webhook_deliveries d' ∧ same_delivery x y ∧
          ∀ y', y' ∈ webhook_deliveries d' →
                DeliveryRow.delivery_id y' = DeliveryRow.delivery_id x → y' = y).
Proof.
  intros Ht Hwf. destruct (trace_legal _ _ _ Ht Hwf) as [He Hwf']. split.
  - intros r Hr. destruct (evolves_receipt _ _ _ He Hr) as (r' & Hr' & Hs).
    exists r'. split_and!; [done..|]. intros r'' Hin Hk.
    eapply (NoDup_map_inj_on ReceiptRow.dedupe_key); [apply (wf_dedupe_keys _ Hwf')|done..|].
    unfold same_receipt in Hs. rewrite Hk, Hs. done.
  - intros x Hx. destruct (evolves_row _ _ _ He Hx) as (y & Hy & Hs%row_rtc_id).
    exists y. split_and!; [done..|]. intros y' Hin Hid.
    eapply (NoDup_map_inj_on DeliveryRow.delivery_id); [apply (wf_delivery_ids _ Hwf')|done..|].
    destruct Hs as [Hs _]. congruence.
Qed.

(** C9: a claimed delivery is leased exclusively: until its own outcome is marked, or a reclaim
    of its emitter finds that it was claimed longer ago than the lease, it stays in flight as
    claimed, and no claim of any worker returns it. *)
Theorem lease_is_exclusive os d d' x name batch c rows d'' :
  holding x os d d' → db_wf d → x ∈ webhook_deliveries d → DeliveryRow.state x = "in_flight" →
  claim name batch c d' = Ok (rows, d'') →
  x ∈ webhook_deliveries d' ∧ DeliveryRow.delivery_id x ∉ map DeliveryRow.delivery_id rows.
Proof.
  intros Ht Hwf Hx Hst Hclaim.
  assert (x ∈ webhook_deliveries d') as Hx' by by eapply holding_keeps_lease.
  destruct (trace_legal _ _ _ (holding_trace _ _ _ _ Ht) Hwf) as [_ Hwf']. split; [done|].
  intros (y & Hy & Hid)%elem_of_List_map.
  pose proof (frames_claim x name batch Hst c d' rows d'' Hwf' Hclaim Hx') as Hx''.
  destruct (claimed_row_origin _ _ _ _ _ _ _ Hwf' Hclaim Hy) as (r & Hr & -> & Hdis & _).
  cbn in Hid. assert (r = x) as -> by (eapply (NoDup_map_inj_on DeliveryRow.delivery_id);
    [apply (wf_delivery_ids _ Hwf')|done..]).
  unfold dispatchable in Hdis. rewrite Hst in Hdis. cbn in Hdis. by rewrite andb_false_r in Hdis.
Qed.
End fleet.

(** One method by one session, as a trace. *)
Lemma trace_one `{SerdeJson} `{PgTypes} `{UuidText} o w : trace [o] (db w) (db (run_op o w)).
Proof. refine (trace_cons _ _ _ _ _ (step_run _ w) (trace_nil _)). Qed.

Lemma reachable_db_wf_witness :
  let d := db (run_op (StoreWithDeliveries sample_receipt ["kafka"; "nats"])
                 (session empty_db 1000 10%N)) in
  List.length (webhook_deliveries d) = 2%nat ∧ db_wf d.
Proof.
  intros d. split; [vm_compute; reflexivity|].
  apply (reachable_db_wf [StoreWithDeliveries sample_receipt ["kafka"; "nats"]]).
  exact (trace_one _ (session empty_db 1000 10%N)).
Defined.

(** A stale worker marks a delivery that was already emitted. *)
Lemma terminal_deliveries_are_final_witness :
  let x := sample_delivery 10%N "emitted" 0 (Some 1000) in
  let w := session (sample_db [x]) 2000 20%N in
  let o := MarkFailed (DeliveryId.mk 10%N) 1 5000 "timeout" in
  x ∈ webhook_deliveries (db (run_op o w)).
Proof.
  intros x w o. apply (terminal_deliveries_are_final [o] (db w) _ x).
  - exact (trace_one o w).
  - vm_decide.
  - apply elem_of_cons. left. reflexivity.
  - left. reflexivity.
Defined.

(** The receipt is dead-lettered and its delivery claimed. *)
Lemma stored_receipts_are_permanent_witness :
  let x := sample_delivery 10%N "pending" 0 None in
  let w := session (sample_db [x]) 2000 20%N in
  let os := [UpdateState 1%N ProcessingState.DeadLettered (Some "gave up"); ClaimPending "kafka" 8] in
  ∃ d, trace os (db w) d ∧
    (∃ r', r' ∈ webhook_receipts d ∧ same_receipt sample_row r' ∧
           ∀ r'', r'' ∈ webhook_receipts d →
                  ReceiptRow.dedupe_key r'' = ReceiptRow.dedupe_key sample_row → r'' = r') ∧
    (∃ y, y ∈ webhook_deliveries d ∧ same_delivery x y ∧
          ∀ y', y' ∈ webhook_deliveries d →
                DeliveryRow.delivery_id y' = DeliveryRow.delivery_id x → y' = y).
Proof.
  intros x w os.
  set (w1 := session (db (run_op (UpdateState 1%N ProcessingState.DeadLettered (Some "gave up")) w)) 3000 30%N).
  assert (trace os (db w) (db (run_op (ClaimPending "kafka" 8) w1))) as Ht.
  { refine (trace_cons _ _ _ _ _ (step_run _ w) _). exact (trace_one _ w1). }
  eexists. split; [exact Ht|].
  destruct (stored_receipts_are_permanent os (db w) _ Ht) as [Hr Hx].
  - vm_decide.
  - split; [apply Hr|apply Hx]; apply elem_of_cons; left; reflexivity.
Defined.

(** Two deliveries are in flight, claimed at different times, when a reclaim with a lease of a
    minute runs: the older lease is over and the delivery is claimed anew, the other is not. *)
Lemma lease_is_exclusive_witness :
  let x := sample_delivery 10%N "in_flight" 0 (Some 50000000000) in
  let w := session (sample_db [x; sample_delivery 11%N "in_flight" 0 (Some 1000)]) 100000000000 20%N in
  let o := ReclaimExpired "kafka" (Duration_from_secs 60) in
  let d := db (run_op o w) in
  ∃ y d', claim "kafka" 8 (clock w) d = Ok ([y], d') ∧ DeliveryRow.delivery_id y = 11%N ∧
    x ∈ webhook_deliveries d ∧ 10%N ∉ map DeliveryRow.delivery_id [y].
Proof.
  intros x w o d.
  destruct (claim "kafka" 8 (clock w) d) as [[rows d']|e] eqn:Hclaim; [|by vm_compute in Hclaim].
  assert (∃ y, rows = [y] ∧ DeliveryRow.delivery_id y = 11%N) as (y & -> & Hy).
  { revert Hclaim. vm_compute. intros [= <- _]. eexists. split; reflexivity. }
  exists y, d'. split; [reflexivity|]. split; [exact Hy|].
  apply (lease_is_exclusive [o] (db w) d x "kafka" 8 (clock w) _ _) in Hclaim; [exact Hclaim| |vm_decide| |].
  - apply (holding_cons x o [] w); [vm_compute; reflexivity|constructor].
  - apply elem_of_cons. left. reflexivity.
  - reflexivity.
Defined.


(** ** The processing state of receipts

    The operations of a server: the ingest path, its workers and the admin API's replays. *)
Definition server_op (o : Op) : Prop :=
  match o with
  | StoreWithDeliveries r _ => WebhookReceipt.processing_state r = ProcessingState.Stored
  | ClaimPending _ _ | ReclaimExpired _ _ | MarkEmitted _ | MarkFailed _ _ _ _
  | MarkDeadLettered _ _ | InsertReplay _ _ | InsertReplays _ _ => True
  | _ => False
  end.

Section receipts.
Context `{SerdeJson} `{PgTypes} `{UuidText}.

Definition all_stored (d : Db) : Prop :=
  Forall (λ r, ReceiptRow.processing_state r = "stored") (webhook_receipts d).

(** Statements that leave the receipts alone. *)
Lemma all_stored_execute {A} (s : Stmt A) w :
  (∀ c d a d', s c d = Ok (a, d') → webhook_receipts d' = webhook_receipts d) →
  all_stored (db w) → all_stored (db (execute s w).2).
Proof.
  intros Hs Hst. destruct (execute s w) as [r w'] eqn:E. cbn.
  apply execute_inv in E as [(e & _ & ->)|(a & Ha & _)]; [done|].
  unfold all_stored. by rewrite (Hs _ _ _ _ Ha).
Qed.

Lemma all_stored_bind {A B E} (s : Stmt A) (k : A → M Pg (result B E)) (f : StorageError.t → E) w :
  (∀ c d a d', s c d = Ok (a, d') → webhook_receipts d' = webhook_receipts d) →
  (∀ a w, db (k a w).2 = db w) → all_stored (db w) →
  all_stored (db (bind (execute s) (λ r, match r with Ok a => k a | Err e => ret (Err (f e)) end) w).2).
Proof.
  intros Hs Hk Hst. unfold bind. pose proof (all_stored_execute s w Hs Hst) as Hst'.
  destruct (execute s w) as [[a|e] w1]; cbn in *; [by rewrite Hk|done].
Qed.

Lemma update_deliveries_receipts p f c d a d' :
  update_deliveries p f c d = Ok (a, d') → webhook_receipts d' = webhook_receipts d.
Proof. by intros [= _ <-]. Qed.
Lemma bind_text_receipts {A} texts (s : Stmt A) :
  (∀ c d a d', s c d = Ok (a, d') → webhook_receipts d' = webhook_receipts d) →
  ∀ c d a d', bind_text texts s c d = Ok (a, d') → webhook_receipts d' = webhook_receipts d.
Proof. intros Hs c d a d' [_ Hrun]%bind_text_Ok. by eapply Hs. Qed.
Lemma claim_receipts name b c d a d' :
  claim name b c d = Ok (a, d') → webhook_receipts d' = webhook_receipts d.
Proof. unfold claim. destruct (b <? 0); [done|]. by intros [= _ <-]. Qed.
Lemma insert_delivery_receipts id n c d a d' :
  insert_delivery id n c d = Ok (a, d') → webhook_receipts d' = webhook_receipts d.
Proof. by intros (_ & _ & _ & ->)%insert_delivery_run. Qed.

Lemma server_step_all_stored o d d' : step o d d' → server_op o → all_stored d → all_stored d'.
Proof.
  intros [w] Ho Hst. destruct o; cbn [run_op server_op] in *; try done.
  - destruct (PostgresStorage.store_with_deliveries r names w) as [res w'] eqn:E.
    apply store_with_deliveries_inv in E. cbn.
    assert (commits r names (now (clock w)) (db w) (db w') → all_stored (db w')) as Hc.
    { intros [(_ & _ & new & -> & _) _]. apply Forall_app. split; [done|].
      apply Forall_singleton. cbn. by rewrite Ho. }
    destruct res as [[|i]|e]; [auto|by destruct E as [-> _]|destruct E as [->|E]; auto].
  - refine (all_stored_bind _ _ Datatypes.id w (claim_receipts _ _) _ Hst). apply map_with_receipt_db.
  - refine (all_stored_execute _ w _ Hst). apply update_deliveries_receipts.
  - by refine (all_stored_bind _ _ Datatypes.id w (update_deliveries_receipts _ _) _ Hst).
  - by refine (all_stored_bind _ _ Datatypes.id w (bind_text_receipts _ _ (update_deliveries_receipts _ _)) _ Hst).
  - by refine (all_stored_bind _ _ Datatypes.id w (bind_text_receipts _ _ (update_deliveries_receipts _ _)) _ Hst).
  - by refine (all_stored_bind _ _ Datatypes.id w (insert_delivery_receipts _ _) _ Hst).
  - destruct (insert_replays_effect r names w) as [->|(new & [-> _] & _)]; done.
Qed.

(** In every database servers produce, the receipts are all [stored]. *)
Lemma server_trace_all_stored os d : trace os empty_db d → Forall server_op os → all_stored d.
Proof.
  intros Ht Hos. assert (all_stored empty_db) as H0' by apply Forall_nil_2. revert Hos H0'.
  induction Ht as [|o os d d1 d' Hs _ IH]; [done|]. intros [Ho Hos]%Forall_cons Hd.
  apply IH; [done|]. by eapply server_step_all_stored.
Qed.

Lemma all_stored_filter d p :
  all_stored d → (∀ r, ReceiptRow.processing_state r = "stored" → p r = false) →
  List.filter p (webhook_receipts d) = [].
Proof.
  unfold all_stored. intros Hst Hp. induction Hst as [|r l Hr _ IH]; [done|]. cbn. by rewrite Hp.
Qed.

Lemma select_failed_since_stored c d since lim provider :
  all_stored d → 0 ≤ lim → select_failed_since since lim provider c d = Ok ([], d).
Proof.
  intros Hst Hlim. unfold select_failed_since, read. rewrite all_stored_filter; [|done|].
  - unfold limit_offset. destruct (Z.ltb_spec lim 0); [lia|]. cbn. by destruct (Z.to_nat lim).
  - intros r Hr. by rewrite Hr.
Qed.

(** No operation of a server moves the [processing_state] of a receipt: it stays [stored]
    whatever happens to its deliveries.  So the queries the legacy retry worker and the
    [replay failed] command start from find nothing, ever. *)
Theorem server_receipts_stay_stored os d :
  trace os empty_db d → Forall server_op os →
  all_stored d ∧
  ∀ w, healthy w → db w = d →
    (PostgresStorage.query_for_retry i32_max w).1 = Ok [] ∧
    ∀ provider since, (PostgresStorage.query_failed_since provider since None w).1 = Ok [].
Proof.
  intros Ht Hos. pose proof (server_trace_all_stored os d Ht Hos) as Hst.
  split; [done|]. intros w Hw <-. split; [|intros provider since].
  - unfold PostgresStorage.query_for_retry, bind_try, bind, select_for_retry.
    erewrite execute_read_healthy; [|done|rewrite all_stored_filter; [reflexivity|done|]].
    + done.
    + intros r Hr. unfold retry_where. by rewrite Hr.
  - unfold PostgresStorage.query_failed_since, bind_try, bind.
    rewrite execute_healthy by done. by rewrite select_failed_since_stored.
Qed.
End receipts.

Lemma server_receipts_stay_stored_witness :
  let o := StoreWithDeliveries sample_receipt ["kafka"] in
  let w := session (db (run_op o (session empty_db 1000 10%N))) 5000 50%N in
  List.length (webhook_receipts (db w)) = 1%nat ∧
  (PostgresStorage.query_for_retry i32_max w).1 = Ok [].
Proof.
  intros o w. split; [vm_compute; reflexivity|].
  destruct (server_receipts_stay_stored [o] (db w)) as [_ Hq].
  - exact (trace_one o (session empty_db 1000 10%N)).
  - apply Forall_singleton. reflexivity.
  - apply (Hq w); reflexivity.
Defined.
