(* ===== verification/Concurrent.v ===== *)
(** * Concurrent calls, statement by statement

    Any number of calls of the writing methods run at once, and their round trips interleave in
    any order.  A transaction is what it has inserted and not yet committed: it sees the committed
    rows and its own ([READ COMMITTED]), others see nothing of it, and an insert that meets a key
    of another open transaction waits until that one ends.  Any round trip may fail, any reply may
    be lost, and any call may be abandoned.  [Fleet] interleaves whole methods; here that is a
    theorem: such a run of the system is a sequence of whole methods. *)

From S2P Require Import Prelude RustStd F64 Types Traits Database DatabaseProps Postgres PostgresProps Rounds Lifecycle Fleet Instances Samples.
Local Open Scope Z_scope.

(** ** Calls *)

Inductive Reply : Type :=
| RUnit
| RStored (s : StoreResult.t)
| RClaimed (l : list (WebhookDelivery.t * WebhookReceipt.t))
| RCount (n : Z)
| RId (id : DeliveryId.t)
| RIds (ids : list DeliveryId.t).

#[local] Notation Answer := (result Reply StorageError.t).

Definition answer {A} (f : A → Reply) (p : Prog (result A StorageError.t)) : Prog Answer :=
  prog_bind_try p (λ a, Return (Ok (f a))).

Definition rounds_of `{SerdeJson} `{PgTypes} `{UuidText} (o : Op) : Prog Answer :=
  match o with
  | Store r => answer RStored (Rounds.store r)
  | StoreWithDeliveries r names => answer RStored (Rounds.store_with_deliveries r names)
  | UpdateState id s err => answer (λ _, RUnit) (Rounds.update_state id s err)
  | RetryFailed id m => answer (λ _, RUnit) (Rounds.retry_failed id m)
  | ResetForRetry id => answer (λ _, RUnit) (Rounds.reset_for_retry id)
  | ClaimPending name batch => answer RClaimed (Rounds.claim_pending name batch)
  | ReclaimExpired name lease => answer RCount (Rounds.reclaim_expired name lease)
  | MarkEmitted id => answer (λ _, RUnit) (Rounds.mark_emitted id)
  | MarkFailed id n t e => answer (λ _, RUnit) (Rounds.mark_failed id n t e)
  | MarkDeadLettered id e => answer (λ _, RUnit) (Rounds.mark_dead_lettered id e)
  | InsertReplay r n => answer RId (Rounds.insert_replay r n)
  | InsertReplays r names => answer RIds (Rounds.insert_replays r names)
  end.

(** The uncommitted rows of an open transaction, and the instant it began. *)
Record Pending : Type := mkPending {
  pending_receipts : list ReceiptRow.t;
  pending_deliveries : list DeliveryRow.t;
  began : DateTime
}.

Definition with_pending (d : Db) (p : Pending) : Db :=
  mkDb (webhook_receipts d ++ pending_receipts p) (webhook_deliveries d ++ pending_deliveries p).

Record Call : Type := mkCall { op : Op; prog : Prog Answer; pending : option Pending }.
Record System : Type := mkSystem { database : Db; calls : list Call }.

#[local] Notation keys := (map ReceiptRow.dedupe_key).
#[local] Notation ids := (map ReceiptRow.receipt_id).
#[local] Notation delivery_ids := (map DeliveryRow.delivery_id).

Definition holds_receipt (row : ReceiptRow.t) (q : Pending) : Prop :=
  ReceiptRow.dedupe_key row ∈ keys (pending_receipts q) ∨ ReceiptRow.receipt_id row ∈ ids (pending_receipts q).
Definition holds_delivery (id : Uuid) (q : Pending) : Prop := id ∈ delivery_ids (pending_deliveries q).

(** The reply to a round trip that took effect: its result, or an error if it was lost. *)
Definition replies {A} (a : A) (r : result A StorageError.t) : Prop := r = Ok a ∨ ∃ e, r = internal e.

(** What the method does after a round trip that failed. *)
Definition failed {A} (p : Prog A) (e : string) : option (Prog A) :=
  match p with
  | Return _ => None
  | Execute s k => Some (k (internal e))
  | InsertReceipt _ k => Some (k (internal e))
  | InsertDelivery _ _ k => Some (k (internal e))
  | Begin k | Commit k | Rollback k => Some (k (internal e))
  end.

(** One round trip of a call, the other open transactions being [others]. *)
Inductive round `{PgTypes} (others : list Pending) (d : Db) :
    Prog Answer → option Pending → Db → Prog Answer → option Pending → Prop :=
| round_fails p t e p' : failed p e = Some p' → round others d p t d p' None
| round_execute B (s : Stmt B) k c a d' r :
    s c d = Ok (a, d') → replies a r → round others d (Execute s k) None d' (k r) None
| round_insert_receipt row k c a d' r :
    insert_receipt row c d = Ok (a, d') → replies a r →
    (is_Some a → Forall (λ q, ¬ holds_receipt row q) others) →
    round others d (InsertReceipt row k) None d' (k r) None
| round_insert_receipt_tx row k p u lk a p' :
    insert_receipt row (mkClock (began p) u lk) (with_pending d p) = Ok (a, with_pending d p') →
    began p' = began p → (is_Some a → Forall (λ q, ¬ holds_receipt row q) others) →
    round others d (InsertReceipt row k) (Some p) d (k (Ok a)) (Some p')
| round_insert_delivery id name k c u d' r :
    insert_delivery id name c d = Ok (u, d') → replies u r →
    Forall (λ q, ¬ holds_delivery u q) others →
    round others d (InsertDelivery id name k) None d' (k r) None
| round_insert_delivery_tx id name k p u' lk u p' :
    insert_delivery id name (mkClock (began p) u' lk) (with_pending d p) = Ok (u, with_pending d p') →
    began p' = began p → Forall (λ q, ¬ holds_delivery u q) others →
    round others d (InsertDelivery id name k) (Some p) d (k (Ok u)) (Some p')
| round_begin k t : round others d (Begin k) None d (k (Ok tt)) (Some (mkPending [] [] t))
| round_commit k p r :
    replies tt r → round others d (Commit k) (Some p) (with_pending d p) (k r) None
| round_rollback k p : round others d (Rollback k) (Some p) d (k (Ok tt)) None.

(** The transactions of the other calls. *)
Definition others (i : nat) (cs : list Call) : list Pending := omap pending (take i cs ++ drop (S i) cs).

Definition running (p : Prog Answer) : Prop := match p with Return _ => False | _ => True end.

Section system.
Context `{SerdeJson} `{PgTypes} `{UuidText}.

(** A call starts, makes a round trip, or is abandoned with its transaction. *)
Inductive system_step : System → System → Prop :=
| system_start d cs o : system_step (mkSystem d cs) (mkSystem d (cs ++ [mkCall o (rounds_of o) None]))
| system_round d cs i x d' p' t' :
    cs !! i = Some x → round (others i cs) d (prog x) (pending x) d' p' t' →
    system_step (mkSystem d cs) (mkSystem d' (<[i := mkCall (op x) p' t']> cs))
| system_abandon d cs i x e :
    cs !! i = Some x → running (prog x) →
    system_step (mkSystem d cs) (mkSystem d (<[i := mkCall (op x) (Return (internal e)) None]> cs)).

Definition reaches (d0 : Db) (s : System) : Prop := rtc system_step (mkSystem d0 []) s.

Lemma elem_of_others i cs q :
  q ∈ others i cs ↔ ∃ j y, j ≠ i ∧ cs !! j = Some y ∧ pending y = Some q.
Proof.
  unfold others. rewrite list_elem_of_omap. setoid_rewrite elem_of_app. split.
  - intros (y & [Hy|Hy] & Hq); apply list_elem_of_lookup in Hy as [j Hj].
    + apply lookup_take_Some in Hj as [Hj Hlt]. exists j, y. split_and!; [lia|done..].
    + rewrite lookup_drop in Hj. exists (S i + j)%nat, y. split_and!; [lia|done..].
  - intros (j & y & Hne & Hy & Hq). exists y. split; [|done].
    destruct (decide (j < i)%nat).
    + left. apply list_elem_of_lookup. exists j. apply lookup_take_Some. split; [done|lia].
    + right. apply list_elem_of_lookup. exists (j - S i)%nat. rewrite lookup_drop.
      by replace (S i + (j - S i))%nat with j by lia.
Qed.

(** ** What a transaction may commit *)

(** The pending rows fit the committed ones: no key is taken, and every delivery has its receipt. *)
Record fits (d : Db) (p : Pending) : Prop := mk_fits {
  fits_keys : NoDup (keys (pending_receipts p));
  fits_keys_new : ∀ k, k ∈ keys (pending_receipts p) → k ∉ keys (webhook_receipts d);
  fits_ids : NoDup (ids (pending_receipts p));
  fits_ids_new : ∀ k, k ∈ ids (pending_receipts p) → k ∉ ids (webhook_receipts d);
  fits_deliveries : NoDup (delivery_ids (pending_deliveries p));
  fits_deliveries_new : ∀ k, k ∈ delivery_ids (pending_deliveries p) → k ∉ delivery_ids (webhook_deliveries d);
  fits_fk : ∀ x, x ∈ pending_deliveries p →
    DeliveryRow.receipt_id x ∈ ids (webhook_receipts d ++ pending_receipts p)
}.

(** Two open transactions hold no key in common. *)
Definition apart (p q : Pending) : Prop :=
  (∀ k, k ∈ keys (pending_receipts p) → k ∉ keys (pending_receipts q)) ∧
  (∀ k, k ∈ ids (pending_receipts p) → k ∉ ids (pending_receipts q)) ∧
  (∀ k, k ∈ delivery_ids (pending_deliveries p) → k ∉ delivery_ids (pending_deliveries q)).

Lemma apart_sym p q : apart p q → apart q p.
Proof. unfold apart. naive_solver. Qed.

Definition same_keys (d d' : Db) : Prop :=
  keys (webhook_receipts d') = keys (webhook_receipts d) ∧
  ids (webhook_receipts d') = ids (webhook_receipts d) ∧
  delivery_ids (webhook_deliveries d') = delivery_ids (webhook_deliveries d).

Lemma fits_same_keys d d' p : same_keys d d' → fits d p → fits d' p.
Proof.
  intros (Hk & Hi & Hd) [? Fk ? Fi ? Fd Ff]. split; try done; intros x Hx.
  - rewrite Hk. by apply Fk.
  - rewrite Hi. by apply Fi.
  - rewrite Hd. by apply Fd.
  - specialize (Ff x Hx). rewrite map_app in *. by rewrite Hi.
Qed.

Lemma fits_commit d p q : fits d q → apart p q → fits (with_pending d p) q.
Proof.
  intros [? Fk ? Fi ? Fd Ff] (Ak & Ai & Ad). split; try done; cbn; intros x Hx.
  - rewrite map_app. intros [?|Hp]%elem_of_app; [by apply (Fk x)|by apply (Ak x)].
  - rewrite map_app. intros [?|Hp]%elem_of_app; [by apply (Fi x)|by apply (Ai x)].
  - rewrite map_app. intros [?|Hp]%elem_of_app; [by apply (Fd x)|by apply (Ad x)].
  - specialize (Ff x Hx). rewrite !map_app, !elem_of_app in *. naive_solver.
Qed.

Lemma fits_begin d t : fits d (mkPending [] [] t).
Proof. split; cbn; try apply NoDup_nil_2; intros ? []%not_elem_of_nil. Qed.

Definition add_receipt (row : ReceiptRow.t) (p : Pending) : Pending :=
  mkPending (pending_receipts p ++ [row]) (pending_deliveries p) (began p).
Definition add_delivery (x : DeliveryRow.t) (p : Pending) : Pending :=
  mkPending (pending_receipts p) (pending_deliveries p ++ [x]) (began p).

Lemma not_elem_app {A} (x : A) l k : x ∉ l ++ k ↔ x ∉ l ∧ x ∉ k.
Proof. rewrite elem_of_app. tauto. Qed.

(** The statement succeeded on the rows the transaction sees. *)
Lemma fits_add_receipt d row p :
  fits d p →
  ReceiptRow.dedupe_key row ∉ keys (webhook_receipts (with_pending d p)) →
  ReceiptRow.receipt_id row ∉ ids (webhook_receipts (with_pending d p)) →
  fits d (add_receipt row p).
Proof.
  intros [? Fk ? Fi ? Fd Ff]. cbn. rewrite !map_app, !not_elem_app. intros [Hk Hk'] [Hi Hi'].
  split; cbn; try done.
  - by apply NoDup_map_snoc.
  - intros k. rewrite map_app. intros [?| ->%list_elem_of_singleton]%elem_of_app; auto.
  - by apply NoDup_map_snoc.
  - intros k. rewrite map_app. intros [?| ->%list_elem_of_singleton]%elem_of_app; auto.
  - intros x Hx. specialize (Ff x Hx). rewrite !map_app, !elem_of_app in *. naive_solver.
Qed.

Lemma fits_add_delivery d x p :
  fits d p →
  DeliveryRow.delivery_id x ∉ delivery_ids (webhook_deliveries (with_pending d p)) →
  DeliveryRow.receipt_id x ∈ ids (webhook_receipts (with_pending d p)) →
  fits d (add_delivery x p).
Proof.
  intros [? Fk ? Fi ? Fd Ff]. cbn. rewrite !map_app, !not_elem_app. intros [Hk Hk'] Hi.
  split; cbn; try done.
  - by apply NoDup_map_snoc.
  - intros k. rewrite map_app. intros [?| ->%list_elem_of_singleton]%elem_of_app; auto.
  - intros y [Hy| ->%list_elem_of_singleton]%elem_of_app; [auto|by rewrite map_app].
Qed.

Lemma apart_add_receipt row p q : apart p q → ¬ holds_receipt row q → apart (add_receipt row p) q.
Proof.
  intros (Ak & Ai & Ad) Hn. split_and!; cbn; [| |done]; intros k; rewrite map_app;
    (intros [?| ->%list_elem_of_singleton]%elem_of_app; [auto|]); intros Hq; apply Hn; [by left|by right].
Qed.
Lemma apart_add_delivery x p q :
  apart p q → ¬ holds_delivery (DeliveryRow.delivery_id x) q → apart (add_delivery x p) q.
Proof.
  intros (Ak & Ai & Ad) Hn. split_and!; cbn; [done|done|]. intros k. rewrite map_app.
  by intros [?| ->%list_elem_of_singleton]%elem_of_app; [auto|].
Qed.

Lemma with_pending_inj d p q :
  with_pending d p = with_pending d q → began p = began q → p = q.
Proof.
  destruct p, q. cbn. unfold with_pending. cbn. intros [= Hr Hd] ->.
  by apply app_inv_head in Hr as ->; apply app_inv_head in Hd as ->.
Qed.
Lemma with_pending_add_receipt d row p :
  with_pending d (add_receipt row p) =
  mkDb (webhook_receipts (with_pending d p) ++ [row]) (webhook_deliveries (with_pending d p)).
Proof. unfold with_pending. cbn. by rewrite app_assoc. Qed.
Lemma with_pending_add_delivery d x p :
  with_pending d (add_delivery x p) =
  mkDb (webhook_receipts (with_pending d p)) (webhook_deliveries (with_pending d p) ++ [x]).
Proof. unfold with_pending. cbn. by rewrite app_assoc. Qed.

(** An insert on the pool is a transaction of one row. *)
Definition only_receipt (row : ReceiptRow.t) : Pending := add_receipt row (mkPending [] [] 0).
Definition only_delivery (x : DeliveryRow.t) : Pending := add_delivery x (mkPending [] [] 0).
Lemma with_only_receipt d row : with_pending d (only_receipt row) = mkDb (webhook_receipts d ++ [row]) (webhook_deliveries d).
Proof. unfold with_pending. cbn. by rewrite app_nil_r. Qed.
Lemma with_only_delivery d x : with_pending d (only_delivery x) = mkDb (webhook_receipts d) (webhook_deliveries d ++ [x]).
Proof. unfold with_pending. cbn. by rewrite app_nil_r. Qed.

(** ** Calls that keep to their method *)

(** The receipt a call stores. *)
Definition stores (o : Op) : option WebhookReceipt.t :=
  match o with Store r | StoreWithDeliveries r _ => Some r | _ => None end.

Definition owns (d : Db) (key : string) (id : Uuid) : Prop :=
  ∃ row, row ∈ webhook_receipts d ∧ ReceiptRow.dedupe_key row = key ∧ ReceiptRow.receipt_id row = id.

(** The call has not answered that its receipt is stored, or is a duplicate. *)
Definition silent (p : Prog Answer) : Prop :=
  match p with Return (Ok (RStored _)) => False | _ => True end.

(** If it has answered, then that the receipt is a duplicate of one that is there. *)
Definition says (o : Op) (d : Db) (p : Prog Answer) : Prop :=
  match p with
  | Return (Ok (RStored StoreResult.Stored)) => False
  | Return (Ok (RStored (StoreResult.Duplicate id))) =>
      ∀ r, stores o = Some r → owns d (WebhookReceipt.dedupe_key r) (ReceiptId.uuid id)
  | _ => True
  end.

Lemma silent_says o d p : silent p → says o d p.
Proof. unfold silent, says. repeat case_match; naive_solver. Qed.

(** The last round trip of a call that stores took effect. *)
Definition answers_stored (k : Prog Answer) : Prop :=
  k = Return (Ok (RStored StoreResult.Stored)) ∨ ∃ e, k = Return (Err e).

(** The answer that the method did its work; a duplicate is one that it did not have to. *)
Definition acknowledges (a : Answer) : Prop :=
  match a with Err _ | Ok (RStored (StoreResult.Duplicate _)) => False | Ok _ => True end.

(** What is left of the call [o], [p], has the effect of [o] if it is not [spent], once at most,
    and no other effect. *)
Fixpoint good (o : Op) (spent : bool) (p : Prog Answer) (t : option Pending) : Prop :=
  match p with
  | Return a => t = None ∧ (acknowledges a → spent = true)
  | Execute s k =>
      t = None ∧ (∀ e, silent (k (internal e)) ∧ good o spent (k (internal e)) None) ∧
      ∀ c d a d', s c d = Ok (a, d') →
        (d' = d ∧ says o d (k (Ok a)) ∧ good o spent (k (Ok a)) None) ∨
        (spent = false ∧ stores o = None ∧ step o d d' ∧ same_keys d d' ∧ ∀ r, replies a r → good o true (k r) None)
  | InsertReceipt row k =>
      spent = false ∧ (∀ e, silent (k (internal e)) ∧ good o false (k (internal e)) None) ∧
      silent (k (Ok None)) ∧ good o false (k (Ok None)) t ∧
      match t with
      | Some q => pending_receipts q = [] ∧
          ∀ u, silent (k (Ok (Some u))) ∧
            (storable_row row = true → good o false (k (Ok (Some u))) (Some (add_receipt (json_columns row) q)))
      | None =>
          (∃ r, stores o = Some r ∧ row = bound_receipt r) ∧
          (∀ c d u d', insert_receipt row c d = Ok (Some u, d') → step o d d') ∧
          ∀ u r, replies (Some u) r → answers_stored (k r)
      end
  | InsertDelivery id name k =>
      spent = false ∧ (∀ e, silent (k (internal e)) ∧ good o false (k (internal e)) None) ∧
      match t with
      | Some q => ∀ u, silent (k (Ok u)) ∧
          good o false (k (Ok u)) (Some (add_delivery (new_delivery (mkClock (began q) u (λ _, false)) id name) q))
      | None =>
          stores o = None ∧ (∀ c d u d', insert_delivery id name c d = Ok (u, d') → step o d d') ∧
          ∀ u r, replies u r → good o true (k r) None
      end
  | Begin k =>
      t = None ∧ spent = false ∧ (∀ e, silent (k (internal e)) ∧ good o false (k (internal e)) None) ∧
      silent (k (Ok tt)) ∧ ∀ t0, good o false (k (Ok tt)) (Some (mkPending [] [] t0))
  | Commit k =>
      spent = false ∧ (∀ e, silent (k (internal e)) ∧ good o false (k (internal e)) None) ∧
      match t with
      | None => False
      | Some q =>
          (∀ d, fits d q → step o d (with_pending d q)) ∧
          match stores o with
          | Some r => pending_receipts q = [db_receipt (stored_form r)] ∧ ∀ r, replies tt r → answers_stored (k r)
          | None => pending_receipts q = [] ∧ ∀ r, replies tt r → good o true (k r) None
          end
      end
  | Rollback k =>
      spent = false ∧ (∀ e, silent (k (internal e)) ∧ good o false (k (internal e)) None) ∧
      silent (k (Ok tt)) ∧ good o false (k (Ok tt)) None
  end.

(** ** The methods keep to themselves *)

(** A session in which every round trip has the clock [c]. *)
Definition at_clock (c : Clock) (d : Db) : Pg := mkPg d 0 (λ _, c) [].

Lemma execute_at_clock {A} (s : Stmt A) c d a d' :
  s c d = Ok (a, d') → Database.execute s (at_clock c d) = (Ok a, mkPg d' 1 (λ _, c) []).
Proof. intros Hs. unfold Database.execute, next_round, at_clock. cbn. by rewrite Hs. Qed.

(** A method that writes with one statement on the pool and then only reads. *)
Lemma step_write {A B} o (s : Stmt A) (k : A → M Pg (result B StorageError.t)) c d a d' :
  (∀ w, run_op o w = (bind_try (Database.execute s) k w).2) → (∀ a w, db (k a w).2 = db w) →
  s c d = Ok (a, d') → step o d d'.
Proof.
  intros Hrun Hk Hs. pose proof (step_run o (at_clock c d)) as Hstep.
  rewrite Hrun, (bind_try_run _ _ _ _ _ (execute_at_clock _ _ _ _ _ Hs)), Hk in Hstep. exact Hstep.
Qed.

Lemma same_keys_deliveries p f c d n d' :
  (∀ x, DeliveryRow.delivery_id (f c x) = DeliveryRow.delivery_id x) →
  update_deliveries p f c d = Ok (n, d') → same_keys d d'.
Proof.
  intros Hf [= _ <-]. split_and!; [done..|]. cbn. rewrite map_map. apply map_ext. intros x. by destruct (p c x).
Qed.
Lemma same_keys_receipts p st e c d n d' :
  update_receipts p (λ r, ReceiptRow.set_state (st r) (e r).1 (e r).2 r) c d = Ok (n, d') → same_keys d d'.
Proof.
  intros [= _ <-]. split_and!; [| |done]; cbn; rewrite map_map; apply map_ext; intros x; by destruct (p x).
Qed.
Lemma same_keys_retry id m c d n d' : update_retry_failed id m c d = Ok (n, d') → same_keys d d'.
Proof.
  unfold update_retry_failed. destruct (existsb _ _); [done|].
  apply (same_keys_receipts _ _ (λ r, (_, _))).
Qed.
Lemma same_keys_claim name b c d rows d' : claim name b c d = Ok (rows, d') → same_keys d d'.
Proof.
  unfold claim. destruct (b <? 0); [done|]. intros [= _ <-]. split_and!; [done..|]. cbn. rewrite map_map.
  apply map_ext. intros x. by destruct (bool_decide _).
Qed.

(** A tree that only reads. *)
Fixpoint reads (p : Prog Answer) : Prop :=
  match p with
  | Return _ => True
  | Execute s k => (∀ c d a d', s c d = Ok (a, d') → d' = d) ∧ ∀ r, silent (k r) ∧ reads (k r)
  | _ => False
  end.

Lemma reads_good o p : reads p → good o true p None.
Proof.
  induction p as [a|B s k IH|row k IH|id name k IH|k IH|k IH|k IH]; cbn; try done.
  intros [Hs Hk]. split_and!; [done| |].
  - intros e. split; [apply Hk|apply IH, Hk].
  - intros c d a d' ->%Hs. left. split_and!; [done| |apply IH, Hk]. apply silent_says, Hk.
Qed.

Lemma read_same {A} (f : Clock → Db → result A string) c d a d' : read f c d = Ok (a, d') → d' = d.
Proof. unfold read. destruct (f c d); [|done]. by intros [= _ <-]. Qed.

(** [p] only reads and ends without an answer of a store. *)
Fixpoint quiet {A} (p : Prog A) : Prop :=
  match p with
  | Return _ => True
  | Execute s k => (∀ c d a d', s c d = Ok (a, d') → d' = d) ∧ ∀ r, quiet (k r)
  | _ => False
  end.
Definition unstored (a : Answer) : Prop := match a with Ok (RStored _) => False | _ => True end.

Lemma quiet_reads {A} (p : Prog (result A StorageError.t)) (f : A → Reply) :
  quiet p → (∀ a, unstored (Ok (f a))) → silent (answer f p) ∧ reads (answer f p).
Proof.
  unfold answer, prog_bind_try. intros Hp Hf.
  induction p as [[a|e]|B s k IH|row k IH|id name k IH|k IH|k IH|k IH]; cbn in *; try done.
  - split; [|done]. specialize (Hf a). by destruct (f a).
  - destruct Hp as [Hs Hk]. split_and!; [done..|]. intros r. apply IH, Hk.
Qed.

Lemma quiet_bind_try {A B E} (p : Prog (result A E)) (f : A → Prog (result B E)) :
  quiet p → (∀ a, quiet (f a)) → quiet (prog_bind_try p f).
Proof.
  unfold prog_bind_try. intros Hp Hf.
  induction p as [[a|e]|C s k IH|row k IH|id name k IH|k IH|k IH|k IH]; cbn in *; try done.
  destruct Hp as [Hs Hk]. split; [done|]. intros r. apply IH, Hk.
Qed.

Lemma quiet_execute_read {A} (f : Clock → Db → result A string) : quiet (Rounds.execute (read f)).
Proof. split; [apply read_same|done]. Qed.

Lemma quiet_with_receipts rows : quiet (Rounds.with_receipts rows).
Proof.
  induction rows as [|row rows IH]; [done|]. cbn [Rounds.with_receipts]. apply quiet_bind_try.
  - unfold Rounds.with_receipt. apply quiet_bind_try; [done|]. intros d. apply quiet_bind_try; [|done].
    unfold Rounds.get. apply quiet_bind_try; [apply quiet_execute_read|done].
  - intros p. by apply quiet_bind_try.
Qed.

(** One statement on the pool, then reads: every method but those that insert. *)
Lemma good_write {A B} o (s : Stmt A) (f : A → Prog (result B StorageError.t)) (g : B → Reply)
    (k : A → M Pg (result B StorageError.t)) :
  stores o = None →
  (∀ w, run_op o w = (bind_try (Database.execute s) k w).2) → (∀ a w, db (k a w).2 = db w) →
  (∀ c d a d', s c d = Ok (a, d') → same_keys d d') →
  (∀ a, quiet (f a)) → (∀ b, unstored (Ok (g b))) →
  good o false (answer g (prog_bind_try (Rounds.execute s) f)) None.
Proof.
  intros Ho Hrun Hk Hkeys Hf Hg. cbn.
  assert (∀ r : result A StorageError.t,
    let p := prog_bind (match r with Ok a => f a | Err e => Return (Err e) end)
      (λ r0, match r0 with Ok a => Return (Ok (g a)) | Err e => Return (Err e) end) in silent p ∧ reads p) as Hr.
  { intros [a|e]; [by apply quiet_reads|done]. }
  split_and!; [done| |].
  - done.
  - intros c d a d' Hs. right. split_and!; [done|done| |by eapply Hkeys|].
    + by eapply step_write.
    + intros r _. apply reads_good, Hr.
Qed.

Lemma find_owns k d row : List.find (has_dedupe_key k) (webhook_receipts d) = Some row → owns d k (ReceiptRow.receipt_id row).
Proof.
  intros [Hin Hk]%List.find_some. apply bool_decide_eq_true in Hk. exists row. split_and!; [|done..].
  by apply list_elem_of_In.
Qed.

(** The lookup of the receipt a duplicate collides with. *)
Lemma good_existing o spent r :
  stores o = Some r →
  good o spent (answer RStored
    (prog_bind_try (Rounds.execute (select_id_by_key (WebhookReceipt.dedupe_key r)))
       (λ existing, Return (Ok (StoreResult.Duplicate (ReceiptId.mk existing)))))) None.
Proof.
  intros Ho. cbn. split_and!; [done|done|]. intros c d a d' Hs. left. revert Hs.
  intros [_ Hs]%bind_text_Ok. revert Hs. unfold read.
  destruct (List.find _ _) as [row|] eqn:E; [|done]. intros [= <- <-].
  split; [done|split; [|done]]. intros r' [= <-]%(eq_trans (eq_sym Ho)). by apply find_owns.
Qed.

Lemma step_store r c d u d' : insert_receipt (bound_receipt r) c d = Ok (Some u, d') → step (Store r) d d'.
Proof.
  intros Hs. eapply (step_write _ _ (λ ins, match ins with
    | Some _ => ret (Ok StoreResult.Stored)
    | None => bind_try (Database.execute (select_id_by_key (WebhookReceipt.dedupe_key r)))
                (λ i, ret (Ok (StoreResult.Duplicate (ReceiptId.mk i)))) end)); [| |exact Hs].
  - intros w. cbn [run_op]. unfold PostgresStorage.store, lift_result.
    by rewrite processing_state_text_ok, verification_status_text_ok, !bind_try_ok.
  - intros [u'|] w; [done|]. unfold bind_try, bind. pose proof (select_id_by_key_db (WebhookReceipt.dedupe_key r) w) as Hdb.
    by destruct (Database.execute _ w) as [[i|e] w1].
Qed.

Lemma good_store r : good (Store r) false (rounds_of (Store r)) None.
Proof.
  cbn [rounds_of]. unfold answer, Rounds.store.
  rewrite processing_state_text_ok, verification_status_text_ok. cbn [prog_bind_try prog_bind good]. fold (bound_receipt r).
  split_and!; [done|done|done| | | |].
  - by apply (good_existing (Store r)).
  - by exists r.
  - intros c d u d'. apply step_store.
  - intros u res [->|[e ->]]; [by left|by right; eexists].
Qed.

Lemma good_insert_replay id n : good (InsertReplay id n) false (rounds_of (InsertReplay id n)) None.
Proof.
  cbn. split_and!; [done|done|done| |].
  - intros c d u d' Hs. eapply (step_write _ _ (λ u, ret (Ok (DeliveryId.mk u)))); [done|done|exact Hs].
  - by intros u r [->|[e ->]].
Qed.

(** *** Transactions *)

Definition delivery_at (t : DateTime) (u id : Uuid) (name : string) : DeliveryRow.t :=
  new_delivery (mkClock t u (λ _, false)) id name.
Fixpoint add_deliveries (id : Uuid) (names : list string) (us : list Uuid) (q : Pending) : Pending :=
  match names, us with
  | name :: names', u :: us' => add_deliveries id names' us' (add_delivery (delivery_at (began q) u id name) q)
  | _, _ => q
  end.

Lemma add_deliveries_rest id names us q :
  pending_receipts (add_deliveries id names us q) = pending_receipts q ∧ began (add_deliveries id names us q) = began q.
Proof. revert us q. induction names as [|n names IH]; intros [|u us] q; try done. exact (IH us (add_delivery _ q)). Qed.

(** [C] is what the rest of the method does with the deliveries it inserted. *)
Lemma good_deliveries o id names (C : Prog (result (list Uuid) StorageError.t) → Prog Answer) q :
  (∀ i n k, C (InsertDelivery i n k) = InsertDelivery i n (λ r, C (k r))) →
  (∀ e, silent (C (Return (Err e))) ∧ good o false (C (Return (Err e))) None) →
  (∀ us, silent (C (Return (Ok us)))) →
  (∀ us, List.length us = List.length names →
    good o false (C (Return (Ok us))) (Some (add_deliveries id names us q))) →
  good o false (C (Rounds.insert_deliveries id names)) (Some q).
Proof.
  revert C q. induction names as [|n names IH]; intros C q HC Herr Hsil Hok; [by apply (Hok [])|].
  cbn [Rounds.insert_deliveries prog_bind_try prog_bind]. rewrite HC. cbn [good].
  split_and!; [done|intros e; apply Herr|]. intros u.
  set (C' := λ p, C (prog_bind_try p (λ us, Return (Ok (u :: us))))).
  assert (∀ i m k, C' (InsertDelivery i m k) = InsertDelivery i m (λ r, C' (k r))) as HC'.
  { intros i m k. unfold C'. cbn [prog_bind_try prog_bind]. by rewrite HC. }
  split.
  - change (silent (C' (Rounds.insert_deliveries id names))).
    destruct names as [|m names]; [apply (Hsil [u])|]. cbn [Rounds.insert_deliveries prog_bind_try prog_bind].
    by rewrite HC'.
  - apply (IH C'); [done|apply Herr|intros us; apply (Hsil (u :: us))|].
    intros us Hlen. apply (Hok (u :: us)). cbn. by rewrite Hlen.
Qed.

(** The rows a transaction will commit fit at each of its inserts. *)
Lemma fits_before_delivery d x q :
  fits d (add_delivery x q) →
  fits d q ∧ DeliveryRow.delivery_id x ∉ delivery_ids (webhook_deliveries (with_pending d q)) ∧
  DeliveryRow.receipt_id x ∈ ids (webhook_receipts (with_pending d q)).
Proof.
  intros [? Fk ? Fi Fn Fd Ff]. cbn in *. rewrite map_app in Fn, Fd. apply NoDup_app in Fn as (Hn & Hx & _).
  assert (DeliveryRow.delivery_id x ∈ map DeliveryRow.delivery_id [x]) as Hin by by apply list_elem_of_singleton.
  split; [split; try done|split].
  - intros k Hk. apply Fd, elem_of_app. by left.
  - intros y Hy. apply Ff, elem_of_app. by left.
  - rewrite map_app, not_elem_app. split; [apply Fd, elem_of_app; by right|]. intros Hq. by apply (Hx _ Hq).
  - apply Ff, elem_of_app. right. by apply list_elem_of_singleton.
Qed.
Lemma fits_before_deliveries d id names us q : fits d (add_deliveries id names us q) → fits d q.
Proof.
  revert us q. induction names as [|n names IH]; intros [|u us] q Hf; try done.
  by apply (fits_before_delivery d (delivery_at (began q) u id n)), (IH us).
Qed.

(** With these draws of identifiers, the inserts of a method alone commit these rows. *)
Lemma insert_deliveries_drawn d id names us q w :
  healthy w → List.length us = List.length names →
  (∀ i u, us !! i = Some u → gen_random_uuid (clock_at w (rounds w + i)) = u) →
  fits d (add_deliveries id names us q) →
  ∃ w', PostgresStorage.insert_deliveries id names (mkTx (with_pending d q) (began q)) w =
        (Ok (us, mkTx (with_pending d (add_deliveries id names us q)) (began q)), w') ∧ healthy w' ∧ db w' = db w.
Proof.
  revert us q w. induction names as [|n names IH]; intros [|u us] q w Hw Hlen Hdraw Hf; try done; [by exists w|].
  cbn [add_deliveries] in *. set (x := delivery_at (began q) u id n) in *.
  destruct (fits_before_delivery d x q (fits_before_deliveries _ _ _ _ _ Hf)) as (_ & Hx & Hid).
  destruct (IH us (add_delivery x q) (tick w)) as (w' & Hrun & Hw' & Hdb).
  - by apply healthy_tick.
  - by injection Hlen.
  - intros i v Hv. cbn. rewrite <- Nat.add_succ_r. by apply (Hdraw (S i)).
  - done.
  - exists w'. split; [|done]. cbn [PostgresStorage.insert_deliveries].
    assert (gen_random_uuid (clock w) = u) as Hu by (unfold clock; rewrite <- (Nat.add_0_r (rounds w)); by apply (Hdraw 0%nat)).
    assert (tx_execute (insert_delivery id n) (mkTx (with_pending d q) (began q)) w =
            (Ok (u, mkTx (with_pending d (add_delivery x q)) (began q)), tick w)) as Hins.
    { rewrite tx_execute_healthy by done. unfold insert_delivery, has_delivery_id, has_receipt_id.
      cbn [tx_db gen_random_uuid tx_now]. rewrite Hu, existsb_of_not_in, existsb_of_in by done. cbn [negb].
      by rewrite with_pending_add_delivery. }
    rewrite (bind_try_run _ _ _ _ _ Hins), (bind_try_run _ _ _ _ _ Hrun). done.
Qed.

Definition drawing (n : nat) (t : DateTime) (us : list Uuid) (d : Db) : Pg :=
  mkPg d 0 (λ i, mkClock t (default 0%N (us !! (i - n)%nat)) (λ _, false)) [].
Lemma drawing_draws n t us d i u : us !! i = Some u → gen_random_uuid (clock_at (drawing n t us d) (n + i)) = u.
Proof.
  intros Hu. change (default 0%N (us !! (n + i - n)%nat) = u). replace (n + i - n)%nat with i by lia.
  exact (f_equal (default 0%N) Hu).
Qed.
Lemma with_pending_none d t : with_pending d (mkPending [] [] t) = d.
Proof. destruct d. unfold with_pending. cbn. by rewrite !app_nil_r. Qed.

Lemma begin_drawing n t us d : Database.begin (drawing n t us d) = (Ok (mkTx d t), tick (drawing n t us d)).
Proof. done. Qed.
Lemma commit_healthy tx w : healthy w → (Database.commit tx w).1 = Ok tt ∧ db (Database.commit tx w).2 = tx_db tx.
Proof. unfold Database.commit, next_round. by intros ->. Qed.

(** What a transaction commits is what its method, alone, would have written. *)
Lemma step_insert_replays id names t us d :
  let q := add_deliveries (ReceiptId.uuid id) names us (mkPending [] [] t) in
  List.length us = List.length names → fits d q → step (InsertReplays id names) d (with_pending d q).
Proof.
  intros q Hlen Hf. pose proof (step_run (InsertReplays id names) (drawing 1 t us d)) as Hstep. revert Hstep.
  cbn [run_op]. unfold PostgresStorage.insert_replays. rewrite (bind_try_run _ _ _ _ _ (begin_drawing _ _ _ _)).
  destruct (insert_deliveries_drawn d (ReceiptId.uuid id) names us (mkPending [] [] t) (tick (drawing 1 t us d)))
    as (w & Hrun & Hw & _); [done|done| |done|].
  { intros i u Hu. by apply (drawing_draws 1). }
  rewrite with_pending_none in Hrun. rewrite (bind_try_run _ _ _ _ _ Hrun).
  unfold bind_try, bind. destruct (commit_healthy (mkTx (with_pending d q) t) w Hw) as [Hok Hdb].
  destruct (Database.commit _ w) as [[[]|e] w']; cbn in *; [by rewrite Hdb|done].
Qed.

Lemma step_store_with_deliveries r names t us d :
  let q := add_deliveries (ReceiptId.uuid (WebhookReceipt.receipt_id r)) names us
             (add_receipt (json_columns (bound_receipt r)) (mkPending [] [] t)) in
  storable r = true → List.length us = List.length names → fits d q → step (StoreWithDeliveries r names) d (with_pending d q).
Proof.
  intros q Hst Hlen Hf. pose proof (step_run (StoreWithDeliveries r names) (drawing 2 t us d)) as Hstep. revert Hstep.
  cbn [run_op]. unfold PostgresStorage.store_with_deliveries, lift_result.
  rewrite processing_state_text_ok, verification_status_text_ok, !bind_try_ok. fold (bound_receipt r).
  rewrite (bind_try_run _ _ _ _ _ (begin_drawing _ _ _ _)).
  set (q0 := add_receipt (json_columns (bound_receipt r)) (mkPending [] [] t)) in *.
  assert (fits d q0) as Hf0 by by eapply fits_before_deliveries.
  assert (tx_execute (insert_receipt (bound_receipt r)) (mkTx d t) (tick (drawing 2 t us d)) =
    (Ok (Some (ReceiptRow.receipt_id (bound_receipt r)), mkTx (with_pending d q0) t), tick (tick (drawing 2 t us d)))) as Hins.
  { rewrite tx_execute_healthy by done. rewrite insert_receipt_run by by apply storable_accepted.
    unfold insert_stored, has_dedupe_key, has_receipt_id. cbn [tx_db tx_now].
    rewrite !existsb_of_not_in; [|apply (fits_ids_new _ _ Hf0), list_elem_of_here|apply (fits_keys_new _ _ Hf0), list_elem_of_here].
    apply andb_prop in Hst as [_ ->]. cbn [negb].
    unfold q0. by rewrite with_pending_add_receipt, with_pending_none. }
  rewrite (bind_try_run _ _ _ _ _ Hins).
  destruct (insert_deliveries_drawn d (ReceiptId.uuid (WebhookReceipt.receipt_id r)) names us q0 (tick (tick (drawing 2 t us d))))
    as (w & Hrun & Hw & _); [done|done| |done|].
  { intros i u Hu. by apply (drawing_draws 2). }
  change (began q0) with t in Hrun. rewrite (bind_try_run _ _ _ _ _ Hrun).
  unfold bind_try, bind. destruct (commit_healthy (mkTx (with_pending d q) t) w Hw) as [Hok Hdb].
  destruct (Database.commit _ w) as [[[]|e] w']; cbn in *; [by rewrite Hdb|done].
Qed.

Lemma good_insert_replays id names : good (InsertReplays id names) false (rounds_of (InsertReplays id names)) None.
Proof.
  cbn. split_and!; [done|done|done| |].
  { by destruct names. }
  intros t. set (q := mkPending [] [] t).
  apply (good_deliveries _ _ _ (λ p, prog_bind_try (prog_bind_try p
    (λ us, prog_bind_try Rounds.commit (λ _, Return (Ok (map DeliveryId.mk us))))) (λ a, Return (Ok (RIds a)))));
    [done|done|done|].
  intros us Hlen. cbn. split_and!; [done|done| | |].
  - intros d. by apply step_insert_replays.
  - exact (proj1 (add_deliveries_rest (ReceiptId.uuid id) names us q)).
  - by intros r [->|[e ->]].
Qed.

Lemma good_store_with_deliveries r names :
  good (StoreWithDeliveries r names) false (rounds_of (StoreWithDeliveries r names)) None.
Proof.
  cbn [rounds_of]. unfold answer, Rounds.store_with_deliveries.
  rewrite processing_state_text_ok, verification_status_text_ok. cbn [prog_bind_try prog_bind Rounds.begin good].
  fold (bound_receipt r). split_and!; [done|done|done|done|]. intros t.
  split_and!; [done|done|done| |done|].
  { split_and!; [done|done|done|]. by apply (good_existing (StoreWithDeliveries r names)). }
  intros u. set (q := add_receipt (json_columns (bound_receipt r)) (mkPending [] [] t)).
  set (C := λ p : Prog (result (list Uuid) StorageError.t), prog_bind_try (prog_bind_try p
    (λ _, prog_bind_try Rounds.commit (λ _, Return (Ok StoreResult.Stored)))) (λ a, Return (Ok (RStored a)))).
  split.
  { by destruct names. }
  intros Hst. apply (good_deliveries _ _ _ C); [done|done|done|]. intros us Hlen. cbn. split_and!; [done|done| | |].
  - intros d. by apply step_store_with_deliveries.
  - exact (proj1 (add_deliveries_rest _ names us q)).
  - intros res [->|[e ->]]; [by left|by right; eexists].
Qed.

(** Every method keeps to itself. *)
Lemma good_rounds_of o : good o false (rounds_of o) None.
Proof.
  destruct o.
  - apply good_store.
  - apply good_store_with_deliveries.
  - cbn [rounds_of]. unfold Rounds.update_state. rewrite serialize_processing_state.
    refine (good_write _ _ (λ _, Return (Ok tt)) (λ _, RUnit) (λ _, ret (Ok tt)) _ _ _ _ _ _); try done.
    + intros w. cbn [run_op]. unfold PostgresStorage.update_state, lift_result.
      by rewrite serialize_processing_state, bind_try_ok.
    + intros c d a d' [_ Hs]%bind_text_Ok. revert Hs. apply (same_keys_receipts _ _ (λ x, (_, _))).
  - refine (good_write _ _ (λ _, Return (Ok tt)) (λ _, RUnit) (λ _, ret (Ok tt)) _ _ _ _ _ _); try done.
    apply same_keys_retry.
  - refine (good_write _ _ _ (λ _, RUnit) (λ n, if decide (n = 0) then ret (Err _) else ret (Ok tt)) _ _ _ _ _ _); try done.
    + intros a w. by case_decide.
    + intros c d a d'. apply (same_keys_receipts _ _ (λ x, (_, _))).
    + intros a. by case_decide.
  - refine (good_write _ _ _ RClaimed (map_try PostgresStorage.with_receipt) _ _ _ _ _ _); try done.
    + intros a w. apply map_with_receipt_db.
    + apply same_keys_claim.
    + apply quiet_with_receipts.
  - cbn. split_and!; [done|done|]. intros c d a d' Hs. right. split_and!; [done|done| | |by intros r [->|[e ->]]].
    + eapply (step_write _ _ (λ n, ret (Ok n))); [|done|exact Hs].
      intros w. cbn [run_op]. unfold PostgresStorage.reclaim_expired, bind_try, bind.
      by destruct (Database.execute _ w) as [[n|e] w'].
    + by eapply same_keys_deliveries; [|exact Hs].
  - refine (good_write _ _ (λ _, Return (Ok tt)) (λ _, RUnit) (λ _, ret (Ok tt)) _ _ _ _ _ _); try done.
    intros c d a d'. by apply same_keys_deliveries.
  - refine (good_write _ _ (λ _, Return (Ok tt)) (λ _, RUnit) (λ _, ret (Ok tt)) _ _ _ _ _ _); try done.
    intros c d a d' [_ Hs]%bind_text_Ok. by eapply same_keys_deliveries; [|exact Hs].
  - refine (good_write _ _ (λ _, Return (Ok tt)) (λ _, RUnit) (λ _, ret (Ok tt)) _ _ _ _ _ _); try done.
    intros c d a d' [_ Hs]%bind_text_Ok. by eapply same_keys_deliveries; [|exact Hs].
  - apply good_insert_replay.
  - apply good_insert_replays.
Qed.

(** ** One round trip

    What it did: nothing; hold rows in a transaction; update rows; or append rows. *)
Inductive outcome (others : list Pending) (o : Op) (spent : bool) (d d' : Db) (p' : Prog Answer) (t' : option Pending) : Prop :=
| kept : d' = d → t' = None → says o d p' → good o spent p' None → outcome others o spent d d' p' t'
| held q : d' = d → t' = Some q → fits d q → Forall (apart q) others → silent p' → good o spent p' (Some q) →
    outcome others o spent d d' p' t'
| updated : spent = false → stores o = None → step o d d' → same_keys d d' → t' = None → good o true p' None →
    outcome others o spent d d' p' t'
| appended q : spent = false → step o d d' → d' = with_pending d q → fits d q → Forall (apart q) others → t' = None →
    match stores o with
    | Some r => pending_receipts q = [db_receipt (stored_form r)] ∧ answers_stored p'
    | None => pending_receipts q = [] ∧ good o true p' None
    end → outcome others o spent d d' p' t'.

Lemma good_failed others o spent p t d e p' :
  good o spent p t → failed p e = Some p' → outcome others o spent d d p' None.
Proof.
  intros Hg Hf. assert (silent p' ∧ good o spent p' None) as [Hs Hg'].
  { destruct p; cbn in *; [done|..]; injection Hf as <-; [apply Hg|..]; destruct_and?; subst; eauto. }
  apply kept; [done..|by apply silent_says|done].
Qed.

Lemma apart_begin t q : apart (mkPending [] [] t) q.
Proof. split_and!; intros k []%not_elem_of_nil. Qed.

Lemma round_good others o spent p t d d' p' t' :
  good o spent p t → (∀ q, t = Some q → fits d q ∧ Forall (apart q) others) →
  round others d p t d' p' t' → outcome others o spent d d' p' t'.
Proof.
  intros Hg Ht Hr. destruct Hr as [p t e p' Hf|B s k c a d' r Hs Hr|row k c a d' r Hs Hr Hn|row k q u lk a q' Hs Hb Hn
    |id name k c u d' r Hs Hr Hn|id name k q v lk u q' Hs Hb Hn|k t|k q r Hr|k q].
  - by eapply good_failed.
  - destruct Hg as (_ & He & Hok). destruct (Hok _ _ _ _ Hs) as [(-> & Hsay & Hgood)|(-> & Ho & Hstep & Hk & Hgood)].
    + destruct Hr as [->|[e ->]]; apply kept; [done..|apply silent_says, He|apply He].
    + apply updated; try done. by apply Hgood.
  - destruct Hg as (-> & He & Hsil & Hgood & (r0 & Ho & ->) & Hstep & Hans).
    destruct (insert_receipt_inv _ _ _ _ _ Hs) as [(-> & -> & _)|(-> & Hk & Hi & ->)].
    + destruct Hr as [->|[e ->]]; (apply kept; [done..|apply silent_says|]); try apply He; done.
    + apply (appended _ _ _ _ _ _ _ (only_receipt (json_columns (bound_receipt r0)))); try done.
      * by eapply Hstep.
      * by rewrite with_only_receipt.
      * apply fits_add_receipt; [apply fits_begin|by rewrite with_pending_none..].
      * eapply Forall_impl; [apply Hn; by eexists|]. intros q Hq. by apply apart_add_receipt; [apply apart_begin|].
      * rewrite Ho. split; [done|]. by eapply Hans.
  - destruct Hg as (-> & He & Hsil & Hgood & _ & Hins). destruct (Ht q eq_refl) as [Hf Ha].
    destruct (insert_receipt_inv _ _ _ _ _ Hs) as [(-> & Hd & _)|(-> & Hk & Hi & Hd)].
    + apply with_pending_inj in Hd as ->; [|done]. by eapply held.
    + rewrite <- with_pending_add_receipt in Hd. apply with_pending_inj in Hd as ->; [|done].
      apply (held _ _ _ _ _ _ _ (add_receipt (json_columns row) q)); try apply Hins; try done.
      * by apply fits_add_receipt.
      * apply Forall_forall. intros q' Hq'. apply apart_add_receipt; [by eapply Forall_forall in Ha|].
        assert (Forall (λ q, ¬ holds_receipt row q) others) as Hall by by apply Hn; eexists.
        by eapply Forall_forall in Hall.
      * by eapply insert_receipt_storable.
  - destruct Hg as (-> & He & Ho & Hstep & Hgood). pose proof (Hstep _ _ _ _ Hs) as Hst.
    apply insert_delivery_run in Hs as (Hd & Hi & -> & ->).
    set (x := new_delivery c id name) in *.
    apply (appended _ _ _ _ _ _ _ (only_delivery x)); try done.
    + by rewrite with_only_delivery.
    + apply fits_add_delivery; [apply fits_begin|rewrite with_pending_none..].
      * by apply existsb_false_not_in.
      * by apply existsb_true_in.
    + eapply Forall_impl; [exact Hn|]. intros q Hq. by apply apart_add_delivery; [apply apart_begin|].
    + rewrite Ho. split; [done|]. by eapply Hgood.
  - destruct Hg as (-> & He & Hins). destruct (Ht q eq_refl) as [Hf Ha].
    apply insert_delivery_run in Hs as (Hd & Hi & -> & Hd'). cbn in Hd, Hn.
    set (x := new_delivery _ id name) in Hd'. rewrite <- with_pending_add_delivery in Hd'.
    apply with_pending_inj in Hd' as ->; [|done].
    apply (held _ _ _ _ _ _ _ (add_delivery x q)); try apply Hins; try done.
    + apply fits_add_delivery; [done|by apply existsb_false_not_in|by apply existsb_true_in].
    + apply Forall_forall. intros q' Hq'. eapply Forall_forall in Ha, Hn; [|exact Hq'..].
      by apply apart_add_delivery.
  - destruct Hg as (_ & -> & He & Hsil & Hgood). apply (held _ _ _ _ _ _ _ (mkPending [] [] t)); try done.
    + apply fits_begin.
    + apply Forall_forall. intros q _. apply apart_begin.
  - destruct Hg as (-> & He & Hstep & Hans). destruct (Ht q eq_refl) as [Hf Ha].
    apply (appended _ _ _ _ _ _ _ q); try done; [by apply Hstep|].
    destruct (stores o); destruct Hans as [? Hans]; (split; [done|]); by apply Hans.
  - destruct Hg as (-> & He & Hsil & Hgood). apply kept; [done..|by apply silent_says|done].
Qed.

(** ** The system

    Each call is paired with whether it has written ([spent]). *)
Definition ops_spent (l : list (bool * Call)) : list Op :=
  omap (λ p : bool * Call, if p.1 then Some (op p.2) else None) l.
Definition keys_spent (os : list Op) : list string := omap (λ o, WebhookReceipt.dedupe_key <$> stores o) os.

(** What a call that stores may say: the truth. *)
Definition truthful (d : Db) (spent : bool) (x : Call) : Prop :=
  if spent then
    ∀ r, stores (op x) = Some r →
      answers_stored (prog x) ∧ owns d (WebhookReceipt.dedupe_key r) (ReceiptId.uuid (WebhookReceipt.receipt_id r))
  else says (op x) d (prog x).

Record inv (d0 d : Db) (l : list (bool * Call)) (os : list Op) : Prop := mk_inv {
  inv_trace : trace os d0 d;
  inv_ops : os ≡ₚ ops_spent l;
  inv_keys : keys (webhook_receipts d) = keys (webhook_receipts d0) ++ keys_spent os;
  inv_good : Forall (λ p : bool * Call, good (op p.2) p.1 (prog p.2) (pending p.2)) l;
  inv_truth : Forall (λ p : bool * Call, truthful d p.1 p.2) l;
  inv_fits : ∀ i p q, l !! i = Some p → pending p.2 = Some q → fits d q;
  inv_apart : ∀ i j p p' q q', i ≠ j → l !! i = Some p → l !! j = Some p' →
    pending p.2 = Some q → pending p'.2 = Some q' → apart q q'
}.

Lemma lookup_map_eq {A B} (f : A → B) l l' i x : map f l' = map f l → l !! i = Some x → ∃ y, l' !! i = Some y ∧ f y = f x.
Proof.
  intros Heq Hx. assert (map f l !! i = Some (f x)) as Hf by (change (map f l) with (f <$> l); by rewrite list_lookup_fmap, Hx).
  rewrite <- Heq in Hf. apply list_lookup_fmap_Some in Hf as (y & Hy & Hfy). by exists y.
Qed.

Lemma owns_same_keys d d' k id : same_keys d d' → owns d k id → owns d' k id.
Proof.
  intros (Hk & Hi & _) (row & Hin & <- & <-). apply list_elem_of_lookup in Hin as [i Hrow].
  destruct (lookup_map_eq _ _ _ _ _ Hk Hrow) as (row' & Hrow' & Hk').
  destruct (lookup_map_eq _ _ _ _ _ Hi Hrow) as (row'' & Hrow'' & Hi').
  simplify_eq. exists row'. split_and!; [|done..]. by eapply list_elem_of_lookup_2.
Qed.
Lemma owns_commit d q k id : owns d k id → owns (with_pending d q) k id.
Proof. intros (row & Hin & Hk). exists row. split; [|done]. apply elem_of_app. by left. Qed.

Lemma outcome_owns others o spent d d' p' t' k id : outcome others o spent d d' p' t' → owns d k id → owns d' k id.
Proof.
  intros [-> ? ? ?|q -> ? ? ? ? ?|? ? ? Hk ? ?|q ? ? -> ? ? ? ?]; [done|done| |apply owns_commit].
  by apply owns_same_keys.
Qed.
Lemma outcome_fits others o spent d d' p' t' q :
  outcome others o spent d d' p' t' → q ∈ others → fits d q → fits d' q.
Proof.
  intros [-> ? ? ?|q' -> ? ? ? ? ?|? ? ? Hk ? ?|q' ? ? -> ? Ha ? ?] Hq; [done|done|by apply fits_same_keys|].
  intros Hf. apply fits_commit; [done|]. by eapply Forall_forall in Ha.
Qed.
Lemma says_mono o d d' p : (∀ k id, owns d k id → owns d' k id) → says o d p → says o d' p.
Proof. intros Ho. unfold says. repeat case_match; naive_solver. Qed.
Lemma truthful_mono d d' b x : (∀ k id, owns d k id → owns d' k id) → truthful d b x → truthful d' b x.
Proof. intros Ho. destruct b; cbn; [naive_solver|by apply says_mono]. Qed.

Lemma lookup_calls (l : list (bool * Call)) j y : map snd l !! j = Some y ↔ ∃ b, l !! j = Some (b, y).
Proof.
  change (map snd l) with (snd <$> l). rewrite list_lookup_fmap. split.
  - destruct (l !! j) as [[b y']|]; [|done]. intros [= ->]. by exists b.
  - by intros [b ->].
Qed.
Lemma elem_of_others_spent i (l : list (bool * Call)) q :
  q ∈ others i (map snd l) ↔ ∃ j p, j ≠ i ∧ l !! j = Some p ∧ pending p.2 = Some q.
Proof.
  rewrite elem_of_others. setoid_rewrite lookup_calls. split.
  - intros (j & y & Hne & [b Hy] & Hq). by exists j, (b, y).
  - intros (j & [b y] & Hne & Hy & Hq). exists j, y. eauto.
Qed.

Lemma ops_spent_same l i b x x' : l !! i = Some (b, x) → op x' = op x → ops_spent (<[i := (b, x')]> l) = ops_spent l.
Proof.
  intros Hx Hop. rewrite <- (take_drop_middle l i (b, x) Hx) at 2.
  rewrite insert_take_drop by by eapply lookup_lt_Some.
  unfold ops_spent. rewrite !omap_app. cbn. by rewrite Hop.
Qed.
Lemma ops_spent_spend l i x x' :
  l !! i = Some (false, x) → op x' = op x → ops_spent (<[i := (true, x')]> l) ≡ₚ ops_spent l ++ [op x].
Proof.
  intros Hx Hop. rewrite <- (take_drop_middle l i (false, x) Hx) at 2.
  rewrite insert_take_drop by by eapply lookup_lt_Some.
  unfold ops_spent. rewrite !omap_app. cbn. rewrite Hop. rewrite <- app_assoc. apply Permutation_app_head.
  apply Permutation_cons_append.
Qed.

(** The history an outcome adds. *)
Lemma outcome_history others o b x d d' p' t' :
  op x = o → running (prog x) → truthful d b x → outcome others o b d d' p' t' →
  ∃ b' os, (b' = b ∧ os = [] ∨ b = false ∧ b' = true ∧ os = [o]) ∧
    trace os d d' ∧ keys (webhook_receipts d') = keys (webhook_receipts d) ++ keys_spent os ∧
    good o b' p' t' ∧ truthful d' b' (mkCall o p' t') ∧ ∀ q, t' = Some q → fits d' q ∧ Forall (apart q) others.
Proof.
  intros <- Hrun Htrue. assert (b = true → stores (op x) = None) as Hnone.
  { intros ->. destruct (stores (op x)) as [r|] eqn:E; [|done]. destruct (Htrue r E) as [[Hp|[e Hp]] _]; by rewrite Hp in Hrun. }
  assert (∀ d p t, says (op x) d p → truthful d b (mkCall (op x) p t)) as Hsays.
  { intros d1 p t Hs. destruct b; [|done]. cbn. by rewrite Hnone. }
  intros [-> -> Hs Hg|q -> -> Hf Ha Hs Hg| -> Ho Hst (Hk & _) -> Hg|q -> Hst -> Hf Ha -> Hq].
  - exists b, []. split_and!; [by left|constructor|by rewrite app_nil_r|done|by apply Hsays|done].
  - exists b, []. split_and!; [by left|constructor|by rewrite app_nil_r|done|by apply Hsays, silent_says|].
    by intros ? [= <-].
  - exists true, [op x]. split_and!; [by right|by eapply trace_cons, trace_nil| |done| |done]; cbn.
    + by rewrite Ho, app_nil_r.
    + by rewrite Ho.
  - exists true, [op x]. split_and!; [by right|by eapply trace_cons, trace_nil| | | |done]; cbn; rewrite ?map_app.
    + destruct (stores (op x)) as [r|]; destruct Hq as [-> _]; done.
    + destruct (stores (op x)) as [r|]; destruct Hq as [_ Hq]; [|done]. by destruct Hq as [->|[e ->]].
    + intros r Ho. rewrite Ho in Hq. destruct Hq as [Hq Hans]. split; [done|].
      exists (db_receipt (stored_form r)). split_and!; [|done..]. cbn. rewrite Hq. apply elem_of_app. right. by apply list_elem_of_singleton.
Qed.

Lemma inv_outcome d0 d l os i b x d' p' t' :
  inv d0 d l os → l !! i = Some (b, x) → running (prog x) →
  outcome (others i (map snd l)) (op x) b d d' p' t' →
  ∃ b' os', inv d0 d' (<[i := (b', mkCall (op x) p' t')]> l) os'.
Proof.
  intros [Htr Hops Hkeys Hgood Htruth Hfits Hapart] Hx Hrun Hout.
  assert (truthful d b x) as Htx by exact (Forall_lookup_1 _ _ _ _ Htruth Hx).
  destruct (outcome_history _ _ b x _ _ _ _ eq_refl Hrun Htx Hout) as (b' & os1 & Hb & Htr1 & Hk1 & Hg1 & Ht1 & Hf1).
  exists b', (os ++ os1). split.
  - by eapply trace_app.
  - destruct Hb as [[-> ->]|(-> & -> & ->)].
    + by rewrite app_nil_r, (ops_spent_same _ _ _ x).
    + rewrite Hops. symmetry. by apply (ops_spent_spend l i x).
  - rewrite Hk1, Hkeys. unfold keys_spent. by rewrite omap_app, app_assoc.
  - by apply Forall_insert.
  - apply Forall_insert; [|done]. eapply Forall_impl; [exact Htruth|].
    intros [c y]. apply truthful_mono. intros k id. by eapply outcome_owns.
  - intros j p q [(<- & <- & _)| [Hne Hj]]%list_lookup_insert_Some Hq; [by apply Hf1|].
    eapply outcome_fits; [done| |by eapply Hfits].
    apply elem_of_others_spent. by exists j, p.
  - assert (∀ j p q q', j ≠ i → l !! j = Some p → pending p.2 = Some q' → t' = Some q → apart q q') as Hnew.
    { intros j p q q' Hne Hj Hq' Hq. destruct (Hf1 q Hq) as [_ Ha]. eapply Forall_forall; [exact Ha|].
      apply elem_of_others_spent. by exists j, p. }
    intros j j' p q r r' Hne [(<- & <- & _)| [Hj Hp]]%list_lookup_insert_Some
      [(<- & <- & _)| [Hj' Hq]]%list_lookup_insert_Some Hr Hr'; [done| | |].
    + by eapply Hnew.
    + apply apart_sym. by eapply Hnew.
    + exact (Hapart j j' p q r r' Hne Hp Hq Hr Hr').
Qed.

Lemma says_rounds_of o d : says o d (rounds_of o).
Proof.
  destruct o; try done; cbn [rounds_of]; unfold Rounds.store, Rounds.store_with_deliveries, Rounds.update_state;
    by rewrite ?processing_state_text_ok, ?verification_status_text_ok, ?serialize_processing_state.
Qed.

Lemma inv_start d0 d l os o : inv d0 d l os → inv d0 d (l ++ [(false, mkCall o (rounds_of o) None)]) os.
Proof.
  intros [Htr Hops Hkeys Hgood Htruth Hfits Hapart].
  assert (∀ i p q, (l ++ [(false, mkCall o (rounds_of o) None)]) !! i = Some p → pending p.2 = Some q → l !! i = Some p) as Hold.
  { intros i p q [Hi|[_ Hi]]%lookup_app_Some Hq; [done|]. by apply list_lookup_singleton_Some in Hi as [_ <-]. }
  split; [done| |done| | |eauto|eauto].
  - unfold ops_spent in *. rewrite omap_app. cbn. by rewrite app_nil_r.
  - apply Forall_app. split; [done|]. apply Forall_singleton. exact (good_rounds_of o).
  - apply Forall_app. split; [done|]. apply Forall_singleton. exact (says_rounds_of o d).
Qed.

Lemma round_running others d p t d' p' t' : round others d p t d' p' t' → running p.
Proof. intros [p1 t1 e p2 Hf| | | | | | | |]; try done. by destruct p1. Qed.

Lemma inv_step d0 l os s s' :
  map snd l = calls s → inv d0 (database s) l os → system_step s s' →
  ∃ l' os', map snd l' = calls s' ∧ inv d0 (database s') l' os'.
Proof.
  intros Hl Hinv Hs. assert (∀ i x p' t' d', calls s !! i = Some x → running (prog x) →
    (∀ b, good (op x) b (prog x) (pending x) → (∀ q, pending x = Some q → fits (database s) q ∧ Forall (apart q) (others i (calls s))) →
       outcome (others i (calls s)) (op x) b (database s) d' p' t') →
    ∃ l' os', map snd l' = <[i := mkCall (op x) p' t']> (calls s) ∧ inv d0 d' l' os') as Hround.
  { intros i x p' t' d' Hx Hrun Hout. rewrite <- Hl in *. apply lookup_calls in Hx as [b Hx].
    destruct (inv_outcome d0 (database s) l os i b x d' p' t') as (b' & os' & Hinv'); [done..| |].
    - apply Hout.
      + exact (Forall_lookup_1 _ _ _ _ (inv_good _ _ _ _ Hinv) Hx).
      + intros q Hq. split; [by apply (inv_fits _ _ _ _ Hinv i (b, x))|]. apply Forall_forall.
        intros q' (j & p & Hne & Hj & Hq')%elem_of_others_spent.
        by apply (inv_apart _ _ _ _ Hinv i j (b, x) p q q').
    - exists (<[i := (b', mkCall (op x) p' t')]> l), os'. split; [|done]. apply (list_fmap_insert snd). }
  destruct Hs as [d cs o|d cs i x d' p' t' Hx Hr|d cs i x e Hx Hrun]; cbn in *.
  - exists (l ++ [(false, mkCall o (rounds_of o) None)]), os. split; [by rewrite map_app, Hl|by apply inv_start].
  - eapply Hround; [done|by eapply round_running|]. intros b Hg Hq. by eapply round_good.
  - eapply Hround; [done..|]. intros b _ _. by apply kept.
Qed.

Lemma inv_reaches d0 s : reaches d0 s → ∃ l os, map snd l = calls s ∧ inv d0 (database s) l os.
Proof.
  revert s. apply (rtc_ind_r (λ s, ∃ l os, map snd l = calls s ∧ inv d0 (database s) l os)).
  - exists [], []. split; [done|]. split; try done; [constructor|by rewrite app_nil_r].
  - intros s1 s2 _ Hs (l & os & Hl & Hinv). by eapply inv_step.
Qed.

(** ** Racing stores *)

Lemma NoDup_omap_lookup {A B} (f : A → option B) l i j x y b :
  NoDup (omap f l) → l !! i = Some x → l !! j = Some y → f x = Some b → f y = Some b → i = j.
Proof.
  intros Hnd Hi Hj Hx Hy. destruct (decide (i = j)) as [|Hne]; [done|exfalso].
  assert (∀ m n u v, (m < n)%nat → l !! m = Some u → l !! n = Some v → f u = Some b → f v = Some b → False) as Hlt.
  { intros m n u v Hmn Hm Hn Hu Hv. rewrite <- (take_drop_middle l m u Hm), omap_app in Hnd. cbn in Hnd.
    rewrite Hu in Hnd. apply NoDup_app in Hnd as (_ & _ & Hnd). apply NoDup_cons in Hnd as [Hnin _].
    apply Hnin, list_elem_of_omap. exists v. split; [|done]. apply list_elem_of_lookup. exists (n - S m)%nat.
    rewrite lookup_drop. by replace (S m + (n - S m))%nat with n by lia. }
  destruct (decide (i < j)%nat); [by eapply (Hlt i j)|by eapply (Hlt j i); [lia|..]].
Qed.

Definition key_spent (p : bool * Call) : option string :=
  if p.1 then WebhookReceipt.dedupe_key <$> stores (op p.2) else None.
Lemma keys_spent_ops l : keys_spent (ops_spent l) = omap key_spent l.
Proof.
  unfold keys_spent, ops_spent, key_spent. induction l as [|[[] x] l IH]; cbn; [done| |done]. by rewrite IH.
Qed.

Lemma inv_key_once d0 d l os :
  db_wf d0 → inv d0 d l os →
  NoDup (omap key_spent l) ∧ NoDup (keys (webhook_receipts d)) ∧
  ∀ k, k ∈ keys (webhook_receipts d) ↔ k ∈ keys (webhook_receipts d0) ∨ k ∈ omap key_spent l.
Proof.
  intros Hwf Hinv. pose proof (wf_dedupe_keys _ (proj2 (trace_legal _ _ _ (inv_trace _ _ _ _ Hinv) Hwf))) as Hnd.
  assert (keys_spent os ≡ₚ omap key_spent l) as Hp.
  { rewrite <- keys_spent_ops. unfold keys_spent. by rewrite (inv_ops _ _ _ _ Hinv). }
  pose proof (inv_keys _ _ _ _ Hinv) as Hk. split_and!; [|done|].
  - rewrite Hk in Hnd. apply NoDup_app in Hnd as (_ & _ & Hnd). by rewrite <- Hp.
  - intros k. by rewrite Hk, elem_of_app, Hp.
Qed.

Lemma owns_unique d k i j : NoDup (keys (webhook_receipts d)) → owns d k i → owns d k j → i = j.
Proof.
  intros Hnd (r & Hr & Hk & <-) (r' & Hr' & Hk' & <-). f_equal.
  by eapply (NoDup_map_inj_on ReceiptRow.dedupe_key); [exact Hnd|..|by rewrite Hk].
Qed.
Lemma owns_key d k i : owns d k i → k ∈ keys (webhook_receipts d).
Proof. intros (r & Hr & <- & _). apply elem_of_List_map. by exists r. Qed.

(** The call [i], [x], stores a receipt [r] whose key is [k]. *)
Definition racing (s : System) (k : string) (i : nat) (x : Call) (r : WebhookReceipt.t) : Prop :=
  calls s !! i = Some x ∧ stores (op x) = Some r ∧ WebhookReceipt.dedupe_key r = k.
Definition answered (x : Call) (st : StoreResult.t) : Prop := prog x = Return (Ok (RStored st)).

(** What the answers of a racing call tell. *)
Lemma racing_truth d0 s l os k i x r :
  map snd l = calls s → inv d0 (database s) l os → racing s k i x r →
  ∃ b, l !! i = Some (b, x) ∧
    (answered x StoreResult.Stored → b = true) ∧
    (∀ id, answered x (StoreResult.Duplicate id) → owns (database s) k (ReceiptId.uuid id)) ∧
    (b = true → key_spent (b, x) = Some k ∧ answers_stored (prog x) ∧
                owns (database s) k (ReceiptId.uuid (WebhookReceipt.receipt_id r))).
Proof.
  intros Hl Hinv (Hx & Ho & <-). rewrite <- Hl in Hx. apply lookup_calls in Hx as [b Hx]. exists b. split; [done|].
  assert (truthful (database s) b x) as Ht by exact (Forall_lookup_1 _ _ _ _ (inv_truth _ _ _ _ Hinv) Hx).
  unfold answered, key_spent. destruct b; cbn in *.
  - destruct (Ht r Ho) as [Hans Hown]. rewrite Ho. split_and!; [done| |done].
    intros id Hid. by destruct Hans as [Ha|[e Ha]]; rewrite Hid in Ha.
  - split_and!; [|intros id Hid|done]; [intros Hs; by rewrite Hs in Ht|]. rewrite Hid in Ht. by apply (Ht r).
Qed.

(** ** Theorems *)

(** C10: whatever the interleaving of round trips, the faults, the lost replies and the abandoned
    calls, the database is the result of whole methods, run one after the other: each call ran
    once or not at all, and a call that acknowledged its work ran. *)
Theorem rounds_refine_methods d0 s :
  reaches d0 s →
  ∃ (l : list (bool * Call)) os, map snd l = calls s ∧
    trace os d0 (database s) ∧ os ≡ₚ ops_spent l ∧
    ∀ i ran x a, l !! i = Some (ran, x) → prog x = Return a → acknowledges a → ran = true.
Proof.
  intros (l & os & Hl & Hinv)%inv_reaches. exists l, os. split; [done|]. split; [apply Hinv|]. split; [apply Hinv|].
  intros i ran x a Hx Hp Ha.
  assert (good (op x) ran (prog x) (pending x)) as Hg by exact (Forall_lookup_1 _ _ _ _ (inv_good _ _ _ _ Hinv) Hx).
  rewrite Hp in Hg. by apply Hg.
Qed.

(** C11: of the calls that store receipts with one key, at the same time and statement by statement,
    at most one answers that it stored its receipt, and every duplicate names the receipt that is
    there; if the key is new and they all answer, exactly one stored, and the others name its receipt. *)
Theorem racing_stores_store_once d0 s k :
  db_wf d0 → reaches d0 s →
  (∀ i j x y r r', racing s k i x r → racing s k j y r' →
     answered x StoreResult.Stored → answered y StoreResult.Stored → i = j) ∧
  (∀ i x r id, racing s k i x r → answered x (StoreResult.Duplicate id) → owns (database s) k (ReceiptId.uuid id)) ∧
  (k ∉ keys (webhook_receipts d0) → (∃ i x r, racing s k i x r) →
   (∀ i x r, racing s k i x r → ∃ st, answered x st) →
   ∃ i x r, racing s k i x r ∧ answered x StoreResult.Stored ∧
     owns (database s) k (ReceiptId.uuid (WebhookReceipt.receipt_id r)) ∧
     ∀ j y r', racing s k j y r' → j ≠ i → answered y (StoreResult.Duplicate (WebhookReceipt.receipt_id r))).
Proof.
  intros Hwf (l & os & Hl & Hinv)%inv_reaches. destruct (inv_key_once _ _ _ _ Hwf Hinv) as (Honce & Hnd & Hkeys).
  assert (∀ i j x y r r', racing s k i x r → racing s k j y r' →
     answered x StoreResult.Stored → answered y StoreResult.Stored → i = j) as Hone.
  { intros i j x y r r' Hx Hy Hax Hay.
    destruct (racing_truth _ _ _ _ _ _ _ _ Hl Hinv Hx) as (b & Hb & Hst & _ & Hsp).
    destruct (racing_truth _ _ _ _ _ _ _ _ Hl Hinv Hy) as (b' & Hb' & Hst' & _ & Hsp').
    by eapply (NoDup_omap_lookup key_spent); [exact Honce|exact Hb|exact Hb'|apply Hsp, Hst|apply Hsp', Hst']. }
  split; [done|]. split.
  { intros i x r id Hx Ha. destruct (racing_truth _ _ _ _ _ _ _ _ Hl Hinv Hx) as (b & _ & _ & Hdup & _). by apply Hdup. }
  intros Hnew (i & x & r & Hx) Hall.
  assert (k ∈ keys (webhook_receipts (database s))) as Hin.
  { destruct (racing_truth _ _ _ _ _ _ _ _ Hl Hinv Hx) as (b & _ & Hst & Hdup & Hsp).
    destruct (Hall _ _ _ Hx) as [[|id] Ha]; [|by eapply owns_key, Hdup]. eapply owns_key. by apply Hsp, Hst. }
  apply Hkeys in Hin as [?|Hin]; [done|]. apply list_elem_of_omap in Hin as ([b y] & Hy & Hk).
  apply list_elem_of_lookup in Hy as [j Hy]. unfold key_spent in Hk. cbn in Hk. destruct b; [|done].
  destruct (stores (op y)) as [r'|] eqn:Ho; [|done]. injection Hk as Hk.
  assert (racing s k j y r') as Hry by (split_and!; [rewrite <- Hl; apply lookup_calls; by exists true|done..]).
  destruct (racing_truth _ _ _ _ _ _ _ _ Hl Hinv Hry) as (b & Hb & _ & _ & Hsp). simplify_eq.
  destruct (Hsp eq_refl) as (_ & Hans & Hown).
  assert (answered y StoreResult.Stored) as Hay.
  { destruct Hans as [Hp|[e Hp]]; [done|]. destruct (Hall _ _ _ Hry) as [st Ha]. unfold answered in Ha. by rewrite Hp in Ha. }
  exists j, y, r'. split_and!; [done..|]. intros m z r'' Hz Hne. destruct (Hall _ _ _ Hz) as [[|id] Ha].
  - by destruct Hne; eapply Hone.
  - destruct (racing_truth _ _ _ _ _ _ _ _ Hl Hinv Hz) as (b & _ & _ & Hdup & _).
    pose proof (owns_unique _ _ _ _ Hnd (Hdup _ Ha) Hown) as Heq.
    destruct id, (WebhookReceipt.receipt_id r'). cbn in Heq. by subst.
Qed.

(** The holder of a key that another call waits for is not waiting itself: it goes on. *)
Theorem holders_do_not_wait d0 s i x q :
  reaches d0 s → calls s !! i = Some x → pending x = Some q → pending_receipts q ≠ [] →
  running (prog x) ∧ ∀ row k, prog x ≠ InsertReceipt row k.
Proof.
  intros (l & os & Hl & Hinv)%inv_reaches Hx Hq Hne. rewrite <- Hl in Hx. apply lookup_calls in Hx as [b Hx].
  assert (good (op x) b (prog x) (pending x)) as Hg by exact (Forall_lookup_1 _ _ _ _ (inv_good _ _ _ _ Hinv) Hx).
  rewrite Hq in Hg. split; [by destruct (prog x); [destruct Hg|..]|]. intros row k Hp. rewrite Hp in Hg.
  by destruct Hg as (_ & _ & _ & _ & Hnil & _).
Qed.
End system.

(** A redelivery of the sample, while the first is being stored. *)
Definition sample_rival : WebhookReceipt.t :=
  {| WebhookReceipt.receipt_id := ReceiptId.mk 2%N;
     WebhookReceipt.provider_name := "stripe";
     WebhookReceipt.provider_event_id := None;
     WebhookReceipt.external_reference := None;
     WebhookReceipt.dedupe_key := "stripe:00";
     WebhookReceipt.payload_hash := "00";
     WebhookReceipt.raw_body := [Byte.x7b; Byte.x7d];
     WebhookReceipt.parsed_payload := Some (VObject []);
     WebhookReceipt.raw_headers := VObject [];
     WebhookReceipt.normalized_event_type := None;
     WebhookReceipt.verification_status := VerificationStatus.Verified;
     WebhookReceipt.verification_reason := None;
     WebhookReceipt.processing_state := ProcessingState.Stored;
     WebhookReceipt.emit_count := 0;
     WebhookReceipt.last_error := None;
     WebhookReceipt.received_at := 1001;
     WebhookReceipt.processed_at := None;
     WebhookReceipt.metadata := VObject [] |}.

Definition sample_race_calls : list Call :=
  [mkCall (StoreWithDeliveries sample_receipt ["kafka"]) (Return (Ok (RStored StoreResult.Stored))) None;
   mkCall (StoreWithDeliveries sample_rival ["kafka"])
     (Return (Ok (RStored (StoreResult.Duplicate (ReceiptId.mk 1%N))))) None].

(** The call [i] makes the round trip [H]. *)
Ltac call_round i H :=
  eapply rtc_l; [eapply (system_round _ _ i); [reflexivity|
    eapply H; first [reflexivity|left; reflexivity|intros _; unfold holds_receipt; vm_decide
                    |unfold holds_delivery; vm_decide|vm_compute; reflexivity|by intros [? [=]]]]|];
  cbn [list_insert insert prog_bind prog_bind_try op Rounds.insert_deliveries Rounds.commit Rounds.rollback Rounds.execute].

(** Both begin; the first inserts, and the second waits for its key until it has committed. *)
Lemma sample_race : ∃ d, reaches empty_db (mkSystem d sample_race_calls).
Proof.
  eexists. eapply rtc_l; [apply (system_start _ _ (StoreWithDeliveries sample_receipt ["kafka"]))|].
  eapply rtc_l; [apply (system_start _ _ (StoreWithDeliveries sample_rival ["kafka"]))|].
  cbn [app rounds_of]. unfold answer, Rounds.store_with_deliveries.
  rewrite !processing_state_text_ok, !verification_status_text_ok. cbn [prog_bind_try prog_bind Rounds.begin].
  call_round 0%nat (λ o d k, round_begin o d k 1000).
  call_round 1%nat (λ o d k, round_begin o d k 1001).
  call_round 0%nat (λ o d row k p, round_insert_receipt_tx o d row k p 0%N (λ _, false) (Some 1%N) (add_receipt row p)).
  call_round 0%nat (λ o d id n k p, round_insert_delivery_tx o d id n k p 10%N (λ _, false) 10%N
    (add_delivery (delivery_at 1000 10%N id n) p)).
  call_round 0%nat round_commit.
  call_round 1%nat (λ o d row k p, round_insert_receipt_tx o d row k p 0%N (λ _, false) None p).
  call_round 1%nat round_rollback.
  call_round 1%nat (λ o d (s : Stmt Uuid) k, round_execute o d Uuid s k (mkClock 1002 0%N (λ _, false)) 1%N d).
  apply rtc_refl.
Qed.

Lemma rounds_refine_methods_witness :
  ∃ d l os x, reaches empty_db (mkSystem d sample_race_calls) ∧ map snd l = sample_race_calls ∧
    trace os empty_db d ∧ os ≡ₚ ops_spent l ∧ l !! 0%nat = Some (true, x).
Proof.
  destruct sample_race as [d Hr].
  destruct (rounds_refine_methods empty_db (mkSystem d sample_race_calls) Hr) as (l & os & Hl & Ht & Hos & Hack).
  destruct l as [|[b x] l]; [discriminate|]. exists d, ((b, x) :: l), os, x. split_and!; [done..|].
  unfold sample_race_calls in Hl. injection Hl as Hx _. cbn. f_equal. f_equal.
  apply (Hack 0%nat b x (Ok (RStored StoreResult.Stored))); [done|by rewrite Hx|exact I].
Defined.

Lemma racing_stores_store_once_witness :
  ∃ d i x r, reaches empty_db (mkSystem d sample_race_calls) ∧
    racing (mkSystem d sample_race_calls) "stripe:00" i x r ∧ answered x StoreResult.Stored ∧
    owns d "stripe:00" (ReceiptId.uuid (WebhookReceipt.receipt_id r)) ∧
    ∀ j y r', racing (mkSystem d sample_race_calls) "stripe:00" j y r' → j ≠ i →
      answered y (StoreResult.Duplicate (WebhookReceipt.receipt_id r)).
Proof.
  destruct sample_race as [d Hr]. exists d.
  destruct (racing_stores_store_once empty_db (mkSystem d sample_race_calls) "stripe:00" empty_db_wf Hr) as (_ & _ & Hall).
  destruct Hall as (i & x & r & Hrace & Hans & Hown & Hothers).
  - apply not_elem_of_nil.
  - exists 0%nat, (mkCall (StoreWithDeliveries sample_receipt ["kafka"]) (Return (Ok (RStored StoreResult.Stored))) None),
      sample_receipt. by split_and!.
  - intros [|[|j]] y r' (Hy & _); [injection Hy as <-; eexists; reflexivity..|discriminate].
  - by exists i, x, r.
Defined.
