(* ===== verification/Migrations.v ===== *)
(** * crates/hookbox-postgres/migrations: the backfill of the deliveries table

    [0002_create_webhook_deliveries.sql] creates the table and inserts one historical row per
    receipt; [Schema.v] derives this from the text of the migrations. *)

From S2P Require Import Prelude RustStd F64 Types Traits Transitions Database Samples DatabaseProps Postgres PostgresProps Lifecycle Fleet Instances.
Local Open Scope Z_scope.

(** The [SELECT] list of the backfill, for one receipt; [u] is its [gen_random_uuid()]. *)
Definition backfill_state (processing_state : string) : string :=
  if bool_decide (processing_state ∈ ["emitted"; "processed"; "replayed"]) then "emitted"
  else if bool_decide (processing_state = "emit_failed") then "failed"
  else if bool_decide (processing_state = "dead_lettered") then "dead_lettered"
  else if bool_decide (processing_state = "stored") then "failed"
  else "emitted".

Definition backfill_row (u : Uuid) (r : ReceiptRow.t) : DeliveryRow.t :=
  {| DeliveryRow.delivery_id := u;
     DeliveryRow.receipt_id := ReceiptRow.receipt_id r;
     DeliveryRow.emitter_name := "legacy";
     DeliveryRow.state := backfill_state (ReceiptRow.processing_state r);
     DeliveryRow.attempt_count := ReceiptRow.emit_count r;
     DeliveryRow.last_error := ReceiptRow.last_error r;
     DeliveryRow.last_attempt_at := ReceiptRow.processed_at r;
     DeliveryRow.next_attempt_at := ReceiptRow.received_at r;
     DeliveryRow.emitted_at :=
       if bool_decide (ReceiptRow.processing_state r ∈ ["emitted"; "processed"; "replayed"])
       then ReceiptRow.processed_at r else None;
     DeliveryRow.immutable := true;
     DeliveryRow.created_at := ReceiptRow.received_at r |}.

(** The migration: the primary key of the new table is enforced. *)
Definition migrate_0002 (draw : nat → Uuid) (receipts : list ReceiptRow.t) : result Db string :=
  let rows := imap (λ i r, backfill_row (draw i) r) receipts in
  if decide (NoDup (map DeliveryRow.delivery_id rows))
  then Ok (mkDb receipts rows)
  else Err "duplicate key value violates unique constraint webhook_deliveries_pkey".

(** ** Properties *)

Lemma migrate_0002_inv draw rs d :
  migrate_0002 draw rs = Ok d →
  webhook_receipts d = rs ∧ NoDup (map DeliveryRow.delivery_id (webhook_deliveries d)) ∧
  map DeliveryRow.receipt_id (webhook_deliveries d) = map ReceiptRow.receipt_id rs ∧
  ∀ x, x ∈ webhook_deliveries d ↔ ∃ i r, rs !! i = Some r ∧ x = backfill_row (draw i) r.
Proof.
  unfold migrate_0002. destruct (decide _) as [Hnd|]; [|done]. intros [= <-]. cbn.
  split_and!; [done|done| |].
  - change (DeliveryRow.receipt_id <$> imap (λ i r, backfill_row (draw i) r) rs =
            ReceiptRow.receipt_id <$> rs).
    rewrite fmap_imap. exact (imap_const ReceiptRow.receipt_id rs).
  - intros x. rewrite elem_of_lookup_imap. naive_solver.
Qed.

Lemma backfill_state_valid s :
  backfill_state s ∈ map DeliveryState.serde_name DeliveryState.all ∧ backfill_state s ≠ "in_flight".
Proof.
  unfold backfill_state. repeat (destruct (bool_decide _)); (split; [enum_name|done]).
Qed.

Lemma migrate_0002_wf draw rs d :
  migrate_0002 draw rs = Ok d → db_wf (mkDb rs []) → db_wf d.
Proof.
  intros (Hrs & Hnd & Hids & Hrows)%migrate_0002_inv []. cbn in *.
  split; rewrite ?Hrs; try done; apply Forall_forall; intros x Hx.
  - rewrite <- Hids. by apply elem_of_List_map; eauto.
  - apply Hrows in Hx as (i & r & _ & ->). apply backfill_state_valid.
Qed.

(** An immutable row that is not in flight is out of reach of every statement. *)
Lemma history_no_step x y :
  DeliveryRow.immutable x = true → DeliveryRow.state x ≠ "in_flight" → row_step x y → False.
Proof. intros Hi Hf Hs. destruct Hs; congruence. Qed.

Lemma history_rtc x y :
  DeliveryRow.immutable x = true → DeliveryRow.state x ≠ "in_flight" → rtc row_step x y → y = x.
Proof.
  intros Hi Hf Hs. destruct Hs as [|x z y Hs _]; [done|].
  by destruct (history_no_step _ _ Hi Hf Hs).
Qed.

Lemma filter_unique {A} (p : A → bool) (l : list A) x :
  NoDup l → x ∈ l → p x = true → (∀ y, y ∈ l → p y = true → y = x) → List.filter p l = [x].
Proof.
  intros Hnd Hx Hp Hu. apply Permutation_length_1_inv, NoDup_Permutation; [apply NoDup_singleton| |].
  - by apply NoDup_ListNoDup, List.NoDup_filter, NoDup_ListNoDup.
  - intros y. rewrite list_elem_of_singleton, elem_of_List_filter. naive_solver.
Qed.

Section theorems.
Context `{SerdeJson} `{PgTypes} `{UuidText}.

Lemma history_is_final os d d' x :
  trace os d d' → db_wf d → x ∈ webhook_deliveries d →
  DeliveryRow.immutable x = true → DeliveryRow.state x ≠ "in_flight" → x ∈ webhook_deliveries d'.
Proof.
  intros Ht Hwf Hx Hi Hf. destruct (trace_legal _ _ _ Ht Hwf) as [He _].
  destruct (evolves_row _ _ _ He Hx) as (y & Hy & Hs). by rewrite (history_rtc x y Hi Hf Hs) in Hy.
Qed.

Lemma aggregate_of_history ds st :
  Forall (λ d, WebhookDelivery.immutable d = true) ds → receipt_aggregate_state ds st = st.
Proof.
  intros Hall. unfold receipt_aggregate_state, latest_mutable_per_emitter.
  assert (foldl latest_step ∅ ds = ∅) as ->; [|by rewrite fmap_empty, map_to_list_empty].
  induction Hall as [|d ds Hd _ IH]; [done|]. cbn. unfold latest_step at 2. by rewrite Hd.
Qed.

(** After the migration every receipt has exactly one delivery row, its history: no method of
    any process ever changes or claims it, and until the receipt is replayed the state derived
    from its rows is the state it had before. *)
Theorem migrated_history_is_inert draw rs d :
  migrate_0002 draw rs = Ok d → db_wf (mkDb rs []) →
  db_wf d ∧ webhook_receipts d = rs ∧
  (∀ r, r ∈ rs → ∃ x, deliveries_of (ReceiptRow.receipt_id r) d = [x] ∧
     ∃ u, x = backfill_row u r) ∧
  (∀ os d' x, trace os d d' → x ∈ webhook_deliveries d →
     x ∈ webhook_deliveries d' ∧
     ∀ name batch c rows d'', claim name batch c d' = Ok (rows, d'') →
       DeliveryRow.delivery_id x ∉ map DeliveryRow.delivery_id rows) ∧
  (∀ r ds st, r ∈ rs → map db_delivery ds = deliveries_of (ReceiptRow.receipt_id r) d →
     receipt_aggregate_state ds st = st).
Proof.
  intros Hm Hwf0. pose proof (migrate_0002_wf _ _ _ Hm Hwf0) as Hwf.
  apply migrate_0002_inv in Hm as (Hrs & Hnd & Hids & Hrows).
  assert (∀ x, x ∈ webhook_deliveries d →
    DeliveryRow.immutable x = true ∧ DeliveryRow.state x ≠ "in_flight") as Hist.
  { intros x (i & r & _ & ->)%Hrows. split; [done|]. apply backfill_state_valid. }
  split_and!; [done|done| | |].
  - intros r Hr.
    assert (∃ x, x ∈ webhook_deliveries d ∧ DeliveryRow.receipt_id x = ReceiptRow.receipt_id r ∧
                 ∃ u, x = backfill_row u r) as (x & Hx & Hid & Hu).
    { apply list_elem_of_lookup in Hr as [i Hi]. exists (backfill_row (draw i) r).
      split_and!; [apply Hrows; eauto|done|eauto]. }
    exists x. split; [|done]. apply filter_unique; [|done|by apply bool_decide_eq_true|].
    + by apply (NoDup_fmap_1 DeliveryRow.delivery_id).
    + intros y Hy Hyr%bool_decide_eq_true. rewrite <- Hid in Hyr.
      eapply (NoDup_map_inj_on DeliveryRow.receipt_id); [|done..]. rewrite Hids, <- Hrs.
      apply (wf_receipt_ids _ Hwf).
  - intros os d' x Ht Hx. destruct (Hist x Hx) as [Hi Hf].
    assert (x ∈ webhook_deliveries d') as Hx' by by eapply history_is_final.
    split; [done|]. intros name batch c rows d'' Hclaim (y & Hy & Hid)%elem_of_List_map.
    destruct (trace_legal _ _ _ Ht Hwf) as [_ Hwf'].
    destruct (claimed_row_origin _ _ _ _ _ _ _ Hwf' Hclaim Hy) as (r & Hr & -> & Hdis & _).
    cbn in Hid. assert (r = x) as -> by (eapply (NoDup_map_inj_on DeliveryRow.delivery_id);
      [apply (wf_delivery_ids _ Hwf')|done..]).
    unfold dispatchable in Hdis. rewrite Hi in Hdis. by rewrite !andb_false_r in Hdis.
  - intros r ds st _ Hds. apply aggregate_of_history, Forall_forall. intros x Hx.
    assert (db_delivery x ∈ deliveries_of (ReceiptRow.receipt_id r) d) as Hin.
    { rewrite <- Hds. by apply elem_of_List_map; eauto. }
    apply elem_of_List_filter in Hin as [Hin _]. by apply Hist in Hin as [Hi _].
Qed.
End theorems.

(** One receipt, migrated; then a worker of its emitter name looks for work. *)
Lemma migrated_history_is_inert_witness :
  ∃ d x, migrate_0002 (λ i, N.of_nat i) [sample_row] = Ok d ∧ webhook_deliveries d = [x] ∧
    DeliveryRow.state x = "failed" ∧
    x ∈ webhook_deliveries (db (run_op (ClaimPending "legacy" 10) (session d 5000 50%N))).
Proof.
  assert (∃ d, migrate_0002 (λ i, N.of_nat i) [sample_row] = Ok d) as [d Hd]
    by (eexists; vm_compute; reflexivity).
  destruct (migrated_history_is_inert _ _ d Hd) as (_ & _ & _ & Hf & _); [vm_decide|].
  pose proof Hd as Hd'. vm_compute in Hd'. injection Hd' as Hd'.
  exists d, (backfill_row 0%N sample_row). split; [exact Hd|]. split; [by subst d|]. split; [reflexivity|].
  apply (Hf [ClaimPending "legacy" 10]).
  - exact (trace_one (ClaimPending "legacy" 10) (session d 5000 50%N)).
  - subst d. apply elem_of_cons. by left.
Defined.
