(* ===== verification/Sql.v ===== *)
(** * The part of SQL the migrations and the INSERT statements are written in

    Tables with typed columns, NOT NULL, defaults, a primary key and foreign keys; indexes;
    [CREATE TABLE], [CREATE INDEX], [INSERT ... VALUES] and [INSERT ... SELECT].  The
    statements of [crates/hookbox-postgres/migrations/] are data of this language in
    [Schema.v], where [Database.v] is related to it. *)

From S2P Require Import Prelude RustStd F64 Types Traits Database Rows.
Local Open Scope Z_scope.

Inductive SqlType : Type := UUID | TEXT | BYTEA | JSONB | INTEGER | TIMESTAMPTZ | BOOLEAN.

(** What a column of a type holds; NULL is ruled by NOT NULL alone. *)
Definition of_type (ty : SqlType) (c : Cell) : bool :=
  match ty, c with
  | UUID, CUuid _ | TEXT, CText _ | BYTEA, CBytea _ | JSONB, CJsonb _
  | TIMESTAMPTZ, CTimestamptz _ | BOOLEAN, CBool _ => true
  | INTEGER, CInt4 n => (i32_min <=? n) && (n <=? i32_max)
  | _, _ => false
  end.

(** [=] as a condition: NULL equals nothing.  JSONB values are not compared: no key holds one. *)
Definition cell_eq (a b : Cell) : bool :=
  match a, b with
  | CUuid x, CUuid y => bool_decide (x = y)
  | CText x, CText y => bool_decide (x = y)
  | CBytea x, CBytea y => bool_decide (x = y)
  | CInt4 x, CInt4 y => x =? y
  | CTimestamptz x, CTimestamptz y => x =? y
  | CBool x, CBool y => Bool.eqb x y
  | _, _ => false
  end.

(** ** Expressions *)

Inductive Expr : Type :=
| Lit (c : Cell)
| Param (n : nat)
| Now
| GenRandomUuid
| Col (name : string)
| Coalesce (a b : Expr)
(** [CASE col WHEN 'a' THEN 'x' ... ELSE 'z' END] *)
| CaseText (scrutinee : string) (whens : list (string * string)) (els : string)
(** [CASE WHEN col IN (...) THEN e END] *)
| CaseWhenIn (scrutinee : string) (texts : list string) (e : Expr).

Fixpoint case_text (s : string) (whens : list (string * string)) (els : string) : string :=
  match whens with
  | [] => els
  | (w, t) :: whens => if decide (s = w) then t else case_text s whens els
  end.

(** What an expression is evaluated with: the clock and a draw, the parameters, and the row it
    selects from. *)
Record Env : Type := mkEnv { env_clock : Clock; params : list Cell; from : PgRow }.

Definition column_value (name : string) (r : PgRow) : result Cell string :=
  ok_or (column name r) ("column " +:+ name +:+ " does not exist").

Fixpoint eval (env : Env) (e : Expr) : result Cell string :=
  match e with
  | Lit c => Ok c
  | Param n => ok_or (params env !! pred n) "there is no such parameter"
  | Now => Ok (CTimestamptz (now (env_clock env)))
  | GenRandomUuid => Ok (CUuid (gen_random_uuid (env_clock env)))
  | Col name => column_value name (from env)
  | Coalesce a b => and_then (eval env a) (λ c, match c with CNull => eval env b | _ => Ok c end)
  | CaseText name whens els =>
      and_then (column_value name (from env)) (λ c,
        match c with CText s => Ok (CText (case_text s whens els)) | _ => Ok (CText els) end)
  | CaseWhenIn name texts e =>
      and_then (column_value name (from env)) (λ c,
        match c with
        | CText s => if bool_decide (s ∈ texts) then eval env e else Ok CNull
        | _ => Ok CNull
        end)
  end.

(** ** Tables *)

Record Column : Type := mkColumn {
  col_name : string;
  col_type : SqlType;
  col_not_null : bool;
  col_default : Expr
}.

(** No statement of the program deletes a row, so ON DELETE CASCADE is data only. *)
Record ForeignKey : Type := mkForeignKey {
  fk_column : string; fk_table : string; fk_ref : string; fk_on_delete_cascade : bool
}.

Record Table : Type := mkTable {
  table_name : string;
  columns : list Column;
  primary_key : list string;
  foreign_keys : list ForeignKey
}.

(** The conditions of partial indexes. *)
Inductive Cond : Type :=
| Always
| IsNotNull (name : string)
| InTexts (name : string) (texts : list string)
| IsFalse (name : string)
| And (p q : Cond).

Fixpoint holds (p : Cond) (r : PgRow) : bool :=
  match p with
  | Always => true
  | IsNotNull name => match column name r with Some CNull | None => false | _ => true end
  | InTexts name texts =>
      match column name r with Some (CText s) => bool_decide (s ∈ texts) | _ => false end
  | IsFalse name => match column name r with Some (CBool b) => negb b | _ => false end
  | And p q => holds p r && holds q r
  end.

Record Index : Type := mkIndex {
  index_name : string;
  index_table : string;
  index_columns : list string;
  index_unique : bool;
  index_where : Cond
}.

Record Relation : Type := mkRelation { table : Table; rows : list PgRow }.
Record SqlDb : Type := mkSqlDb { relations : list Relation; indexes : list Index }.

Definition empty_sql : SqlDb := mkSqlDb [] [].

Definition named (name : string) (rel : Relation) : bool :=
  bool_decide (table_name (table rel) = name).
Definition relation (name : string) (s : SqlDb) : option Relation := List.find (named name) (relations s).
Definition set_rows (name : string) (rs : list PgRow) (s : SqlDb) : SqlDb :=
  mkSqlDb (map (λ rel, if named name rel then mkRelation (table rel) rs else rel) (relations s)) (indexes s).

Definition cell_at (name : string) (r : PgRow) : Cell := default CNull (column name r).
Definition same_key (cols : list string) (a b : PgRow) : bool :=
  forallb (λ c, cell_eq (cell_at c a) (cell_at c b)) cols.

(** ** INSERT *)

Record Insert : Type := mkInsert {
  into : string;
  insert_columns : list string;
  insert_values : list Expr;
  on_conflict : option (list string)
}.

(** The cells of a new row: a column that is not given takes its default. *)
Definition new_row (env : Env) (t : Table) (i : Insert) : result PgRow string :=
  and_then (try_collect (eval env) (insert_values i)) (λ cells,
    if negb (Nat.eqb (List.length cells) (List.length (insert_columns i)))
    then Err "INSERT does not have as many expressions as target columns"
    else if negb (forallb (λ c, bool_decide (c ∈ map col_name (columns t))) (insert_columns i))
    then Err "a target column does not exist"
    else try_collect (λ col,
           match column (col_name col) (zip (insert_columns i) cells) with
           | Some c => Ok (col_name col, c)
           | None => and_then (eval env (col_default col)) (λ c, Ok (col_name col, c))
           end) (columns t)).

Definition check_cell (t : Table) (col : Column) (c : Cell) : result unit string :=
  match c with
  | CNull =>
      if col_not_null col
      then Err ("null value in column " +:+ col_name col +:+ " of relation " +:+ table_name t +:+
                " violates not-null constraint")
      else Ok tt
  | _ => if of_type (col_type col) c then Ok tt else Err ("column " +:+ col_name col +:+ " is of another type")
  end.

Fixpoint check_cells (t : Table) (cols : list Column) (r : PgRow) : result unit string :=
  match cols, r with
  | col :: cols, (_, c) :: r => and_then (check_cell t col c) (λ _, check_cells t cols r)
  | _, _ => Ok tt
  end.

(** The unique keys of a table, each with the name of its index and its condition. *)
Definition unique_keys (s : SqlDb) (t : Table) : list (string * list string * Cond) :=
  (table_name t +:+ "_pkey", primary_key t, Always) ::
  map (λ i, (index_name i, index_columns i, index_where i))
    (List.filter (λ i, index_unique i && bool_decide (index_table i = table_name t)) (indexes s)).

Fixpoint check_unique (keys : list (string * list string * Cond)) (rs : list PgRow) (r : PgRow) :
    result unit string :=
  match keys with
  | [] => Ok tt
  | (name, cols, p) :: keys =>
      if holds p r && existsb (λ x, holds p x && same_key cols x r) rs
      then Err ("duplicate key value violates unique constraint " +:+ name)
      else check_unique keys rs r
  end.

(** A NULL in the referencing column refers to nothing. *)
Fixpoint check_references (s : SqlDb) (t : Table) (fks : list ForeignKey) (r : PgRow) : result unit string :=
  match fks with
  | [] => Ok tt
  | fk :: fks =>
      let c := cell_at (fk_column fk) r in
      let refers := match relation (fk_table fk) s with
                    | Some rel => existsb (λ x, cell_eq (cell_at (fk_ref fk) x) c) (rows rel)
                    | None => false
                    end in
      if match c with CNull => true | _ => refers end
      then check_references s t fks r
      else Err ("insert or update on table " +:+ table_name t +:+ " violates foreign key constraint")
  end.

(** The row goes in, unless it conflicts on the columns of the conflict clause; the answer is what
    [RETURNING] selects from. *)
Definition insert_row (env : Env) (i : Insert) (s : SqlDb) : result (option PgRow * SqlDb) string :=
  match relation (into i) s with
  | None => Err ("relation " +:+ into i +:+ " does not exist")
  | Some rel =>
      and_then (new_row env (table rel) i) (λ r,
      and_then (check_cells (table rel) (columns (table rel)) r) (λ _,
        if match on_conflict i with
           | Some cols => existsb (λ x, same_key cols x r) (rows rel)
           | None => false
           end
        then Ok (None, s)
        else
          and_then (check_unique (unique_keys s (table rel)) (rows rel) r) (λ _,
          and_then (check_references s (table rel) (foreign_keys (table rel)) r) (λ _,
          Ok (Some r, set_rows (into i) (rows rel ++ [r]) s)))))
  end.

(** ** Definitions of data *)

Inductive Ddl : Type :=
| CreateTable (if_not_exists : bool) (t : Table)
| CreateIndex (if_not_exists : bool) (i : Index)
| InsertSelect (i : Insert) (source : string).

(** The rows of a SELECT, inserted one by one, each with a draw of its own. *)
Fixpoint insert_all (clock : DateTime) (draw : nat → Uuid) (i : Insert) (source : list PgRow) (s : SqlDb) :
    result SqlDb string :=
  match source with
  | [] => Ok s
  | r :: source =>
      and_then (insert_row (mkEnv (mkClock clock (draw 0%nat) (λ _, false)) [] r) i s) (λ out,
        insert_all clock (λ n, draw (S n)) i source out.2)
  end.

Fixpoint no_duplicates (cols : list string) (p : Cond) (rs : list PgRow) : bool :=
  match rs with
  | [] => true
  | r :: rs => negb (holds p r && existsb (λ x, holds p x && same_key cols x r) rs) && no_duplicates cols p rs
  end.

Definition create_index (i : Index) (s : SqlDb) : result SqlDb string :=
  match relation (index_table i) s with
  | None => Err ("relation " +:+ index_table i +:+ " does not exist")
  | Some rel =>
      if negb (forallb (λ c, bool_decide (c ∈ map col_name (columns (table rel)))) (index_columns i))
      then Err "an indexed column does not exist"
      else if index_unique i && negb (no_duplicates (index_columns i) (index_where i) (rows rel))
      then Err ("could not create unique index " +:+ index_name i)
      else Ok (mkSqlDb (relations s) (indexes s ++ [i]))
  end.

Definition exec (clock : DateTime) (draw : nat → Uuid) (statement : Ddl) (s : SqlDb) : result SqlDb string :=
  match statement with
  | CreateTable if_not_exists t =>
      match relation (table_name t) s with
      | Some _ => if if_not_exists then Ok s else Err ("relation " +:+ table_name t +:+ " already exists")
      | None =>
          if forallb (λ fk, match relation (fk_table fk) s with
                            | Some rel => bool_decide ([fk_ref fk] = primary_key (table rel))
                            | None => false
                            end) (foreign_keys t)
          then Ok (mkSqlDb (relations s ++ [mkRelation t []]) (indexes s))
          else Err "there is no unique constraint matching given keys for referenced table"
      end
  | CreateIndex if_not_exists i =>
      if existsb (λ j, bool_decide (index_name j = index_name i)) (indexes s)
      then if if_not_exists then Ok s else Err ("relation " +:+ index_name i +:+ " already exists")
      else create_index i s
  | InsertSelect i source =>
      match relation source s with
      | None => Err ("relation " +:+ source +:+ " does not exist")
      | Some rel => insert_all clock draw i (rows rel) s
      end
  end.

(** A script: the first error ends it. *)
Fixpoint run_script (clock : DateTime) (draw : nat → Uuid) (script : list Ddl) (s : SqlDb) : result SqlDb string :=
  match script with
  | [] => Ok s
  | statement :: script => and_then (exec clock draw statement s) (run_script clock draw script)
  end.

(** ** Databases that satisfy their schema *)

Definition is_ok {A E} (r : result A E) : bool := match r with Ok _ => true | Err _ => false end.

Definition conforms (s : SqlDb) : bool :=
  forallb (λ rel,
    forallb (λ r, is_ok (check_cells (table rel) (columns (table rel)) r) &&
                  is_ok (check_references s (table rel) (foreign_keys (table rel)) r)) (rows rel) &&
    forallb (λ key, no_duplicates key.1.2 key.2 (rows rel)) (unique_keys s (table rel))) (relations s).

(** ** Lemmas *)

Lemma check_opt_cell {A} t col (f : A → Cell) o :
  (∀ a, of_type (col_type col) (f a) = true) → col_not_null col = false → check_cell t col (opt_cell f o) = Ok tt.
Proof.
  intros Hf Hn. destruct o as [a|]; cbn; [|by rewrite Hn]. unfold check_cell. rewrite Hf.
  by destruct (f a); rewrite ?Hn.
Qed.

Lemma check_typed_cell t col c :
  of_type (col_type col) c = true → c ≠ CNull → check_cell t col c = Ok tt.
Proof. unfold check_cell. intros -> ?. by destruct c. Qed.

Lemma in_i32_typed n : in_i32 n → of_type INTEGER (CInt4 n) = true.
Proof. intros [? ?]. cbn. apply andb_true_intro. split; by apply Z.leb_le. Qed.

Lemma existsb_map {A B} (f : A → B) p l : existsb p (map f l) = existsb (λ x, p (f x)) l.
Proof. induction l as [|a l IH]; [done|]. cbn. by rewrite IH. Qed.

Lemma existsb_same {A} (p q : A → bool) l : (∀ x, p x = q x) → existsb p l = existsb q l.
Proof. intros Hpq. induction l as [|a l IH]; [done|]. cbn. by rewrite Hpq, IH. Qed.

(** A script in two parts. *)
Lemma run_script_app clock draw a b s :
  run_script clock draw (a ++ b) s = and_then (run_script clock draw a s) (run_script clock draw b).
Proof. revert s. induction a as [|x a IH]; intros s; [done|]. cbn. destruct (exec _ _ _ _); [apply IH|done]. Qed.

Lemma no_duplicates_NoDup {A B} `{EqDecision B} (g : A → B) (enc : A → PgRow) cols l :
  (∀ x y, same_key cols (enc x) (enc y) = bool_decide (g x = g y)) →
  no_duplicates cols Always (map enc l) = true ↔ NoDup (map g l).
Proof.
  intros Hkey. induction l as [|a l IH]; cbn; [by split; [constructor|]|].
  rewrite andb_true_iff, IH, NoDup_cons, existsb_map, negb_true_iff.
  rewrite (existsb_same _ (λ x, bool_decide (g x = g a))) by (intros x; apply Hkey).
  split; intros [Ha Hl]; (split; [|done]).
  - intros (x & Hx & He)%elem_of_List_map. apply not_true_iff_false in Ha. apply Ha, existsb_exists.
    exists x. split; [by apply list_elem_of_In|]. by apply bool_decide_eq_true.
  - apply not_true_iff_false. intros (x & Hx & He%bool_decide_eq_true)%existsb_exists. apply Ha.
    apply elem_of_List_map. exists x. split; [by apply list_elem_of_In|done].
Qed.

Lemma forallb_map_Forall {A B} (p : B → bool) (f : A → B) (P : A → Prop) l :
  (∀ x, p (f x) = true ↔ P x) → forallb p (map f l) = true ↔ Forall P l.
Proof.
  intros Hp. induction l as [|a l IH]; cbn; [by split; [constructor|]|].
  by rewrite andb_true_iff, IH, Hp, Forall_cons.
Qed.
