(* ===== verification/Schema.v ===== *)
(** * crates/hookbox-postgres/migrations

    The three migrations as scripts of [Sql.v], the state of a database between them, and
    [PostgresStorage::migrate], which runs the pending ones.  The tables of [Database.v] are
    those the migrations create: its INSERT statements are the ones of storage.rs under the
    types, defaults and constraints of the schema. *)

From S2P Require Import Prelude RustStd F64 Types Traits Transitions Database Rows Sql Samples DatabaseProps Postgres PostgresProps Lifecycle Fleet Migrations Instances.
Local Open Scope Z_scope.
Local Open Scope rust_scope.

Definition nullable_col (name : string) (ty : SqlType) : Column := mkColumn name ty false (Lit CNull).
Definition not_null_col (name : string) (ty : SqlType) : Column := mkColumn name ty true (Lit CNull).
Definition default_col (name : string) (ty : SqlType) (d : Expr) : Column := mkColumn name ty true d.

(** ** 0001_create_webhook_receipts.sql *)

Definition webhook_receipts_table : Table :=
  mkTable "webhook_receipts"
    [not_null_col "receipt_id" UUID; not_null_col "provider_name" TEXT;
     nullable_col "provider_event_id" TEXT; nullable_col "external_reference" TEXT;
     not_null_col "dedupe_key" TEXT; not_null_col "payload_hash" TEXT;
     not_null_col "raw_body" BYTEA; nullable_col "parsed_payload" JSONB;
     not_null_col "raw_headers" JSONB; nullable_col "normalized_event_type" TEXT;
     not_null_col "verification_status" TEXT; nullable_col "verification_reason" TEXT;
     not_null_col "processing_state" TEXT; default_col "emit_count" INTEGER (Lit (CInt4 0));
     nullable_col "last_error" TEXT; not_null_col "received_at" TIMESTAMPTZ;
     nullable_col "processed_at" TIMESTAMPTZ;
     default_col "metadata" JSONB (Lit (CJsonb (VObject [])))]
    ["receipt_id"] [].

Definition receipts_index (name : string) (cols : list string) (unique : bool) (p : Cond) : Index :=
  mkIndex name "webhook_receipts" cols unique p.

Definition receipts_indexes : list Index :=
  [receipts_index "idx_webhook_receipts_dedupe_key" ["dedupe_key"] true Always;
   receipts_index "idx_webhook_receipts_provider_event" ["provider_name"; "provider_event_id"] false Always;
   receipts_index "idx_webhook_receipts_external_ref" ["external_reference"] false (IsNotNull "external_reference");
   receipts_index "idx_webhook_receipts_state" ["processing_state"] false Always;
   receipts_index "idx_webhook_receipts_received_at" ["received_at"] false Always;
   receipts_index "idx_webhook_receipts_provider_state" ["provider_name"; "processing_state"] false Always].

Definition create_webhook_receipts : list Ddl :=
  CreateTable true webhook_receipts_table :: map (CreateIndex true) receipts_indexes.

(** ** 0002_create_webhook_deliveries.sql *)

Definition webhook_deliveries_table : Table :=
  mkTable "webhook_deliveries"
    [not_null_col "delivery_id" UUID; not_null_col "receipt_id" UUID;
     not_null_col "emitter_name" TEXT; not_null_col "state" TEXT;
     default_col "attempt_count" INTEGER (Lit (CInt4 0)); nullable_col "last_error" TEXT;
     nullable_col "last_attempt_at" TIMESTAMPTZ; not_null_col "next_attempt_at" TIMESTAMPTZ;
     nullable_col "emitted_at" TIMESTAMPTZ; default_col "immutable" BOOLEAN (Lit (CBool false));
     default_col "created_at" TIMESTAMPTZ Now]
    ["delivery_id"] [mkForeignKey "receipt_id" "webhook_receipts" "receipt_id" true].

Definition deliveries_index (name : string) (cols : list string) (p : Cond) : Index :=
  mkIndex name "webhook_deliveries" cols false p.

Definition idx_dispatch : Index :=
  deliveries_index "idx_webhook_deliveries_dispatch" ["emitter_name"; "next_attempt_at"]
    (And (InTexts "state" ["pending"; "failed"]) (IsFalse "immutable")).
Definition idx_dlq : Index :=
  deliveries_index "idx_webhook_deliveries_dlq" ["emitter_name"; "state"] (InTexts "state" ["dead_lettered"]).
Definition idx_receipt : Index := deliveries_index "idx_webhook_deliveries_receipt" ["receipt_id"] Always.
Definition idx_receipt_emitter : Index :=
  deliveries_index "idx_webhook_deliveries_receipt_emitter" ["receipt_id"; "emitter_name"] Always.

Definition backfill : Insert :=
  mkInsert "webhook_deliveries"
    ["delivery_id"; "receipt_id"; "emitter_name"; "state"; "attempt_count"; "last_error";
     "last_attempt_at"; "next_attempt_at"; "emitted_at"; "immutable"; "created_at"]
    [GenRandomUuid; Col "receipt_id"; Lit (CText "legacy");
     CaseText "processing_state"
       [("emitted", "emitted"); ("processed", "emitted"); ("replayed", "emitted");
        ("emit_failed", "failed"); ("dead_lettered", "dead_lettered"); ("stored", "failed")] "emitted";
     Coalesce (Col "emit_count") (Lit (CInt4 0)); Col "last_error"; Col "processed_at";
     Col "received_at";
     CaseWhenIn "processing_state" ["emitted"; "processed"; "replayed"] (Col "processed_at");
     Lit (CBool true); Col "received_at"]
    None.

Definition create_webhook_deliveries : list Ddl :=
  CreateTable false webhook_deliveries_table ::
  map (CreateIndex false) [idx_dispatch; idx_dlq; idx_receipt; idx_receipt_emitter] ++
  [InsertSelect backfill "webhook_receipts"].

(** ** 0003_in_flight_reclaim_index.sql *)

Definition idx_in_flight_lease : Index :=
  deliveries_index "idx_webhook_deliveries_in_flight_lease" ["emitter_name"; "last_attempt_at"]
    (And (InTexts "state" ["in_flight"]) (IsFalse "immutable")).

Definition in_flight_reclaim_index : list Ddl := [CreateIndex false idx_in_flight_lease].

(** ** The INSERT statements of storage.rs *)

Definition insert_receipt_sql : Insert :=
  mkInsert "webhook_receipts"
    ["receipt_id"; "provider_name"; "provider_event_id"; "external_reference";
     "dedupe_key"; "payload_hash"; "raw_body"; "parsed_payload"; "raw_headers";
     "normalized_event_type"; "verification_status"; "verification_reason";
     "processing_state"; "emit_count"; "last_error"; "received_at"; "processed_at"; "metadata"]
    (map Param (seq 1 18)) (Some ["dedupe_key"]).

(** The parameters [bind] gives, in order. *)
Definition receipt_params (r : ReceiptRow.t) : list Cell := map snd (receipt_cells r).

Definition insert_delivery_sql : Insert :=
  mkInsert "webhook_deliveries"
    ["delivery_id"; "receipt_id"; "emitter_name"; "state"; "next_attempt_at"; "created_at"]
    [GenRandomUuid; Param 1; Param 2; Lit (CText "pending"); Now; Now] None.

(** The replays leave [created_at] to its default. *)
Definition insert_replay_sql : Insert :=
  mkInsert "webhook_deliveries"
    ["delivery_id"; "receipt_id"; "emitter_name"; "state"; "next_attempt_at"]
    [GenRandomUuid; Param 1; Param 2; Lit (CText "pending"); Now] None.

(** ** The database of [Database.v] *)

Definition receipts_relation (rs : list ReceiptRow.t) : Relation :=
  mkRelation webhook_receipts_table (map receipt_cells rs).
Definition deliveries_relation (ds : list DeliveryRow.t) : Relation :=
  mkRelation webhook_deliveries_table (map delivery_cells ds).

(** After 0001, after 0002, and after 0003. *)
Definition schema_v1 (rs : list ReceiptRow.t) : SqlDb := mkSqlDb [receipts_relation rs] receipts_indexes.
Definition tables (d : Db) : list Relation :=
  [receipts_relation (webhook_receipts d); deliveries_relation (webhook_deliveries d)].
Definition indexes_v2 : list Index := receipts_indexes ++ [idx_dispatch; idx_dlq; idx_receipt; idx_receipt_emitter].
Definition schema_v2 (d : Db) : SqlDb := mkSqlDb (tables d) indexes_v2.
Definition schema (d : Db) : SqlDb := mkSqlDb (tables d) (indexes_v2 ++ [idx_in_flight_lease]).

(** ** PostgresStorage::migrate *)

Record Migration : Type := mkMigration { version : Z; script : list Ddl }.

(** [sqlx::migrate!("./migrations")] *)
Definition MIGRATIONS : list Migration :=
  [mkMigration 1 create_webhook_receipts; mkMigration 2 create_webhook_deliveries;
   mkMigration 3 in_flight_reclaim_index].

(** The database as the migrator sees it: its contents and the versions it records as applied. *)
Record Catalog : Type := mkCatalog { contents : SqlDb; applied : list Z }.

(** [sqlx]'s migrator. *)
Class Migrator : Type := { migrator_run : list Migration → M Catalog (result unit string) }.

(** Applied versions are skipped; the first pending one runs in a transaction of its own and is
    recorded with it; an error leaves what was applied before. *)
Class MigratorLaws `{Migrator} (clock : DateTime) (draw : nat → Uuid) : Prop := {
  run_nothing : ∀ ms w, map version ms = applied w → migrator_run ms w = (Ok tt, w);
  run_next : ∀ done m rest w s,
    map version done = applied w → run_script clock draw (script m) (contents w) = Ok s →
    migrator_run (done ++ m :: rest) w = migrator_run (done ++ m :: rest) (mkCatalog s (applied w ++ [version m]));
  run_error : ∀ done m rest w e,
    map version done = applied w → run_script clock draw (script m) (contents w) = Err e →
    migrator_run (done ++ m :: rest) w = (Err e, w)
}.

Definition migrate `{Migrator} : M Catalog (result unit StorageError.t) :=
  r <- migrator_run MIGRATIONS ;; ret (map_err StorageError.Internal r).

(** ** Inserting into the schema *)

Ltac check_columns :=
  repeat first
    [ rewrite check_typed_cell by first [done | by apply in_i32_typed]
    | rewrite check_opt_cell by done
    | progress cbn [and_then] ].

Lemma receipt_cells_checked r :
  in_i32 (ReceiptRow.emit_count r) →
  check_cells webhook_receipts_table (columns webhook_receipts_table) (receipt_cells r) = Ok tt.
Proof.
  intros Hr. cbn -[check_cell]. by check_columns.
Qed.

Lemma delivery_cells_checked x :
  in_i32 (DeliveryRow.attempt_count x) →
  check_cells webhook_deliveries_table (columns webhook_deliveries_table) (delivery_cells x) = Ok tt.
Proof.
  intros Hx. cbn -[check_cell].
  by check_columns.
Qed.

Lemma insert_receipt_row c r f :
  new_row (mkEnv c (receipt_params r) f) webhook_receipts_table insert_receipt_sql = Ok (receipt_cells r).
Proof. reflexivity. Qed.

Lemma insert_delivery_row c id name f :
  new_row (mkEnv c [CUuid id; CText name] f) webhook_deliveries_table insert_delivery_sql =
    Ok (delivery_cells (new_delivery c id name)).
Proof. reflexivity. Qed.

Lemma insert_replay_row c id name f :
  new_row (mkEnv c [CUuid id; CText name] f) webhook_deliveries_table insert_replay_sql =
    Ok (delivery_cells (new_delivery c id name)).
Proof. reflexivity. Qed.

Lemma backfill_case s :
  case_text s
    [("emitted", "emitted"); ("processed", "emitted"); ("replayed", "emitted");
     ("emit_failed", "failed"); ("dead_lettered", "dead_lettered"); ("stored", "failed")] "emitted" =
  backfill_state s.
Proof.
  unfold backfill_state. cbn [case_text].
  repeat match goal with |- context [decide (s = ?w)] => destruct (decide (s = w)) as [->|]; [reflexivity|] end.
  rewrite !bool_decide_false; [done|done..|]. set_solver.
Qed.

Lemma backfill_insert_row c r :
  new_row (mkEnv c [] (receipt_cells r)) webhook_deliveries_table backfill =
    Ok (delivery_cells (backfill_row (gen_random_uuid c) r)).
Proof.
  unfold new_row, backfill. cbn [try_collect insert_values eval and_then from column_value].
  unfold column_value. 
  change (column "processing_state" (receipt_cells r)) with (Some (CText (ReceiptRow.processing_state r))).
  cbn [ok_or and_then]. rewrite backfill_case.
  unfold delivery_cells, backfill_row. cbn [DeliveryRow.emitted_at].
  destruct (bool_decide (ReceiptRow.processing_state r ∈ ["emitted"; "processed"; "replayed"])); reflexivity.
Qed.

(** *** The key of a row *)

Lemma same_key_receipt r rs :
  existsb (λ x, same_key ["receipt_id"] x (receipt_cells r)) (map receipt_cells rs) =
    existsb (has_receipt_id (ReceiptRow.receipt_id r)) rs.
Proof. rewrite existsb_map. apply existsb_same. intros x. apply andb_true_r. Qed.

Lemma same_dedupe_key r rs :
  existsb (λ x, same_key ["dedupe_key"] x (receipt_cells r)) (map receipt_cells rs) =
    existsb (has_dedupe_key (ReceiptRow.dedupe_key r)) rs.
Proof. rewrite existsb_map. apply existsb_same. intros x. apply andb_true_r. Qed.

Lemma same_key_delivery y ds :
  existsb (λ x, same_key ["delivery_id"] x (delivery_cells y)) (map delivery_cells ds) =
    existsb (has_delivery_id (DeliveryRow.delivery_id y)) ds.
Proof. rewrite existsb_map. apply existsb_same. intros x. apply andb_true_r. Qed.

Lemma refers_to_receipt id rs :
  existsb (λ x, cell_eq (cell_at "receipt_id" x) (CUuid id)) (map receipt_cells rs) =
    existsb (has_receipt_id id) rs.
Proof. rewrite existsb_map. by apply existsb_same. Qed.

(** *** The statements *)

(** The receipt of an INSERT, as the SQL statement answers it. *)
Definition returning (r : ReceiptRow.t) (out : option Uuid * Db) : option PgRow * SqlDb :=
  ((λ _, receipt_cells r) <$> out.1, schema out.2).

Definition on_ok {A B E} (f : A → B) (r : result A E) : result B E :=
  match r with Ok a => Ok (f a) | Err e => Err e end.

(** The row is the one the server reads from the parameters. *)
Theorem insert_receipt_follows_schema `{PgTypes} r c d :
  in_i32 (ReceiptRow.emit_count r) → storable_row r = true →
  insert_row (mkEnv c (receipt_params (json_columns r)) []) insert_receipt_sql (schema d) =
    on_ok (returning (json_columns r)) (insert_receipt r c d).
Proof.
  intros Hr Hst. rewrite insert_receipt_run by by apply storable_accepted. apply andb_prop in Hst as [_ Hix].
  change (ReceiptRow.emit_count r) with (ReceiptRow.emit_count (json_columns r)) in Hr.
  revert Hr Hix. generalize (json_columns r). clear r. intros r Hr Hix.
  unfold insert_row. change (relation _ (schema d)) with (Some (receipts_relation (webhook_receipts d))).
  cbn [table rows receipts_relation]. rewrite insert_receipt_row. cbn [and_then].
  rewrite receipt_cells_checked by done. cbn [and_then on_conflict insert_receipt_sql].
  rewrite same_dedupe_key. unfold insert_stored.
  destruct (existsb (has_dedupe_key _) _) eqn:Ek; [done|].
  cbn -[existsb same_key receipt_cells indexable]. rewrite same_key_receipt.
  destruct (existsb (has_receipt_id _) _); [done|]. rewrite Hix, bool_decide_true by done.
  cbn -[existsb same_key receipt_cells].
  rewrite same_dedupe_key, Ek. cbn. unfold returning, schema, tables, receipts_relation. cbn. by rewrite map_app.
Qed.

(** A row inserted into the deliveries of a database whose unique indexes are on the receipts. *)
Lemma insert_delivery_cells i c p f d idx y :
  into i = "webhook_deliveries" → on_conflict i = None →
  List.filter (λ j, index_unique j && bool_decide (index_table j = "webhook_deliveries")) idx = [] →
  new_row (mkEnv c p f) webhook_deliveries_table i = Ok (delivery_cells y) →
  in_i32 (DeliveryRow.attempt_count y) →
  insert_row (mkEnv c p f) i (mkSqlDb (tables d) idx) =
    if existsb (has_delivery_id (DeliveryRow.delivery_id y)) (webhook_deliveries d)
    then Err "duplicate key value violates unique constraint webhook_deliveries_pkey"
    else if negb (existsb (has_receipt_id (DeliveryRow.receipt_id y)) (webhook_receipts d))
    then Err "insert or update on table webhook_deliveries violates foreign key constraint"
    else Ok (Some (delivery_cells y),
             mkSqlDb (tables (mkDb (webhook_receipts d) (webhook_deliveries d ++ [y]))) idx).
Proof.
  intros Hinto Hconf Hidx Hrow Hy. unfold insert_row. rewrite Hinto, Hconf.
  change (relation _ (mkSqlDb (tables d) idx)) with (Some (deliveries_relation (webhook_deliveries d))).
  cbn [table rows deliveries_relation]. rewrite Hrow. cbn [and_then].
  rewrite delivery_cells_checked by done. cbn [and_then]. unfold unique_keys. cbn [indexes table_name webhook_deliveries_table].
  rewrite Hidx. cbn -[existsb same_key delivery_cells check_references]. rewrite same_key_delivery.
  destruct (existsb (has_delivery_id _) _); [done|]. cbn -[existsb delivery_cells].
  change (cell_at "receipt_id" (delivery_cells y)) with (CUuid (DeliveryRow.receipt_id y)).
  change (named "webhook_receipts" (receipts_relation (webhook_receipts d))) with true.
  cbn -[existsb delivery_cells cell_eq]. rewrite refers_to_receipt.
  destruct (existsb (has_receipt_id _) _); [|done]. cbn. unfold tables, receipts_relation, deliveries_relation.
  cbn. by rewrite map_app.
Qed.

(** The fan-out INSERT and the replay INSERT both add [new_delivery]: what they leave out is what
    the defaults of the schema say. *)
Theorem insert_delivery_follows_schema id name c d i :
  i = insert_delivery_sql ∨ i = insert_replay_sql →
  insert_row (mkEnv c [CUuid id; CText name] []) i (schema d) =
    on_ok (λ out, (Some (delivery_cells (new_delivery c id name)), schema out.2)) (insert_delivery id name c d).
Proof.
  intros Hi. unfold schema, insert_delivery.
  rewrite (insert_delivery_cells i c _ [] d _ (new_delivery c id name)).
  - cbn. destruct (existsb (has_delivery_id _) _); [done|]. by destruct (existsb (has_receipt_id _) _).
  - by destruct Hi as [-> | ->].
  - by destruct Hi as [-> | ->].
  - done.
  - destruct Hi as [-> | ->]; [apply insert_delivery_row|apply insert_replay_row].
  - split; vm_compute; discriminate.
Qed.

(** *** The backfill *)

Definition backfilled (draw : nat → Uuid) (rs : list ReceiptRow.t) : list DeliveryRow.t :=
  imap (λ i r, backfill_row (draw i) r) rs.

Lemma backfill_all clock idx rs src ds draw :
  List.filter (λ j, index_unique j && bool_decide (index_table j = "webhook_deliveries")) idx = [] →
  Forall (λ r, in_i32 (ReceiptRow.emit_count r) ∧ ReceiptRow.receipt_id r ∈ map ReceiptRow.receipt_id rs) src →
  NoDup (map DeliveryRow.delivery_id ds) →
  insert_all clock draw backfill (map receipt_cells src) (mkSqlDb (tables (mkDb rs ds)) idx) =
    if decide (NoDup (map DeliveryRow.delivery_id (ds ++ backfilled draw src)))
    then Ok (mkSqlDb (tables (mkDb rs (ds ++ backfilled draw src))) idx)
    else Err "duplicate key value violates unique constraint webhook_deliveries_pkey".
Proof.
  intros Hidx Hsrc. revert ds draw. induction Hsrc as [|r src [Hr Hin] _ IH]; intros ds draw Hds.
  { cbn. rewrite app_nil_r. by rewrite decide_True. }
  cbn [map insert_all].
  rewrite (insert_delivery_cells backfill (mkClock clock (draw 0%nat) (λ _, false)) [] (receipt_cells r) (mkDb rs ds) idx
             (backfill_row (draw 0%nat) r)); [|done..|apply backfill_insert_row|done].
  assert (backfilled draw (r :: src) = backfill_row (draw 0%nat) r :: backfilled (λ n, draw (S n)) src) as -> by done.
  cbn [webhook_receipts webhook_deliveries DeliveryRow.delivery_id DeliveryRow.receipt_id backfill_row].
  destruct (existsb (has_delivery_id (draw 0%nat)) ds) eqn:Ed.
  - apply existsb_true_in in Ed. rewrite decide_False; [done|]. rewrite map_app. cbn.
    intros Hnd%NoDup_app. destruct Hnd as (_ & Hdis & _). by apply (Hdis _ Ed), elem_of_cons; left.
  - unfold has_receipt_id. rewrite existsb_of_in by done. cbn [negb and_then snd].
    rewrite IH by (apply NoDup_map_snoc; [done|]; by apply existsb_false_not_in).
    by rewrite <- app_assoc.
Qed.

(** Migration 0002 on a database of version 1 is [migrate_0002]. *)
Theorem migration_0002_follows_schema clock draw rs :
  Forall (λ r, in_i32 (ReceiptRow.emit_count r)) rs →
  run_script clock draw create_webhook_deliveries (schema_v1 rs) = on_ok schema_v2 (migrate_0002 draw rs).
Proof.
  intros Hrs. unfold create_webhook_deliveries. rewrite app_comm_cons, run_script_app.
  assert (run_script clock draw (CreateTable false webhook_deliveries_table ::
            map (CreateIndex false) [idx_dispatch; idx_dlq; idx_receipt; idx_receipt_emitter]) (schema_v1 rs) =
          Ok (schema_v2 (mkDb rs []))) as -> by reflexivity.
  cbn [and_then run_script exec].
  change (relation "webhook_receipts" (schema_v2 (mkDb rs []))) with (Some (receipts_relation rs)).
  cbn [rows receipts_relation]. unfold schema_v2. rewrite backfill_all; [| done | | constructor ].
  - cbn [app]. unfold migrate_0002. by destruct (decide _).
  - apply Forall_forall. intros r Hr. split; [by eapply Forall_forall in Hrs|]. apply elem_of_List_map; eauto.
Qed.

(** *** The invariant of the tables *)

Lemma cells_checked_iff_i32 r :
  is_ok (check_cells webhook_receipts_table (columns webhook_receipts_table) (receipt_cells r)) = true ↔
  in_i32 (ReceiptRow.emit_count r).
Proof.
  split; [|by intros ->%receipt_cells_checked].
  cbn -[check_cell]. check_columns. unfold check_cell at 1. cbn -[check_cell i32_min i32_max].
  destruct (_ && _) eqn:E; cbn -[check_cell i32_min i32_max]; [|done]. intros _.
  apply andb_prop in E as [?%Z.leb_le ?%Z.leb_le]. done.
Qed.

Lemma delivery_cells_checked_iff_i32 x :
  is_ok (check_cells webhook_deliveries_table (columns webhook_deliveries_table) (delivery_cells x)) = true ↔
  in_i32 (DeliveryRow.attempt_count x).
Proof.
  split; [|by intros ->%delivery_cells_checked].
  cbn -[check_cell]. check_columns. unfold check_cell at 1. cbn -[check_cell i32_min i32_max].
  destruct (_ && _) eqn:E; cbn -[check_cell i32_min i32_max]; [|done]. intros _.
  apply andb_prop in E as [?%Z.leb_le ?%Z.leb_le]. done.
Qed.

Lemma references_checked rs ds idx x :
  is_ok (check_references (mkSqlDb (tables (mkDb rs ds)) idx) webhook_deliveries_table
           (foreign_keys webhook_deliveries_table) (delivery_cells x)) = true ↔
  DeliveryRow.receipt_id x ∈ map ReceiptRow.receipt_id rs.
Proof.
  cbn -[relation cell_at delivery_cells tables].
  change (cell_at "receipt_id" (delivery_cells x)) with (CUuid (DeliveryRow.receipt_id x)).
  change (relation "webhook_receipts" (mkSqlDb (tables (mkDb rs ds)) idx)) with (Some (receipts_relation rs)).
  cbn [rows receipts_relation]. rewrite refers_to_receipt.
  destruct (existsb _ _) eqn:E; cbn; (split; [|done || intros Hin]); [|done|].
  - intros _. by apply existsb_true_in.
  - exfalso. by apply (existsb_false_not_in _ _ _ E).
Qed.

(** The constraints of the schema are the keys and the reference of the invariant of
    [DatabaseProps.v], with the range of the two counts. *)
Theorem schema_is_the_invariant d :
  conforms (schema d) = true ↔
  NoDup (map ReceiptRow.receipt_id (webhook_receipts d)) ∧
  NoDup (map ReceiptRow.dedupe_key (webhook_receipts d)) ∧
  NoDup (map DeliveryRow.delivery_id (webhook_deliveries d)) ∧
  Forall (λ x, DeliveryRow.receipt_id x ∈ map ReceiptRow.receipt_id (webhook_receipts d)) (webhook_deliveries d) ∧
  Forall (λ r, in_i32 (ReceiptRow.emit_count r)) (webhook_receipts d) ∧
  Forall (λ x, in_i32 (DeliveryRow.attempt_count x)) (webhook_deliveries d).
Proof.
  destruct d as [rs ds]. unfold conforms, schema.
  cbn [relations forallb tables table rows receipts_relation deliveries_relation webhook_receipts webhook_deliveries].
  assert (∀ rels, unique_keys (mkSqlDb rels (indexes_v2 ++ [idx_in_flight_lease])) webhook_receipts_table =
    [("webhook_receipts_pkey", ["receipt_id"], Always);
     ("idx_webhook_receipts_dedupe_key", ["dedupe_key"], Always)]) as -> by reflexivity.
  assert (∀ rels, unique_keys (mkSqlDb rels (indexes_v2 ++ [idx_in_flight_lease])) webhook_deliveries_table =
    [("webhook_deliveries_pkey", ["delivery_id"], Always)]) as -> by reflexivity.
  cbn [forallb fst snd]. rewrite !andb_true_r, !andb_true_iff.
  rewrite (no_duplicates_NoDup ReceiptRow.receipt_id) by (intros; apply andb_true_r).
  rewrite (no_duplicates_NoDup ReceiptRow.dedupe_key) by (intros; apply andb_true_r).
  rewrite (no_duplicates_NoDup DeliveryRow.delivery_id) by (intros; apply andb_true_r).
  rewrite (forallb_map_Forall _ _ (λ r, in_i32 (ReceiptRow.emit_count r)) rs)
    by (intros r; cbn [foreign_keys webhook_receipts_table check_references]; by rewrite andb_true_r, cells_checked_iff_i32).
  rewrite (forallb_map_Forall _ _ (λ x, in_i32 (DeliveryRow.attempt_count x) ∧
      DeliveryRow.receipt_id x ∈ map ReceiptRow.receipt_id rs) ds)
    by (intros x; by rewrite andb_true_iff, delivery_cells_checked_iff_i32, references_checked).
  rewrite Forall_and. tauto.
Qed.

(** ** The indexes of the hot queries

    A row a worker claims, or counts as pending, in flight or dead-lettered, satisfies the
    condition of the index made for that query; no in-flight row satisfied that of the index
    of 0002. *)
Theorem hot_queries_are_indexed name interval c x :
  (dispatchable name c x = true → holds (index_where idx_dispatch) (delivery_cells x) = true) ∧
  (in_flight_for name c x = true → holds (index_where idx_in_flight_lease) (delivery_cells x) = true) ∧
  (lease_expired name interval c x = true → holds (index_where idx_in_flight_lease) (delivery_cells x) = true) ∧
  (dead_lettered_for name c x = true → holds (index_where idx_dlq) (delivery_cells x) = true) ∧
  (in_flight_for name c x = true → holds (index_where idx_dispatch) (delivery_cells x) = false).
Proof.
  unfold dispatchable, in_flight_for, lease_expired, dead_lettered_for.
  cbn [holds idx_dispatch idx_in_flight_lease idx_dlq deliveries_index index_where].
  change (column "state" (delivery_cells x)) with (Some (CText (DeliveryRow.state x))).
  change (column "immutable" (delivery_cells x)) with (Some (CBool (DeliveryRow.immutable x))).
  rewrite !andb_true_iff, !bool_decide_eq_true. split_and!.
  - naive_solver.
  - set_solver.
  - set_solver.
  - set_solver.
  - intros [[_ ->] _]. done.
Qed.

(** ** Migrating *)

Section migrating.
Context `{Migrator} (clock : DateTime) (draw : nat → Uuid) `{!MigratorLaws clock draw}.

Lemma migrate_last d :
  migrate (mkCatalog (schema_v2 d) [1; 2]) = (Ok tt, mkCatalog (schema d) [1; 2; 3]).
Proof.
  unfold migrate. rewrite bind_run.
  rewrite (run_next [mkMigration 1 create_webhook_receipts; mkMigration 2 create_webhook_deliveries]
             (mkMigration 3 in_flight_reclaim_index) [] _ (schema d)) by done.
  by rewrite (run_nothing MIGRATIONS).
Qed.

Lemma migrate_upgrade rs :
  Forall (λ r, in_i32 (ReceiptRow.emit_count r)) rs →
  migrate (mkCatalog (schema_v1 rs) [1]) =
    match migrate_0002 draw rs with
    | Ok d => (Ok tt, mkCatalog (schema d) [1; 2; 3])
    | Err e => (Err (StorageError.Internal e), mkCatalog (schema_v1 rs) [1])
    end.
Proof.
  intros Hrs. pose proof (migration_0002_follows_schema clock draw rs Hrs) as Hm.
  destruct (migrate_0002 draw rs) as [d|e]; cbn in Hm.
  - rewrite <- migrate_last. unfold migrate. rewrite !bind_run.
    by rewrite (run_next [mkMigration 1 create_webhook_receipts] (mkMigration 2 create_webhook_deliveries)
               [mkMigration 3 in_flight_reclaim_index] _ (schema_v2 d)).
  - unfold migrate. rewrite bind_run.
    by rewrite (run_error [mkMigration 1 create_webhook_receipts] (mkMigration 2 create_webhook_deliveries)
               [mkMigration 3 in_flight_reclaim_index] _ e).
Qed.

(** C32: migrating an empty database gives the tables, indexes and constraints of [Database.v], empty;
    migrating one of version 1 keeps its receipts and gives each its history row, unless two draws
    of [gen_random_uuid] collide, when it fails and leaves the database as it was; and migrating
    again changes nothing. *)
Theorem migrate_brings_schema rs :
  Forall (λ r, in_i32 (ReceiptRow.emit_count r)) rs →
  migrate (mkCatalog empty_sql []) = (Ok tt, mkCatalog (schema empty_db) [1; 2; 3]) ∧
  migrate (mkCatalog (schema_v1 rs) [1]) =
    match migrate_0002 draw rs with
    | Ok d => (Ok tt, mkCatalog (schema d) [1; 2; 3])
    | Err e => (Err (StorageError.Internal e), mkCatalog (schema_v1 rs) [1])
    end ∧
  ∀ d, migrate (mkCatalog (schema d) [1; 2; 3]) = (Ok tt, mkCatalog (schema d) [1; 2; 3]).
Proof.
  intros Hrs. split_and!; [|by apply migrate_upgrade|].
  - transitivity (migrate (mkCatalog (schema_v1 []) [1])).
    + unfold migrate. rewrite !bind_run.
      by rewrite (run_next [] (mkMigration 1 create_webhook_receipts)
                 [mkMigration 2 create_webhook_deliveries; mkMigration 3 in_flight_reclaim_index] _ (schema_v1 [])).
    + rewrite migrate_upgrade by constructor. unfold migrate_0002. by rewrite decide_True by constructor.
  - intros d. unfold migrate. by rewrite bind_run, (run_nothing MIGRATIONS).
Qed.
End migrating.

(** ** A migrator *)

Section instance.
Variables (clock : DateTime) (draw : nat → Uuid).

Fixpoint run_from (ms : list Migration) : M Catalog (result unit string) := λ w,
  match ms with
  | [] => (Ok tt, w)
  | m :: ms =>
      match run_script clock draw (script m) (contents w) with
      | Ok s => run_from ms (mkCatalog s (applied w ++ [version m]))
      | Err e => (Err e, w)
      end
  end.

Definition script_migrator : Migrator :=
  {| migrator_run := λ ms w,
       if decide (map version (take (List.length (applied w)) ms) = applied w)
       then run_from (drop (List.length (applied w)) ms) w
       else (Err "a migration was applied that is missing or was modified", w) |}.

Lemma script_migrator_next done m rest w :
  map version done = applied w → migrator_run (Migrator := script_migrator) (done ++ m :: rest) w = run_from (m :: rest) w.
Proof.
  intros Hd. cbn [migrator_run script_migrator].
  assert (List.length (applied w) = List.length done) as Hl by (by rewrite <- Hd, length_map).
  rewrite Hl, take_app_length, drop_app_length. by rewrite decide_True.
Qed.

#[export] Instance script_migrator_laws : MigratorLaws (H := script_migrator) clock draw.
Proof.
  split.
  - intros ms w Hms. cbn [migrator_run script_migrator].
    assert (List.length (applied w) = List.length ms) as Hl by (by rewrite <- Hms, length_map).
    rewrite Hl, firstn_all, drop_all. by rewrite decide_True.
  - intros done m rest w s Hd Hs. rewrite script_migrator_next by exact Hd.
    assert (done ++ m :: rest = (done ++ [m]) ++ rest) as -> by (by rewrite <- app_assoc).
    destruct rest as [|m' rest].
    + rewrite app_nil_r. cbn [run_from]. rewrite Hs. symmetry. cbn [migrator_run script_migrator applied].
      assert (List.length (applied w ++ [version m]) = List.length (done ++ [m])) as ->
        by (by rewrite <- Hd, !length_app, length_map).
      rewrite firstn_all, drop_all, map_app, Hd. by rewrite decide_True.
    + rewrite script_migrator_next by (rewrite map_app; cbn; by rewrite Hd).
      cbn [run_from]. by rewrite Hs.
  - intros done m rest w e Hd He. rewrite script_migrator_next by exact Hd. cbn [run_from]. by rewrite He.
Qed.
End instance.

(** ** Witnesses *)

Lemma migrate_brings_schema_witness :
  migrate (H := script_migrator 0 N.of_nat) (mkCatalog (schema_v1 [sample_row]) [1]) =
    (Ok tt, mkCatalog (schema (mkDb [sample_row] [backfill_row 0%N sample_row])) [1; 2; 3]).
Proof.
  destruct (migrate_brings_schema (H := script_migrator 0 N.of_nat) 0 N.of_nat [sample_row]) as (_ & Hup & _).
  - constructor; [|constructor]. split; vm_compute; discriminate.
  - rewrite Hup. reflexivity.
Defined.

Lemma insert_receipt_follows_schema_witness :
  ∃ s, insert_row (mkEnv (mkClock 0 0%N (λ _, false)) (receipt_params (json_columns sample_row)) [])
         insert_receipt_sql (schema empty_db) =
    Ok (Some (receipt_cells (json_columns sample_row)), s).
Proof.
  rewrite (insert_receipt_follows_schema sample_row (mkClock 0 0%N (λ _, false)) empty_db).
  - eexists. reflexivity.
  - split; vm_compute; discriminate.
  - vm_compute. reflexivity.
Defined.
