(* ===== verification/Config.v ===== *)
(** * crates/hookbox-server/src/config.rs

    The typed configuration, its defaults, and the normalization and validation of the emitter
    sections.  Deserializing the TOML text is the [toml] crate's. *)

From S2P Require Import Prelude RustStd F64 Types.
Local Open Scope Z_scope.

(** [format!("{:?}")] of a [str] of printable characters. *)
Fixpoint escape_debug (s : string) : string :=
  match s with
  | EmptyString => EmptyString
  | String a s' =>
      (if Ascii.eqb a "034"%char then String "092" (String "034" EmptyString)
       else if Ascii.eqb a "092"%char then String "092" (String "092" EmptyString)
       else String a EmptyString) +:+ escape_debug s'
  end.
Definition dq : string := String "034" EmptyString.
Definition str_debug (s : string) : string := dq +:+ escape_debug s +:+ dq.

Module ConfigError.
Inductive t (E : Type) : Type :=
| Validation (message : string)
| Parse (e : E).
Arguments Validation {E}. Arguments Parse {E}.

(** [#[error("...")]], given the text of a parse error. *)
Definition to_string {E} (display : E → string) (e : t E) : string :=
  match e with
  | Validation message => "invalid configuration: " +:+ message
  | Parse e => "failed to parse TOML: " +:+ display e
  end.
End ConfigError.

Definition default_host : string := "0.0.0.0".
Definition default_port : Z := 8080.
Definition default_body_limit : Z := 1048576.
Definition default_max_connections : Z := 10.
Definition default_lru_capacity : Z := 10000.
Definition default_provider_type : string := "hmac-sha256".
Definition default_retry_interval : Z := 30.
Definition default_max_attempts : Z := 5.
Definition default_emitter_type : string := "channel".
Definition default_kafka_client_id : string := "hookbox".
Definition default_kafka_acks : string := "all".
Definition default_kafka_timeout : Z := 5000.
Definition default_redis_timeout_ms : Z := 5000.
Definition default_poll_interval : Z := 5.
Definition default_concurrency : Z := 1.

Module ServerConfig.
Record t : Type := mk { host : string; port : Z; body_limit : Z }.
Definition default : t := mk default_host default_port default_body_limit.
End ServerConfig.

Module DatabaseConfig.
Record t : Type := mk { url : string; max_connections : Z }.
End DatabaseConfig.

Module ProviderConfig.
Record t : Type := mk {
  verifier_type : string;
  secret : option string;
  public_key : option string;
  header : option string;
  tolerance_seconds : option Z
}.
End ProviderConfig.

Module DedupeConfig.
Record t : Type := mk { lru_capacity : Z }.
Definition default : t := mk default_lru_capacity.
End DedupeConfig.

Module AdminConfig.
Record t : Type := mk { bearer_token : option string }.
Definition default : t := mk None.
End AdminConfig.

Module RetryConfig.
Record t : Type := mk { interval_seconds : Z; max_attempts : Z }.
Definition default : t := mk default_retry_interval default_max_attempts.
End RetryConfig.

Module KafkaEmitterConfig.
Record t : Type := mk {
  brokers : string; topic : string; client_id : string; acks : string; timeout_ms : Z
}.
End KafkaEmitterConfig.

Module NatsEmitterConfig.
Record t : Type := mk { url : string; subject : string }.
End NatsEmitterConfig.

Module SqsEmitterConfig.
Record t : Type := mk {
  queue_url : string; region : option string; fifo : bool; endpoint_url : option string
}.
End SqsEmitterConfig.

Module RedisEmitterConfig.
Record t : Type := mk { url : string; stream : string; maxlen : option Z; timeout_ms : Z }.
End RedisEmitterConfig.

Module EmitterConfig.
Record t : Type := mk {
  emitter_type : string;
  kafka : option KafkaEmitterConfig.t;
  nats : option NatsEmitterConfig.t;
  sqs : option SqsEmitterConfig.t;
  redis : option RedisEmitterConfig.t
}.
Definition default : t := mk default_emitter_type None None None None.
End EmitterConfig.

Module RetryPolicyConfig.
Record t : Type := mk {
  max_attempts : Z;
  initial_backoff_seconds : Z;
  max_backoff_seconds : Z;
  backoff_multiplier : f64;
  jitter : f64
}.
Definition default : t := mk 5 30 3600 2.0%float 0.2%float.

Definition into_policy (self : t) : RetryPolicy.t :=
  {| RetryPolicy.max_attempts := max_attempts self;
     RetryPolicy.initial_backoff := Duration_from_secs (initial_backoff_seconds self);
     RetryPolicy.max_backoff := Duration_from_secs (max_backoff_seconds self);
     RetryPolicy.backoff_multiplier := backoff_multiplier self;
     RetryPolicy.jitter := jitter self |}.
End RetryPolicyConfig.

Module EmitterEntry.
Record t : Type := mk {
  name : string;
  emitter_type : string;
  poll_interval_seconds : Z;
  concurrency : Z;
  lease_duration_seconds : option Z;
  kafka : option KafkaEmitterConfig.t;
  nats : option NatsEmitterConfig.t;
  sqs : option SqsEmitterConfig.t;
  redis : option RedisEmitterConfig.t;
  retry : RetryPolicyConfig.t
}.

Definition default : t :=
  mk EmptyString EmptyString default_poll_interval default_concurrency None None None None None
    RetryPolicyConfig.default.

Definition from_legacy (legacy : EmitterConfig.t) (global_retry : RetryConfig.t) : t :=
  let d := RetryPolicyConfig.default in
  let retry :=
    RetryPolicyConfig.mk (RetryConfig.max_attempts global_retry)
      (RetryPolicyConfig.initial_backoff_seconds d) (RetryPolicyConfig.max_backoff_seconds d)
      (RetryPolicyConfig.backoff_multiplier d) (RetryPolicyConfig.jitter d) in
  {| name := "default";
     emitter_type := EmitterConfig.emitter_type legacy;
     poll_interval_seconds := RetryConfig.interval_seconds global_retry;
     concurrency := concurrency default;
     lease_duration_seconds := lease_duration_seconds default;
     kafka := EmitterConfig.kafka legacy;
     nats := EmitterConfig.nats legacy;
     sqs := EmitterConfig.sqs legacy;
     redis := EmitterConfig.redis legacy;
     retry := retry |}.

Definition to_emitter_config (self : t) : EmitterConfig.t :=
  {| EmitterConfig.emitter_type := emitter_type self;
     EmitterConfig.kafka := kafka self;
     EmitterConfig.nats := nats self;
     EmitterConfig.sqs := sqs self;
     EmitterConfig.redis := redis self |}.
End EmitterEntry.

Module HookboxConfig.
Record t : Type := mk {
  server : ServerConfig.t;
  database : DatabaseConfig.t;
  providers : gmap string ProviderConfig.t;
  dedupe : DedupeConfig.t;
  admin : AdminConfig.t;
  retry : RetryConfig.t;
  emitter : option EmitterConfig.t;
  emitters : list EmitterEntry.t
}.

(** [config.emitters = vec![entry]; config.emitter = None] *)
Definition set_emitters (l : list EmitterEntry.t) (c : t) : t :=
  mk (server c) (database c) (providers c) (dedupe c) (admin c) (retry c) None l.
End HookboxConfig.

Definition is_valid_emitter_name (name : string) : bool :=
  let len := chars_count name in
  if negb ((1 <=? len) && (len <=? 64)) then false
  else chars_all (λ c, is_ascii_alphanumeric c || Ascii.eqb c "_" || Ascii.eqb c "-") name.

Section validation.
Context {E : Type}.

Definition invalid (e : EmitterEntry.t) (what : string) : result unit (ConfigError.t E) :=
  Err (ConfigError.Validation ("emitter " +:+ str_debug (EmitterEntry.name e) +:+ ": " +:+ what)).

(** The section a backend type requires. *)
Definition check_type (e : EmitterEntry.t) : result unit (ConfigError.t E) :=
  let requires {A} (section : option A) (ty : string) :=
    match section with
    | Some _ => Ok tt
    | None => invalid e ("type = " +:+ dq +:+ ty +:+ dq +:+ " requires a [emitters." +:+ ty +:+ "] section")
    end in
  let ty := EmitterEntry.emitter_type e in
  if decide (ty = "channel") then Ok tt
  else if decide (ty = "kafka") then requires (EmitterEntry.kafka e) "kafka"
  else if decide (ty = "nats") then requires (EmitterEntry.nats e) "nats"
  else if decide (ty = "sqs") then requires (EmitterEntry.sqs e) "sqs"
  else if decide (ty = "redis") then requires (EmitterEntry.redis e) "redis"
  else invalid e ("unknown type " +:+ str_debug ty +:+ "; expected one of " +:+
         str_debug "channel" +:+ ", " +:+ str_debug "kafka" +:+ ", " +:+ str_debug "nats" +:+ ", " +:+
         str_debug "sqs" +:+ ", " +:+ str_debug "redis").

(** The body of the loop, given the names already seen. *)
Definition validate_entry (seen : list string) (e : EmitterEntry.t) : result unit (ConfigError.t E) :=
  let name := EmitterEntry.name e in
  let jitter := RetryPolicyConfig.jitter (EmitterEntry.retry e) in
  if negb (is_valid_emitter_name name) then
    Err (ConfigError.Validation ("emitter name " +:+ str_debug name +:+ " does not match [a-zA-Z0-9_-]{1,64}"))
  else if decide (name ∈ seen) then
    Err (ConfigError.Validation ("duplicate emitter name " +:+ str_debug name))
  else if EmitterEntry.concurrency e =? 0 then invalid e "concurrency must be >= 1"
  else if EmitterEntry.poll_interval_seconds e =? 0 then
    invalid e "poll_interval_seconds must be >= 1 (0 would busy-loop against Postgres)"
  else if (jitter <? 0)%float || (1 <? jitter)%float then invalid e "retry.jitter must be in [0.0, 1.0]"
  else if RetryPolicyConfig.max_attempts (EmitterEntry.retry e) <? 1 then
    invalid e "retry.max_attempts must be >= 1"
  else if decide (EmitterEntry.lease_duration_seconds e = Some 0) then
    invalid e "lease_duration_seconds must be > 0"
  else check_type e.

Fixpoint validate_from (seen : list string) (entries : list EmitterEntry.t) :
    result unit (ConfigError.t E) :=
  match entries with
  | [] => Ok tt
  | e :: rest =>
      match validate_entry seen e with
      | Err err => Err err
      | Ok _ => validate_from (EmitterEntry.name e :: seen) rest
      end
  end.

Definition validate_emitter_entries (entries : list EmitterEntry.t) : result unit (ConfigError.t E) :=
  validate_from [] entries.

Definition normalize (config : HookboxConfig.t) :
    result (HookboxConfig.t * list string) (ConfigError.t E) :=
  let validated (c : HookboxConfig.t) (warnings : list string) :=
    match validate_emitter_entries (HookboxConfig.emitters c) with
    | Err e => Err e
    | Ok _ => Ok (c, warnings)
    end in
  match HookboxConfig.emitter config, HookboxConfig.emitters config with
  | Some _, _ :: _ =>
      Err (ConfigError.Validation "use either `[emitter]` (legacy) or `[[emitters]]` (preferred), not both")
  | None, [] => Err (ConfigError.Validation "no emitters configured")
  | Some legacy, [] =>
      let entry := EmitterEntry.from_legacy legacy (HookboxConfig.retry config) in
      validated (HookboxConfig.set_emitters [entry] config)
        ["`[emitter]` is deprecated; migrate to `[[emitters]]`"]
  | None, _ :: _ => validated config []
  end.

(** [toml::from_str] is a parameter. *)
Definition parse_and_normalize (from_str : string → result HookboxConfig.t E) (toml_str : string) :
    result (HookboxConfig.t * list string) (ConfigError.t E) :=
  match from_str toml_str with
  | Err e => Err (ConfigError.Parse e)
  | Ok config => normalize config
  end.
End validation.

(** ** Properties *)

Definition name_char (c : ascii) : bool := is_ascii_alphanumeric c || Ascii.eqb c "_" || Ascii.eqb c "-".

Lemma chars_count_ascii s : chars_all name_char s = true → chars_count s = Z.of_nat (String.length s).
Proof.
  induction s as [|a s IH]; [done|]. cbn [chars_all]. intros [Ha Hs]%andb_prop.
  cbn [chars_count String.length]. rewrite IH by done.
  destruct ((128 <=? Z.of_nat (nat_of_ascii a)) && (Z.of_nat (nat_of_ascii a) <=? 191)) eqn:E; [|lia].
  exfalso. apply andb_prop in E as [E1%Z.leb_le E2%Z.leb_le].
  unfold name_char, is_ascii_alphanumeric in Ha.
  destruct (Ascii.eqb_spec a "_"%char) as [->|]; [done|].
  destruct (Ascii.eqb_spec a "-"%char) as [->|]; [done|]. lia.
Qed.

Lemma is_valid_emitter_name_spec name :
  is_valid_emitter_name name = true ↔
  (1 ≤ String.length name ≤ 64)%nat ∧ chars_all name_char name = true.
Proof.
  unfold is_valid_emitter_name. fold name_char.
  destruct (chars_all name_char name) eqn:Ec.
  - rewrite (chars_count_ascii _ Ec). split.
    + destruct (_ && _) eqn:E; [|done]. cbn. intros _. split; [|done].
      apply andb_prop in E as [E1%Z.leb_le E2%Z.leb_le]. lia.
    + intros [Hl _]. rewrite (proj2 (Z.leb_le 1 _)) by lia. by rewrite (proj2 (Z.leb_le _ 64)) by lia.
  - split; [destruct (negb _); done|by intros [_ ?]].
Qed.

(** What a valid entry is. *)
Definition type_has_section (e : EmitterEntry.t) : Prop :=
  let ty := EmitterEntry.emitter_type e in
  ty = "channel" ∨
  (ty = "kafka" ∧ is_Some (EmitterEntry.kafka e)) ∨ (ty = "nats" ∧ is_Some (EmitterEntry.nats e)) ∨
  (ty = "sqs" ∧ is_Some (EmitterEntry.sqs e)) ∨ (ty = "redis" ∧ is_Some (EmitterEntry.redis e)).

Definition valid_entry (e : EmitterEntry.t) : Prop :=
  is_valid_emitter_name (EmitterEntry.name e) = true ∧
  EmitterEntry.concurrency e ≠ 0 ∧ EmitterEntry.poll_interval_seconds e ≠ 0 ∧
  (RetryPolicyConfig.jitter (EmitterEntry.retry e) <? 0)%float = false ∧
  (1 <? RetryPolicyConfig.jitter (EmitterEntry.retry e))%float = false ∧
  1 ≤ RetryPolicyConfig.max_attempts (EmitterEntry.retry e) ∧
  EmitterEntry.lease_duration_seconds e ≠ Some 0 ∧
  type_has_section e.

Section props.
Context {E : Type}.

Lemma check_type_spec e : check_type (E := E) e = Ok tt ↔ type_has_section e.
Proof.
  unfold check_type, type_has_section, invalid.
  repeat (destruct (decide _) as [->|]);
    repeat match goal with |- context [match ?o with Some _ => _ | None => _ end] => destruct o end;
    naive_solver.
Qed.

Lemma validate_entry_spec seen e :
  validate_entry (E := E) seen e = Ok tt ↔ valid_entry e ∧ EmitterEntry.name e ∉ seen.
Proof.
  unfold validate_entry, valid_entry, invalid. rewrite <- (check_type_spec e).
  destruct (is_valid_emitter_name _); cbn [negb]; [|naive_solver].
  destruct (decide _); [naive_solver|].
  destruct (Z.eqb_spec (EmitterEntry.concurrency e) 0); [naive_solver|].
  destruct (Z.eqb_spec (EmitterEntry.poll_interval_seconds e) 0); [naive_solver|].
  destruct (_ <? 0)%float; [naive_solver|]. destruct (1 <? _)%float; [naive_solver|]. cbn [orb].
  destruct (Z.ltb_spec (RetryPolicyConfig.max_attempts (EmitterEntry.retry e)) 1); [naive_solver lia|].
  destruct (decide _); naive_solver.
Qed.

Lemma validate_from_spec seen l :
  validate_from (E := E) seen l = Ok tt ↔
  Forall valid_entry l ∧ NoDup (map EmitterEntry.name l) ∧
  ∀ e, e ∈ l → EmitterEntry.name e ∉ seen.
Proof.
  revert seen. induction l as [|e l IH]; intros seen; cbn [validate_from map].
  { split; [intros _; split_and!; [by constructor..|]|done]. intros e He. by apply elem_of_nil in He. }
  destruct (validate_entry seen e) as [[]|err] eqn:Ev.
  - apply validate_entry_spec in Ev as [Hv Hs]. rewrite IH, Forall_cons, NoDup_cons.
    setoid_rewrite elem_of_cons. setoid_rewrite elem_of_List_map.
    split; [intros (? & ? & Hl)|intros ((? & ?) & (Hn & ?) & Hl)]; split_and!; try done.
    + intros (x & Hx & Heq). destruct (Hl x Hx). auto.
    + intros x [->|Hx]; [done|]. intros Hin. destruct (Hl x Hx). auto.
    + intros x Hx [Heq|Hin]; [apply Hn; eauto|]. by destruct (Hl x (or_intror Hx)).
  - split; [done|]. intros (Hf & _ & Hs). apply Forall_cons in Hf as [Hf _].
    assert (validate_entry (E := E) seen e = Ok tt) as Hok.
    { apply validate_entry_spec. split; [done|]. apply Hs, elem_of_cons. by left. }
    congruence.
Qed.

(** C34: normalization succeeds exactly on a configuration whose emitters, or the entry [default] made
    of its legacy section, are valid entries under distinct names, at least one; the result has
    them and no legacy section and is otherwise unchanged, with one warning for a legacy
    section; a valid name is one to sixty-four characters of the documented alphabet. *)
Theorem normalize_exact c c' warnings :
  (normalize (E := E) c = Ok (c', warnings) ↔
   ∃ entries, entries ≠ [] ∧ Forall valid_entry entries ∧ NoDup (map EmitterEntry.name entries) ∧
     c' = HookboxConfig.set_emitters entries c ∧
     match HookboxConfig.emitter c with
     | None => entries = HookboxConfig.emitters c ∧ warnings = []
     | Some legacy =>
         HookboxConfig.emitters c = [] ∧ entries = [EmitterEntry.from_legacy legacy (HookboxConfig.retry c)] ∧
         warnings = ["`[emitter]` is deprecated; migrate to `[[emitters]]`"]
     end) ∧
  (∀ legacy retry, let e := EmitterEntry.from_legacy legacy retry in
     EmitterEntry.name e = "default" ∧ EmitterEntry.to_emitter_config e = legacy ∧
     EmitterEntry.poll_interval_seconds e = RetryConfig.interval_seconds retry ∧
     RetryPolicyConfig.max_attempts (EmitterEntry.retry e) = RetryConfig.max_attempts retry) ∧
  ∀ name, is_valid_emitter_name name = true ↔
    (1 ≤ String.length name ≤ 64)%nat ∧ chars_all name_char name = true.
Proof.
  split_and!; [|intros legacy retry; split_and!; [done|by destruct legacy|done..]|apply is_valid_emitter_name_spec].
  assert (∀ l, validate_emitter_entries (E := E) l = Ok tt ↔ Forall valid_entry l ∧ NoDup (map EmitterEntry.name l)) as Hval.
  { intros l. unfold validate_emitter_entries. rewrite validate_from_spec. setoid_rewrite elem_of_nil. naive_solver. }
  unfold normalize.
  destruct (HookboxConfig.emitter c) as [legacy|] eqn:El, (HookboxConfig.emitters c) as [|e l] eqn:Es; [..|naive_solver|].
  - cbn [HookboxConfig.emitters HookboxConfig.set_emitters].
    specialize (Hval [EmitterEntry.from_legacy legacy (HookboxConfig.retry c)]).
    destruct (validate_emitter_entries _) as [[]|]; naive_solver.
  - naive_solver.
  - specialize (Hval (e :: l)).
    assert (HookboxConfig.set_emitters (e :: l) c = c) as Hc by (destruct c; cbn in *; by subst).
    destruct (validate_emitter_entries _) as [[]|]; [|naive_solver].
    split; [intros [= <- <-]; exists (e :: l); rewrite Hc; naive_solver|].
    intros (entries & _ & _ & _ & -> & -> & ->). by rewrite Hc.
Qed.
End props.

(** A channel emitter with the defaults. *)
Definition sample_legacy : HookboxConfig.t :=
  HookboxConfig.mk ServerConfig.default (DatabaseConfig.mk "postgres://localhost" 10) ∅
    DedupeConfig.default AdminConfig.default (RetryConfig.mk 7 3) (Some EmitterConfig.default) [].

(** The range check of [retry.jitter] is two comparisons, which are both false on a NaN, so
    a NaN jitter is accepted. *)
Theorem nan_jitter_is_accepted :
  ∃ e, f64_is_nan (RetryPolicyConfig.jitter (EmitterEntry.retry e)) = true ∧
       validate_emitter_entries (E := unit) [e] = Ok tt.
Proof.
  exists (EmitterEntry.mk "events" "channel" 5 1 None None None None None
    (RetryPolicyConfig.mk 5 30 3600 2%float nan)).
  split; vm_compute; reflexivity.
Qed.
