(* ===== verification/ConfigToml.v ===== *)
(** * [#[derive(Deserialize)]] of crates/hookbox-server/src/config.rs

    From the tree of a TOML document to the typed configuration: defaults, optional and renamed
    fields, numeric ranges, and the sections that refuse unknown keys; and the [Serialize] of an
    emitter entry.  Reading the text into a tree is the [toml] crate's. *)

From S2P Require Import Prelude RustStd F64 Types Config.
Local Open Scope Z_scope.
Local Open Scope rust_scope.

(** A table lists its entries in the order of the document. *)
Inductive Toml : Type :=
| TString (s : string)
| TInteger (n : Z)
| TFloat (x : f64)
| TBoolean (b : bool)
| TDatetime (text : string)
| TArray (l : list Toml)
| TTable (entries : list (string * Toml)).

(** The errors of [serde]; [Outside] is not one: it answers a section written as an array of its
    fields or as a date, which the derived code also reads and which is not modelled. *)
Inductive DeError : Type :=
| InvalidType (found expected : string)
| InvalidValue (found expected : string)
| UnknownField (name : string) (expected : list string)
| MissingField (name : string)
| DuplicateField (name : string)
| Outside.

Definition kind (v : Toml) : string :=
  match v with
  | TString _ => "string" | TInteger _ => "integer" | TFloat _ => "floating point" | TBoolean _ => "boolean"
  | TDatetime _ | TTable _ => "map" | TArray _ => "sequence"
  end.

Notation De A := (Toml → result A DeError).

(** ** Scalars *)

Definition de_string : De string := λ v,
  match v with TString s => Ok s | _ => Err (InvalidType (kind v) "a string") end.
Definition de_bool : De bool := λ v,
  match v with TBoolean b => Ok b | _ => Err (InvalidType (kind v) "a boolean") end.
(** An integer type: the [i64] of the document must be in its range. *)
Definition de_int (ty : string) (lo hi : Z) : De Z := λ v,
  match v with
  | TInteger n => if decide (lo ≤ n ≤ hi) then Ok n else Err (InvalidValue "integer" ty)
  | _ => Err (InvalidType (kind v) ty)
  end.
Definition de_u16 : De Z := de_int "u16" 0 (2 ^ 16 - 1).
Definition de_u32 : De Z := de_int "u32" 0 u32_max.
Definition de_u64 : De Z := de_int "u64" 0 u64_max.
Definition de_usize : De Z := de_int "usize" 0 u64_max.
Definition de_i32 : De Z := de_int "i32" i32_min i32_max.
(** An integer is read as the nearest float. *)
Definition de_f64 : De f64 := λ v,
  match v with
  | TFloat x => Ok x
  | TInteger n => Ok (f64_of_Z n)
  | _ => Err (InvalidType (kind v) "f64")
  end.
Definition de_option {A} (de : De A) : De (option A) := λ v,
  match de v with Ok a => Ok (Some a) | Err e => Err e end.

Definition de_vec {A} (de : De A) : De (list A) := λ v,
  match v with TArray l => try_collect de l | _ => Err (InvalidType (kind v) "a sequence") end.
Definition de_map {A} (de : De A) : De (gmap string A) := λ v,
  match v with
  | TTable entries =>
      foldl (λ acc e, and_then acc (λ m, and_then (de e.2) (λ a, Ok (<[e.1 := a]> m)))) (Ok ∅) entries
  | TDatetime _ => Err Outside
  | _ => Err (InvalidType (kind v) "a map")
  end.

(** ** Structs

    The derived visitor reads the entries in their order, each by the decoder of its field, then
    asks for the fields that are missing, in their order. *)

Definition Fields : Type := list (string * (De unit)).
Definition reads {A} (de : De A) : De unit := λ v, match de v with Ok _ => Ok tt | Err e => Err e end.

Definition toml_get (name : string) (entries : list (string * Toml)) : option Toml :=
  snd <$> List.find (λ e, String.eqb e.1 name) entries.
Definition decoder (name : string) (fields : Fields) : option (De unit) :=
  snd <$> List.find (λ f, String.eqb f.1 name) fields.

Fixpoint visit_map (deny_unknown_fields : bool) (fields : Fields) (seen : list string)
    (entries : list (string * Toml)) : result unit DeError :=
  match entries with
  | [] => Ok tt
  | (name, v) :: rest =>
      match decoder name fields with
      | None =>
          if deny_unknown_fields then Err (UnknownField name (map fst fields))
          else visit_map deny_unknown_fields fields seen rest
      | Some de =>
          if existsb (String.eqb name) seen then Err (DuplicateField name)
          else and_then (de v) (λ _, visit_map deny_unknown_fields fields (name :: seen) rest)
      end
  end.

Definition de_struct {A} (name : string) (deny_unknown_fields : bool) (fields : Fields)
    (build : list (string * Toml) → result A DeError) : De A := λ v,
  match v with
  | TTable entries => and_then (visit_map deny_unknown_fields fields [] entries) (λ _, build entries)
  | TArray _ | TDatetime _ => Err Outside
  | _ => Err (InvalidType (kind v) ("struct " +:+ name))
  end.

(** A field without a default, with one, and of an [Option] type. *)
Definition required {A} (name : string) (de : De A) (entries : list (string * Toml)) : result A DeError :=
  match toml_get name entries with Some v => de v | None => Err (MissingField name) end.
Definition defaulted {A} (name : string) (de : De A) (default : A) (entries : list (string * Toml)) :
    result A DeError :=
  match toml_get name entries with Some v => de v | None => Ok default end.
Definition optional {A} (name : string) (de : De A) : list (string * Toml) → result (option A) DeError :=
  defaulted name (de_option de) None.

Local Notation "'let?' x := r 'in' k" := (and_then r (λ x, k))
  (at level 200, x name, r at level 100, k at level 200).

(** ** The sections *)

Definition server_config_fields : Fields :=
  [("host", reads de_string); ("port", reads de_u16); ("body_limit", reads de_usize)].
Definition server_config_of_toml : De ServerConfig.t :=
  de_struct "ServerConfig" false server_config_fields (λ t,
    let? host := defaulted "host" de_string default_host t in
    let? port := defaulted "port" de_u16 default_port t in
    let? body_limit := defaulted "body_limit" de_usize default_body_limit t in
    Ok (ServerConfig.mk host port body_limit)).

Definition database_config_fields : Fields := [("url", reads de_string); ("max_connections", reads de_u32)].
Definition database_config_of_toml : De DatabaseConfig.t :=
  de_struct "DatabaseConfig" false database_config_fields (λ t,
    let? url := required "url" de_string t in
    let? max_connections := defaulted "max_connections" de_u32 default_max_connections t in
    Ok (DatabaseConfig.mk url max_connections)).

Definition provider_config_fields : Fields :=
  [("type", reads de_string); ("secret", reads (de_option de_string)); ("public_key", reads (de_option de_string));
   ("header", reads (de_option de_string)); ("tolerance_seconds", reads (de_option de_u64))].
Definition provider_config_of_toml : De ProviderConfig.t :=
  de_struct "ProviderConfig" false provider_config_fields (λ t,
    let? verifier_type := defaulted "type" de_string default_provider_type t in
    let? secret := optional "secret" de_string t in
    let? public_key := optional "public_key" de_string t in
    let? header := optional "header" de_string t in
    let? tolerance_seconds := optional "tolerance_seconds" de_u64 t in
    Ok (ProviderConfig.mk verifier_type secret public_key header tolerance_seconds)).

Definition dedupe_config_fields : Fields := [("lru_capacity", reads de_usize)].
Definition dedupe_config_of_toml : De DedupeConfig.t :=
  de_struct "DedupeConfig" false dedupe_config_fields (λ t,
    let? lru_capacity := defaulted "lru_capacity" de_usize default_lru_capacity t in
    Ok (DedupeConfig.mk lru_capacity)).

Definition admin_config_fields : Fields := [("bearer_token", reads (de_option de_string))].
Definition admin_config_of_toml : De AdminConfig.t :=
  de_struct "AdminConfig" false admin_config_fields (λ t,
    let? bearer_token := optional "bearer_token" de_string t in
    Ok (AdminConfig.mk bearer_token)).

Definition retry_config_fields : Fields := [("interval_seconds", reads de_u64); ("max_attempts", reads de_i32)].
Definition retry_config_of_toml : De RetryConfig.t :=
  de_struct "RetryConfig" false retry_config_fields (λ t,
    let? interval_seconds := defaulted "interval_seconds" de_u64 default_retry_interval t in
    let? max_attempts := defaulted "max_attempts" de_i32 default_max_attempts t in
    Ok (RetryConfig.mk interval_seconds max_attempts)).

(** *** The sections that refuse unknown keys *)

Definition kafka_config_fields : Fields :=
  [("brokers", reads de_string); ("topic", reads de_string); ("client_id", reads de_string);
   ("acks", reads de_string); ("timeout_ms", reads de_u64)].
Definition kafka_config_of_toml : De KafkaEmitterConfig.t :=
  de_struct "KafkaEmitterConfig" true kafka_config_fields (λ t,
    let? brokers := required "brokers" de_string t in
    let? topic := required "topic" de_string t in
    let? client_id := defaulted "client_id" de_string default_kafka_client_id t in
    let? acks := defaulted "acks" de_string default_kafka_acks t in
    let? timeout_ms := defaulted "timeout_ms" de_u64 default_kafka_timeout t in
    Ok (KafkaEmitterConfig.mk brokers topic client_id acks timeout_ms)).

Definition nats_config_fields : Fields := [("url", reads de_string); ("subject", reads de_string)].
Definition nats_config_of_toml : De NatsEmitterConfig.t :=
  de_struct "NatsEmitterConfig" true nats_config_fields (λ t,
    let? url := required "url" de_string t in
    let? subject := required "subject" de_string t in
    Ok (NatsEmitterConfig.mk url subject)).

Definition sqs_config_fields : Fields :=
  [("queue_url", reads de_string); ("region", reads (de_option de_string)); ("fifo", reads de_bool);
   ("endpoint_url", reads (de_option de_string))].
Definition sqs_config_of_toml : De SqsEmitterConfig.t :=
  de_struct "SqsEmitterConfig" true sqs_config_fields (λ t,
    let? queue_url := required "queue_url" de_string t in
    let? region := optional "region" de_string t in
    let? fifo := defaulted "fifo" de_bool false t in
    let? endpoint_url := optional "endpoint_url" de_string t in
    Ok (SqsEmitterConfig.mk queue_url region fifo endpoint_url)).

Definition redis_config_fields : Fields :=
  [("url", reads de_string); ("stream", reads de_string); ("maxlen", reads (de_option de_u64));
   ("timeout_ms", reads de_u64)].
Definition redis_config_of_toml : De RedisEmitterConfig.t :=
  de_struct "RedisEmitterConfig" true redis_config_fields (λ t,
    let? url := required "url" de_string t in
    let? stream := required "stream" de_string t in
    let? maxlen := optional "maxlen" de_u64 t in
    let? timeout_ms := defaulted "timeout_ms" de_u64 default_redis_timeout_ms t in
    Ok (RedisEmitterConfig.mk url stream maxlen timeout_ms)).

Definition emitter_config_fields : Fields :=
  [("type", reads de_string); ("kafka", reads (de_option kafka_config_of_toml));
   ("nats", reads (de_option nats_config_of_toml)); ("sqs", reads (de_option sqs_config_of_toml));
   ("redis", reads (de_option redis_config_of_toml))].
Definition emitter_config_of_toml : De EmitterConfig.t :=
  de_struct "EmitterConfig" true emitter_config_fields (λ t,
    let? emitter_type := defaulted "type" de_string default_emitter_type t in
    let? kafka := optional "kafka" kafka_config_of_toml t in
    let? nats := optional "nats" nats_config_of_toml t in
    let? sqs := optional "sqs" sqs_config_of_toml t in
    let? redis := optional "redis" redis_config_of_toml t in
    Ok (EmitterConfig.mk emitter_type kafka nats sqs redis)).

(** The missing fields are those of [RetryPolicyConfig::default()]. *)
Definition retry_policy_config_fields : Fields :=
  [("max_attempts", reads de_i32); ("initial_backoff_seconds", reads de_u64);
   ("max_backoff_seconds", reads de_u64); ("backoff_multiplier", reads de_f64); ("jitter", reads de_f64)].
Definition retry_policy_config_of_toml : De RetryPolicyConfig.t :=
  de_struct "RetryPolicyConfig" true retry_policy_config_fields (λ t,
    let d := RetryPolicyConfig.default in
    let? max_attempts := defaulted "max_attempts" de_i32 (RetryPolicyConfig.max_attempts d) t in
    let? initial_backoff_seconds :=
      defaulted "initial_backoff_seconds" de_u64 (RetryPolicyConfig.initial_backoff_seconds d) t in
    let? max_backoff_seconds :=
      defaulted "max_backoff_seconds" de_u64 (RetryPolicyConfig.max_backoff_seconds d) t in
    let? backoff_multiplier :=
      defaulted "backoff_multiplier" de_f64 (RetryPolicyConfig.backoff_multiplier d) t in
    let? jitter := defaulted "jitter" de_f64 (RetryPolicyConfig.jitter d) t in
    Ok (RetryPolicyConfig.mk max_attempts initial_backoff_seconds max_backoff_seconds backoff_multiplier jitter)).

Definition emitter_entry_fields : Fields :=
  [("name", reads de_string); ("type", reads de_string); ("poll_interval_seconds", reads de_u64);
   ("concurrency", reads de_usize); ("lease_duration_seconds", reads (de_option de_u64));
   ("kafka", reads (de_option kafka_config_of_toml)); ("nats", reads (de_option nats_config_of_toml));
   ("sqs", reads (de_option sqs_config_of_toml)); ("redis", reads (de_option redis_config_of_toml));
   ("retry", reads retry_policy_config_of_toml)].
Definition emitter_entry_of_toml : De EmitterEntry.t :=
  de_struct "EmitterEntry" true emitter_entry_fields (λ t,
    let? name := required "name" de_string t in
    let? emitter_type := required "type" de_string t in
    let? poll_interval_seconds := defaulted "poll_interval_seconds" de_u64 default_poll_interval t in
    let? concurrency := defaulted "concurrency" de_usize default_concurrency t in
    let? lease_duration_seconds := optional "lease_duration_seconds" de_u64 t in
    let? kafka := optional "kafka" kafka_config_of_toml t in
    let? nats := optional "nats" nats_config_of_toml t in
    let? sqs := optional "sqs" sqs_config_of_toml t in
    let? redis := optional "redis" redis_config_of_toml t in
    let? retry := defaulted "retry" retry_policy_config_of_toml RetryPolicyConfig.default t in
    Ok (EmitterEntry.mk name emitter_type poll_interval_seconds concurrency lease_duration_seconds
          kafka nats sqs redis retry)).

(** *** The document *)

Definition hookbox_config_fields : Fields :=
  [("server", reads server_config_of_toml); ("database", reads database_config_of_toml);
   ("providers", reads (de_map provider_config_of_toml)); ("dedupe", reads dedupe_config_of_toml);
   ("admin", reads admin_config_of_toml); ("retry", reads retry_config_of_toml);
   ("emitter", reads (de_option emitter_config_of_toml)); ("emitters", reads (de_vec emitter_entry_of_toml))].
Definition hookbox_config_of_toml : De HookboxConfig.t :=
  de_struct "HookboxConfig" false hookbox_config_fields (λ t,
    let? server := defaulted "server" server_config_of_toml ServerConfig.default t in
    let? database := required "database" database_config_of_toml t in
    let? providers := defaulted "providers" (de_map provider_config_of_toml) ∅ t in
    let? dedupe := defaulted "dedupe" dedupe_config_of_toml DedupeConfig.default t in
    let? admin := defaulted "admin" admin_config_of_toml AdminConfig.default t in
    let? retry := defaulted "retry" retry_config_of_toml RetryConfig.default t in
    let? emitter := optional "emitter" emitter_config_of_toml t in
    let? emitters := defaulted "emitters" (de_vec emitter_entry_of_toml) [] t in
    Ok (HookboxConfig.mk server database providers dedupe admin retry emitter emitters)).

(** [toml::de::Error]: of the text, or of its tree. *)
Inductive TomlError : Type :=
| Syntax (message : string)
| Data (e : DeError).

(** [toml::from_str::<HookboxConfig>], given the parser of the crate. *)
Definition config_from_str (parse : string → result Toml string) (s : string) : result HookboxConfig.t TomlError :=
  match parse s with
  | Err message => Err (Syntax message)
  | Ok tree => map_err Data (hookbox_config_of_toml tree)
  end.

(** ** [#[derive(Serialize)]] of an emitter entry

    The serializer of [toml] leaves out [None], and fails ([None] here) on an integer above [i64::MAX]. *)

Definition ser_int (n : Z) : option Toml := if decide (n ≤ i64_max) then Some (TInteger n) else None.
Definition ser_string (s : string) : option Toml := Some (TString s).
Definition ser_bool (b : bool) : option Toml := Some (TBoolean b).
Definition ser_f64 (x : f64) : option Toml := Some (TFloat x).

Definition field {A} (name : string) (ser : A → option Toml) (a : A) : option (list (string * Toml)) :=
  v ← ser a; Some [(name, v)].
Definition opt_field {A} (name : string) (ser : A → option Toml) (o : option A) : option (list (string * Toml)) :=
  match o with Some a => field name ser a | None => Some [] end.
Fixpoint ser_struct (fields : list (option (list (string * Toml)))) : option (list (string * Toml)) :=
  match fields with
  | [] => Some []
  | f :: fs => entries ← f; rest ← ser_struct fs; Some (entries ++ rest)
  end.
Definition ser_table (fields : list (option (list (string * Toml)))) : option Toml := TTable <$> ser_struct fields.

Definition kafka_config_to_toml (c : KafkaEmitterConfig.t) : option Toml :=
  ser_table [field "brokers" ser_string (KafkaEmitterConfig.brokers c);
             field "topic" ser_string (KafkaEmitterConfig.topic c);
             field "client_id" ser_string (KafkaEmitterConfig.client_id c);
             field "acks" ser_string (KafkaEmitterConfig.acks c);
             field "timeout_ms" ser_int (KafkaEmitterConfig.timeout_ms c)].
Definition nats_config_to_toml (c : NatsEmitterConfig.t) : option Toml :=
  ser_table [field "url" ser_string (NatsEmitterConfig.url c);
             field "subject" ser_string (NatsEmitterConfig.subject c)].
Definition sqs_config_to_toml (c : SqsEmitterConfig.t) : option Toml :=
  ser_table [field "queue_url" ser_string (SqsEmitterConfig.queue_url c);
             opt_field "region" ser_string (SqsEmitterConfig.region c);
             field "fifo" ser_bool (SqsEmitterConfig.fifo c);
             opt_field "endpoint_url" ser_string (SqsEmitterConfig.endpoint_url c)].
Definition redis_config_to_toml (c : RedisEmitterConfig.t) : option Toml :=
  ser_table [field "url" ser_string (RedisEmitterConfig.url c);
             field "stream" ser_string (RedisEmitterConfig.stream c);
             opt_field "maxlen" ser_int (RedisEmitterConfig.maxlen c);
             field "timeout_ms" ser_int (RedisEmitterConfig.timeout_ms c)].
Definition retry_policy_config_to_toml (c : RetryPolicyConfig.t) : option Toml :=
  ser_table [field "max_attempts" ser_int (RetryPolicyConfig.max_attempts c);
             field "initial_backoff_seconds" ser_int (RetryPolicyConfig.initial_backoff_seconds c);
             field "max_backoff_seconds" ser_int (RetryPolicyConfig.max_backoff_seconds c);
             field "backoff_multiplier" ser_f64 (RetryPolicyConfig.backoff_multiplier c);
             field "jitter" ser_f64 (RetryPolicyConfig.jitter c)].
Definition emitter_entry_to_toml (e : EmitterEntry.t) : option Toml :=
  ser_table [field "name" ser_string (EmitterEntry.name e);
             field "type" ser_string (EmitterEntry.emitter_type e);
             field "poll_interval_seconds" ser_int (EmitterEntry.poll_interval_seconds e);
             field "concurrency" ser_int (EmitterEntry.concurrency e);
             opt_field "lease_duration_seconds" ser_int (EmitterEntry.lease_duration_seconds e);
             opt_field "kafka" kafka_config_to_toml (EmitterEntry.kafka e);
             opt_field "nats" nats_config_to_toml (EmitterEntry.nats e);
             opt_field "sqs" sqs_config_to_toml (EmitterEntry.sqs e);
             opt_field "redis" redis_config_to_toml (EmitterEntry.redis e);
             field "retry" retry_policy_config_to_toml (EmitterEntry.retry e)].

(** The values of the integer fields are of their types. *)
Definition u64_opt (o : option Z) : Prop := match o with Some n => in_u64 n | None => True end.
Definition kafka_typed (c : KafkaEmitterConfig.t) : Prop := in_u64 (KafkaEmitterConfig.timeout_ms c).
Definition redis_typed (c : RedisEmitterConfig.t) : Prop :=
  in_u64 (RedisEmitterConfig.timeout_ms c) ∧ u64_opt (RedisEmitterConfig.maxlen c).
Definition retry_policy_typed (c : RetryPolicyConfig.t) : Prop :=
  in_i32 (RetryPolicyConfig.max_attempts c) ∧ in_u64 (RetryPolicyConfig.initial_backoff_seconds c) ∧
  in_u64 (RetryPolicyConfig.max_backoff_seconds c).
Definition entry_typed (e : EmitterEntry.t) : Prop :=
  in_u64 (EmitterEntry.poll_interval_seconds e) ∧ in_u64 (EmitterEntry.concurrency e) ∧
  u64_opt (EmitterEntry.lease_duration_seconds e) ∧
  (∀ k, EmitterEntry.kafka e = Some k → kafka_typed k) ∧
  (∀ r, EmitterEntry.redis e = Some r → redis_typed r) ∧ retry_policy_typed (EmitterEntry.retry e).

(** ** Properties *)

(** What is serialized for a value of type [A] is read back as it. *)
Definition inverts {A} (ser : A → option Toml) (de : De A) (a : A) : Prop := ∀ v, ser a = Some v → de v = Ok a.

Lemma inverts_int ty lo hi n : lo ≤ n ≤ hi → inverts ser_int (de_int ty lo hi) n.
Proof. intros Hn v. unfold ser_int. destruct (decide _); [|done]. intros [= <-]. cbn. by rewrite decide_True. Qed.
Lemma inverts_string s : inverts ser_string de_string s.
Proof. by intros v [= <-]. Qed.
Lemma inverts_bool b : inverts ser_bool de_bool b.
Proof. by intros v [= <-]. Qed.
Lemma inverts_f64 x : inverts ser_f64 de_f64 x.
Proof. by intros v [= <-]. Qed.

Lemma field_Some {A} name (ser : A → option Toml) de a entries :
  inverts ser de a → field name ser a = Some entries → ∃ v, entries = [(name, v)] ∧ de v = Ok a.
Proof. unfold field. intros Hi. destruct (ser a) as [v|] eqn:E; cbn; [|done]. intros [= <-]. eauto. Qed.

(** An optional field is left out or read back. *)
Lemma opt_field_Some {A} name (ser : A → option Toml) de o entries :
  (∀ a, o = Some a → inverts ser de a) → opt_field name ser o = Some entries →
  (o = None ∧ entries = []) ∨ (∃ v a, entries = [(name, v)] ∧ o = Some a ∧ de_option de v = Ok (Some a)).
Proof.
  intros Hi. destruct o as [a|]; cbn; [|intros [= <-]; auto].
  intros (v & -> & Hv)%(field_Some _ _ de); [|auto]. right. exists v, a. unfold de_option. by rewrite Hv.
Qed.

Lemma ser_struct_cons f fs entries :
  ser_struct (f :: fs) = Some entries → ∃ e rest, f = Some e ∧ ser_struct fs = Some rest ∧ entries = e ++ rest.
Proof. cbn. intros. simplify_option_eq. eauto. Qed.

(** Takes a serialized struct apart, field by field, with what each reads back as. *)
Ltac ser_fields H :=
  lazymatch type of H with
  | ser_struct [] = Some _ => cbn in H; injection H as <-
  | ser_struct (_ :: _) = Some _ =>
      let e := fresh "e" in let rest := fresh "rest" in let Hf := fresh "Hf" in let Hr := fresh "Hr" in
      apply ser_struct_cons in H as (e & rest & Hf & Hr & ->);
      (eapply field_Some in Hf as (? & -> & ?); [|by eauto with toml]) ||
      (eapply opt_field_Some in Hf as [[? ->]|(? & ? & -> & ? & ?)]; [| |by eauto with toml]);
      ser_fields Hr
  end.
Create HintDb toml.
#[export] Hint Resolve inverts_string inverts_bool inverts_f64 : toml.

(** What is read of a table is computed from what is read of its fields. *)
Ltac read_fields :=
  cbn; unfold reads, required, defaulted, optional; cbn;
  repeat match goal with H : ?r = Ok _ |- context [?r] => rewrite H; cbn end.

Lemma kafka_reads_back c : kafka_typed c → inverts kafka_config_to_toml kafka_config_of_toml c.
Proof.
  intros Ht v. unfold kafka_config_to_toml, ser_table. intros (entries & H & ->)%fmap_Some.
  assert (inverts ser_int de_u64 (KafkaEmitterConfig.timeout_ms c)) by by apply inverts_int.
  ser_fields H. destruct c. read_fields. done.
Qed.

Lemma nats_reads_back c : inverts nats_config_to_toml nats_config_of_toml c.
Proof.
  intros v. unfold nats_config_to_toml, ser_table. intros (entries & H & ->)%fmap_Some.
  ser_fields H. destruct c. by read_fields.
Qed.

Lemma sqs_reads_back c : inverts sqs_config_to_toml sqs_config_of_toml c.
Proof.
  intros v. unfold sqs_config_to_toml, ser_table. intros (entries & H & ->)%fmap_Some.
  ser_fields H; destruct c; cbn in *; subst; by read_fields.
Qed.

Lemma u64_opt_inverts o a : u64_opt o → o = Some a → inverts ser_int de_u64 a.
Proof. intros Ho ->. by apply inverts_int. Qed.

Lemma redis_reads_back c : redis_typed c → inverts redis_config_to_toml redis_config_of_toml c.
Proof.
  intros [Ht Hm] v. unfold redis_config_to_toml, ser_table. intros (entries & H & ->)%fmap_Some.
  assert (inverts ser_int de_u64 (RedisEmitterConfig.timeout_ms c)) by by apply inverts_int.
  assert (∀ a, RedisEmitterConfig.maxlen c = Some a → inverts ser_int de_u64 a) by eauto using u64_opt_inverts.
  ser_fields H; destruct c; cbn in *; subst; by read_fields.
Qed.

Lemma retry_policy_reads_back c :
  retry_policy_typed c → inverts retry_policy_config_to_toml retry_policy_config_of_toml c.
Proof.
  intros (Ha & Hi & Hm) v. unfold retry_policy_config_to_toml, ser_table. intros (entries & H & ->)%fmap_Some.
  assert (inverts ser_int de_i32 (RetryPolicyConfig.max_attempts c)) by by apply inverts_int.
  assert (inverts ser_int de_u64 (RetryPolicyConfig.initial_backoff_seconds c)) by by apply inverts_int.
  assert (inverts ser_int de_u64 (RetryPolicyConfig.max_backoff_seconds c)) by by apply inverts_int.
  ser_fields H. destruct c. by read_fields.
Qed.

#[export] Hint Resolve kafka_reads_back nats_reads_back sqs_reads_back redis_reads_back retry_policy_reads_back : toml.

(** An emitter entry that the serializer writes is read back as it was. *)
Theorem emitter_entry_reads_back e v :
  entry_typed e → emitter_entry_to_toml e = Some v → emitter_entry_of_toml v = Ok e.
Proof.
  intros (Hp & Hc & Hl & Hk & Hr & Hpol). unfold emitter_entry_to_toml, ser_table. intros (entries & H & ->)%fmap_Some.
  assert (inverts ser_int de_u64 (EmitterEntry.poll_interval_seconds e)) by by apply inverts_int.
  assert (inverts ser_int de_usize (EmitterEntry.concurrency e)) by by apply inverts_int.
  assert (∀ a, EmitterEntry.lease_duration_seconds e = Some a → inverts ser_int de_u64 a) by eauto using u64_opt_inverts.
  assert (∀ a, EmitterEntry.kafka e = Some a → inverts kafka_config_to_toml kafka_config_of_toml a) by eauto with toml.
  assert (∀ a, EmitterEntry.redis e = Some a → inverts redis_config_to_toml redis_config_of_toml a) by eauto with toml.
  ser_fields H; destruct e; cbn [EmitterEntry.name EmitterEntry.emitter_type EmitterEntry.lease_duration_seconds
    EmitterEntry.kafka EmitterEntry.nats EmitterEntry.sqs EmitterEntry.redis] in *; subst; by read_fields.
Qed.

(** *** Unknown keys *)

Definition known (fields : Fields) (k : string) : Prop := k ∈ map fst fields.
#[export] Instance known_dec fields k : Decision (known fields k).
Proof. unfold known. apply _. Defined.

Lemma decoder_None k fields : decoder k fields = None ↔ ¬ known fields k.
Proof.
  unfold decoder, known. induction fields as [|[n de] fields IH]; cbn.
  { split; [intros _; apply not_elem_of_nil|done]. }
  rewrite elem_of_cons. destruct (String.eqb_spec n k) as [->|Hne]; [split; [done|naive_solver]|].
  rewrite IH. naive_solver.
Qed.

Lemma visit_map_known fields seen t k v :
  visit_map true fields seen t = Ok tt → (k, v) ∈ t → known fields k.
Proof.
  revert seen. induction t as [|[n w] t IH]; intros seen Hv Hin; [by apply elem_of_nil in Hin|]. cbn in Hv.
  destruct (decoder n fields) as [de|] eqn:Ed; [|done]. destruct (existsb _ _); [done|].
  apply and_then_Ok in Hv as ([] & _ & Hv). apply elem_of_cons in Hin as [[= -> ->]|Hin]; [|by eapply IH].
  destruct (decide (known fields n)) as [|Hn]; [done|]. apply decoder_None in Hn. congruence.
Qed.

Lemma visit_map_unknown fields seen t1 t2 k v :
  ¬ known fields k → visit_map false fields seen (t1 ++ (k, v) :: t2) = visit_map false fields seen (t1 ++ t2).
Proof.
  intros Hk%decoder_None. revert seen. induction t1 as [|[n w] t1 IH]; intros seen; cbn; [by rewrite Hk|].
  destruct (decoder n fields) as [d|]; [|apply IH]. destruct (existsb _ _); [done|]. destruct (d w); cbn; [apply IH|done].
Qed.

Lemma toml_get_skip name t1 t2 k v : k ≠ name → toml_get name (t1 ++ (k, v) :: t2) = toml_get name (t1 ++ t2).
Proof.
  intros Hne. unfold toml_get. induction t1 as [|[n w] t1 IH]; cbn.
  - by destruct (String.eqb_spec k name).
  - by destruct (String.eqb n name).
Qed.

Lemma de_struct_denies {A} name fields build t k v (c : A) :
  (k, v) ∈ t → ¬ known fields k → de_struct name true fields build (TTable t) ≠ Ok c.
Proof. intros Hin Hk Hc. cbn in Hc. apply and_then_Ok in Hc as ([] & Hv & _). eauto using visit_map_known. Qed.

Lemma de_struct_ignores {A} name fields (build : _ → result A DeError) t1 t2 k v :
  (build (t1 ++ (k, v) :: t2) = build (t1 ++ t2)) → ¬ known fields k →
  de_struct name false fields build (TTable (t1 ++ (k, v) :: t2)) =
  de_struct name false fields build (TTable (t1 ++ t2)).
Proof. intros Hb Hk. cbn. by rewrite visit_map_unknown, Hb. Qed.

Ltac skip_unknown Hk :=
  cbv beta; unfold required, optional, defaulted;
  repeat match goal with
    |- context [toml_get ?name (?t1 ++ (?k, ?v) :: ?t2)] =>
      rewrite (toml_get_skip name t1 t2 k v) by (intros Heq; apply Hk; rewrite Heq; by apply (bool_decide_eq_true_1 _))
    end;
  reflexivity.

(** C35: a key that an emitter entry, its retry table or the legacy emitter section does not
    know is an error; at the top level and in the [server], [database], [retry] and provider
    tables it is ignored, wherever it stands. *)
Theorem unknown_keys t1 t2 k v :
  let t := t1 ++ (k, v) :: t2 in
  (¬ known emitter_entry_fields k → ∀ e, emitter_entry_of_toml (TTable t) ≠ Ok e) ∧
  (¬ known retry_policy_config_fields k → ∀ p, retry_policy_config_of_toml (TTable t) ≠ Ok p) ∧
  (¬ known emitter_config_fields k → ∀ c, emitter_config_of_toml (TTable t) ≠ Ok c) ∧
  (¬ known hookbox_config_fields k → hookbox_config_of_toml (TTable t) = hookbox_config_of_toml (TTable (t1 ++ t2))) ∧
  (¬ known provider_config_fields k →
     provider_config_of_toml (TTable t) = provider_config_of_toml (TTable (t1 ++ t2))) ∧
  (¬ known server_config_fields k → server_config_of_toml (TTable t) = server_config_of_toml (TTable (t1 ++ t2))) ∧
  (¬ known database_config_fields k →
     database_config_of_toml (TTable t) = database_config_of_toml (TTable (t1 ++ t2))) ∧
  (¬ known retry_config_fields k → retry_config_of_toml (TTable t) = retry_config_of_toml (TTable (t1 ++ t2))).
Proof.
  intros t. assert ((k, v) ∈ t) as Hin by (unfold t; set_solver).
  split_and!; intros Hk; try (intros c; by eapply de_struct_denies).
  all: apply de_struct_ignores; [skip_unknown Hk|done].
Qed.

(** A misspelt concurrency, and a misspelt section. *)
Lemma unknown_keys_witness :
  emitter_entry_of_toml (TTable [("name", TString "a"); ("concurency", TInteger 4); ("type", TString "channel")]) ≠
    Ok EmitterEntry.default ∧
  hookbox_config_of_toml (TTable [("database", TTable [("url", TString "u")]); ("dedup", TTable [])]) =
  hookbox_config_of_toml (TTable [("database", TTable [("url", TString "u")])]).
Proof.
  split.
  - apply (unknown_keys [("name", TString "a")] [("type", TString "channel")] "concurency" (TInteger 4)).
    apply (bool_decide_eq_true_1 _). vm_compute. reflexivity.
  - destruct (unknown_keys [("database", TTable [("url", TString "u")])] [] "dedup" (TTable []))
      as (_ & _ & _ & H & _).
    apply H. apply (bool_decide_eq_true_1 _). vm_compute. reflexivity.
Defined.
