(* ===== verification/Providers.v ===== *)
(** * crates/hookbox-providers: the signature verifiers

    One module per verifier.  The clock [chrono::Utc::now().timestamp()] is an argument (whole
    seconds); an HMAC accepts a key of any length, so the [invalid_..._length] answers cannot
    happen and have no branch here; [ct_eq] is equality of byte strings. *)

From S2P Require Import Prelude RustStd F64 Types Traits Instances.
Local Open Scope Z_scope.

(** [rsa]: parsing a PEM public key and a PKCS#1 v1.5 signature, and verifying. *)
Class Rsa : Type := {
  rsa_key : Type;
  rsa_signature : Type;
  from_public_key_pem : string → option rsa_key;
  signature_try_from : bytes → option rsa_signature;
  rsa_sha512_verify : rsa_key → bytes → rsa_signature → bool
}.

Definition failed (reason : string) : VerificationResult.t :=
  VerificationResult.mk VerificationStatus.Failed (Some reason).
Definition verified (reason : string) : VerificationResult.t :=
  VerificationResult.mk VerificationStatus.Verified (Some reason).

Definition DEFAULT_TOLERANCE_SECS : Z := 300.

Definition ct_eq (a b : bytes) : bool := bool_decide (a = b).

(** [let Some(x) = o else { return failed(reason) }] *)
Notation "'let_some' x := o 'or' reason ; k" :=
  (match o with Some x => k | None => failed reason end)
  (at level 200, x name, k at level 200) : rust_scope.
Local Open Scope rust_scope.

(** The clock before the epoch counts as 0. *)
Definition unix_now (raw_now : Z) : Z := unwrap_or (u64_try_from raw_now) 0.
Definition expired (raw_now timestamp : Z) (tolerance : Duration) : bool :=
  Duration_as_secs tolerance <? abs_diff (unix_now raw_now) timestamp.

(** The comma-separated [t=...] and [v1=...] parts: the last timestamp, every signature. *)
Definition signature_part (acc : option string * list string) (part : string) :
    option string * list string :=
  match strip_prefix "t=" part with
  | Some ts => (Some ts, acc.2)
  | None =>
      match strip_prefix "v1=" part with
      | Some sig => (acc.1, acc.2 ++ [sig])
      | None => acc
      end
  end.
Definition signature_parts (header : string) : option string * list string :=
  foldl signature_part (None, []) (split_on "," header).

Section verifiers.
Context `{Codecs} `{Crypto}.

(** Some signature of the list is the hex text of the expected bytes. *)
Definition any_hex_match (expected : bytes) (sigs : list string) : bool :=
  existsb (λ s, match hex_decode s with Some b => ct_eq expected b | None => false end) sigs.
End verifiers.

Module StripeVerifier.
Record t : Type := mk { provider : string; secret : string; tolerance : Duration }.

Definition new (provider secret : string) : t :=
  mk provider secret (Duration_from_secs DEFAULT_TOLERANCE_SECS).
Definition with_tolerance (self : t) (tolerance : Duration) : t :=
  mk (provider self) (secret self) tolerance.

Section verify.
Context `{Codecs} `{Crypto}.

Definition verify (self : t) (raw_now : Z) (headers : HeaderMap) (body : bytes) :
    VerificationResult.t :=
  let_some header_value := header_get "Stripe-Signature" headers or "missing_signature_header";
  let_some header_str := to_str header_value or "invalid_signature_header_encoding";
  let '(timestamp_str, v1_sigs) := signature_parts header_str in
  let_some ts_str := timestamp_str or "missing_timestamp";
  if bool_decide (v1_sigs = []) then failed "missing_v1_signature"
  else
    let_some timestamp := parse_u64 ts_str or "invalid_timestamp";
    if expired raw_now timestamp (tolerance self) then failed "timestamp_expired"
    else
      let_some body_str := from_utf8 body or "invalid_body_encoding";
      let signed_payload := ts_str +:+ "." +:+ body_str in
      let expected := hmac_sha256 (as_bytes (secret self)) (as_bytes signed_payload) in
      if any_hex_match expected v1_sigs then verified "signature_valid"
      else failed "signature_mismatch".

Definition verifier (self : t) : SignatureVerifier := mkVerifier (provider self) (verify self).
End verify.
End StripeVerifier.

Module GenericHmacVerifier.
Record t : Type := mk { provider : string; secret : bytes; header_name : string }.

Definition new (provider : string) (secret : bytes) (header_name : string) : t :=
  mk provider secret header_name.

Section verify.
Context `{Codecs} `{Crypto}.

Definition verify (self : t) (_raw_now : Z) (headers : HeaderMap) (body : bytes) :
    VerificationResult.t :=
  let_some header_value := header_get (header_name self) headers or "missing_signature_header";
  let_some provided_hex := to_str header_value or "invalid_signature_header_encoding";
  let_some provided_sig := hex_decode provided_hex or "invalid_hex_signature";
  let expected := hmac_sha256 (secret self) body in
  if ct_eq expected provided_sig then verified "signature_valid" else failed "signature_mismatch".

Definition verifier (self : t) : SignatureVerifier := mkVerifier (provider self) (verify self).
End verify.
End GenericHmacVerifier.

Module AdyenVerifier.
Record t : Type := mk { provider : string; key_bytes : bytes }.

Section verify.
Context `{Codecs} `{Crypto}.

Definition new (provider hex_key : string) : option t :=
  if decide (hex_key = EmptyString) then None
  else key_bytes ← hex_decode hex_key; Some (mk provider key_bytes).

Definition verify (self : t) (_raw_now : Z) (headers : HeaderMap) (body : bytes) :
    VerificationResult.t :=
  let_some header_value := header_get "HmacSignature" headers or "missing_signature_header";
  let_some header_str := to_str header_value or "invalid_signature_header_encoding";
  let_some provided_sig := base64_decode header_str or "invalid_base64_signature";
  let expected := hmac_sha256 (key_bytes self) body in
  if ct_eq expected provided_sig then verified "signature_valid" else failed "signature_mismatch".

Definition verifier (self : t) : SignatureVerifier := mkVerifier (provider self) (verify self).
End verify.
End AdyenVerifier.

Module BvnkVerifier.
Record t : Type := mk { provider : string; secret : bytes }.

Definition new (provider : string) (secret : bytes) : t := mk provider secret.

Section verify.
Context `{Codecs} `{Crypto}.

Definition verify (self : t) (_raw_now : Z) (headers : HeaderMap) (body : bytes) :
    VerificationResult.t :=
  let_some header_value := header_get "x-signature" headers or "missing_signature_header";
  let_some header_str := to_str header_value or "invalid_signature_header_encoding";
  let_some provided_sig := base64_decode header_str or "invalid_base64_signature";
  let expected := hmac_sha256 (secret self) body in
  if ct_eq expected provided_sig then verified "signature_valid" else failed "signature_mismatch".

Definition verifier (self : t) : SignatureVerifier := mkVerifier (provider self) (verify self).
End verify.
End BvnkVerifier.

Module WalapayVerifier.
Record t : Type := mk { provider : string; key : bytes; tolerance : Duration }.

Definition with_tolerance (self : t) (tolerance : Duration) : t :=
  mk (provider self) (key self) tolerance.

Section verify.
Context `{Codecs} `{Crypto}.

Definition new (provider secret : string) : option t :=
  b64 ← strip_prefix "whsec_" secret;
  key ← base64_decode b64;
  if decide (key = []) then None
  else Some (mk provider key (Duration_from_secs DEFAULT_TOLERANCE_SECS)).

(** An entry [v1,<sig>] of the header whose text is the expected one. *)
Definition entry_matches (expected_b64 entry : string) : bool :=
  match strip_prefix "v1," entry with
  | None => false
  | Some provided_b64 => ct_eq (as_bytes expected_b64) (as_bytes provided_b64)
  end.

Definition verify (self : t) (raw_now : Z) (headers : HeaderMap) (body : bytes) :
    VerificationResult.t :=
  let_some msg_id_val := header_get "svix-id" headers or "missing_svix_id_header";
  let_some ts_val := header_get "svix-timestamp" headers or "missing_svix_timestamp_header";
  let_some sig_val := header_get "svix-signature" headers or "missing_svix_signature_header";
  let_some msg_id := to_str msg_id_val or "invalid_svix_id_encoding";
  let_some ts_str := to_str ts_val or "invalid_svix_timestamp_encoding";
  let_some sig_str := to_str sig_val or "invalid_svix_signature_encoding";
  let_some timestamp := parse_u64 ts_str or "invalid_timestamp";
  if expired raw_now timestamp (tolerance self) then failed "timestamp_expired"
  else
    let signed_content := as_bytes msg_id ++ [Byte.x2e] ++ as_bytes ts_str ++ [Byte.x2e] ++ body in
    let expected_bytes := hmac_sha256 (key self) signed_content in
    let expected_b64 := base64_encode expected_bytes in
    if existsb (entry_matches expected_b64) (split_whitespace sig_str)
    then verified "signature_valid" else failed "signature_mismatch".

Definition verifier (self : t) : SignatureVerifier := mkVerifier (provider self) (verify self).
End verify.
End WalapayVerifier.

Module TripleACryptoVerifier.
Record t : Type := mk { provider : string; secret : string; tolerance : Duration }.

Definition new (provider secret : string) : t :=
  mk provider secret (Duration_from_secs DEFAULT_TOLERANCE_SECS).
Definition with_tolerance (self : t) (tolerance : Duration) : t :=
  mk (provider self) (secret self) tolerance.

Section verify.
Context `{Codecs} `{Crypto}.

Definition verify (self : t) (raw_now : Z) (headers : HeaderMap) (body : bytes) :
    VerificationResult.t :=
  let_some header_value := header_get "triplea-signature" headers or "missing_signature_header";
  let_some header_str := to_str header_value or "invalid_signature_header_encoding";
  let '(timestamp_str, v1_sigs) := signature_parts header_str in
  let_some ts_str := timestamp_str or "missing_timestamp";
  if bool_decide (v1_sigs = []) then failed "missing_v1_signature"
  else
    let_some timestamp := parse_u64 ts_str or "invalid_timestamp";
    if expired raw_now timestamp (tolerance self) then failed "timestamp_expired"
    else
      let signed_content := as_bytes ts_str ++ [Byte.x2e] ++ body in
      let expected := hmac_sha256 (as_bytes (secret self)) signed_content in
      if any_hex_match expected v1_sigs then verified "signature_valid"
      else failed "signature_mismatch".

Definition verifier (self : t) : SignatureVerifier := mkVerifier (provider self) (verify self).
End verify.
End TripleACryptoVerifier.

Module TripleAFiatVerifier.
Section verify.
Context `{Codecs} `{Rsa}.

Record t : Type := mk { provider : string; verifying_key : rsa_key }.

Definition new (provider pem_public_key : string) : option t :=
  public_key ← from_public_key_pem pem_public_key;
  Some (mk provider public_key).

Definition verify (self : t) (_raw_now : Z) (headers : HeaderMap) (body : bytes) :
    VerificationResult.t :=
  let_some header_value := header_get "TripleA-Signature" headers or "missing_signature_header";
  let_some header_str := to_str header_value or "invalid_signature_header_encoding";
  let_some sig_bytes := base64_decode header_str or "invalid_base64_signature";
  let_some signature := signature_try_from sig_bytes or "invalid_rsa_signature_format";
  if rsa_sha512_verify (verifying_key self) body signature
  then verified "signature_valid" else failed "signature_mismatch".

Definition verifier (self : t) : SignatureVerifier := mkVerifier (provider self) (verify self).
End verify.
End TripleAFiatVerifier.
