(* ===== verification/ProvidersProps.v ===== *)
(** * Properties of the signature verifiers

    Each verifier answers [Verified] exactly on the requests its provider's scheme accepts, and
    accepts what the provider signs. *)

From S2P Require Import Prelude RustStd F64 Types Traits Instances Providers.
Local Open Scope Z_scope.

Definition accepts (r : VerificationResult.t) : Prop :=
  VerificationResult.status r = VerificationStatus.Verified.

(** The header [name] is present and its text is [s]. *)
Definition header_text (h : HeaderMap) (name s : string) : Prop :=
  ∃ v, header_get name h = Some v ∧ to_str v = Some s.

Definition fresh (raw_now timestamp : Z) (tolerance : Duration) : Prop :=
  abs_diff (unix_now raw_now) timestamp ≤ Duration_as_secs tolerance.

Lemma expired_fresh raw_now timestamp tolerance :
  expired raw_now timestamp tolerance = false ↔ fresh raw_now timestamp tolerance.
Proof. unfold expired, fresh. rewrite Z.ltb_ge. done. Qed.

(** Steps of a verification. *)
Lemma or_failed {A} (o : option A) reason (k : A → VerificationResult.t) :
  accepts (match o with Some x => k x | None => failed reason end) ↔
  ∃ x, o = Some x ∧ accepts (k x).
Proof.
  destruct o as [x|]; [naive_solver|]. split; [done|]. by intros (x & ? & _).
Qed.

Lemma if_failed (b : bool) reason r :
  accepts (if b then failed reason else r) ↔ b = false ∧ accepts r.
Proof. destruct b; [split; [done|by intros [? _]]|naive_solver]. Qed.

Lemma final_check (b : bool) r1 r2 :
  accepts (if b then verified r1 else failed r2) ↔ b = true.
Proof. by destruct b. Qed.

Lemma header_steps h name r1 r2 (k : string → VerificationResult.t) :
  accepts (match header_get name h with
           | Some v => match to_str v with Some s => k s | None => failed r2 end
           | None => failed r1
           end) ↔ ∃ s, header_text h name s ∧ accepts (k s).
Proof. rewrite or_failed. setoid_rewrite or_failed. unfold header_text. naive_solver. Qed.

Section schemes.
Context `{Codecs} `{Crypto}.

Lemma ct_eq_spec a b : ct_eq a b = true ↔ a = b.
Proof. apply bool_decide_eq_true. Qed.

Lemma any_hex_match_spec expected sigs :
  any_hex_match expected sigs = true ↔ ∃ s, s ∈ sigs ∧ hex_decode s = Some expected.
Proof.
  unfold any_hex_match. rewrite existsb_exists. setoid_rewrite <- list_elem_of_In.
  split; intros (s & Hs & Hm); exists s; (split; [done|]).
  - destruct (hex_decode s) as [b|]; [|done]. apply ct_eq_spec in Hm. congruence.
  - rewrite Hm. by apply ct_eq_spec.
Qed.

Lemma from_utf8_bytes b s : from_utf8 b = Some s → as_bytes s = b.
Proof. unfold from_utf8. destruct (utf8_valid b); [|done]. intros [= <-]. apply as_bytes_of_bytes. Qed.

(** The bytes a timestamped scheme signs. *)
Definition timestamped (ts : string) (body : bytes) : bytes := as_bytes ts ++ [Byte.x2e] ++ body.

(** C21: the body-signing HMAC verifiers accept exactly a header that decodes to the HMAC of the
    body: hexadecimal for the generic one, base64 for Adyen and BVNK. *)
Theorem body_hmac_exact now h body :
  (∀ self, accepts (GenericHmacVerifier.verify self now h body) ↔
     ∃ s, header_text h (GenericHmacVerifier.header_name self) s ∧
          hex_decode s = Some (hmac_sha256 (GenericHmacVerifier.secret self) body)) ∧
  (∀ self, accepts (AdyenVerifier.verify self now h body) ↔
     ∃ s, header_text h "HmacSignature" s ∧
          base64_decode s = Some (hmac_sha256 (AdyenVerifier.key_bytes self) body)) ∧
  (∀ self, accepts (BvnkVerifier.verify self now h body) ↔
     ∃ s, header_text h "x-signature" s ∧
          base64_decode s = Some (hmac_sha256 (BvnkVerifier.secret self) body)).
Proof.
  split_and!; intros self.
  - unfold GenericHmacVerifier.verify. rewrite header_steps. setoid_rewrite or_failed.
    setoid_rewrite final_check. setoid_rewrite ct_eq_spec. naive_solver.
  - unfold AdyenVerifier.verify. rewrite header_steps. setoid_rewrite or_failed.
    setoid_rewrite final_check. setoid_rewrite ct_eq_spec. naive_solver.
  - unfold BvnkVerifier.verify. rewrite header_steps. setoid_rewrite or_failed.
    setoid_rewrite final_check. setoid_rewrite ct_eq_spec. naive_solver.
Qed.

(** The header [name] carries a last timestamp within the tolerance of the clock and a [v1]
    signature that is the HMAC of that timestamp, a dot and the body. *)
Definition timestamp_signed (now : Z) (h : HeaderMap) (body : bytes) (name secret : string)
    (tolerance : Duration) : Prop :=
  ∃ s ts n sigs sig,
    header_text h name s ∧ signature_parts s = (Some ts, sigs) ∧
    parse_u64 ts = Some n ∧ fresh now n tolerance ∧ sig ∈ sigs ∧
    hex_decode sig = Some (hmac_sha256 (as_bytes secret) (timestamped ts body)).

Lemma stripe_exact self now h body :
  accepts (StripeVerifier.verify self now h body) ↔
  utf8_valid body = true ∧
  timestamp_signed now h body "Stripe-Signature" (StripeVerifier.secret self) (StripeVerifier.tolerance self).
Proof.
  unfold StripeVerifier.verify. rewrite header_steps. split.
  - intros (s & Hs & Hv). destruct (signature_parts s) as [ots sigs] eqn:Ep.
    apply or_failed in Hv as (ts & -> & Hv). apply if_failed in Hv as [_ Hv].
    apply or_failed in Hv as (n & Hn & Hv). apply if_failed in Hv as [Hf%expired_fresh Hv].
    apply or_failed in Hv as (bs & Hbs & Hv). pose proof (from_utf8_bytes _ _ Hbs) as Hb.
    apply final_check, any_hex_match_spec in Hv as (sig & Hsig & Hdec).
    rewrite !as_bytes_app, Hb in Hdec.
    split; [unfold from_utf8 in Hbs; by destruct (utf8_valid body)|].
    exists s, ts, n, sigs, sig. split_and!; done.
  - intros (Hu & s & ts & n & sigs & sig & Hs & Hp & Hn & Hf & Hsig & Hdec).
    exists s. split; [done|]. rewrite Hp. apply if_failed.
    split; [apply bool_decide_eq_false; intros ->; by apply elem_of_nil in Hsig|].
    rewrite Hn. apply if_failed. split; [by apply expired_fresh|].
    unfold from_utf8. rewrite Hu. apply final_check, any_hex_match_spec.
    exists sig. split; [done|]. rewrite !as_bytes_app, as_bytes_of_bytes. exact Hdec.
Qed.

Lemma triplea_crypto_exact self now h body :
  accepts (TripleACryptoVerifier.verify self now h body) ↔
  timestamp_signed now h body "triplea-signature" (TripleACryptoVerifier.secret self)
    (TripleACryptoVerifier.tolerance self).
Proof.
  unfold TripleACryptoVerifier.verify. rewrite header_steps. split.
  - intros (s & Hs & Hv). destruct (signature_parts s) as [ots sigs] eqn:Ep.
    apply or_failed in Hv as (ts & -> & Hv). apply if_failed in Hv as [_ Hv].
    apply or_failed in Hv as (n & Hn & Hv). apply if_failed in Hv as [Hf%expired_fresh Hv].
    apply final_check, any_hex_match_spec in Hv as (sig & Hsig & Hdec).
    exists s, ts, n, sigs, sig. split_and!; done.
  - intros (s & ts & n & sigs & sig & Hs & Hp & Hn & Hf & Hsig & Hdec). exists s. split; [done|].
    rewrite Hp. apply if_failed.
    split; [apply bool_decide_eq_false; intros ->; by apply elem_of_nil in Hsig|].
    rewrite Hn. apply if_failed. split; [by apply expired_fresh|].
    apply final_check, any_hex_match_spec. eauto.
Qed.

(** The three [svix] headers, with a [v1,] entry that is the base64 text of the HMAC of the id,
    the timestamp and the body joined by dots. *)
Definition svix_signed (now : Z) (h : HeaderMap) (body key : bytes) (tolerance : Duration) : Prop :=
  ∃ id ts n s,
    header_text h "svix-id" id ∧ header_text h "svix-timestamp" ts ∧ header_text h "svix-signature" s ∧
    parse_u64 ts = Some n ∧ fresh now n tolerance ∧
    ("v1," +:+ base64_encode (hmac_sha256 key (as_bytes id ++ [Byte.x2e] ++ timestamped ts body)))
      ∈ split_whitespace s.

Lemma walapay_exact self now h body :
  accepts (WalapayVerifier.verify self now h body) ↔
  svix_signed now h body (WalapayVerifier.key self) (WalapayVerifier.tolerance self).
Proof.
  assert (∀ x l, existsb (WalapayVerifier.entry_matches x) l = true ↔ ("v1," +:+ x) ∈ l) as Hent.
  { intros x l. rewrite existsb_exists. setoid_rewrite <- list_elem_of_In. split.
    - intros (e & He & Hm). unfold WalapayVerifier.entry_matches in Hm.
      destruct (strip_prefix "v1," e) as [p|] eqn:Ep; [|done].
      apply strip_prefix_Some in Ep as ->. apply ct_eq_spec, (f_equal of_bytes) in Hm.
      rewrite !of_bytes_as_bytes in Hm. by subst.
    - intros Hin. eexists. split; [exact Hin|]. unfold WalapayVerifier.entry_matches.
      rewrite strip_prefix_app. by apply ct_eq_spec. }
  unfold WalapayVerifier.verify. split.
  - intros Hv. apply or_failed in Hv as (v1 & H1 & Hv). apply or_failed in Hv as (v2 & H2 & Hv).
    apply or_failed in Hv as (v3 & H3 & Hv). apply or_failed in Hv as (id & H1' & Hv).
    apply or_failed in Hv as (ts & H2' & Hv). apply or_failed in Hv as (s & H3' & Hv).
    apply or_failed in Hv as (n & Hn & Hv). apply if_failed in Hv as [Hf%expired_fresh Hv].
    apply final_check, Hent in Hv. exists id, ts, n, s.
    split_and!; [by exists v1|by exists v2|by exists v3|done..].
  - intros (id & ts & n & s & (v1 & H1 & H1') & (v2 & H2 & H2') & (v3 & H3 & H3') & Hn & Hf & Hin).
    rewrite H1, H2, H3, H1', H2', H3', Hn. apply if_failed. split; [by apply expired_fresh|].
    by apply final_check, Hent.
Qed.

(** C20: the timestamped verifiers accept exactly what their schemes sign: Stripe a UTF-8 body and
    Triple-A crypto any body under a header with a fresh last timestamp and a [v1] HMAC of it, a
    dot and the body; Walapay a fresh timestamp and a [v1,] HMAC of id, timestamp and body. *)
Theorem timestamped_hmac_exact now h body :
  (∀ self, accepts (StripeVerifier.verify self now h body) ↔
     utf8_valid body = true ∧
     timestamp_signed now h body "Stripe-Signature" (StripeVerifier.secret self) (StripeVerifier.tolerance self)) ∧
  (∀ self, accepts (TripleACryptoVerifier.verify self now h body) ↔
     timestamp_signed now h body "triplea-signature" (TripleACryptoVerifier.secret self)
       (TripleACryptoVerifier.tolerance self)) ∧
  (∀ self, accepts (WalapayVerifier.verify self now h body) ↔
     svix_signed now h body (WalapayVerifier.key self) (WalapayVerifier.tolerance self)).
Proof.
  split_and!; intros self; [apply stripe_exact|apply triplea_crypto_exact|apply walapay_exact].
Qed.
End schemes.

(** ** Signing, then verifying *)

Lemma split_on_app c s t :
  chars_all (λ a, negb (Ascii.eqb a c)) s = true →
  split_on c (s +:+ String c t) = s :: split_on c t.
Proof.
  induction s as [|a s IH].
  - rewrite str_app_nil. cbn. by rewrite Ascii.eqb_refl.
  - cbn [chars_all]. intros [Ha%negb_true_iff Hs]%andb_prop. rewrite str_app_cons. cbn [split_on].
    by rewrite Ha, IH.
Qed.

Lemma split_on_none c s :
  chars_all (λ a, negb (Ascii.eqb a c)) s = true → split_on c s = [s].
Proof.
  induction s as [|a s IH]; [done|]. cbn [chars_all]. intros [Ha%negb_true_iff Hs]%andb_prop.
  cbn [split_on]. by rewrite Ha, IH.
Qed.

Lemma chars_all_impl p q s :
  (∀ a, p a = true → q a = true) → chars_all p s = true → chars_all q s = true.
Proof.
  intros Hpq. induction s as [|a s IH]; [done|]. cbn. intros [Ha Hs]%andb_prop.
  by rewrite (Hpq a Ha), IH.
Qed.

Lemma chars_all_app p s t : chars_all p (s +:+ t) = chars_all p s && chars_all p t.
Proof.
  induction s as [|a s IH]; [by rewrite str_app_nil|]. rewrite str_app_cons. cbn.
  by rewrite IH, andb_assoc.
Qed.

Definition is_digit (a : ascii) : bool :=
  let n := Z.of_nat (nat_of_ascii a) in (48 <=? n) && (n <=? 57).

Lemma parse_digits_chars acc s n : parse_digits acc s = Some n → chars_all is_digit s = true.
Proof.
  revert acc. induction s as [|a s IH]; intros acc; [done|]. cbn [parse_digits chars_all].
  unfold digit_val. fold (is_digit a). destruct (is_digit a); [|done]. apply IH.
Qed.

(** A timestamp that parses has no separator in it. *)
Lemma parse_u64_chars s n :
  parse_u64 s = Some n → chars_all (λ a, is_digit a || Ascii.eqb a "+") s = true.
Proof.
  assert (∀ t, parse_nat_str t ≫= in_range 0 u64_max = Some n →
               chars_all (λ a, is_digit a || Ascii.eqb a "+") t = true) as Hnat.
  { intros t Ht. apply bind_Some in Ht as (m & Hm & _). unfold parse_nat_str in Hm.
    destruct t as [|a t]; [done|]. apply parse_digits_chars in Hm.
    eapply chars_all_impl; [|exact Hm]. by intros c ->. }
  destruct s as [|a s]; [done|]. intros Hp.
  destruct (decide (a = "+"%char)) as [->|Hne].
  - cbn [chars_all]. change (Ascii.eqb "+" "+") with true. rewrite orb_true_r. by apply Hnat.
  - apply Hnat. rewrite <- Hp. clear -Hne.
    destruct a as [[] [] [] [] [] [] [] []]; first [reflexivity|by destruct Hne].
Qed.

Lemma digit_no_comma a : is_digit a || Ascii.eqb a "+" = true → negb (Ascii.eqb a ",") = true.
Proof. destruct (Ascii.eqb_spec a ","%char) as [->|]; done. Qed.
Lemma hex_no_comma a : is_hex_char a = true → negb (Ascii.eqb a ",") = true.
Proof. destruct (Ascii.eqb_spec a ","%char) as [->|]; done. Qed.

Section sign.
Context `{Codecs} `{Crypto}.

(** What Stripe and Triple-A send. *)
Definition timestamped_header (secret : string) (ts : string) (body : bytes) : string :=
  "t=" +:+ ts +:+ ",v1=" +:+ hex_encode (hmac_sha256 (as_bytes secret) (timestamped ts body)).

Lemma timestamped_header_parts secret ts n body :
  parse_u64 ts = Some n →
  signature_parts (timestamped_header secret ts body) =
  (Some ts, [hex_encode (hmac_sha256 (as_bytes secret) (timestamped ts body))]).
Proof.
  intros Hn. unfold signature_parts, timestamped_header.
  set (hex := hex_encode _).
  assert (chars_all (λ a, negb (Ascii.eqb a ",")) ts = true) as Hts.
  { eapply chars_all_impl; [apply digit_no_comma|]. by eapply parse_u64_chars. }
  assert (chars_all (λ a, negb (Ascii.eqb a ",")) hex = true) as Hhex.
  { eapply chars_all_impl; [apply hex_no_comma|apply hex_encode_chars]. }
  replace ("t=" +:+ ts +:+ ",v1=" +:+ hex) with (("t=" +:+ ts) +:+ String "," ("v1=" +:+ hex)).
  2: { change ("t=" +:+ ts +:+ ",v1=" +:+ hex) with (String "t" (String "=" (ts +:+ String "," ("v1=" +:+ hex)))).
       done. }
  rewrite split_on_app by (rewrite chars_all_app, Hts; done).
  rewrite split_on_none by (rewrite chars_all_app, Hhex; done).
  cbn [foldl]. unfold signature_part at 2. rewrite strip_prefix_app. cbn [snd].
  unfold signature_part.
  assert (strip_prefix "t=" ("v1=" +:+ hex) = None) as -> by done.
  by rewrite strip_prefix_app.
Qed.

(** A request signed by Stripe or Triple-A with the shared secret, at a timestamp within the
    tolerance, is accepted. *)
Theorem timestamped_requests_are_accepted secret ts n now h body :
  parse_u64 ts = Some n → fresh now n (Duration_from_secs DEFAULT_TOLERANCE_SECS) →
  (utf8_valid body = true → header_text h "Stripe-Signature" (timestamped_header secret ts body) →
   accepts (StripeVerifier.verify (StripeVerifier.new "stripe" secret) now h body)) ∧
  (header_text h "triplea-signature" (timestamped_header secret ts body) →
   accepts (TripleACryptoVerifier.verify (TripleACryptoVerifier.new "triplea" secret) now h body)).
Proof.
  intros Hn Hf. pose proof (timestamped_header_parts secret ts n body Hn) as Hparts.
  split.
  - intros Hu Hh. unfold StripeVerifier.verify. apply header_steps. eexists. split; [exact Hh|].
    rewrite Hparts. cbn [bool_decide]. apply if_failed. split; [done|]. rewrite Hn.
    apply if_failed. split; [by apply expired_fresh|]. unfold from_utf8. rewrite Hu.
    apply final_check, any_hex_match_spec. eexists. split; [by apply list_elem_of_singleton|].
    rewrite hex_decode_encode, !as_bytes_app, as_bytes_of_bytes. done.
  - intros Hh. unfold TripleACryptoVerifier.verify. apply header_steps. eexists. split; [exact Hh|].
    rewrite Hparts. apply if_failed. split; [done|]. rewrite Hn.
    apply if_failed. split; [by apply expired_fresh|].
    apply final_check, any_hex_match_spec. eexists. split; [by apply list_elem_of_singleton|].
    by rewrite hex_decode_encode.
Qed.
End sign.

Definition stripe_request (secret ts : string) (body : bytes) : HeaderMap :=
  mkHeaderMap ["stripe-signature"] (λ name,
    if decide (name = "Stripe-Signature")
    then [mkHeaderValue (Some (timestamped_header secret ts body))] else []).

Lemma timestamped_requests_are_accepted_witness :
  accepts (StripeVerifier.verify (StripeVerifier.new "stripe" "whsec") 1700000100
             (stripe_request "whsec" "1700000000" [Byte.x7b; Byte.x7d]) [Byte.x7b; Byte.x7d]).
Proof.
  apply (timestamped_requests_are_accepted "whsec" "1700000000" 1700000000 1700000100
           (stripe_request "whsec" "1700000000" [Byte.x7b; Byte.x7d]) [Byte.x7b; Byte.x7d]).
  - reflexivity.
  - vm_compute. discriminate.
  - reflexivity.
  - eexists. split; reflexivity.
Defined.
