(* ===== verification/Metrics.v ===== *)
(** * The events of the [metrics] crate

    The name, the labels and, for counters and gauges, the value of each event; the durations
    recorded in histograms are not kept. *)

From S2P Require Import Prelude.
Local Open Scope Z_scope.

Inductive Metric : Type :=
| Counter (name : string) (labels : list (string * string)) (increment : Z)
| Histogram (name : string) (labels : list (string * string))
| Gauge (name : string) (labels : list (string * string)) (value : Z).
