(* ===== verification/Pipeline.v ===== *)
(** * crates/hookbox/src/{pipeline,hash}.rs

    The four stages of the ingest, over any storage and any dedupe layer.  The world pairs the
    backends' state with the metrics emitted so far; what the code draws (the receipt id) and
    reads (the two clocks) is an argument. *)

From S2P Require Import Prelude RustStd F64 Types Traits Transitions Metrics.
Local Open Scope Z_scope.
Local Open Scope rust_scope.

(** ** hash.rs *)
Definition compute_payload_hash `{Codecs} `{Crypto} (body : bytes) : string :=
  hex_encode (sha256 body).

(** ** The world of the pipeline: the backends' state and the metrics emitted so far *)

Definition World (W : Type) : Type := (W * list Metric)%type.

Definition counter {W} (name : string) (labels : list (string * string)) : M (World W) unit :=
  λ w, (tt, (w.1, w.2 ++ [Counter name labels 1])).
Definition histogram {W} (name : string) : M (World W) unit :=
  λ w, (tt, (w.1, w.2 ++ [Histogram name []])).
(** A call into a backend. *)
Definition call {W A} (m : M W A) : M (World W) A :=
  λ w, let '(a, w') := m w.1 in (a, (w', w.2)).

(** ** headers_to_json *)
Definition headers_to_json (headers : HeaderMap) : Value :=
  VObject (foldl (λ map key,
    let values := omap to_str (get_all headers key) in
    map_insert key (VString (join ", " values)) map) [] (keys headers)).

Module HookboxPipeline.

Record t (W : Type) : Type := mk {
  storage : Storage W;
  dedupe : DedupeStrategy W;
  emitter_names : list string;
  verifiers : gmap string SignatureVerifier
}.
Arguments mk {W}. Arguments storage {W}. Arguments dedupe {W}. Arguments emitter_names {W}.
Arguments verifiers {W}.

Section ingest.
Context {W : Type} `{SerdeJson} `{Codecs} `{Crypto} (self : t W).

Definition ingest_result (provider label : string) : M (World W) unit :=
  counter "hookbox_ingest_results_total" [("provider", provider); ("result", label)].
Definition verification_result (provider status reason : string) : M (World W) unit :=
  counter "hookbox_verification_results_total"
    [("provider", provider); ("status", status); ("reason", reason)].
Definition ingest_duration : M (World W) unit := histogram "hookbox_ingest_duration_seconds".

Definition dedupe_key (provider payload_hash : string) : string := provider +:+ ":" +:+ payload_hash.

(** Stage 2: the early return with the reason, or the status and reason to store. *)
Definition verify_stage (provider : string) (verify_now : Z) (headers : HeaderMap) (body : bytes) :
    M (World W) (result (VerificationStatus.t * option string) string) :=
  match verifiers self !! provider with
  | Some verifier =>
      let result := verify verifier verify_now headers body in
      match VerificationResult.status result with
      | VerificationStatus.Failed =>
          let reason := unwrap_or (VerificationResult.reason result) "verification_failed" in
          verification_result provider "failed" reason ;;;
          ingest_result provider LABEL_VERIFICATION_FAILED ;;;
          ingest_duration ;;;
          ret (Err reason)
      | VerificationStatus.Verified =>
          verification_result provider "verified"
            (unwrap_or (VerificationResult.reason result) "none") ;;;
          ret (Ok (VerificationStatus.Verified, VerificationResult.reason result))
      | VerificationStatus.Skipped =>
          verification_result provider "skipped"
            (unwrap_or (VerificationResult.reason result) "none") ;;;
          ret (Ok (VerificationStatus.Skipped, VerificationResult.reason result))
      end
  | None =>
      verification_result provider "skipped" "no_verifier_configured" ;;;
      ret (Ok (VerificationStatus.Skipped, Some "no_verifier_configured"))
  end.

(** The receipt of stage 4. *)
Definition build_receipt (receipt_id : ReceiptId.t) (now : DateTime) (provider : string)
    (headers : HeaderMap) (body : bytes) (status : VerificationStatus.t) (reason : option string) :
    WebhookReceipt.t :=
  let payload_hash := compute_payload_hash body in
  {| WebhookReceipt.receipt_id := receipt_id;
     WebhookReceipt.provider_name := provider;
     WebhookReceipt.provider_event_id := None;
     WebhookReceipt.external_reference := None;
     WebhookReceipt.dedupe_key := dedupe_key provider payload_hash;
     WebhookReceipt.payload_hash := payload_hash;
     WebhookReceipt.raw_body := body;
     WebhookReceipt.parsed_payload := json_from_slice body;
     WebhookReceipt.raw_headers := headers_to_json headers;
     WebhookReceipt.normalized_event_type := None;
     WebhookReceipt.verification_status := status;
     WebhookReceipt.verification_reason := reason;
     WebhookReceipt.processing_state := ProcessingState.Stored;
     WebhookReceipt.emit_count := 0;
     WebhookReceipt.last_error := None;
     WebhookReceipt.received_at := now;
     WebhookReceipt.processed_at := None;
     WebhookReceipt.metadata := VObject [] |}.

(** Stage 4. *)
Definition store_stage (provider : string) (receipt : WebhookReceipt.t) :
    M (World W) (result IngestResult.t IngestError.t) :=
  stored <- call (store_with_deliveries (storage self) receipt (emitter_names self)) ;;
  match stored with
  | Err e =>
      ingest_result provider LABEL_STORE_FAILED ;;;
      ingest_duration ;;;
      ret (Err (IngestError.Storage e))
  | Ok store_result =>
      histogram "hookbox_store_duration_seconds" ;;;
      match store_result with
      | StoreResult.Duplicate existing_id =>
          ingest_result provider LABEL_DUPLICATE ;;;
          ingest_duration ;;;
          ret (Ok (IngestResult.Duplicate existing_id))
      | StoreResult.Stored =>
          call (record (dedupe self) (WebhookReceipt.dedupe_key receipt)
                  (WebhookReceipt.payload_hash receipt)) ;;;
          ingest_result provider LABEL_ACCEPTED ;;;
          ingest_duration ;;;
          ret (Ok (IngestResult.Accepted (WebhookReceipt.receipt_id receipt)))
      end
  end.

Definition ingest (receipt_id : ReceiptId.t) (verify_now : Z) (now : DateTime)
    (provider : string) (headers : HeaderMap) (body : bytes) :
    M (World W) (result IngestResult.t IngestError.t) :=
  counter "hookbox_webhooks_received_total" [("provider", provider)] ;;;
  let payload_hash := compute_payload_hash body in
  let key := dedupe_key provider payload_hash in
  verified <- verify_stage provider verify_now headers body ;;
  match verified with
  | Err reason => ret (Ok (IngestResult.VerificationFailed reason))
  | Ok (status, reason) =>
      advisory <- call (check (dedupe self) key payload_hash) ;;
      match advisory with
      | Err e =>
          ingest_result provider LABEL_DEDUPE_FAILED ;;;
          ingest_duration ;;;
          ret (Err (IngestError.Dedupe e))
      | Ok decision =>
          counter "hookbox_dedupe_checks_total"
            [("provider", provider); ("result", dedupe_decision_label decision)] ;;;
          store_stage provider (build_receipt receipt_id now provider headers body status reason)
      end
  end.
End ingest.
End HookboxPipeline.

(** ** The builder; [build] panics ([None]) when the storage or the dedupe layer is missing. *)
Module HookboxPipelineBuilder.

Record t (W : Type) : Type := mk {
  storage : option (Storage W);
  dedupe : option (DedupeStrategy W);
  emitter_names : list string;
  verifiers : gmap string SignatureVerifier
}.
Arguments mk {W}. Arguments storage {W}. Arguments dedupe {W}. Arguments emitter_names {W}.
Arguments verifiers {W}.

Section builder.
Context {W : Type}.

Definition builder : t W := mk None None [] ∅.
Definition with_storage (s : Storage W) (b : t W) : t W :=
  mk (Some s) (dedupe b) (emitter_names b) (verifiers b).
Definition with_dedupe (d : DedupeStrategy W) (b : t W) : t W :=
  mk (storage b) (Some d) (emitter_names b) (verifiers b).
Definition with_emitter_names (names : list string) (b : t W) : t W :=
  mk (storage b) (dedupe b) names (verifiers b).
Definition verifier_boxed (v : SignatureVerifier) (b : t W) : t W :=
  mk (storage b) (dedupe b) (emitter_names b) (<[provider_name v := v]> (verifiers b)).
Definition build (b : t W) : option (HookboxPipeline.t W) :=
  s ← storage b; d ← dedupe b;
  Some (HookboxPipeline.mk s d (emitter_names b) (verifiers b)).
End builder.
End HookboxPipelineBuilder.
