(* ===== verification/PipelineProps.v ===== *)
(** * Properties of the ingest pipeline

    Proved against the storage contract and the advisory dedupe interface of [Traits.v]; at
    the end they are applied to the PostgreSQL backends. *)

From S2P Require Import Prelude RustStd F64 Types Traits Transitions Dedupe Database Samples DatabaseProps Postgres PostgresProps Metrics Pipeline Instances.
Local Open Scope Z_scope.
Local Open Scope rust_scope.

(** ** The dedupe key identifies the provider and the payload hash *)

Section key.
Context `{Codecs} `{Crypto}.

Lemma payload_hash_length b : String.length (compute_payload_hash b) = 64%nat.
Proof. unfold compute_payload_hash. by rewrite hex_encode_length, sha256_length. Qed.

Lemma dedupe_key_inj p1 p2 h1 h2 :
  String.length h1 = String.length h2 →
  HookboxPipeline.dedupe_key p1 h1 = HookboxPipeline.dedupe_key p2 h2 → p1 = p2 ∧ h1 = h2.
Proof.
  intros Hlen Heq. unfold HookboxPipeline.dedupe_key in Heq.
  apply string_app_inj_length in Heq as [-> Heq]; [|by rewrite !string_length_app, Hlen].
  split; [done|]. by injection Heq.
Qed.
End key.

(** ** One run of the pipeline *)

Section ingest.
Context {W : Type} `{SerdeJson} `{Codecs} `{Crypto}.
Variable self : HookboxPipeline.t W.
Context {C : StorageContract (HookboxPipeline.storage self)}
        {A : AdvisoryDedupe (HookboxPipeline.storage self) (HookboxPipeline.dedupe self)}.

Notation inbox := (same_inbox key_owner persisted queued).
Notation accepts := (accepted_transition key_owner persisted queued).

(** What the verifier answers for a request; no verifier means [Skipped]. *)
Definition verdict (provider : string) (t : Z) (headers : HeaderMap) (body : bytes) :
    VerificationResult.t :=
  match HookboxPipeline.verifiers self !! provider with
  | Some v => verify v t headers body
  | None => VerificationResult.mk VerificationStatus.Skipped (Some "no_verifier_configured")
  end.

(** The receipt the pipeline builds for a request. *)
Definition receipt_of (id : ReceiptId.t) (t : Z) (now : DateTime) (provider : string)
    (headers : HeaderMap) (body : bytes) : WebhookReceipt.t :=
  HookboxPipeline.build_receipt id now provider headers body
    (VerificationResult.status (verdict provider t headers body))
    (VerificationResult.reason (verdict provider t headers body)).

Lemma verify_stage_spec provider t headers body w ms :
  match HookboxPipeline.verify_stage self provider t headers body (w, ms) with
  | (Err reason, (w', _)) =>
      w' = w ∧ VerificationResult.status (verdict provider t headers body) = VerificationStatus.Failed ∧
      reason = unwrap_or (VerificationResult.reason (verdict provider t headers body)) "verification_failed"
  | (Ok (status, reason), (w', _)) =>
      w' = w ∧ status ≠ VerificationStatus.Failed ∧
      verdict provider t headers body = VerificationResult.mk status reason
  end.
Proof.
  unfold HookboxPipeline.verify_stage, verdict.
  destruct (HookboxPipeline.verifiers self !! provider) as [v|]; [|by cbn].
  by destruct (verify v t headers body) as [[] reason].
Qed.

(** Everything one call can do to the inbox. *)
Definition outcome (id : ReceiptId.t) (t : Z) (now : DateTime) (provider : string)
    (headers : HeaderMap) (body : bytes) (w : W)
    (res : result IngestResult.t IngestError.t) (w' : W) : Prop :=
  let r := receipt_of id t now provider headers body in
  let names := HookboxPipeline.emitter_names self in
  let failed := VerificationResult.status (verdict provider t headers body) = VerificationStatus.Failed in
  match res with
  | Ok (IngestResult.Accepted id') => id' = id ∧ ¬ failed ∧ accepts r names w w'
  | Ok (IngestResult.Duplicate id') =>
      ¬ failed ∧ key_owner w (WebhookReceipt.dedupe_key r) = Some id' ∧ inbox w w'
  | Ok (IngestResult.VerificationFailed _) => failed ∧ w' = w
  | Err (IngestError.Dedupe _) => ¬ failed ∧ inbox w w'
  | Err (IngestError.Storage _) => ¬ failed ∧ (inbox w w' ∨ accepts r names w w')
  | Err _ => False
  end.

Lemma store_stage_spec provider r w ms :
  let names := HookboxPipeline.emitter_names self in
  match HookboxPipeline.store_stage self provider r (w, ms) with
  | (Ok (IngestResult.Accepted id), (w', _)) =>
      id = WebhookReceipt.receipt_id r ∧ accepts r names w w'
  | (Ok (IngestResult.Duplicate id), (w', _)) =>
      key_owner w (WebhookReceipt.dedupe_key r) = Some id ∧ inbox w w'
  | (Err (IngestError.Storage _), (w', _)) => inbox w w' ∨ accepts r names w w'
  | _ => False
  end.
Proof.
  intros names. unfold HookboxPipeline.store_stage, bind, call. cbn [fst snd].
  pose proof (store_with_deliveries_spec r (HookboxPipeline.emitter_names self) w) as Hspec.
  destruct (store_with_deliveries _ r _ w) as [[[|id]|e] w1]; cbn.
  - pose proof (record_frame (WebhookReceipt.dedupe_key r) (WebhookReceipt.payload_hash r) w1) as Hrec.
    destruct (record _ _ _ w1) as [u w2]. cbn in Hrec |- *. split; [done|]. by rewrite <- Hrec.
  - done.
  - done.
Qed.

Lemma ingest_outcome id t now provider headers body w ms res w' ms' :
  HookboxPipeline.ingest self id t now provider headers body (w, ms) = (res, (w', ms')) →
  outcome id t now provider headers body w res w'.
Proof.
  unfold HookboxPipeline.ingest, bind at 1. cbn [counter fst snd]. unfold bind at 1.
  match goal with |- context [HookboxPipeline.verify_stage self provider t headers body (?w0, ?ms0)] =>
    pose proof (verify_stage_spec provider t headers body w0 ms0) as Hv;
    destruct (HookboxPipeline.verify_stage self provider t headers body (w0, ms0))
      as [[[status reason]|reason] [w1 ms1]] end.
  2: { destruct Hv as (-> & Hst & ->). by intros [= <- <- <-]. }
  destruct Hv as (-> & Hst & Hverdict).
  assert (receipt_of id t now provider headers body =
          HookboxPipeline.build_receipt id now provider headers body status reason) as Hr
    by (unfold receipt_of; by rewrite Hverdict).
  unfold bind at 1, call. cbn [fst snd].
  pose proof (check_frame (HookboxPipeline.dedupe_key provider (compute_payload_hash body))
    (compute_payload_hash body) w) as Hc.
  destruct (check _ _ _ w) as [[decision|e] w2]; cbn [snd] in Hc; unfold bind; cbn [counter fst snd].
  2: { intros [= <- <- <-]. unfold outcome. by rewrite Hverdict. }
  intros Hrun.
  match type of Hrun with HookboxPipeline.store_stage self provider ?r (w2, ?ms2) = _ =>
    pose proof (store_stage_spec provider r w2 ms2) as Hs end.
  rewrite Hrun in Hs. cbn zeta in Hs.
  unfold outcome. rewrite Hr, Hverdict. cbn [VerificationResult.status].
  destruct res as [[id'|id'|reason']|[e|e|e|e]]; try done.
  - destruct Hs as [-> Hs]. split_and!; [done..|]. by rewrite Hc.
  - destruct Hs as [Hk Hs]. split_and!; [done| |by etrans].
    destruct Hc as [Hko _]. by rewrite <- Hko.
  - split; [done|]. destruct Hs as [Hs|Hs]; [left; by etrans|right; by rewrite Hc].
Qed.

(** ** Theorems *)

(** C1: [Accepted] means durable: the returned id is the receipt's, the event's key was new and
    is now owned by that receipt, the receipt with the exact body is stored, and one delivery
    per configured emitter is queued, in order, together with it. *)
Theorem accepted_webhook_is_durable id t now provider headers body w ms id' w' ms' :
  HookboxPipeline.ingest self id t now provider headers body (w, ms) =
    (Ok (IngestResult.Accepted id'), (w', ms')) →
  let r := receipt_of id t now provider headers body in
  id' = id ∧
  WebhookReceipt.raw_body r = body ∧
  WebhookReceipt.verification_status r ≠ VerificationStatus.Failed ∧
  key_owner w (WebhookReceipt.dedupe_key r) = None ∧
  key_owner w' (WebhookReceipt.dedupe_key r) = Some id ∧
  persisted w' r ∧
  (∀ r', persisted w r' → persisted w' r') ∧
  queued w' = queued w ++ map (λ n, (id, n)) (HookboxPipeline.emitter_names self).
Proof.
  intros (-> & Hnf & Hn & Hk & Hp & Hmono & Hq)%ingest_outcome r.
  split_and!; try done. rewrite Hk. by rewrite decide_True.
Qed.

(** C2: an event whose key is already owned is never stored or queued again, whatever its
    headers, its clock, the verifier's answer and the faults of the backends; when the call
    succeeds past verification it returns the id of the first receipt. *)
Theorem repeated_webhook_is_not_queued_again id t now provider headers body w ms res w' ms' id1 :
  key_owner w (HookboxPipeline.dedupe_key provider (compute_payload_hash body)) = Some id1 →
  HookboxPipeline.ingest self id t now provider headers body (w, ms) = (res, (w', ms')) →
  queued w' = queued w ∧ (∀ r, persisted w' r ↔ persisted w r) ∧
  match res with
  | Ok (IngestResult.Accepted _) => False
  | Ok (IngestResult.Duplicate id') => id' = id1
  | _ => True
  end.
Proof.
  intros Hk Hrun%ingest_outcome. unfold outcome in Hrun.
  assert (∀ r names, WebhookReceipt.dedupe_key r =
            HookboxPipeline.dedupe_key provider (compute_payload_hash body) →
            accepts r names w w' → False) as Hno.
  { intros r names Hr (Hn & _). congruence. }
  destruct res as [[id'|id'|reason]|[e|e|e|e]]; try done.
  - destruct Hrun as (_ & _ & Ha). exfalso. eapply Hno; [|exact Ha]. done.
  - destruct Hrun as (_ & Hk' & _ & Hp & Hq). cbn in Hk'. split_and!; [done..|congruence].
  - by destruct Hrun as (_ & ->).
  - destruct Hrun as (_ & [(_ & Hp & Hq)|Ha]); [done|]. exfalso. eapply Hno; [|exact Ha]. done.
  - by destruct Hrun as (_ & _ & Hp & Hq).
Qed.

(** C3: a webhook is rejected exactly when a verifier is registered for its provider and
    answers [Failed]; then neither the storage nor the dedupe layer is called. *)
Theorem rejected_webhook_leaves_no_trace id t now provider headers body w ms res w' ms' :
  HookboxPipeline.ingest self id t now provider headers body (w, ms) = (res, (w', ms')) →
  ((∃ reason, res = Ok (IngestResult.VerificationFailed reason)) ↔
   (∃ v, HookboxPipeline.verifiers self !! provider = Some v ∧
         VerificationResult.status (verify v t headers body) = VerificationStatus.Failed)) ∧
  (∀ reason, res = Ok (IngestResult.VerificationFailed reason) → w' = w).
Proof.
  intros Hrun%ingest_outcome. unfold outcome in Hrun.
  assert ((∃ v, HookboxPipeline.verifiers self !! provider = Some v ∧
           VerificationResult.status (verify v t headers body) = VerificationStatus.Failed) ↔
          VerificationResult.status (verdict provider t headers body) = VerificationStatus.Failed) as Hiff.
  { unfold verdict. destruct (HookboxPipeline.verifiers self !! provider); naive_solver. }
  rewrite Hiff. destruct res as [[id'|id'|reason]|[e|e|e|e]]; naive_solver.
Qed.
End ingest.

(** The accepting run. *)
Section accepting.
Context {W : Type} `{SerdeJson} `{Codecs} `{Crypto}.
Variable self : HookboxPipeline.t W.

Lemma ingest_accepts id t now provider headers body w ms d w2 w3 :
  VerificationResult.status (verdict self provider t headers body) ≠ VerificationStatus.Failed →
  check (HookboxPipeline.dedupe self)
    (HookboxPipeline.dedupe_key provider (compute_payload_hash body))
    (compute_payload_hash body) w = (Ok d, w2) →
  store_with_deliveries (HookboxPipeline.storage self) (receipt_of self id t now provider headers body)
    (HookboxPipeline.emitter_names self) w2 = (Ok StoreResult.Stored, w3) →
  (HookboxPipeline.ingest self id t now provider headers body (w, ms)).1 =
    Ok (IngestResult.Accepted id).
Proof.
  intros Hv Hc Hs. unfold HookboxPipeline.ingest, bind at 1. cbn [counter fst snd]. unfold bind at 1.
  match goal with |- context [HookboxPipeline.verify_stage self provider t headers body (?w0, ?ms0)] =>
    pose proof (verify_stage_spec self provider t headers body w0 ms0) as Hst;
    destruct (HookboxPipeline.verify_stage self provider t headers body (w0, ms0))
      as [[[status reason]|reason] [w1 ms1]] end; [|by destruct Hst as (_ & Hst & _)].
  destruct Hst as (-> & _ & Hverdict). unfold receipt_of in Hs. rewrite Hverdict in Hs.
  cbn [VerificationResult.status VerificationResult.reason] in Hs.
  unfold bind at 1, call at 1. cbn [fst snd]. rewrite Hc. unfold bind at 1. cbn [counter fst snd].
  unfold HookboxPipeline.store_stage, bind, call. cbn [fst snd] in *. rewrite Hs. cbn.
  by destruct (record _ _ _ w3).
Qed.

(** The run that a layer refuses. *)
Lemma ingest_refused id t now provider headers body w ms c w2 e w3 :
  VerificationResult.status (verdict self provider t headers body) ≠ VerificationStatus.Failed →
  check (HookboxPipeline.dedupe self)
    (HookboxPipeline.dedupe_key provider (compute_payload_hash body))
    (compute_payload_hash body) w = (c, w2) →
  store_with_deliveries (HookboxPipeline.storage self) (receipt_of self id t now provider headers body)
    (HookboxPipeline.emitter_names self) w2 = (Err e, w3) →
  ∃ e' w' ms', HookboxPipeline.ingest self id t now provider headers body (w, ms) = (Err e', (w', ms')) ∧
               (w' = w2 ∨ w' = w3).
Proof.
  intros Hv Hc Hs. unfold HookboxPipeline.ingest, bind at 1. cbn [counter fst snd]. unfold bind at 1.
  match goal with |- context [HookboxPipeline.verify_stage self provider t headers body (?w0, ?ms0)] =>
    pose proof (verify_stage_spec self provider t headers body w0 ms0) as Hst;
    destruct (HookboxPipeline.verify_stage self provider t headers body (w0, ms0))
      as [[[status reason]|reason] [w1 ms1]] end; [|by destruct Hst as (_ & Hst & _)].
  destruct Hst as (-> & _ & Hverdict). unfold receipt_of in Hs. rewrite Hverdict in Hs.
  cbn [VerificationResult.status VerificationResult.reason] in Hs.
  unfold bind at 1, call at 1. cbn [fst snd]. rewrite Hc. destruct c as [d|e0].
  - unfold bind at 1. cbn [counter fst snd].
    unfold HookboxPipeline.store_stage, bind, call. cbn [fst snd] in *. rewrite Hs. cbn. eauto 10.
  - unfold bind. cbn. eauto 10.
Qed.
End accepting.

Section metrics.
Context {W : Type} `{SerdeJson} `{Codecs} `{Crypto}.
Variable self : HookboxPipeline.t W.

Definition is_ingest_result (m : Metric) : bool :=
  match m with
  | Counter name _ _ => bool_decide (name = "hookbox_ingest_results_total")
  | _ => false
  end.

(** The label of a result. *)
Definition result_label (res : result IngestResult.t IngestError.t) : string :=
  match res with
  | Ok (IngestResult.Accepted _) => LABEL_ACCEPTED
  | Ok (IngestResult.Duplicate _) => LABEL_DUPLICATE
  | Ok (IngestResult.VerificationFailed _) => LABEL_VERIFICATION_FAILED
  | Err (IngestError.Storage _) => LABEL_STORE_FAILED
  | Err _ => LABEL_DEDUPE_FAILED
  end.

(** Every call increments [hookbox_ingest_results_total] exactly once, with the provider
    and the label of the result it returns, whatever the backends do. *)
Theorem ingest_counts_one_result id t now provider headers body w ms :
  ∃ res w' new,
    HookboxPipeline.ingest self id t now provider headers body (w, ms) = (res, (w', ms ++ new)) ∧
    List.filter is_ingest_result new =
      [Counter "hookbox_ingest_results_total" [("provider", provider); ("result", result_label res)] 1] ∧
    result_label res ∈ INGEST_RESULT_LABELS.
Proof.
  assert (∀ (m1 m2 : list Metric) x, (m1 ++ m2) ++ [x] = m1 ++ (m2 ++ [x])) as Hassoc
    by (intros; by rewrite app_assoc).
  unfold HookboxPipeline.ingest, HookboxPipeline.store_stage, HookboxPipeline.verify_stage,
    HookboxPipeline.ingest_result, HookboxPipeline.verification_result,
    HookboxPipeline.ingest_duration, bind, call, ret, counter, histogram.
  cbn [fst snd].
  destruct (HookboxPipeline.verifiers self !! provider) as [v|];
    [destruct (verify v t headers body) as [[] reason]; cbn [VerificationResult.status fst snd]|];
    cbn [fst snd].
  all: try (destruct (check _ _ _ w) as [[decision|e] w2]; cbn [fst snd];
    [destruct (store_with_deliveries _ _ _ w2) as [[[|id']|e] w3]; cbn [fst snd];
     [destruct (record _ _ _ w3) as [u w4]; cbn [fst snd]|..]|]).
  all: rewrite !Hassoc; eexists _, _, _; (split; [rewrite <- ?app_assoc; reflexivity|]);
    split; [reflexivity|]; enum_name.
Qed.
End metrics.

(** ** Invariants of the backends

    What the three calls of the pipeline keep, the pipeline keeps. *)
Section invariant.
Context {W : Type} `{SerdeJson} `{Codecs} `{Crypto}.
Variable self : HookboxPipeline.t W.
Variable I : W → Prop.

Lemma ingest_invariant id t now provider headers body w ms :
  let hash := compute_payload_hash body in
  let key := HookboxPipeline.dedupe_key provider hash in
  (∀ w, I w → I (check (HookboxPipeline.dedupe self) key hash w).2) →
  (∀ w, I w → I (record (HookboxPipeline.dedupe self) key hash w).2) →
  (∀ st reason w, I w →
     I (store_with_deliveries (HookboxPipeline.storage self)
          (HookboxPipeline.build_receipt id now provider headers body st reason)
          (HookboxPipeline.emitter_names self) w).2) →
  I w → I (HookboxPipeline.ingest self id t now provider headers body (w, ms)).2.1.
Proof.
  intros hash key Hc Hr Hs Hw.
  assert (I (HookboxPipeline.verify_stage self provider t headers body
            (w, ms ++ [Counter "hookbox_webhooks_received_total" [("provider", provider)] 1])).2.1) as Hv.
  { unfold HookboxPipeline.verify_stage.
    destruct (HookboxPipeline.verifiers self !! provider) as [v|]; [|done].
    by destruct (verify v t headers body) as [[] reason]. }
  unfold HookboxPipeline.ingest, bind at 1. cbn [counter fst snd]. unfold bind at 1.
  destruct (HookboxPipeline.verify_stage self provider t headers body _)
    as [[[st reason]|reason] [w1 ms1]]; [|done]. cbn [fst snd] in Hv.
  unfold bind at 1, call at 1. cbn [fst snd]. specialize (Hc w1 Hv).
  fold hash key. destruct (check _ key hash w1) as [[d|e] w2]; cbn [snd] in Hc; [|done].
  unfold bind at 1. cbn [counter fst snd].
  unfold HookboxPipeline.store_stage, bind at 1, call at 1. cbn [fst snd].
  specialize (Hs st reason w2 Hc).
  destruct (store_with_deliveries _ _ _ w2) as [[[|id']|e] w3]; cbn [snd] in Hs; [|done..].
  specialize (Hr w3 Hs). unfold bind, call. cbn. subst key hash.
  by destruct (record _ _ _ w3) as [u w4].
Qed.
End invariant.
