(* ===== verification/Node.v ===== *)
(** * A server process over PostgreSQL

    The composition of [crates/hookbox-server/src/serve.rs], [build_pipeline]: the pipeline
    over [PostgresStorage], with the layered dedupe of the in-memory cache over
    [StorageDedupe].  The world of a process is its database session and its cache. *)

From S2P Require Import Prelude RustStd F64 Types Traits Transitions Dedupe Database Samples DatabaseProps Postgres PostgresProps Pipeline PipelineProps Instances.
Local Open Scope Z_scope.

Record Node : Type := mkNode { pg : Pg; cache : InMemoryRecentDedupe.Inner }.

Definition set_cache (i : InMemoryRecentDedupe.Inner) (n : Node) : Node := mkNode (pg n) i.

(** A call on the session of the process. *)
Definition on_pg {A} (m : M Pg A) : M Node A :=
  λ n, let '(a, w) := m (pg n) in (a, mkNode w (cache n)).

Section node.
Context `{SerdeJson} `{PgTypes} `{UuidText} `{Codecs} `{Crypto}.

Definition node_storage : Storage Node :=
  {| Traits.store := λ r, on_pg (PostgresStorage.store r);
     Traits.get := λ id, on_pg (PostgresStorage.get id);
     Traits.update_state := λ id s e, on_pg (PostgresStorage.update_state id s e);
     Traits.query := λ f, on_pg (PostgresStorage.query f);
     Traits.store_with_deliveries := λ r names, on_pg (PostgresStorage.store_with_deliveries r names) |}.

Definition node_storage_dedupe : DedupeStrategy Node :=
  {| Traits.check := λ k h, on_pg (StorageDedupe.check k h);
     Traits.record := λ k h, on_pg (StorageDedupe.record k h) |}.

Definition node_dedupe (lru_capacity : nat) : LayeredDedupe.t Node :=
  LayeredDedupe.mk (InMemoryRecentDedupe.strategy lru_capacity cache set_cache) node_storage_dedupe.

(** [build_pipeline]: the builder is given the storage, the dedupe layers, the emitter names of
    the configuration and the verifiers one by one; a cache of capacity zero panics ([None]). *)
Definition build_pipeline (lru_capacity : nat) (emitters : list string)
    (verifiers : list SignatureVerifier) : option (HookboxPipeline.t Node) :=
  lru ← InMemoryRecentDedupe.new lru_capacity;
  let builder :=
    HookboxPipelineBuilder.with_emitter_names emitters
      (HookboxPipelineBuilder.with_dedupe
         (LayeredDedupe.strategy (node_dedupe (InMemoryRecentDedupe.capacity lru)))
         (HookboxPipelineBuilder.with_storage node_storage HookboxPipelineBuilder.builder)) in
  HookboxPipelineBuilder.build
    (foldl (λ b v, HookboxPipelineBuilder.verifier_boxed v b) builder verifiers).

(** ** The interfaces are met *)

#[export] Instance node_contract : StorageContract node_storage.
Proof.
  refine {| key_owner := λ n, pg_key_owner (pg n); persisted := λ n, pg_persisted (pg n);
            queued := λ n, pg_queued (pg n) |}.
  intros r names n. cbn [store_with_deliveries node_storage on_pg].
  pose proof (store_with_deliveries_spec (StorageContract := postgres_contract) r names (pg n)) as Hs.
  cbn [store_with_deliveries PostgresStorage.storage] in Hs. unfold on_pg.
  destruct (PostgresStorage.store_with_deliveries r names (pg n)) as [[[|id]|e] w']; exact Hs.
Defined.

#[export] Instance node_cache_advisory capacity :
  AdvisoryDedupe node_storage (InMemoryRecentDedupe.strategy capacity cache set_cache).
Proof.
  split; intros k h n; cbn [Traits.check Traits.record InMemoryRecentDedupe.strategy].
  - by destruct (InMemoryRecentDedupe.check k h (cache n)).
  - by destruct (InMemoryRecentDedupe.record capacity k h (cache n)).
Qed.

#[export] Instance node_storage_dedupe_advisory : AdvisoryDedupe node_storage node_storage_dedupe.
Proof.
  split; intros k h n; cbn [Traits.check Traits.record node_storage_dedupe]; unfold on_pg.
  - pose proof (check_frame (AdvisoryDedupe := storage_dedupe_advisory) k h (pg n)) as Hf.
    cbn [Traits.check StorageDedupe.strategy] in Hf.
    by destruct (StorageDedupe.check k h (pg n)).
  - done.
Qed.

#[export] Instance node_dedupe_advisory capacity :
  AdvisoryDedupe node_storage (LayeredDedupe.strategy (node_dedupe capacity)).
Proof. apply LayeredDedupe.strategy_advisory; apply _. Qed.

(** The pipeline [build_pipeline] returns: a later verifier replaces an earlier one of the same
    provider. *)
Definition register (verifiers : list SignatureVerifier) : gmap string SignatureVerifier :=
  foldl (λ m v, <[provider_name v := v]> m) ∅ verifiers.

Definition node_pipeline (lru_capacity : nat) (emitters : list string)
    (verifiers : list SignatureVerifier) : HookboxPipeline.t Node :=
  HookboxPipeline.mk node_storage (LayeredDedupe.strategy (node_dedupe lru_capacity)) emitters
    (register verifiers).

Lemma build_pipeline_result lru_capacity emitters verifiers :
  build_pipeline lru_capacity emitters verifiers =
  if decide (0 < lru_capacity)%nat then Some (node_pipeline lru_capacity emitters verifiers) else None.
Proof.
  unfold build_pipeline, InMemoryRecentDedupe.new.
  destruct (decide _) as [Hpos|]; cbn [mbind option_bind]; [|done].
  assert (∀ l (s : option (Storage Node)) d names m,
    foldl (λ b v, HookboxPipelineBuilder.verifier_boxed v b)
      (HookboxPipelineBuilder.mk s d names m) l =
    HookboxPipelineBuilder.mk s d names
      (foldl (λ m v, <[provider_name v := v]> m) m l :> gmap string SignatureVerifier)) as Hf.
  { induction l as [|v l IH]; intros s d names m; [done|]. cbn. by rewrite <- IH. }
  unfold HookboxPipelineBuilder.with_emitter_names, HookboxPipelineBuilder.with_dedupe,
    HookboxPipelineBuilder.with_storage, HookboxPipelineBuilder.builder. cbn.
  by rewrite Hf.
Qed.

(** ** The advisory answer [Conflict] *)

(** A dedupe key the pipeline makes from a 64-digit hash. *)
Definition pipeline_key (key hash : string) : Prop :=
  String.length hash = 64%nat ∧ ∃ provider, key = HookboxPipeline.dedupe_key provider hash.

(** Every key of the table and of the cache is one. *)
Definition keyed (n : Node) : Prop :=
  Forall (λ row, pipeline_key (ReceiptRow.dedupe_key row) (ReceiptRow.payload_hash row))
    (webhook_receipts (db (pg n))) ∧
  map_Forall pipeline_key (InMemoryRecentDedupe.map (cache n)).

Lemma pipeline_key_inj k h1 h2 : pipeline_key k h1 → pipeline_key k h2 → h1 = h2.
Proof.
  intros [L1 [p1 ->]] [L2 [p2 Heq]]. apply dedupe_key_inj in Heq as [_ ->]; [done|congruence].
Qed.

Lemma pipeline_key_of provider body :
  pipeline_key (HookboxPipeline.dedupe_key provider (compute_payload_hash body))
    (compute_payload_hash body).
Proof. split; [apply payload_hash_length|eauto]. Qed.

Lemma keyed_check capacity k h n :
  keyed n → keyed (LayeredDedupe.check (node_dedupe capacity) k h n).2.
Proof.
  intros Hn. unfold LayeredDedupe.check, bind_try, bind. cbn.
  assert (InMemoryRecentDedupe.check k h (cache n) =
          ((InMemoryRecentDedupe.check k h (cache n)).1, cache n)) as Hpure.
  { unfold InMemoryRecentDedupe.check. by repeat case_match. }
  rewrite Hpure. destruct (InMemoryRecentDedupe.check k h (cache n)).1 as [[]|e]; try done.
  unfold on_pg. cbn.
  pose proof (storage_dedupe_check_db k h (pg n)) as Hdb.
  destruct (StorageDedupe.check k h (pg n)) as [r w]. cbn in *. destruct Hn as [H1' H2'].
  split; cbn; [by rewrite Hdb|done].
Qed.

Lemma keyed_record capacity k h n :
  pipeline_key k h → keyed n → keyed (LayeredDedupe.record (node_dedupe capacity) k h n).2.
Proof.
  intros Hk [Ht Hc]. unfold LayeredDedupe.record, bind_try, bind. cbn.
  unfold InMemoryRecentDedupe.record.
  destruct (InMemoryRecentDedupe.map (cache n) !! k) eqn:E; cbn; [by split|].
  split; cbn; [done|]. apply map_Forall_insert_2; [done|].
  unfold InMemoryRecentDedupe.evict. destruct (decide _); [|done].
  destruct (InMemoryRecentDedupe.order (cache n)); [done|]. cbn. by apply map_Forall_delete.
Qed.

Lemma keyed_store r names n :
  pipeline_key (WebhookReceipt.dedupe_key r) (WebhookReceipt.payload_hash r) →
  keyed n → keyed (on_pg (PostgresStorage.store_with_deliveries r names) n).2.
Proof.
  intros Hk [Ht Hc]. unfold on_pg.
  destruct (PostgresStorage.store_with_deliveries r names (pg n)) as [res w'] eqn:E.
  apply store_with_deliveries_inv in E. split; cbn; [|done].
  assert (commits r names (now (clock (pg n))) (db (pg n)) (db w') →
    Forall (λ row, pipeline_key (ReceiptRow.dedupe_key row) (ReceiptRow.payload_hash row))
      (webhook_receipts (db w'))) as Hcom.
  { intros [(_ & _ & new & -> & _) _]. cbn. apply Forall_app. split; [done|].
    by apply Forall_singleton. }
  destruct res as [[|id]|e]; [auto|by destruct E as [-> _]|destruct E as [->|E]; auto].
Qed.

(** C17: the advisory answer [Conflict] cannot happen in a server process: a dedupe key contains
    the payload hash, so a known key has the hash it is checked with; and [ingest] keeps the
    table and the cache that way, under any faults. *)
Theorem conflict_is_unreachable capacity emitters verifiers provider body n :
  keyed n →
  (check (HookboxPipeline.dedupe (node_pipeline capacity emitters verifiers))
     (HookboxPipeline.dedupe_key provider (compute_payload_hash body))
     (compute_payload_hash body) n).1 ≠ Ok DedupeDecision.Conflict ∧
  ∀ id t now headers ms,
    keyed (HookboxPipeline.ingest (node_pipeline capacity emitters verifiers) id t now provider
             headers body (n, ms)).2.1.
Proof.
  intros Hn. pose proof (pipeline_key_of provider body) as Hkey. split.
  - cbn. unfold LayeredDedupe.check, bind_try, bind. cbn.
    unfold InMemoryRecentDedupe.check.
    destruct Hn as [Ht Hc].
    destruct (InMemoryRecentDedupe.map (cache n) !! _) as [h|] eqn:E; cbn.
    + apply Hc in E. rewrite (pipeline_key_inj _ _ _ E Hkey). by rewrite decide_True.
    + intros Hconf. unfold on_pg in Hconf. cbn [pg set_cache] in Hconf.
      assert ((StorageDedupe.check (HookboxPipeline.dedupe_key provider (compute_payload_hash body))
                 (compute_payload_hash body) (pg n)).1 = Ok DedupeDecision.Conflict) as Hc'
        by (by destruct (StorageDedupe.check _ _ (pg n))).
      apply storage_dedupe_conflict in Hc' as (row & Hin & Hk & Hne).
      rewrite Forall_forall in Ht. specialize (Ht row Hin). rewrite Hk in Ht.
      exact (Hne (pipeline_key_inj _ _ _ Ht Hkey)).
  - intros id t now headers ms. apply (ingest_invariant _ keyed); [| | |done].
    + intros n'. apply keyed_check.
    + intros n'. by apply keyed_record.
    + intros st reason n'. by apply keyed_store.
Qed.

(** ** A new webhook is accepted when nothing fails *)

Lemma node_check_healthy capacity k h n :
  healthy (pg n) →
  ∃ d n', check (LayeredDedupe.strategy (node_dedupe capacity)) k h n = (d, n') ∧
          advanced (pg n) (pg n') ∧ (no_nul k = true → ∃ d', d = Ok d').
Proof.
  intros Hn. cbn. unfold LayeredDedupe.check, bind_try, bind. cbn.
  assert (∃ d, InMemoryRecentDedupe.check k h (cache n) = (Ok d, cache n)) as [d ->].
  { unfold InMemoryRecentDedupe.check. repeat case_match; eauto. }
  destruct d; [|by eexists _, _; (split; [reflexivity|]); (split; [reflexivity|]); eauto..].
  unfold on_pg, StorageDedupe.check, bind. cbn [pg set_cache].
  rewrite execute_healthy by done. unfold select_hash_by_key. destruct (no_nul k) eqn:Hk.
  - rewrite bind_text_run by (cbn; by rewrite Hk). unfold read. rewrite set_db_same.
    destruct (List.find _ _) as [row|]; cbn; [destruct (decide _)|];
      eexists _, _; (split; [reflexivity|]); (split; [apply advanced_tick|]); eauto.
  - rewrite bind_text_refused by (cbn; by rewrite Hk).
    eexists _, _. split; [reflexivity|]. split; [apply advanced_tick|done].
Qed.

(** The receipts PostgreSQL can store, among those the pipeline builds. *)
Lemma no_nul_plain s : chars_all is_hex_char s = true → no_nul s = true.
Proof.
  unfold no_nul. induction s as [|a s IH]; [done|]. cbn. intros [Ha Hs]%andb_prop. rewrite IH by done.
  destruct (Ascii.eqb_spec a "000") as [->|]; [done|reflexivity].
Qed.
Lemma no_nul_app s s' : no_nul (s +:+ s') = no_nul s && no_nul s'.
Proof.
  unfold no_nul. induction s as [|a s IH]; [done|]. rewrite str_app_cons. cbn. by rewrite IH, andb_assoc.
Qed.
Lemma no_nul_key provider body :
  no_nul (HookboxPipeline.dedupe_key provider (compute_payload_hash body)) = no_nul provider.
Proof.
  unfold HookboxPipeline.dedupe_key, compute_payload_hash. rewrite !no_nul_app.
  rewrite (no_nul_plain (hex_encode _)) by apply hex_encode_chars. by rewrite !andb_true_r.
Qed.

(** A NUL in the provider of the path or in a string of the body. *)
Definition carries_nul (provider : string) (body : bytes) : bool :=
  negb (no_nul provider) || match json_from_slice body with Some v => negb (json_no_nul v) | None => false end.
(** Plain texts: no NUL, numbers of few digits, and a provider that fits the index. *)
Definition plain_request (r : WebhookReceipt.t) : bool :=
  no_nul (WebhookReceipt.provider_name r) && (String.length (WebhookReceipt.provider_name r) <=? 1900)%nat &&
  match WebhookReceipt.verification_reason r with Some s => no_nul s | None => true end &&
  match WebhookReceipt.parsed_payload r with Some v => json_exact v | None => true end &&
  json_exact (WebhookReceipt.raw_headers r).

Lemma json_exact_accepted v : json_exact v = true → accepts_json v = true.
Proof. intros Hv. unfold accepts_json. by rewrite jsonb_exact. Qed.

Lemma carries_nul_not_storable self id t now provider headers body :
  carries_nul provider body = true → storable (receipt_of (W := Node) self id t now provider headers body) = false.
Proof.
  intros [Hp%negb_true_iff|Hb]%orb_prop; unfold storable, storable_row, accepted_row.
  - assert (texts_ok (row_texts (bound_receipt (receipt_of self id t now provider headers body))) = false) as -> by
      (cbn -[no_nul]; by rewrite Hp).
    done.
  - unfold accepts_columns. cbn [bound_receipt receipt_row receipt_of HookboxPipeline.build_receipt
      ReceiptRow.parsed_payload WebhookReceipt.parsed_payload].
    destruct (json_from_slice body) as [v|]; [|done]. apply negb_true_iff in Hb.
    unfold accepts_json at 1. rewrite jsonb_nul by done. cbn. by rewrite andb_false_r.
Qed.

Lemma plain_request_storable self id t now provider headers body :
  plain_request (receipt_of (W := Node) self id t now provider headers body) = true →
  storable (receipt_of self id t now provider headers body) = true.
Proof.
  unfold plain_request. cbn [receipt_of HookboxPipeline.build_receipt WebhookReceipt.provider_name
    WebhookReceipt.verification_reason WebhookReceipt.parsed_payload WebhookReceipt.raw_headers].
  set (v := verdict self provider t headers body).
  intros [[[[Hp Hl%Nat.leb_le]%andb_prop Hr]%andb_prop Hb]%andb_prop Hh]%andb_prop.
  pose proof (payload_hash_length body) as Hlen.
  pose proof (no_nul_key provider body) as Hkey. rewrite Hp in Hkey.
  assert (no_nul (compute_payload_hash body) = true) as Hhash by apply no_nul_plain, hex_encode_chars.
  assert (texts_ok (row_texts (bound_receipt (receipt_of self id t now provider headers body))) = true) as Ht.
  { cbn -[no_nul HookboxPipeline.dedupe_key]. fold v. rewrite Hp, Hkey, Hhash. cbn.
    by destruct (VerificationResult.reason v); rewrite ?Hr; destruct (VerificationResult.status v). }
  unfold storable, storable_row, accepted_row. rewrite Ht. cbn [andb]. apply andb_true_intro. split.
  - unfold accepts_columns. cbn [bound_receipt receipt_row receipt_of HookboxPipeline.build_receipt
      ReceiptRow.parsed_payload WebhookReceipt.parsed_payload ReceiptRow.raw_headers WebhookReceipt.raw_headers
      ReceiptRow.metadata WebhookReceipt.metadata].
    rewrite (json_exact_accepted _ Hh), (json_exact_accepted (VObject [])) by done.
    destruct (json_from_slice body); [by rewrite json_exact_accepted|done].
  - unfold indexable, index_entries. cbn -[index_fits HookboxPipeline.dedupe_key compute_payload_hash].
    rewrite !index_fits_short; [done|..]; cbn -[String.length HookboxPipeline.dedupe_key];
      unfold HookboxPipeline.dedupe_key; rewrite ?string_length_app, ?Hlen; cbn [String.length]; lia.
Qed.

(** C18: without faults, a webhook that its verifier does not reject and whose key is new is
    accepted, under the id the pipeline drew, exactly when PostgreSQL can store its receipt; else
    the answer is an error and nothing is stored.  It can when the texts are free of the NUL
    character, the JSON numbers plain and the provider not too long for an index; it cannot when
    the provider or a string of the JSON body holds a NUL. *)
Theorem new_webhook_is_accepted capacity emitters verifiers id t now provider headers body n ms :
  let self := node_pipeline capacity emitters verifiers in
  let key := HookboxPipeline.dedupe_key provider (compute_payload_hash body) in
  let r := receipt_of self id t now provider headers body in
  let run := HookboxPipeline.ingest self id t now provider headers body (n, ms) in
  healthy (pg n) →
  key ∉ map ReceiptRow.dedupe_key (webhook_receipts (db (pg n))) →
  ReceiptId.uuid id ∉ map ReceiptRow.receipt_id (webhook_receipts (db (pg n))) →
  fresh_draws (pg n) (db (pg n)) →
  VerificationResult.status (verdict self provider t headers body) ≠ VerificationStatus.Failed →
  (storable r = true → run.1 = Ok (IngestResult.Accepted id)) ∧
  (storable r = false → (∃ e, run.1 = Err e) ∧ db (pg run.2.1) = db (pg n)) ∧
  (plain_request r = true → storable r = true) ∧
  (carries_nul provider body = true → storable r = false).
Proof.
  intros self key r run Hn Hk Hi Hf Hv.
  destruct (node_check_healthy capacity key (compute_payload_hash body) n Hn)
    as (d & n' & Hc & Hadv & Hok).
  pose proof Hadv as (Hdb & _ & _ & Hh). split_and!.
  - intros Hst. assert (no_nul key = true) as Hkey.
    { apply storable_accepted, andb_prop in Hst as [Ht _]. unfold key. rewrite no_nul_key.
      cbn in Ht. by apply andb_prop in Ht as [? _]. }
    destruct (Hok Hkey) as [d' ->].
    destruct (store_with_deliveries_healthy r emitters (pg n')) as (w' & Hs & _); [by apply Hh|done|by rewrite Hdb..| |].
    { rewrite Hdb. by apply (fresh_draws_advanced (pg n)). }
    eapply ingest_accepts; [done|exact Hc|]. apply pair_fst.
    cbn [HookboxPipeline.storage HookboxPipeline.emitter_names node_pipeline self
         store_with_deliveries node_storage]. unfold on_pg. fold self. fold r.
    by rewrite Hs.
  - intros Hst. destruct (store_with_deliveries_refused r emitters (pg n') Hst) as (e & w' & Hs & Hdb');
      [by rewrite Hdb|].
    destruct (ingest_refused self id t now provider headers body n ms d n' e (mkNode w' (cache n'))) as
      (e' & w2 & ms' & Hrun & Hw2); [done|exact Hc| |].
    { cbn [HookboxPipeline.storage HookboxPipeline.emitter_names node_pipeline self
         store_with_deliveries node_storage]. unfold on_pg. fold self. fold r. by rewrite Hs. }
    unfold run. rewrite Hrun. cbn. split; [by eexists|]. destruct Hw2 as [->| ->]; cbn; congruence.
  - apply plain_request_storable.
  - apply carries_nul_not_storable.
Qed.
End node.

(** ** Witnesses *)

Definition sample_headers : HeaderMap := mkHeaderMap [] (λ _, []).
Definition sample_body : bytes := [Byte.x7b; Byte.x7d].
Definition sample_node : Node :=
  mkNode (session empty_db 1000 10%N) (InMemoryRecentDedupe.mkInner ∅ []).

(** A verifier that rejects everything. *)
Definition rejecting : SignatureVerifier :=
  mkVerifier "evil" (λ _ _ _, VerificationResult.mk VerificationStatus.Failed (Some "bad")).
Definition sample_pipeline : HookboxPipeline.t Node :=
  node_pipeline 4 ["kafka"; "nats"] [rejecting].

Definition sample_ingest (id : Uuid) (provider : string) (n : Node) :
    result IngestResult.t IngestError.t * World Node :=
  HookboxPipeline.ingest sample_pipeline (ReceiptId.mk id) 0 1000 provider sample_headers
    sample_body (n, []).

Lemma accepted_webhook_is_durable_witness :
  let p := sample_ingest 7%N "stripe" sample_node in
  let r := receipt_of sample_pipeline (ReceiptId.mk 7%N) 0 1000 "stripe" sample_headers sample_body in
  p.1 = Ok (IngestResult.Accepted (ReceiptId.mk 7%N)) ∧
  pg_persisted (pg p.2.1) r ∧
  pg_queued (pg p.2.1) = [(ReceiptId.mk 7%N, "kafka"); (ReceiptId.mk 7%N, "nats")].
Proof.
  intros p r. assert (p.1 = Ok (IngestResult.Accepted (ReceiptId.mk 7%N))) as Hp
    by (vm_compute; reflexivity).
  split; [exact Hp|].
  pose proof (pair_fst2 p _ Hp) as Hrun.
  pose proof (accepted_webhook_is_durable sample_pipeline (C := node_contract)
    (A := node_dedupe_advisory 4)) as Ht.
  specialize (Ht _ _ _ _ _ _ _ _ _ _ _ Hrun).
  destruct Ht as (_ & _ & _ & _ & _ & Hpers & _ & Hq). split; [exact Hpers|exact Hq].
Defined.

(** The same body again, from the state the first call left. *)
Lemma repeated_webhook_is_not_queued_again_witness :
  let n1 := (sample_ingest 7%N "stripe" sample_node).2.1 in
  let p := sample_ingest 8%N "stripe" n1 in
  p.1 = Ok (IngestResult.Duplicate (ReceiptId.mk 7%N)) ∧
  pg_queued (pg p.2.1) = pg_queued (pg n1).
Proof.
  intros n1 p. assert (p.1 = Ok (IngestResult.Duplicate (ReceiptId.mk 7%N))) as Hp
    by (vm_compute; reflexivity).
  split; [exact Hp|].
  pose proof (pair_fst2 p _ Hp) as Hrun.
  assert (pg_key_owner (pg n1) (HookboxPipeline.dedupe_key "stripe" (compute_payload_hash sample_body)) =
          Some (ReceiptId.mk 7%N)) as Hown by (vm_compute; reflexivity).
  pose proof (repeated_webhook_is_not_queued_again sample_pipeline (C := node_contract)
    (A := node_dedupe_advisory 4)) as Ht.
  specialize (Ht (ReceiptId.mk 8%N) 0 1000 "stripe" sample_headers sample_body n1 [] _ _ _ _ Hown Hrun).
  destruct Ht as (Hq & _). exact Hq.
Defined.

Lemma rejected_webhook_leaves_no_trace_witness :
  let p := sample_ingest 7%N "evil" sample_node in
  p.1 = Ok (IngestResult.VerificationFailed "bad") ∧ p.2.1 = sample_node.
Proof.
  intros p. assert (p.1 = Ok (IngestResult.VerificationFailed "bad")) as Hp
    by (vm_compute; reflexivity).
  split; [exact Hp|].
  pose proof (pair_fst2 p _ Hp) as Hrun.
  pose proof (rejected_webhook_leaves_no_trace sample_pipeline (C := node_contract)
    (A := node_dedupe_advisory 4)) as Ht.
  specialize (Ht _ _ _ _ _ _ _ _ _ _ _ Hrun). destruct Ht as [_ Ht].
  exact (Ht "bad" eq_refl).
Defined.

Lemma conflict_is_unreachable_witness :
  keyed (sample_ingest 7%N "stripe" sample_node).2.1 ∧
  (check (HookboxPipeline.dedupe sample_pipeline)
     (HookboxPipeline.dedupe_key "stripe" (compute_payload_hash sample_body))
     (compute_payload_hash sample_body) sample_node).1 ≠ Ok DedupeDecision.Conflict.
Proof.
  destruct (conflict_is_unreachable 4 ["kafka"; "nats"] [rejecting] "stripe" sample_body sample_node)
    as [H1 H2].
  - split; [apply Forall_nil_2|apply map_Forall_empty].
  - split; [apply H2|exact H1].
Defined.

(** The second provider's name is one NUL. *)
Lemma new_webhook_is_accepted_witness :
  (sample_ingest 7%N "stripe" sample_node).1 = Ok (IngestResult.Accepted (ReceiptId.mk 7%N)) ∧
  (∃ e, (sample_ingest 7%N (String "000" EmptyString) sample_node).1 = Err e).
Proof.
  assert (fresh_draws (pg sample_node) (db (pg sample_node))) as Hf.
  { intros i _. split; [apply not_elem_of_nil|]. intros j _. cbn. lia. }
  split.
  - destruct (new_webhook_is_accepted 4 ["kafka"; "nats"] [rejecting] (ReceiptId.mk 7%N) 0 1000 "stripe"
      sample_headers sample_body sample_node []) as (Ha & _ & Hp & _);
      [reflexivity|apply not_elem_of_nil|apply not_elem_of_nil|exact Hf|vm_compute; discriminate|].
    apply Ha, Hp. vm_compute. reflexivity.
  - destruct (new_webhook_is_accepted 4 ["kafka"; "nats"] [rejecting] (ReceiptId.mk 7%N) 0 1000
      (String "000" EmptyString) sample_headers sample_body sample_node []) as (_ & Hr & _ & Hc);
      [reflexivity|apply not_elem_of_nil|apply not_elem_of_nil|exact Hf|vm_compute; discriminate|].
    apply Hr, Hc. reflexivity.
Defined.
