(* ===== verification/Worker.v ===== *)
(** * crates/hookbox-server/src/worker.rs

    The per-emitter dispatch worker and the legacy retry worker.  The world of a worker holds
    the state of its backends (storage and downstream broker), its health snapshot, the
    metrics emitted so far, and the successive answers of the wall clock and of the random
    generator.  The dispatches of a batch are futures, which [join_all] polls on one task in an
    arbitrary order. *)

From S2P Require Import Prelude Futures RustStd F64 Types Traits Transitions Metrics Database Postgres.
Local Open Scope Z_scope.
Local Open Scope rust_scope.

Module HealthStatus.
Inductive t : Type := Healthy | Degraded | Unhealthy.
#[global] Instance eq_dec : EqDecision t.
Proof. solve_decision. Defined.
Definition default : t := Healthy.
End HealthStatus.

Module EmitterHealth.
Record t : Type := mk {
  last_success_at : option DateTime;
  last_failure_at : option DateTime;
  consecutive_failures : Z;
  status : HealthStatus.t;
  dlq_depth : Z;
  pending_count : Z
}.
Definition default : t := mk None None 0 HealthStatus.default 0 0.
End EmitterHealth.

(** [signed_duration_since(t).num_seconds()]: whole seconds, towards zero. *)
Definition num_seconds_since (now t : DateTime) : Z := Z.quot (now - t) nanos_per_sec.

Definition derive_status (now : DateTime) (consecutive_failures : Z)
    (last_failure_at : option DateTime) : HealthStatus.t :=
  if 10 <=? consecutive_failures then HealthStatus.Unhealthy
  else if match last_failure_at with Some t => num_seconds_since now t <? 60 | None => false end
  then HealthStatus.Degraded
  else HealthStatus.Healthy.

(** *** chrono *)

(** The last instant [chrono] represents, in nanoseconds. *)
Definition datetime_max : DateTime := 8210266876799999999999.
(** [chrono::Duration] holds at most [i64::MAX] milliseconds. *)
Definition timedelta_max : Duration := i64_max * 1000000.
Definition days (n : Z) : Duration := Duration_from_secs (n * 86400).

(** [chrono::Duration::from_std] *)
Definition from_std (d : Duration) : option Duration :=
  if d <=? timedelta_max then Some d else None.
(** [instant + duration] panics out of range ([None]). *)
Definition add_delta (t : DateTime) (d : Duration) : option DateTime :=
  let r := t + d in if r <=? datetime_max then Some r else None.

(** *** The world of a worker *)

Record WorkerWorld (W : Type) : Type := mkWorld {
  backend : W;
  health : EmitterHealth.t;
  metrics : list Metric;
  wall_clock : nat → DateTime;
  clock_reads : nat;
  randoms : nat → f64;
  random_reads : nat
}.
Arguments mkWorld {W}. Arguments backend {W}. Arguments health {W}. Arguments metrics {W}.
Arguments wall_clock {W}. Arguments clock_reads {W}. Arguments randoms {W}.
Arguments random_reads {W}.

Inductive Panic : Type := panic.

Section world.
Context {W : Type}.

Definition set_backend (b : W) (w : WorkerWorld W) : WorkerWorld W :=
  mkWorld b (health w) (metrics w) (wall_clock w) (clock_reads w) (randoms w) (random_reads w).
Definition set_health (h : EmitterHealth.t) (w : WorkerWorld W) : WorkerWorld W :=
  mkWorld (backend w) h (metrics w) (wall_clock w) (clock_reads w) (randoms w) (random_reads w).

Definition on_backend {A} (m : M W A) : M (WorkerWorld W) A :=
  λ w, let '(a, b) := m (backend w) in (a, set_backend b w).
Definition emit_metric (m : Metric) : M (WorkerWorld W) unit := λ w,
  (tt, mkWorld (backend w) (health w) (metrics w ++ [m]) (wall_clock w) (clock_reads w)
         (randoms w) (random_reads w)).
(** [Utc::now()] *)
Definition utc_now : M (WorkerWorld W) DateTime := λ w,
  (wall_clock w (clock_reads w),
   mkWorld (backend w) (health w) (metrics w) (wall_clock w) (S (clock_reads w)) (randoms w)
     (random_reads w)).
(** [fastrand::f64()] *)
Definition random : M (WorkerWorld W) f64 := λ w,
  (randoms w (random_reads w),
   mkWorld (backend w) (health w) (metrics w) (wall_clock w) (clock_reads w) (randoms w)
     (S (random_reads w))).
Definition load_health : M (WorkerWorld W) EmitterHealth.t := λ w, (health w, w).
Definition store_health (h : EmitterHealth.t) : M (WorkerWorld W) unit := λ w, (tt, set_health h w).
End world.

(** ** EmitterWorker *)

Module EmitterWorker.

Record t (W E : Type) : Type := mk {
  name : string;
  emitter : Emitter W;
  storage : DeliveryStorage W E;
  policy : RetryPolicy.t;
  concurrency : Z;
  poll_interval : Duration;
  lease_duration : Duration
}.
Arguments mk {W E}. Arguments name {W E}. Arguments emitter {W E}. Arguments storage {W E}.
Arguments policy {W E}. Arguments concurrency {W E}. Arguments poll_interval {W E}.
Arguments lease_duration {W E}.

Section worker.
Variable powi : f64 → Z → f64.
Context {W E : Type} (self : t W E).
Notation MW := (M (WorkerWorld W)).

(** The status is derived from one more reading of the clock, and only when the count is below
    the threshold and there was a failure. *)
Definition derive_status_now (consecutive_failures : Z) (last_failure_at : option DateTime) :
    MW HealthStatus.t :=
  if 10 <=? consecutive_failures then ret (derive_status 0 consecutive_failures last_failure_at)
  else match last_failure_at with
       | None => ret (derive_status 0 consecutive_failures None)
       | Some t => now <- utc_now ;; ret (derive_status now consecutive_failures (Some t))
       end.

Definition update_health (success : bool) : MW unit :=
  current <- load_health ;;
  now <- utc_now ;;
  let next :=
    if success
    then EmitterHealth.mk (Some now) (EmitterHealth.last_failure_at current) 0
           (EmitterHealth.status current) (EmitterHealth.dlq_depth current)
           (EmitterHealth.pending_count current)
    else EmitterHealth.mk (EmitterHealth.last_success_at current) (Some now)
           (u32_wrapping_add (EmitterHealth.consecutive_failures current) 1)
           (EmitterHealth.status current) (EmitterHealth.dlq_depth current)
           (EmitterHealth.pending_count current) in
  status <- derive_status_now (EmitterHealth.consecutive_failures next)
              (EmitterHealth.last_failure_at next) ;;
  store_health (EmitterHealth.mk (EmitterHealth.last_success_at next)
    (EmitterHealth.last_failure_at next) (EmitterHealth.consecutive_failures next) status
    (EmitterHealth.dlq_depth next) (EmitterHealth.pending_count next)).

Definition refresh_gauges : MW unit :=
  dlq <- on_backend (count_dlq (storage self) (name self)) ;;
  pending <- on_backend (count_pending (storage self) (name self)) ;;
  in_flight <- on_backend (count_in_flight (storage self) (name self)) ;;
  let dlq := unwrap_or (result_ok dlq) 0 in
  let pending := unwrap_or (result_ok pending) 0 in
  let in_flight := unwrap_or (result_ok in_flight) 0 in
  emit_metric (Gauge "hookbox_dlq_depth" [("emitter", name self)] dlq) ;;;
  emit_metric (Gauge "hookbox_emit_pending" [("emitter", name self)] pending) ;;;
  emit_metric (Gauge "hookbox_emit_in_flight" [("emitter", name self)] in_flight) ;;;
  current <- load_health ;;
  status <- derive_status_now (EmitterHealth.consecutive_failures current)
              (EmitterHealth.last_failure_at current) ;;
  store_health (EmitterHealth.mk (EmitterHealth.last_success_at current)
    (EmitterHealth.last_failure_at current) (EmitterHealth.consecutive_failures current) status
    dlq pending).

Definition emit_result (provider result : string) : MW unit :=
  emit_metric (Counter "hookbox_emit_results_total"
    [("provider", provider); ("emitter", name self); ("result", result)] 1).
Definition attempt_count_metric : MW unit :=
  emit_metric (Histogram "hookbox_emit_attempt_count" [("emitter", name self)]).

(** The delay before the next attempt.  [compute_backoff] draws its random number itself; here
    it is drawn once per call, from an arbitrary stream. *)
Definition backoff_delay (next_attempt : Z) : MW (result Duration Panic) :=
  r <- random ;;
  ret (ok_or (compute_backoff powi r next_attempt (policy self)) panic).

(** [dispatch_one] is suspended twice: while the emitter works, and while the storage marks the
    row.  This is what follows the mark. *)
Definition finish (success : bool) : MW (Fut (WorkerWorld W) (result unit Panic)) :=
  update_health success ;;; ret (Ready (Ok tt)).

(** From the answer of the emitter to the mark of the row. *)
Definition after_emit (delivery : WebhookDelivery.t) (receipt : WebhookReceipt.t)
    (result : result unit EmitError.t) : MW (Fut (WorkerWorld W) (Prelude.result unit Panic)) :=
  let next_attempt := i32_wrapping_add (WebhookDelivery.attempt_count delivery) 1 in
  emit_metric (Histogram "hookbox_emit_duration_seconds" [("emitter", name self)]) ;;;
  match result with
  | Ok _ =>
      emit_result (WebhookReceipt.provider_name receipt) "success" ;;;
      attempt_count_metric ;;;
      ret (await (on_backend (mark_emitted (storage self) (WebhookDelivery.delivery_id delivery)))
             (λ _, finish true))
  | Err err =>
      emit_result (WebhookReceipt.provider_name receipt) "failure" ;;;
      if RetryPolicy.max_attempts (policy self) <=? next_attempt then
        attempt_count_metric ;;;
        ret (await (on_backend (mark_dead_lettered (storage self)
                                  (WebhookDelivery.delivery_id delivery) (EmitError.to_string err)))
               (λ _, finish false))
      else
        backoff <- backoff_delay next_attempt ;;
        match backoff with
        | Err p => ret (Ready (Err p))
        | Ok backoff =>
            let next_delta := unwrap_or (from_std backoff) (days 1) in
            now <- utc_now ;;
            match add_delta now next_delta with
            | None => ret (Ready (Err panic))
            | Some next_at =>
                ret (await (on_backend (mark_failed (storage self)
                              (WebhookDelivery.delivery_id delivery) next_attempt next_at
                              (EmitError.to_string err)))
                       (λ _, finish false))
            end
        end
  end.

Definition dispatch_one (row : WebhookDelivery.t * WebhookReceipt.t) :
    Fut (WorkerWorld W) (result unit Panic) :=
  await (on_backend (emit (emitter self) (NormalizedEvent.from_receipt row.2)))
    (after_emit row.1 row.2).

(** [self.concurrency as i64] *)
Definition usize_as_i64 (n : Z) : Z := if n <=? i64_max then n else n - 2 ^ 64.

(** One iteration of the loop of [spawn], after the sleep: reclaim, claim, dispatch, refresh.
    The futures of the batch are polled in the given order.  The result tells whether a batch
    was dispatched; the other paths [continue]. *)
Definition iteration (order : list nat) : MW (result bool Panic) :=
  reclaimed <- on_backend (reclaim_expired (storage self) (name self) (lease_duration self)) ;;
  match reclaimed with
  | Ok n => if 0 <? n
            then emit_metric (Counter "hookbox_emit_reclaimed_total" [("emitter", name self)] n)
            else ret tt
  | Err _ => ret tt
  end ;;;
  let concurrency_i64 := usize_as_i64 (concurrency self) in
  rows <- on_backend (claim_pending (storage self) (name self) concurrency_i64) ;;
  match rows with
  | Err _ => ret (Ok false)
  | Ok [] => refresh_gauges ;;; ret (Ok false)
  | Ok rows =>
      _ <-? join_all order (map dispatch_one rows) ;;
      refresh_gauges ;;;
      ret (Ok true)
  end.

(** What wakes the [select!]: the timer, a change of the shutdown flag, or the sender's drop. *)
Inductive Wake : Type :=
| Timer
| Changed (shutdown : bool)
| SenderDropped.

(** The loop, on the sequence of its wake-ups, each with the order of the polls of its iteration
    and the value of the shutdown flag at the end of it; the result tells whether the loop was
    left by [break]. *)
Fixpoint run (schedule : list (Wake * list nat * bool)) : MW (result bool Panic) :=
  match schedule with
  | [] => ret (Ok false)
  | (Changed true, _, _) :: _ | (SenderDropped, _, _) :: _ => ret (Ok true)
  | (_, order, shutdown) :: rest =>
      dispatched <-? iteration order ;;
      if dispatched && shutdown then ret (Ok true) else run rest
  end.
End worker.
End EmitterWorker.

(** [supervise_worker] of serve.rs: what the supervisor stores when the worker's task panics. *)
Definition supervise_panic {W} : M (WorkerWorld W) unit :=
  previous <- load_health ;;
  now <- utc_now ;;
  store_health (EmitterHealth.mk (EmitterHealth.last_success_at previous) (Some now)
    (u32_saturating_add (EmitterHealth.consecutive_failures previous) 1)
    HealthStatus.Unhealthy (EmitterHealth.dlq_depth previous)
    (EmitterHealth.pending_count previous)).

(** The task of a worker under its supervisor: a panic is recorded, then resumed. *)
Definition supervised {W A} (m : M (WorkerWorld W) (result A Panic)) :
    M (WorkerWorld W) (result A Panic) :=
  r <- m ;;
  match r with
  | Ok a => ret (Ok a)
  | Err p => supervise_panic ;;; ret (Err p)
  end.

(** ** RetryWorker

    The legacy worker; it works on [PostgresStorage] itself. *)
Module RetryWorker.
Record t : Type := mk {
  emitter : Emitter Pg;
  interval : Duration;
  max_attempts : Z
}.

Section retry.
Context `{SerdeJson} `{PgTypes} `{UuidText} (self : t).

Definition retry_one (receipt : WebhookReceipt.t) : M Pg unit :=
  let event := NormalizedEvent.from_receipt receipt in
  r <- emit (emitter self) event ;;
  match r with
  | Ok _ =>
      PostgresStorage.update_state (ReceiptId.uuid (WebhookReceipt.receipt_id receipt))
        ProcessingState.Emitted None ;;; ret tt
  | Err _ =>
      PostgresStorage.retry_failed (ReceiptId.uuid (WebhookReceipt.receipt_id receipt))
        (max_attempts self) ;;; ret tt
  end.

(** One iteration of [run], after the sleep. *)
Definition iteration : M Pg unit :=
  receipts <- PostgresStorage.query_for_retry (max_attempts self) ;;
  match receipts with
  | Ok receipts => for_each retry_one receipts
  | Err _ => ret tt
  end.

(** [run] never returns: any number of its iterations. *)
Fixpoint run (iterations : nat) : M Pg unit :=
  match iterations with
  | O => ret tt
  | S n => iteration ;;; run n
  end.
End retry.
End RetryWorker.
