(* ===== verification/Dispatch.v ===== *)
(** * Dispatch of a batch

    The health of a worker, a worker over PostgreSQL and a broker, and the batch an iteration
    dispatches: the futures of [dispatch_one] under [join_all], whatever the order of the polls. *)

From S2P Require Import Prelude Futures RustStd F64 Types Traits Transitions Metrics Database Samples DatabaseProps Postgres PostgresProps Lifecycle Worker Instances.
Local Open Scope Z_scope.
Local Open Scope rust_scope.

(** ** Health *)

Section health.
Context {W : Type}.
Implicit Types w : WorkerWorld W.

(** The failures since the last success. *)
Fixpoint trailing_failures (outcomes : list bool) (acc : Z) : Z :=
  match outcomes with
  | [] => acc
  | true :: l => trailing_failures l 0
  | false :: l => trailing_failures l (acc + 1)
  end.

Lemma trailing_failures_bound l acc :
  0 ≤ acc → 0 ≤ trailing_failures l acc ≤ acc + Z.of_nat (List.length l).
Proof.
  revert acc. induction l as [|[] l IH]; intros acc Hacc; cbn [trailing_failures List.length]; [lia| |].
  - specialize (IH 0). lia.
  - specialize (IH (acc + 1)). lia.
Qed.

Lemma trailing_failures_snoc l o acc :
  trailing_failures (l ++ [o]) acc = if o then 0 else trailing_failures l acc + 1.
Proof.
  revert acc. induction l as [|[] l IH]; intros acc; cbn; [by destruct o|apply IH|apply IH].
Qed.

Definition health_ok (h : EmitterHealth.t) (failures : Z) : Prop :=
  EmitterHealth.consecutive_failures h = failures ∧
  (EmitterHealth.status h = HealthStatus.Unhealthy ↔ 10 ≤ failures).

Lemma derive_status_unhealthy now c t :
  derive_status now c t = HealthStatus.Unhealthy ↔ 10 ≤ c.
Proof.
  unfold derive_status. destruct (Z.leb_spec 10 c); [by split|].
  destruct (match t with Some t => _ | None => false end); split; (done || lia).
Qed.

Lemma derive_status_now_unhealthy c t w :
  (EmitterWorker.derive_status_now c t w).1 = HealthStatus.Unhealthy ↔ 10 ≤ c.
Proof.
  unfold EmitterWorker.derive_status_now. destruct (Z.leb_spec 10 c).
  - cbn. by rewrite derive_status_unhealthy.
  - destruct t; cbn; by rewrite derive_status_unhealthy.
Qed.

Lemma derive_status_now_frame c t w :
  let w' := (EmitterWorker.derive_status_now c t w).2 in
  backend w' = backend w ∧ metrics w' = metrics w ∧ wall_clock w' = wall_clock w.
Proof.
  unfold EmitterWorker.derive_status_now. destruct (10 <=? c); [done|]. by destruct t.
Qed.

Lemma update_health_spec success w :
  let w' := (EmitterWorker.update_health success w).2 in
  backend w' = backend w ∧ metrics w' = metrics w ∧ wall_clock w' = wall_clock w ∧
  health_ok (health w')
    (if success then 0 else u32_wrapping_add (EmitterHealth.consecutive_failures (health w)) 1).
Proof.
  unfold EmitterWorker.update_health, bind, load_health, utc_now, store_health. cbn [fst snd].
  set (c' := if success then 0 else u32_wrapping_add (EmitterHealth.consecutive_failures (health w)) 1).
  match goal with |- context [EmitterWorker.derive_status_now ?c ?t ?w1] =>
    pose proof (derive_status_now_unhealthy c t w1) as Hs;
    pose proof (derive_status_now_frame c t w1) as (Hb & Hm & Hwc);
    replace c with c' in * by (by destruct success);
    destruct (EmitterWorker.derive_status_now c' t w1) as [st w2] end.
  cbn in Hs, Hb, Hm, Hwc |- *. split_and!; [done..|]. split; cbn; [by destruct success|done].
Qed.

(** The health snapshot counts exactly the failures since the last success, and the worker
    is [Unhealthy] exactly from the tenth on.  [update_health] does not suspend between its
    load and its store and a batch runs on one task, so no outcome is lost. *)
Theorem health_counts_trailing_failures outcomes w :
  health w = EmitterHealth.default → Z.of_nat (List.length outcomes) ≤ u32_max →
  let w' := (for_each EmitterWorker.update_health outcomes w).2 in
  EmitterHealth.consecutive_failures (health w') = trailing_failures outcomes 0 ∧
  (EmitterHealth.status (health w') = HealthStatus.Unhealthy ↔ 10 ≤ trailing_failures outcomes 0) ∧
  backend w' = backend w.
Proof.
  intros Hd Hlen.
  assert (∀ w acc, health_ok (health w) acc → 0 ≤ acc → acc + Z.of_nat (List.length outcomes) ≤ u32_max →
    let w' := (for_each EmitterWorker.update_health outcomes w).2 in
    health_ok (health w') (trailing_failures outcomes acc) ∧ backend w' = backend w) as Hgen.
  { clear. induction outcomes as [|o l IH]; intros w acc Hok Hacc Hb; [done|].
    cbn [for_each]. unfold bind. pose proof (update_health_spec o w) as (Hbk & _ & _ & Hok').
    destruct (EmitterWorker.update_health o w) as [[] w1]. cbn [snd] in *.
    destruct Hok as [Hc _]. rewrite Hc in Hok'. cbn [List.length] in Hb.
    destruct o; cbn [trailing_failures].
    - destruct (IH w1 0 Hok') as [H1 H2]; [lia|lia|]. by rewrite H2.
    - unfold u32_wrapping_add in Hok'. rewrite Z.mod_small in Hok' by (unfold u32_max in Hb; lia).
      destruct (IH w1 (acc + 1) Hok') as [H1 H2]; [lia|lia|]. by rewrite H2. }
  intros w'. destruct (Hgen w 0) as [[H1 H2] H3]; [|lia|lia|by split_and!].
  rewrite Hd. split; [done|]. cbn. split; [done|lia].
Qed.
End health.

Definition sample_world {W} (b : W) : WorkerWorld W :=
  mkWorld b EmitterHealth.default [] (λ _, 1000) 0 (λ _, 0.5%float) 0.

Lemma health_counts_trailing_failures_witness :
  let w' := (for_each EmitterWorker.update_health [false; true; false; false] (sample_world tt)).2 in
  EmitterHealth.consecutive_failures (health w') = 2.
Proof.
  apply (health_counts_trailing_failures [false; true; false; false] (sample_world tt)).
  - reflexivity.
  - vm_compute. discriminate.
Defined.

(** ** A worker over PostgreSQL and a downstream broker

    The broker has a state of its own, which [emit] may change in any way; it does not touch
    the database. *)

Section dispatch.
Context `{SerdeJson} `{PgTypes} `{UuidText} {B : Type}.
Variable powi : f64 → Z → f64.
Variable downstream : NormalizedEvent.t → M B (result unit EmitError.t).

Definition worker_storage : DeliveryStorage (Pg * B) StorageError.t :=
  {| Traits.claim_pending := λ e n, on_fst (PostgresStorage.claim_pending e n);
     Traits.reclaim_expired := λ e d, on_fst (PostgresStorage.reclaim_expired e d);
     Traits.mark_emitted := λ i, on_fst (PostgresStorage.mark_emitted i);
     Traits.mark_failed := λ i n t e, on_fst (PostgresStorage.mark_failed i n t e);
     Traits.mark_dead_lettered := λ i e, on_fst (PostgresStorage.mark_dead_lettered i e);
     Traits.count_dlq := λ e, on_fst (PostgresStorage.count_dlq e);
     Traits.count_pending := λ e, on_fst (PostgresStorage.count_pending e);
     Traits.count_in_flight := λ e, on_fst (PostgresStorage.count_in_flight e);
     Traits.insert_replay := λ r e, on_fst (PostgresStorage.insert_replay r e);
     Traits.insert_replays := λ r es, on_fst (PostgresStorage.insert_replays r es);
     Traits.get_delivery := λ i, on_fst (PostgresStorage.get_delivery i);
     Traits.get_deliveries_for_receipt := λ r, on_fst (PostgresStorage.get_deliveries_for_receipt r);
     Traits.list_dlq := λ e l o, on_fst (PostgresStorage.list_dlq e l o) |}.

Definition pg_worker (name : string) (policy : RetryPolicy.t) (concurrency : Z)
    (poll lease : Duration) : EmitterWorker.t (Pg * B) StorageError.t :=
  EmitterWorker.mk name (mkEmitter _ (λ ev, on_snd (downstream ev))) worker_storage policy
    concurrency poll lease.

Notation PW := (WorkerWorld (Pg * B)).
Definition pg_of (w : PW) : Pg := (backend w).1.

(** The database with the row [x] replaced by [y]. *)
Definition replace_row (x y : DeliveryRow.t) (d : Db) : Db :=
  set_deliveries (λ z, if bool_decide (DeliveryRow.delivery_id z = DeliveryRow.delivery_id x)
                       then y else z) d.

(** A mark of a leased row changes that row, unless the server refuses a text it binds; either
    way the row is all that may change. *)
Lemma mark_leased texts (f : Clock → DeliveryRow.t → DeliveryRow.t) x w :
  healthy w → db_wf (db w) → x ∈ webhook_deliveries (db w) → DeliveryRow.state x = "in_flight" →
  preserves db_wf (update_deliveries (leased (DeliveryRow.delivery_id x)) f) →
  let y := if texts_ok texts then f (clock w) x else x in
  ∃ r, bind_try (execute (bind_text texts (update_deliveries (leased (DeliveryRow.delivery_id x)) f)))
         (λ _ : Z, ret (Ok tt : result unit StorageError.t)) w =
         (r, set_db (replace_row x y (db w)) (tick w)) ∧
       db_wf (replace_row x y (db w)).
Proof.
  intros Hw Hwf Hx Hst Hpres y.
  assert (∀ z, z ∈ webhook_deliveries (db w) → DeliveryRow.delivery_id z = DeliveryRow.delivery_id x → z = x) as Hone.
  { intros z Hz Hid. by eapply (NoDup_map_inj_on DeliveryRow.delivery_id); [apply (wf_delivery_ids _ Hwf)|..]. }
  subst y. unfold bind_try, bind. rewrite execute_healthy by done. destruct (texts_ok texts) eqn:Ht.
  - assert (set_deliveries (λ r, if leased (DeliveryRow.delivery_id x) (clock w) r then f (clock w) r else r)
              (db w) = replace_row x (f (clock w) x) (db w)) as Heq.
    { unfold replace_row, set_deliveries. f_equal.
      apply map_ext_in. intros z Hz%list_elem_of_In. unfold leased, has_delivery_id.
      destruct (bool_decide_reflect (DeliveryRow.delivery_id z = DeliveryRow.delivery_id x)) as [Hid|]; [|done].
      rewrite (Hone z Hz Hid), Hst. by rewrite (bool_decide_true ("in_flight" = "in_flight")). }
    rewrite <- Heq, bind_text_run by done. eexists. split; [reflexivity|]. by eapply Hpres.
  - assert (replace_row x x (db w) = db w) as ->.
    { unfold replace_row, set_deliveries. destruct (db w) as [rs ds]. cbn in *. f_equal.
      rewrite <- (map_id ds) at 2. apply map_ext_in. intros z Hz%list_elem_of_In. 
      destruct (bool_decide_reflect (DeliveryRow.delivery_id z = DeliveryRow.delivery_id x)) as [Hid|]; [|done].
      symmetry. by apply Hone. }
    rewrite bind_text_refused by done. eexists. split; [|done]. cbn. by rewrite set_db_same.
Qed.

(** Every way the dispatch of a leased row can end, when the storage does not fail.  A row whose
    error text holds a NUL is stuck: PostgreSQL refuses its mark, so it stays in flight, its
    attempt uncounted, until its lease expires. *)
Inductive settled (policy : RetryPolicy.t) (x : DeliveryRow.t) :
    result unit EmitError.t → DeliveryRow.t → Prop :=
| settled_emitted t :
    settled policy x (Ok tt) (DeliveryRow.set_emitted t x)
| settled_dead_lettered err :
    no_nul (EmitError.to_string err) = true →
    RetryPolicy.max_attempts policy ≤ DeliveryRow.attempt_count x + 1 →
    settled policy x (Err err) (DeliveryRow.set_dead_lettered (EmitError.to_string err) x)
| settled_failed err now delay :
    no_nul (EmitError.to_string err) = true →
    DeliveryRow.attempt_count x + 1 < RetryPolicy.max_attempts policy →
    0 ≤ delay ≤ RetryPolicy.max_backoff policy →
    settled policy x (Err err)
      (DeliveryRow.set_failed (DeliveryRow.attempt_count x + 1) (timestamptz (now + delay))
         (EmitError.to_string err) x)
| settled_stuck err :
    no_nul (EmitError.to_string err) = false → settled policy x (Err err) x.

(** A policy the worker can run without panicking, up to the instant [horizon]. *)
Definition usable_policy (policy : RetryPolicy.t) (horizon : DateTime) : Prop :=
  0 ≤ RetryPolicy.initial_backoff policy ∧
  RetryPolicy.max_backoff policy ≤ timedelta_max ∧
  horizon + RetryPolicy.max_backoff policy ≤ datetime_max ∧
  ∃ s, 0 ≤ s < 2 ^ 53 ∧ RetryPolicy.max_backoff policy = Duration_from_secs s.

Lemma backoff_within_cap r n policy horizon :
  usable_policy policy horizon → 1 ≤ n →
  ∃ d, compute_backoff powi r n policy = Some d ∧ 0 ≤ d ≤ RetryPolicy.max_backoff policy.
Proof.
  intros (Hi & _ & _ & s & Hs & Hmax) Hn.
  destruct (compute_backoff_in_cap powi r n policy s Hmax Hs Hi) as (d & Hd & H1' & H2').
  exists d. auto.
Qed.

(** The instant of the next attempt is computed without a panic. *)
Lemma next_attempt_time r n policy horizon t :
  usable_policy policy horizon → 1 ≤ n → t ≤ horizon →
  ∃ delay, compute_backoff powi r n policy = Some delay ∧ 0 ≤ delay ≤ RetryPolicy.max_backoff policy ∧
    unwrap_or (from_std delay) (days 1) = delay ∧ add_delta t delay = Some (t + delay).
Proof.
  intros Hpol Hn Ht. destruct (backoff_within_cap r n policy horizon Hpol Hn) as (delay & Hd & Hb).
  destruct Hpol as (_ & Htd & Hhor & _). exists delay. split_and!; [done|lia|lia| |].
  - unfold from_std. destruct (Z.leb_spec delay timedelta_max); [done|lia].
  - unfold add_delta. destruct (Z.leb_spec (t + delay) datetime_max); [done|lia].
Qed.

(** ** A batch *)

Definition counts_ok (d : Db) : Prop :=
  ∀ y, y ∈ webhook_deliveries d → 0 ≤ DeliveryRow.attempt_count y < i32_max.

Lemma settled_id policy x res y :
  settled policy x res y → DeliveryRow.delivery_id y = DeliveryRow.delivery_id x.
Proof. by intros []. Qed.

Lemma settled_count policy x res y :
  settled policy x res y → RetryPolicy.max_attempts policy ≤ i32_max →
  0 ≤ DeliveryRow.attempt_count x < i32_max → 0 ≤ DeliveryRow.attempt_count y < i32_max.
Proof. intros []; cbn; lia. Qed.

Lemma elem_of_replace_row x y d z :
  z ∈ webhook_deliveries d → DeliveryRow.delivery_id z ≠ DeliveryRow.delivery_id x →
  z ∈ webhook_deliveries (replace_row x y d).
Proof.
  intros Hz Hne. cbn. apply elem_of_List_map. exists z. by rewrite bool_decide_false.
Qed.

Lemma replaced_row_in x y d : x ∈ webhook_deliveries d → y ∈ webhook_deliveries (replace_row x y d).
Proof. intros Hx. cbn. apply elem_of_List_map. exists x. by rewrite bool_decide_true. Qed.

Lemma elem_of_replace_row_inv x y d z :
  z ∈ webhook_deliveries (replace_row x y d) → z = y ∨ z ∈ webhook_deliveries d.
Proof.
  cbn. intros (v & Hv & ->)%elem_of_List_map. destruct (bool_decide _); auto.
Qed.

Lemma settled_keeps policy x res y :
  settled policy x res y →
  DeliveryRow.emitter_name y = DeliveryRow.emitter_name x ∧
  DeliveryRow.receipt_id y = DeliveryRow.receipt_id x ∧ DeliveryRow.immutable y = DeliveryRow.immutable x.
Proof. by intros []. Qed.

(** The rows of one emitter. *)
Definition rows_of (name : string) (d : Db) : list DeliveryRow.t :=
  List.filter (λ x, bool_decide (DeliveryRow.emitter_name x = name)) (webhook_deliveries d).

Lemma rows_of_set name f d :
  (∀ x, DeliveryRow.emitter_name (f x) = DeliveryRow.emitter_name x) →
  rows_of name (set_deliveries f d) = map f (rows_of name d).
Proof. intros Hf. unfold rows_of. cbn. apply filter_map_comm. intros x. by rewrite Hf. Qed.

Notation Claim := (WebhookDelivery.t * WebhookReceipt.t)%type.
Notation Answer := (result unit EmitError.t).
Notation row_of q := (db_delivery (fst q)).
Notation id_of q := (DeliveryRow.delivery_id (row_of q)).

(** A worker that can go on until [horizon]: nothing fails, no clock or counter is near its bound. *)
Definition ready_worker (horizon : DateTime) (w : PW) : Prop :=
  healthy (pg_of w) ∧ db_wf (db (pg_of w)) ∧ counts_ok (db (pg_of w)) ∧
  (∀ i, wall_clock w i ≤ horizon).

Lemma ready_worker_advanced horizon w w' :
  ready_worker horizon w → advanced (pg_of w) (pg_of w') → wall_clock w' = wall_clock w →
  ready_worker horizon w'.
Proof.
  intros (Hh & Hwf & Hc & Hclk) (Hdb & _ & _ & Hh') Hwc. split_and!; [by auto|by rewrite Hdb..|by rewrite Hwc].
Qed.

(** ** What a batch does

    [emits E b b']: the broker answered the claims of [E], in this order. *)
Inductive emits : list (Claim * Answer) → B → B → Prop :=
| emits_nil b : emits [] b b
| emits_snoc E q out b b1 b2 :
    emits E b b1 → downstream (NormalizedEvent.from_receipt q.2) b1 = (out, b2) →
    emits (E ++ [(q, out)]) b b2.

(** The row of a claim is settled by its answer, the others stay. *)
Definition settled_by (policy : RetryPolicy.t) (E : list (Claim * Answer)) (x x' : DeliveryRow.t) : Prop :=
  (∀ q out, (q, out) ∈ E → DeliveryRow.delivery_id x = id_of q → settled policy (row_of q) out x') ∧
  (DeliveryRow.delivery_id x ∉ claimed_ids (map fst E) → x' = x).

Record dispatched (policy : RetryPolicy.t) (E : list (Claim * Answer)) (s s' : Db * B) : Prop := mk_dispatched {
  dis_emits : emits E s.2 s'.2;
  dis_receipts : webhook_receipts s'.1 = webhook_receipts s.1;
  dis_rows : Forall2 (settled_by policy E) (webhook_deliveries s.1) (webhook_deliveries s'.1)
}.

Lemma elem_of_claimed_ids (q : Claim) l : q ∈ l → id_of q ∈ claimed_ids l.
Proof. intros Hq. unfold claimed_ids. apply elem_of_List_map. by exists q. Qed.

Lemma dispatched_each policy E s s' q out :
  dispatched policy E s s' → (q, out) ∈ E → row_of q ∈ webhook_deliveries s.1 →
  ∃ y, settled policy (row_of q) out y ∧ y ∈ webhook_deliveries s'.1.
Proof.
  intros [_ _ Hrows] Hq [i Hi]%list_elem_of_lookup.
  destruct (Forall2_lookup_l _ _ _ _ _ Hrows Hi) as (y & Hy & [Hset _]).
  exists y. split; [by apply Hset|by eapply list_elem_of_lookup_2].
Qed.

(** An answer of the broker, when it keeps [P] and answers with [Q]. *)
Lemma emits_answers (P : B → Prop) (Q : Claim → Answer → Prop) E b b' :
  (∀ q b, P b → Q q (downstream (NormalizedEvent.from_receipt q.2) b).1 ∧
                P (downstream (NormalizedEvent.from_receipt q.2) b).2) →
  emits E b b' → P b → P b' ∧ ∀ q out, (q, out) ∈ E → Q q out.
Proof.
  intros Hb. induction 1 as [b|E q out b b1 b2 _ IH Hd]; intros HP.
  { split; [done|]. by intros q out ?%not_elem_of_nil. }
  destruct (IH HP) as [HP1 HQ]. destruct (Hb q b1 HP1) as [HQq HPq]. rewrite Hd in HQq, HPq.
  split; [done|]. intros q' out' [?|[= -> ->]%list_elem_of_singleton]%elem_of_app; auto.
Qed.

(** What a batch did to a row: one of its own is settled by an answer with [Q], others stay. *)
Definition batched (policy : RetryPolicy.t) (Q : Answer → Prop) (ids : list Uuid)
    (x x' : DeliveryRow.t) : Prop :=
  if decide (DeliveryRow.delivery_id x ∈ ids) then ∃ res, Q res ∧ settled policy x res x' else x' = x.

Lemma dispatched_table (P : B → Prop) (Q : Answer → Prop) policy E s s' :
  (∀ ev b, P b → Q (downstream ev b).1 ∧ P (downstream ev b).2) →
  dispatched policy E s s' → P s.2 →
  NoDup (map DeliveryRow.delivery_id (webhook_deliveries s.1)) →
  (∀ q, q ∈ map fst E → row_of q ∈ webhook_deliveries s.1) →
  webhook_receipts s'.1 = webhook_receipts s.1 ∧ P s'.2 ∧
  Forall2 (batched policy Q (claimed_ids (map fst E))) (webhook_deliveries s.1) (webhook_deliveries s'.1).
Proof.
  intros Hbroker [Hem Hrec Hrows] HP Hids Hin.
  destruct (emits_answers P (λ _, Q) E s.2 s'.2) as [HP' HQ]; [by intros q b; apply Hbroker|done|done|].
  split_and!; [done..|]. eapply Forall2_impl_in; [exact Hrows|]. intros x x' Hx [Hset Hsame]. unfold batched.
  case_decide as Hid; [|by apply Hsame]. unfold claimed_ids in Hid.
  apply elem_of_List_map in Hid as (q & Hq & Hid). pose proof Hq as Hq'.
  apply elem_of_List_map in Hq' as ([q' out] & HE & Hfst). cbn in Hfst. subst q'.
  exists out. split; [by eapply HQ|].
  assert (x = row_of q) as -> by (eapply (NoDup_map_inj_on DeliveryRow.delivery_id); [exact Hids|done|by apply Hin|done]).
  by apply Hset.
Qed.

(** ** The futures of a batch *)
Section batch.
Variables (name : string) (policy : RetryPolicy.t) (conc : Z) (poll lease : Duration)
  (horizon : DateTime).
Hypothesis Hpolicy : usable_policy policy horizon.
Hypothesis Hmax : RetryPolicy.max_attempts policy ≤ i32_max.
Notation self := (pg_worker name policy conc poll lease).
Notation FW := (Fut PW (result unit Panic)).

(** The mark of a row by a statement. *)
Definition mark_by (s : Stmt Z) : M PW (result unit StorageError.t) :=
  on_backend (on_fst (bind_try (execute s) (λ _ : Z, ret (Ok tt)))).

Definition succeeded (r : Answer) : bool := match r with Ok _ => true | Err _ => false end.

(** A future that is to mark the row of [q] by [f], after the answer [out]. *)
Definition marking (q : Claim) (out : Answer) (fut : FW) : Prop := ∃ texts f,
  fut = await (mark_by (bind_text texts (update_deliveries (leased (id_of q)) f)))
          (λ _, EmitterWorker.finish (succeeded out)) ∧
  preserves db_wf (update_deliveries (leased (id_of q)) f) ∧
  ∀ c, settled policy (row_of q) out (if texts_ok texts then f c (row_of q) else row_of q).

(** The claim [q] while [E] has been answered and [D] is done: its row and its future. *)
Inductive progress (E D : list (Claim * Answer)) (q : Claim) : DeliveryRow.t → FW → Prop :=
| at_start : q ∉ map fst E → progress E D q (row_of q) (EmitterWorker.dispatch_one powi self q)
| at_emitted out :
    (q, out) ∈ E → q ∉ map fst D →
    progress E D q (row_of q) (Await (EmitterWorker.after_emit powi self q.1 q.2 out))
| at_mark out fut :
    (q, out) ∈ E → q ∉ map fst D → marking q out fut → progress E D q (row_of q) fut
| at_marked out y :
    (q, out) ∈ E → q ∉ map fst D → settled policy (row_of q) out y →
    progress E D q y (Await (EmitterWorker.finish (succeeded out)))
| at_end out y :
    (q, out) ∈ D → settled policy (row_of q) out y → progress E D q y (Ready (Ok tt)).

Lemma progress_id E D q y f : progress E D q y f → DeliveryRow.delivery_id y = id_of q.
Proof. intros []; try done; by eapply settled_id. Qed.

(** The steps of other claims leave it as it is. *)
Lemma progress_grow E E' D D' q y f :
  (∀ out, (q, out) ∈ E → (q, out) ∈ E') → (∀ out, (q, out) ∈ D → (q, out) ∈ D') →
  (q ∈ map fst E' → q ∈ map fst E) → (q ∈ map fst D' → q ∈ map fst D) →
  progress E D q y f → progress E' D' q y f.
Proof. intros HE HD HE' HD' []; [apply at_start|eapply at_emitted|eapply at_mark|eapply at_marked|eapply at_end]; eauto. Qed.

(** The segment after the answer computes the mark, without a panic. *)
Lemma after_emit_marking (q : Claim) out (w : PW) fut w' :
  0 ≤ DeliveryRow.attempt_count (row_of q) < i32_max → (∀ i, wall_clock w i ≤ horizon) →
  EmitterWorker.after_emit powi self q.1 q.2 out w = (fut, w') →
  marking q out fut ∧ backend w' = backend w ∧ health w' = health w ∧ wall_clock w' = wall_clock w.
Proof.
  intros Hn Hclock. destruct q as [d r]. cbn [fst snd]. unfold EmitterWorker.after_emit.
  assert (i32_wrapping_add (WebhookDelivery.attempt_count d) 1 = WebhookDelivery.attempt_count d + 1) as ->.
  { apply i32_wrapping_add_exact. cbn in Hn. unfold in_i32, i32_min, i32_max in *. lia. }
  destruct out as [[]|err]; unfold EmitterWorker.emit_result, EmitterWorker.attempt_count_metric; rewrite !bind_run.
  - intros [= <- <-]. split; [|done]. exists [], (λ (c : Clock) r, DeliveryRow.set_emitted (now c) r).
    split_and!; [done|apply update_emitted_wf|constructor].
  - cbn [EmitterWorker.policy pg_worker]. destruct (Z.leb_spec (RetryPolicy.max_attempts policy) (WebhookDelivery.attempt_count d + 1)).
    + rewrite !bind_run. intros [= <- <-]. split; [|done].
      exists [Some (EmitError.to_string err)], (λ (_ : Clock) r, DeliveryRow.set_dead_lettered (EmitError.to_string err) r).
      split_and!; [done|apply update_deliveries_wf; try done; intros c x; cbn; enum_name|].
      intros _. rewrite texts_ok_one. destruct (no_nul _) eqn:Hnul; by constructor.
    + unfold EmitterWorker.backoff_delay. rewrite !bind_run. cbn [fst snd random ret].
      set (w1 := (emit_metric _ _).2).
      destruct (next_attempt_time (randoms w1 (random_reads w1))
        (WebhookDelivery.attempt_count d + 1) policy horizon (wall_clock w (clock_reads w)) Hpolicy)
        as (delay & Hdelay & Hbound & Hd & Ht); [cbn in Hn; lia|apply Hclock|].
      cbn [EmitterWorker.policy pg_worker]. rewrite Hdelay. cbn [ok_or]. rewrite Hd.
      unfold utc_now. cbn [fst snd wall_clock clock_reads]. subst w1. cbn.
      rewrite Ht. intros [= <- <-]. split; [|done].
      exists [Some (EmitError.to_string err)], (λ (_ : Clock) r, DeliveryRow.set_failed
        (WebhookDelivery.attempt_count d + 1) (timestamptz (wall_clock w (clock_reads w) + delay))
        (EmitError.to_string err) r).
      split_and!; [done|apply update_deliveries_wf; try done; intros c x; cbn; enum_name|].
      intros _. rewrite texts_ok_one. destruct (no_nul _) eqn:Hnul; [|by constructor].
      by apply (settled_failed policy (db_delivery d)).
Qed.

(** *** The batch [l], from the world [w0] *)
Variables (l : list Claim) (w0 : PW).
Notation c0 := (EmitterHealth.consecutive_failures (health w0)).
Hypothesis Hdistinct : NoDup (claimed_ids l).
Hypothesis Hleased : ∀ q, q ∈ l →
  row_of q ∈ webhook_deliveries (db (pg_of w0)) ∧ DeliveryRow.state (row_of q) = "in_flight".

(** The health counts the outcomes [D] one by one, as long as the counter does not overflow. *)
Definition counts_outcomes (D : list (Claim * Answer)) (w : PW) : Prop :=
  let log := map (λ p, succeeded p.2) D in
  0 ≤ c0 → c0 + Z.of_nat (List.length l) ≤ u32_max →
  EmitterHealth.consecutive_failures (health w) = trailing_failures log c0 ∧
  (log = [] ∨ (EmitterHealth.status (health w) = HealthStatus.Unhealthy ↔ 10 ≤ trailing_failures log c0)).

(** The claims answered and those done, each once. *)
Definition logged (E D : list (Claim * Answer)) : Prop :=
  NoDup (map fst E) ∧ NoDup (map fst D) ∧ (∀ q, q ∈ map fst E → q ∈ l) ∧ (∀ p, p ∈ D → p ∈ E).

Definition same_but (ids : list Uuid) (x x' : DeliveryRow.t) : Prop :=
  DeliveryRow.delivery_id x' = DeliveryRow.delivery_id x ∧ (DeliveryRow.delivery_id x ∉ ids → x' = x).

(** The tables differ at most in the rows of [ids]. *)
Definition rows_changed (ids : list Uuid) (d d' : Db) : Prop :=
  webhook_receipts d' = webhook_receipts d ∧
  Forall2 (same_but ids) (webhook_deliveries d) (webhook_deliveries d').

Definition batch_inv (E D : list (Claim * Answer)) (fs : list FW) (w : PW) : Prop :=
  ready_worker horizon w ∧ ticked (pg_of w0) (pg_of w) ∧ List.length fs = List.length l ∧
  rows_changed (claimed_ids l) (db (pg_of w0)) (db (pg_of w)) ∧
  emits E (backend w0).2 (backend w).2 ∧ logged E D ∧ counts_outcomes D w ∧
  ∀ i q, l !! i = Some q → ∃ y f,
    fs !! i = Some f ∧ progress E D q y f ∧ y ∈ webhook_deliveries (db (pg_of w)).

Lemma claims_nodup : NoDup l.
Proof. unfold claimed_ids in Hdistinct. by apply NoDup_fmap_1 in Hdistinct. Qed.

Lemma same_but_mono ids ids' x x' : (∀ i, i ∈ ids → i ∈ ids') → same_but ids x x' → same_but ids' x x'.
Proof. intros Hsub [Hid Hx]. split; [done|]. intros Hn. apply Hx. by intros ?%Hsub. Qed.

Lemma rows_changed_refl ids d : rows_changed ids d d.
Proof. split; [done|]. by apply Forall_Forall2_diag, Forall_forall. Qed.

Lemma rows_changed_trans ids d d1 d2 : rows_changed ids d d1 → rows_changed ids d1 d2 → rows_changed ids d d2.
Proof.
  intros [Hr1 H1'] [Hr2 H2']. split; [by rewrite Hr2|].
  eapply Forall2_trans; [|exact H1'|exact H2']. intros x y z [Hy Hxy] [Hz Hyz].
  split; [by rewrite Hz|]. intros Hn. rewrite Hyz; [by apply Hxy|by rewrite Hy].
Qed.

Lemma rows_changed_in ids d d' z :
  rows_changed ids d d' → z ∈ webhook_deliveries d → DeliveryRow.delivery_id z ∉ ids → z ∈ webhook_deliveries d'.
Proof.
  intros [_ H2'] [i Hi]%list_elem_of_lookup Hn. destruct (Forall2_lookup_l _ _ _ _ _ H2' Hi) as (z' & Hz' & [_ Heq]).
  rewrite Heq in Hz' by done. by eapply list_elem_of_lookup_2.
Qed.

Lemma rows_changed_replace x y d :
  DeliveryRow.delivery_id y = DeliveryRow.delivery_id x → rows_changed [DeliveryRow.delivery_id x] d (replace_row x y d).
Proof.
  intros Hid. split; [done|]. cbn.
  match goal with |- Forall2 _ _ (map ?f ?k) => change (map f k) with (f <$> k) end.
  apply Forall2_fmap_r, Forall_Forall2_diag, Forall_forall. intros z _. unfold compose, same_but.
  destruct (bool_decide_reflect (DeliveryRow.delivery_id z = DeliveryRow.delivery_id x)) as [Hz|Hz]; [|done].
  split; [congruence|]. intros []. by apply list_elem_of_singleton.
Qed.

(** A segment of the [i]th future: what it does to the logs, to its row and to the world. *)
Lemma segment E D fs w i q E' D' y' f' w' :
  batch_inv E D fs w → l !! i = Some q →
  (E' = E ∨ ∃ out, E' = E ++ [(q, out)]) → (D' = D ∨ ∃ out, D' = D ++ [(q, out)]) →
  progress E' D' q y' f' → y' ∈ webhook_deliveries (db (pg_of w')) →
  ready_worker horizon w' → ticked (pg_of w) (pg_of w') →
  rows_changed [id_of q] (db (pg_of w)) (db (pg_of w')) →
  emits E' (backend w0).2 (backend w').2 → logged E' D' → counts_outcomes D' w' →
  batch_inv E' D' (<[i := f']> fs) w'.
Proof.
  intros (Hr & Ht & Hlen & Hch & Hem & Hlog & Hco & Hall) Hi HE HD Hprog Hy Hr' Ht' Hch' Hem' Hlog' Hco'.
  assert (q ∈ l) as Hql by by eapply list_elem_of_lookup_2.
  split_and!; [done|by etrans|by rewrite length_insert| |done..|].
  { eapply rows_changed_trans; [exact Hch|]. destruct Hch' as [Hrec Hrows]. split; [done|].
    eapply Forall2_impl; [exact Hrows|]. intros x x'. apply same_but_mono.
    intros j ->%list_elem_of_singleton. by apply elem_of_claimed_ids. }
  intros j q' Hj. destruct (decide (i = j)) as [<-|Hne].
  - assert (q' = q) as -> by congruence. exists y', f'. split_and!; [|done..].
    apply list_lookup_insert_eq. apply lookup_lt_Some in Hi. lia.
  - destruct (Hall j q' Hj) as (y & f & Hf & Hp & Hy0).
    assert (q' ≠ q) as Hq by (intros ->; apply Hne; by eapply NoDup_lookup; [apply claims_nodup|..]).
    exists y, f. split_and!; [by rewrite list_lookup_insert_ne| |].
    + eapply progress_grow; [..|exact Hp].
      1,2: intros out; destruct HE as [->|[? ->]], HD as [->|[? ->]]; rewrite ?elem_of_app; auto.
      * destruct HE as [->|[out ->]]; [done|]. rewrite map_app, elem_of_app. cbn. intros [?|?%list_elem_of_singleton]; done.
      * destruct HD as [->|[out ->]]; [done|]. rewrite map_app, elem_of_app. cbn. intros [?|?%list_elem_of_singleton]; done.
    + eapply rows_changed_in; [exact Hch'|done|]. rewrite (progress_id _ _ _ _ _ Hp), list_elem_of_singleton.
      intros Heq. apply Hne. eapply NoDup_lookup; [exact Hdistinct|..]; unfold claimed_ids.
      * apply (list_lookup_fmap_Some_2 (λ p, DeliveryRow.delivery_id (db_delivery (fst p))) _ _ _ Hi).
      * rewrite <- Heq. apply (list_lookup_fmap_Some_2 (λ p, DeliveryRow.delivery_id (db_delivery (fst p))) _ _ _ Hj).
Qed.

(** A segment that leaves the database alone. *)
Lemma quiet w w' :
  ready_worker horizon w → pg_of w' = pg_of w → wall_clock w' = wall_clock w →
  ready_worker horizon w' ∧ ticked (pg_of w) (pg_of w') ∧
  ∀ q : Claim, rows_changed [id_of q] (db (pg_of w)) (db (pg_of w')).
Proof.
  intros (? & ? & ? & ?) Hpg Hwc. unfold ready_worker. rewrite Hpg, Hwc. split_and!; [done..|reflexivity|].
  intros q. apply rows_changed_refl.
Qed.

Lemma emit_segment E D fs w i q f' w' :
  batch_inv E D fs w → l !! i = Some q → q ∉ map fst E →
  (let '(out, w1) := on_backend (emit (EmitterWorker.emitter self) (NormalizedEvent.from_receipt q.2)) w in
   (Await (EmitterWorker.after_emit powi self q.1 q.2 out) : FW, w1)) = (f', w') →
  ∃ out, batch_inv (E ++ [(q, out)]) D (<[i := f']> fs) w'.
Proof.
  intros Hinv Hi Hq. pose proof Hinv as (Hr & Ht & Hlen & Hch & Hem & (HE & HD & HEl & HDE) & Hco & Hall).
  unfold on_backend. cbn [emit EmitterWorker.emitter pg_worker]. unfold on_snd.
  destruct (downstream _ (backend w).2) as [out b'] eqn:Ed. intros [= <- <-]. exists out.
  assert (q ∈ l) as Hql by by eapply list_elem_of_lookup_2.
  destruct (quiet w (set_backend ((backend w).1, b') w) Hr eq_refl eq_refl) as (Hr' & Ht' & Hch').
  assert (row_of q ∈ webhook_deliveries (db (pg_of w))) as Hrow.
  { destruct (Hall i q Hi) as (y & f & _ & Hp & Hy). destruct Hp as [| | |out' y ? ? ?|out' y HD'].
    1-3: done.
    - destruct Hq. apply elem_of_List_map. by exists (q, out').
    - destruct Hq. apply elem_of_List_map. exists (q, out'). by split; [apply HDE|]. }
  eapply segment; [exact Hinv|exact Hi|right; by exists out|by left| |exact Hrow|done|done|apply Hch'| | |done].
  - apply at_emitted; [rewrite elem_of_app, list_elem_of_singleton; by right|].
    intros (p & Hp & Hf)%elem_of_List_map. apply Hq, elem_of_List_map. exists p. split; [by apply HDE|done].
  - by eapply emits_snoc.
  - unfold logged. rewrite map_app. split_and!; [|done| |].
    + apply NoDup_app. split_and!; [done| |apply NoDup_singleton]. by intros q' Hq' ->%list_elem_of_singleton.
    + intros q' [?| ->%list_elem_of_singleton]%elem_of_app; [by apply HEl|done].
    + intros p Hp%HDE. apply elem_of_app. by left.
Qed.

Lemma mark_segment E D fs w i q out texts f f' w' :
  batch_inv E D fs w → l !! i = Some q → (q, out) ∈ E → q ∉ map fst D →
  preserves db_wf (update_deliveries (leased (id_of q)) f) →
  (∀ c, settled policy (row_of q) out (if texts_ok texts then f c (row_of q) else row_of q)) →
  row_of q ∈ webhook_deliveries (db (pg_of w)) →
  (let '(_, w1) := mark_by (bind_text texts (update_deliveries (leased (id_of q)) f)) w in (Await (EmitterWorker.finish (succeeded out)) : FW, w1)) = (f', w') →
  batch_inv E D (<[i := f']> fs) w'.
Proof.
  intros Hinv Hi HqE HqD Hpres Hset Hrow Hrun.
  pose proof Hinv as ((Hh & Hwf & Hc & Hclk) & _ & _ & _ & Hem & Hlog & Hco & _).
  assert (DeliveryRow.state (row_of q) = "in_flight") as Hst by (apply Hleased; by eapply list_elem_of_lookup_2).
  destruct (mark_leased texts f (row_of q) (pg_of w) Hh Hwf Hrow Hst Hpres) as (r & Hm & Hwf').
  set (y := if texts_ok texts then f (clock (pg_of w)) (row_of q) else row_of q) in *. specialize (Hset (clock (pg_of w))). fold y in Hset.
  unfold mark_by, on_backend, on_fst in Hrun. unfold pg_of in Hm at 1. rewrite Hm in Hrun. injection Hrun as <- <-.
  eapply segment; [exact Hinv|exact Hi|by left|by left|by eapply at_marked| | | | |done..].
  - by apply replaced_row_in.
  - split_and!; [by apply healthy_set_db, healthy_tick|done| |done].
    intros z [->|Hz]%elem_of_replace_row_inv; [|by apply Hc]. eapply settled_count; [exact Hset|done|by apply Hc].
  - apply ticked_round.
  - apply rows_changed_replace. by eapply settled_id.
Qed.

Lemma counts_outcomes_snoc D q out w w' :
  counts_outcomes D w → (List.length D < List.length l)%nat →
  w' = (EmitterWorker.update_health (succeeded out) w).2 → counts_outcomes (D ++ [(q, out)]) w'.
Proof.
  intros Hco Hlen ->. intros Hc0 Hb. destruct (Hco Hc0 Hb) as [Hh _]. rewrite map_app. cbn [map snd].
  set (log := map _ D) in *. assert (List.length log = List.length D) as Hll by apply length_map.
  pose proof (update_health_spec (succeeded out) w) as (_ & _ & _ & [Hc Hs]).
  pose proof (trailing_failures_bound log c0 Hc0) as Hbd.
  assert ((if succeeded out then 0 else u32_wrapping_add (EmitterHealth.consecutive_failures (health w)) 1) =
    trailing_failures (log ++ [succeeded out]) c0) as Heq.
  { rewrite trailing_failures_snoc. destruct (succeeded out); [done|]. rewrite Hh. unfold u32_wrapping_add.
    rewrite Z.mod_small; [done|]. unfold u32_max in Hb. lia. }
  split; [by rewrite Hc|]. right. by rewrite <- Heq.
Qed.

Lemma finish_segment E D fs w i q out y f' w' :
  batch_inv E D fs w → l !! i = Some q → (q, out) ∈ E → q ∉ map fst D →
  settled policy (row_of q) out y → y ∈ webhook_deliveries (db (pg_of w)) →
  EmitterWorker.finish (succeeded out) w = (f', w') →
  batch_inv E (D ++ [(q, out)]) (<[i := f']> fs) w'.
Proof.
  intros Hinv Hi HqE HqD Hset Hy Hrun. unfold EmitterWorker.finish in Hrun. rewrite bind_run in Hrun.
  injection Hrun as <- Hw'. pose proof Hinv as (Hr & _ & _ & _ & Hem & (HE & HD & HEl & HDE) & Hco & _).
  pose proof (update_health_spec (succeeded out) w) as (Hb & _ & Hwc & _). rewrite Hw' in Hb, Hwc.
  assert (pg_of w' = pg_of w) as Hpg by (unfold pg_of; by rewrite Hb).
  destruct (quiet w w' Hr Hpg Hwc) as (Hr' & Ht' & Hch').
  assert (NoDup (map fst (D ++ [(q, out)]))) as HD'.
  { rewrite map_app. apply NoDup_app. split_and!; [done| |apply NoDup_singleton].
    by intros q' Hq' ->%list_elem_of_singleton. }
  assert (∀ p, p ∈ D ++ [(q, out)] → p ∈ E) as HDE'.
  { intros p [?| ->%list_elem_of_singleton]%elem_of_app; [by apply HDE|done]. }
  eapply segment; [exact Hinv|exact Hi|by left|right; by exists out| |by rewrite Hpg|done|done|apply Hch'|by rewrite Hb|done|].
  - eapply at_end; [|done]. apply elem_of_app. right. by apply list_elem_of_singleton.
  - eapply counts_outcomes_snoc; [exact Hco| |done].
    assert (map fst (D ++ [(q, out)]) ⊆+ l) as Hsub.
    { apply NoDup_submseteq; [done|]. intros q' (p & Hp%HDE' & ->)%elem_of_List_map. apply HEl, elem_of_List_map. by exists p. }
    apply submseteq_length in Hsub. rewrite length_map, length_app in Hsub. cbn in Hsub. lia.
Qed.

Lemma batch_joins : joins (λ fs w, ∃ E D, batch_inv E D fs w).
Proof.
  intros fs w i f (E & D & Hinv) Hf. pose proof Hinv as (Hr & _ & Hlen & _ & Hem & Hlog & Hco & Hall).
  destruct (lookup_lt_is_Some_2 l i) as [q Hi]; [apply lookup_lt_Some in Hf; lia|].
  destruct (Hall i q Hi) as (y & f0 & Hf0 & Hp & Hy). assert (f0 = f) as -> by congruence.
  destruct Hp as [Hq|out HqE HqD|out fut HqE HqD (texts & g & -> & Hpres & Hset)|out y HqE HqD Hset|out y HqD Hset].
  - intros f' w' Hrun. destruct (emit_segment E D fs w i q f' w' Hinv Hi Hq Hrun) as [out Hinv']. by eexists _, _.
  - intros f' w' Hrun. exists E, D. destruct Hr as (Hh & Hwf & Hc & Hclk).
    destruct (after_emit_marking q out w f' w') as (Hm & Hb & Hhe & Hwc); [by apply Hc|done|done|].
    assert (pg_of w' = pg_of w) as Hpg by (unfold pg_of; by rewrite Hb).
    destruct (quiet w w') as (Hr' & Ht' & Hch'); [done..|].
    eapply segment; [exact Hinv|exact Hi|by left|by left|by eapply at_mark|by rewrite Hpg|done|done|apply Hch'|by rewrite Hb|done|].
    unfold counts_outcomes. by rewrite Hhe.
  - intros f' w' Hrun. exists E, D. by eapply mark_segment.
  - intros f' w' Hrun. exists E, (D ++ [(q, out)]). by eapply finish_segment.
  - by eexists.
Qed.

Lemma batch_starts : ready_worker horizon w0 → batch_inv [] [] (map (EmitterWorker.dispatch_one powi self) l) w0.
Proof.
  intros Hr. split_and!; [done|reflexivity|by rewrite length_map|apply rows_changed_refl|constructor| | |].
  - split_and!; [constructor|constructor|by intros q ?%not_elem_of_nil|done].
  - intros _ _. split; [done|by left].
  - intros i q Hi. exists (row_of q), (EmitterWorker.dispatch_one powi self q). split_and!.
    + apply (list_lookup_fmap_Some_2 (EmitterWorker.dispatch_one powi self) _ _ _ Hi).
    + apply at_start, not_elem_of_nil.
    + apply Hleased. by eapply list_elem_of_lookup_2.
Qed.

(** At the end every claim has been answered, once, and its row is settled by the answer. *)
Lemma batch_ends E D results w :
  batch_inv E D (returned results) w →
  map fst E ≡ₚ l ∧ D ≡ₚ E ∧
  dispatched policy E (db (pg_of w0), (backend w0).2) (db (pg_of w), (backend w).2).
Proof.
  intros ((_ & Hwf & _) & _ & _ & [Hrec Hrows] & Hem & (HE & HD & HEl & HDE) & _ & Hall).
  assert (∀ q, q ∈ l → ∃ out y, (q, out) ∈ D ∧ settled policy (row_of q) out y ∧ y ∈ webhook_deliveries (db (pg_of w)))
    as Hdone.
  { intros q [i Hi]%list_elem_of_lookup. destruct (Hall i q Hi) as (y & f & Hf & Hp & Hy).
    unfold returned in Hf. rewrite list_lookup_fmap in Hf. destruct (results !! i); [|done]. injection Hf as <-.
    inversion Hp as [| |out fut ? ? (texts & g & Heq & _)| |out y' HqD Hset]; subst; [done|]. by exists out, y. }
  assert (∀ q out out', (q, out) ∈ E → (q, out') ∈ E → out = out') as Hone.
  { intros q out out' H1' H2'. by injection (NoDup_map_inj_on fst _ _ _ HE H1' H2' eq_refl). }
  split_and!.
  - apply NoDup_Permutation; [done|apply claims_nodup|]. intros q. split; [apply HEl|].
    intros Hq. destruct (Hdone q Hq) as (out & y & HqD & _). apply elem_of_List_map. exists (q, out). by split; [apply HDE|].
  - apply NoDup_Permutation; [by eapply NoDup_fmap_1|by eapply NoDup_fmap_1|]. intros [q out]. split; [apply HDE|].
    intros HqE. destruct (Hdone q) as (out' & y & HqD & _); [apply HEl, elem_of_List_map; by exists (q, out)|].
    by rewrite (Hone q out out' HqE (HDE _ HqD)).
  - split; [done..|]. cbn [fst]. apply Forall2_same_length_lookup_2; [by eapply Forall2_length|].
    intros i x x' Hx Hx'. pose proof (Forall2_lookup_lr _ _ _ _ _ _ Hrows Hx Hx') as [Hid Hsame].
    assert (x' ∈ webhook_deliveries (db (pg_of w))) as Hin' by by eapply list_elem_of_lookup_2. split.
    + intros q out HqE Hxq. destruct (Hdone q) as (out' & y & HqD & Hset & Hy);
        [apply HEl, elem_of_List_map; by exists (q, out)|].
      rewrite (Hone q out out' HqE (HDE _ HqD)).
      assert (x' = y) as ->; [|done]. eapply (NoDup_map_inj_on DeliveryRow.delivery_id); [apply (wf_delivery_ids _ Hwf)|done..|].
      by rewrite Hid, Hxq, (settled_id _ _ _ _ Hset).
    + intros Hn. apply Hsame. intros Hc. apply Hn. unfold claimed_ids in Hc |- *.
      apply elem_of_List_map in Hc as (q & Hq & ->). destruct (Hdone q Hq) as (out & _ & HqD & _).
      apply elem_of_List_map. exists q. split; [|done]. apply elem_of_List_map. exists (q, out). by split; [apply HDE|].
Qed.

(** C30: a batch under [join_all], whatever the order in which its futures are polled: no future
    panics, and the batch has the effect of its claims answered one after the other, in some
    order: each claimed row is settled by the answer to its own event (emitted, dead-lettered
    on the last attempt, or failed with one more attempt and a bounded delay; left in flight
    if PostgreSQL refuses the text of the error), no other row changes, and the health counts the outcomes one by one in the order they ended: no update
    is lost. *)
Theorem join_all_refines_one_by_one order :
  ready_worker horizon w0 →
  ∃ E D w',
    join_all order (map (EmitterWorker.dispatch_one powi self) l) w0 =
      (Ok (replicate (List.length l) tt), w') ∧
    map fst E ≡ₚ l ∧ D ≡ₚ E ∧
    dispatched policy E (db (pg_of w0), (backend w0).2) (db (pg_of w'), (backend w').2) ∧
    counts_outcomes D w' ∧ ready_worker horizon w' ∧ ticked (pg_of w0) (pg_of w').
Proof.
  intros Hr. destruct (join_all_joins _ order (map (EmitterWorker.dispatch_one powi self) l) w0 batch_joins)
    as (results & w' & Hrun & (E & D & Hinv) & Hlen); [by eexists _, _; apply batch_starts|].
  destruct (batch_ends E D results w' Hinv) as (HE & HDE & Hdis). destruct Hinv as (Hr' & Ht & _ & _ & _ & _ & Hco & _).
  exists E, D, w'. split_and!; [|done..]. rewrite Hrun. f_equal. f_equal.
  rewrite length_map in Hlen. rewrite <- Hlen. clear. by induction results as [|[] results IH]; cbn; [|f_equal].
Qed.
End batch.
End dispatch.

Definition one_shot : RetryPolicy.t :=
  RetryPolicy.mk 1 (Duration_from_secs 1) (Duration_from_secs 60) 2%float 0%float.

Lemma one_shot_usable : usable_policy one_shot 2000.
Proof.
  split_and!; [vm_compute; discriminate..|]. exists 60. split; [lia|reflexivity].
Qed.

(** Two deliveries that an iteration claimed; the broker refuses its second event. *)
Definition claim_of (id : Uuid) : WebhookDelivery.t * WebhookReceipt.t :=
  let x := sample_delivery id "in_flight" 0 None in
  ({| WebhookDelivery.delivery_id := DeliveryId.mk id;
      WebhookDelivery.receipt_id := WebhookReceipt.receipt_id sample_receipt;
      WebhookDelivery.emitter_name := DeliveryRow.emitter_name x;
      WebhookDelivery.state := DeliveryState.InFlight;
      WebhookDelivery.attempt_count := DeliveryRow.attempt_count x;
      WebhookDelivery.last_error := None;
      WebhookDelivery.last_attempt_at := None;
      WebhookDelivery.next_attempt_at := DeliveryRow.next_attempt_at x;
      WebhookDelivery.emitted_at := None;
      WebhookDelivery.immutable := false;
      WebhookDelivery.created_at := DeliveryRow.created_at x |}, sample_receipt).

Definition accepts_one (_ : NormalizedEvent.t) : M bool (result unit EmitError.t) :=
  λ first, (if first then Ok tt else Err (EmitError.Timeout "no answer"), false).

Lemma join_all_refines_one_by_one_witness :
  let batch := [claim_of 10%N; claim_of 11%N] in
  let w := sample_world (session (sample_db [sample_delivery 10%N "in_flight" 0 None;
                                            sample_delivery 11%N "in_flight" 0 None]) 2000 20%N, true) in
  let fs := map (EmitterWorker.dispatch_one powi_iter
                   (pg_worker accepts_one "kafka" one_shot 4 0 (Duration_from_secs 30))) batch in
  ∃ (E : list (_ * result unit EmitError.t)) w', join_all [1; 0; 1]%nat fs w = (Ok [tt; tt], w') ∧ map fst E ≡ₚ batch ∧
    map DeliveryRow.state (webhook_deliveries (db (pg_of w'))) = ["dead_lettered"; "emitted"].
Proof.
  intros batch w fs.
  destruct (join_all_refines_one_by_one powi_iter accepts_one "kafka" one_shot 4 0 (Duration_from_secs 30)
    2000 one_shot_usable ltac:(vm_compute; discriminate) batch w ltac:(vm_decide))
    with (order := [1; 0; 1]%nat) as (E & D & w' & Hrun & HE & _).
  - intros q Hin. repeat (apply elem_of_cons in Hin as [->|Hin]).
    + split; [apply elem_of_cons; by left|reflexivity].
    + split; [apply elem_of_cons; right; apply elem_of_cons; by left|reflexivity].
    + by apply not_elem_of_nil in Hin.
  - split_and!; [reflexivity|vm_decide| |intros j; vm_compute; discriminate].
    intros y Hy. repeat (apply elem_of_cons in Hy as [->|Hy]; [vm_compute; split; [discriminate|reflexivity]|]).
    by apply not_elem_of_nil in Hy.
  - exists E, w'. split_and!; [exact Hrun|exact HE|]. rewrite <- (f_equal snd Hrun : _ = w'). vm_compute. reflexivity.
Defined.
