(* ===== verification/WorkerProps.v ===== *)
(** * Properties of the dispatch worker

    One iteration of the loop of [spawn], and the life of a delivery under repeated iterations. *)

From S2P Require Import Prelude Futures RustStd F64 Types Traits Transitions Metrics Database Samples DatabaseProps Postgres PostgresProps Lifecycle Worker Dispatch Instances.
Local Open Scope Z_scope.
Local Open Scope rust_scope.

Section worker_props.
Context `{SerdeJson} `{PgTypes} `{UuidText} {B : Type}.
Variable powi : f64 → Z → f64.
Variable downstream : NormalizedEvent.t → M B (result unit EmitError.t).
Notation PW := (WorkerWorld (Pg * B)).

Section batch.
Variables (name : string) (policy : RetryPolicy.t) (conc : Z) (poll lease : Duration)
  (horizon : DateTime).
Hypothesis Hpolicy : usable_policy policy horizon.
Hypothesis Hmax : RetryPolicy.max_attempts policy ≤ i32_max.
Notation self := (pg_worker downstream name policy conc poll lease).
Notation ready_worker := (ready_worker horizon).
Notation Claim := (WebhookDelivery.t * WebhookReceipt.t)%type.

(** ** One iteration of the loop *)

Definition after_reclaim (w : Pg) : Db :=
  let p := lease_expired name (make_interval (as_secs_f64 lease)) (clock w) in
  set_deliveries (λ r, if p r then DeliveryRow.set_reclaimed (now (clock w)) r else r) (db w).

Lemma reclaim_healthy w :
  healthy w → ∃ n, PostgresStorage.reclaim_expired name lease w = (Ok n, set_db (after_reclaim w) (tick w)).
Proof.
  intros Hw. unfold PostgresStorage.reclaim_expired. rewrite execute_healthy by done. eauto.
Qed.

Lemma after_reclaim_wf w : db_wf (db w) → db_wf (after_reclaim w).
Proof. intros Hwf. by eapply (update_reclaim_wf name (make_interval (as_secs_f64 lease)) (clock w)). Qed.

Lemma after_reclaim_counts w : counts_ok (db w) → counts_ok (after_reclaim w).
Proof.
  intros Hc y Hy. cbn in Hy. apply elem_of_List_map in Hy as (x & Hx & ->).
  destruct (lease_expired _ _ _ x); by apply (Hc x).
Qed.

Lemma after_reclaim_keeps w x :
  x ∈ webhook_deliveries (db w) → DeliveryRow.state x ≠ "in_flight" →
  x ∈ webhook_deliveries (after_reclaim w).
Proof.
  intros Hx Hst. cbn. apply elem_of_List_map. exists x. split; [done|].
  unfold lease_expired. rewrite (bool_decide_false (DeliveryRow.state x = "in_flight")) by done.
  by rewrite andb_false_r.
Qed.

Lemma claim_counts batch c d rows d' : counts_ok d → claim name batch c d = Ok (rows, d') → counts_ok d'.
Proof.
  intros Hc Hrun. unfold claim in Hrun. destruct (batch <? 0); [done|]. injection Hrun as _ <-.
  intros y Hy. cbn in Hy. apply elem_of_List_map in Hy as (x & Hx & ->).
  destruct (bool_decide _); by apply (Hc x).
Qed.

Lemma count_advanced p w : advanced w (PostgresStorage.count_u64 p w).2.
Proof.
  unfold PostgresStorage.count_u64, bind_try, bind, ret.
  pose proof (execute_read_advanced (λ c d,
    Ok (Z.of_nat (List.length (List.filter (p c) (webhook_deliveries d))))) w) as Ha.
  fold (count_where p) in Ha.
  by destruct (execute (count_where p) w) as [[a|e] w'].
Qed.

(** The gauges only read. *)
Lemma refresh_gauges_frame w :
  let w' := (EmitterWorker.refresh_gauges self w).2 in
  advanced (pg_of w) (pg_of w') ∧ (backend w').2 = (backend w).2 ∧ wall_clock w' = wall_clock w.
Proof.
  unfold EmitterWorker.refresh_gauges, bind, on_backend, emit_metric, load_health, store_health.
  cbn [count_dlq count_pending count_in_flight EmitterWorker.storage EmitterWorker.name pg_worker
       worker_storage]. unfold on_fst.
  unfold PostgresStorage.count_dlq, PostgresStorage.count_pending, PostgresStorage.count_in_flight.
  pose proof (count_advanced (dead_lettered_for name) (backend w).1) as H1'.
  destruct (PostgresStorage.count_u64 _ (backend w).1) as [r1 p1]. cbn in H1' |- *.
  pose proof (count_advanced (dispatchable name) p1) as H2'.
  destruct (PostgresStorage.count_u64 _ p1) as [r2 p2]. cbn in H2' |- *.
  pose proof (count_advanced (in_flight_for name) p2) as H3'.
  destruct (PostgresStorage.count_u64 _ p2) as [r3 p3]. cbn in H3' |- *.
  match goal with |- context [EmitterWorker.derive_status_now ?c ?t ?w1] =>
    pose proof (derive_status_now_frame c t w1) as (Hb & _ & Hwc);
    destruct (EmitterWorker.derive_status_now c t w1) as [st w2] end.
  cbn in Hb, Hwc |- *. unfold pg_of. cbn. rewrite Hb, Hwc. cbn.
  split; [|done]. etrans; [exact H1'|]. by etrans.
Qed.

(** The metric of the reclaimed rows changes nothing else. *)
Lemma reclaim_metric n (w : PW) :
  ∃ w1, (match (Ok n : result Z StorageError.t) with
         | Ok n => if 0 <? n
                   then emit_metric (Counter "hookbox_emit_reclaimed_total" [("emitter", name)] n)
                   else ret tt
         | Err _ => ret tt end) w = (tt, w1) ∧ backend w1 = backend w ∧ wall_clock w1 = wall_clock w.
Proof. cbv iota. destruct (0 <? n); eexists; (split; [reflexivity|done]). Qed.

(** The session after the reclaim of an iteration. *)
Definition reclaimed (p : Pg) : Pg := set_db (after_reclaim p) (tick p).

Lemma reclaimed_ready p :
  healthy p → db_wf (db p) → counts_ok (db p) →
  healthy (reclaimed p) ∧ db_wf (db (reclaimed p)) ∧ counts_ok (db (reclaimed p)).
Proof.
  intros Hh Hwf Hc. split_and!;
    [by apply healthy_set_db, healthy_tick|by apply after_reclaim_wf|by apply after_reclaim_counts].
Qed.

Lemma rows_of_reclaimed n p :
  rows_of n (db (reclaimed p)) =
  map (λ x, if lease_expired name (make_interval (as_secs_f64 lease)) (clock p) x
            then DeliveryRow.set_reclaimed (now (clock p)) x else x) (rows_of n (db p)).
Proof. apply rows_of_set. intros x. by destruct (lease_expired _ _ _ x). Qed.

(** The batch an iteration claims: in flight rows of the table, each with its receipt. *)
Lemma claim_batch p rows d1 (l : list (WebhookDelivery.t * WebhookReceipt.t)) :
  db_wf (db p) → claim name conc (clock p) (db p) = Ok (rows, d1) →
  map (λ q, db_delivery (fst q)) l = rows →
  db_wf d1 ∧ NoDup (claimed_ids l) ∧
  ∀ d r, (d, r) ∈ l → db_delivery d ∈ webhook_deliveries d1 ∧ DeliveryRow.state (db_delivery d) = "in_flight".
Proof.
  intros Hwf Hclaim Hmap. pose proof (claim_wf _ _ _ _ _ _ Hwf Hclaim) as Hwf1.
  destruct (claimed_rows _ _ _ _ _ _ Hwf Hclaim) as [_ Hrows].
  assert (claimed_ids l = map DeliveryRow.delivery_id rows) as Hids by by rewrite <- Hmap, map_map.
  split_and!; [done| |].
  - rewrite Hids. unfold claim in Hclaim. destruct (_ <? 0); [done|]. injection Hclaim as <- <-.
    eapply NoDup_map_sublist; [apply List_filter_submseteq|apply (wf_delivery_ids _ Hwf1)].
  - intros d r Hd. assert (db_delivery d ∈ rows) as Hr.
    { rewrite <- Hmap. apply elem_of_List_map. by exists (d, r). }
    split; [by apply Hrows|].
    by destruct (claimed_row_origin _ _ _ _ _ _ _ Hwf Hclaim Hr) as (row & _ & -> & _).
Qed.

(** An iteration: reclaim, claim, the dispatches of the batch, and the gauges. *)
Lemma iteration_run order w :
  ready_worker w → 0 ≤ conc ≤ i64_max →
  let p := reclaimed (pg_of w) in
  ∃ rows d1 l E w',
    claim name conc (clock p) (db p) = Ok (rows, d1) ∧ map (λ q, db_delivery (fst q)) l = rows ∧
    Forall (λ q, db_receipt (snd q) ∈ webhook_receipts (db (pg_of w)) ∧
                 WebhookReceipt.receipt_id (snd q) = WebhookDelivery.receipt_id (fst q)) l ∧
    map fst E ≡ₚ l ∧
    EmitterWorker.iteration powi self order w = (Ok (match l with [] => false | _ => true end), w') ∧
    ready_worker w' ∧ ticked (pg_of w) (pg_of w') ∧
    dispatched downstream policy E (d1, (backend w).2) (db (pg_of w'), (backend w').2).
Proof.
  intros (Hh & Hwf & Hc & Hclk) Hconc p.
  destruct (reclaim_healthy (pg_of w) Hh) as [n Hrec]. fold (reclaimed (pg_of w)) p in Hrec.
  destruct (reclaimed_ready (pg_of w) Hh Hwf Hc) as (Hhp & Hwfp & Hcp). fold p in Hhp, Hwfp, Hcp.
  destruct (claim_pending_healthy name conc p Hhp Hwfp) as (rows & d1 & l & p1 & Hclaim & Hrun & Hadv & Hmap & Hall);
    [lia|].
  destruct (claim_batch p rows d1 l Hwfp Hclaim Hmap) as (Hwf1 & Hnd & Hin).
  destruct (reclaim_metric n (set_backend (p, (backend w).2) w)) as (w1 & Hm & Hb1 & Hclk1).
  cbn [backend wall_clock set_backend] in Hb1, Hclk1.
  pose proof Hadv as (Hdb1 & _ & _ & Hh1). cbn [db set_db] in Hdb1.
  set (w2 := set_backend (p1, (backend w).2) w1).
  assert (ready_worker w2) as Hr2.
  { split_and!; [by apply Hh1, healthy_set_db|by unfold pg_of; cbn; rewrite Hdb1| |by cbn; rewrite Hclk1].
    unfold pg_of. cbn. rewrite Hdb1. by eapply claim_counts. }
  assert (ticked (pg_of w) (pg_of w2)) as Ht2.
  { transitivity p; [apply ticked_round|]. by apply (advanced_ticked (set_db d1 p)). }
  assert (db (pg_of w2) = d1) as Hd1 by done.
  destruct (join_all_refines_one_by_one powi downstream name policy conc poll lease horizon Hpolicy Hmax l w2 Hnd)
    with (order := order) as (E & D & w3 & Hjoin & HE & _ & Hdis & _ & Hr3 & Ht3);
    [intros [d r] Hq; rewrite Hd1; by apply (Hin d r)|done|].
  rewrite Hd1 in Hdis. cbn [backend set_backend w2 snd] in Hdis.
  pose proof (refresh_gauges_frame w3) as (Hadv3 & Hb3 & Hclk3).
  exists rows, d1, l, E, (EmitterWorker.refresh_gauges self w3).2.
  split_and!; [done|done|exact Hall|done| | | |].
  - unfold EmitterWorker.iteration, bind at 1, on_backend at 1.
    cbn [reclaim_expired EmitterWorker.storage EmitterWorker.name EmitterWorker.lease_duration
         EmitterWorker.concurrency pg_worker worker_storage]. unfold on_fst at 1.
    unfold pg_of in Hrec. rewrite Hrec. unfold bind at 1. fold p. rewrite Hm.
    unfold bind at 1, on_backend at 1. cbn [claim_pending worker_storage]. unfold on_fst at 1.
    rewrite Hb1. cbn [fst snd].
    assert (EmitterWorker.usize_as_i64 conc = conc) as ->.
    { unfold EmitterWorker.usize_as_i64. destruct (Z.leb_spec conc i64_max); lia. }
    rewrite Hrun. fold w2. destruct l as [|q l].
    + cbn [map] in Hjoin. rewrite join_all_nil in Hjoin. injection Hjoin as <-. unfold bind, ret.
      by destruct (EmitterWorker.refresh_gauges _ w2) as [[] w4].
    + rewrite (bind_try_run _ _ _ _ _ Hjoin). unfold bind, ret.
      by destruct (EmitterWorker.refresh_gauges _ w3) as [[] w4].
  - by eapply ready_worker_advanced.
  - etrans; [exact Ht2|]. etrans; [exact Ht3|]. by apply advanced_ticked.
  - rewrite Hb3. by destruct Hadv3 as [-> _].
Qed.

(** The batch of an iteration: the first of the deliveries that are due once it has reclaimed the
    expired leases, as many as the concurrency. *)
Definition batch_of (p : Pg) : list DeliveryRow.t :=
  take (Z.to_nat conc) (due_first name (clock (tick p)) (after_reclaim p)).

Lemma elem_of_batch_of p x :
  x ∈ batch_of p → x ∈ webhook_deliveries (after_reclaim p) ∧ dispatchable name (clock (tick p)) x = true.
Proof. by intros (? & ? & _)%elem_of_take_inv%elem_of_due_first. Qed.

(** The rows an iteration claims are those of its batch, now in flight. *)
Lemma claims_batch p rows d1 :
  db_wf (db p) → 0 ≤ conc → claim name conc (clock (reclaimed p)) (db (reclaimed p)) = Ok (rows, d1) →
  map DeliveryRow.delivery_id rows ≡ₚ map DeliveryRow.delivery_id (batch_of p) ∧
  (∀ x, x ∈ batch_of p → DeliveryRow.set_in_flight (now (clock (tick p))) x ∈ rows) ∧
  (∀ x, x ∈ webhook_deliveries (after_reclaim p) → x ∉ batch_of p →
     x ∈ webhook_deliveries d1 ∧ DeliveryRow.delivery_id x ∉ map DeliveryRow.delivery_id rows).
Proof.
  intros Hwf Hconc Hclaim. pose proof (after_reclaim_wf p Hwf) as Hwfp.
  pose proof (claim_wf _ _ _ _ _ _ (Hwfp : db_wf (db (reclaimed p))) Hclaim) as Hwf1.
  rewrite claim_effect in Hclaim by done. injection Hclaim as <- <-.
  change (clock (reclaimed p)) with (clock (tick p)) in *. change (db (reclaimed p)) with (after_reclaim p) in *.
  assert (∀ i, i ∈ claim_ids name conc (clock (tick p)) (after_reclaim p) ↔
               i ∈ map DeliveryRow.delivery_id (batch_of p)) as Hids by done.
  set (g := λ r, if bool_decide (DeliveryRow.delivery_id r ∈ claim_ids name conc (clock (tick p)) (after_reclaim p))
                 then DeliveryRow.set_in_flight (now (clock (tick p))) r else r).
  assert (∀ r, DeliveryRow.delivery_id (g r) = DeliveryRow.delivery_id r) as Hg
    by (intros r; unfold g; by destruct (bool_decide _)).
  assert (∀ x, x ∈ batch_of p → DeliveryRow.set_in_flight (now (clock (tick p))) x ∈
    List.filter (λ r, bool_decide (DeliveryRow.delivery_id r ∈ claim_ids name conc (clock (tick p)) (after_reclaim p)))
      (webhook_deliveries (set_deliveries g (after_reclaim p)))) as Hin.
  { intros x Hx. assert (DeliveryRow.delivery_id x ∈ claim_ids name conc (clock (tick p)) (after_reclaim p)) as Hi
      by (apply Hids, elem_of_List_map; by exists x).
    apply elem_of_List_filter. split; [|by apply bool_decide_eq_true]. cbn. apply elem_of_List_map.
    exists x. split; [by apply elem_of_batch_of in Hx as [? _]|]. unfold g. by rewrite bool_decide_true. }
  split_and!; [|exact Hin|].
  - apply NoDup_Permutation.
    + eapply NoDup_map_sublist; [apply List_filter_submseteq|apply (wf_delivery_ids _ Hwf1)].
    + by apply (claim_ids_NoDup name conc (clock (tick p)) (after_reclaim p)).
    + intros i. rewrite <- Hids. split.
      * intros (r & [_ Hr%bool_decide_eq_true]%elem_of_List_filter & ->)%elem_of_List_map. done.
      * intros (x & Hx & ->)%Hids%elem_of_List_map. apply elem_of_List_map.
        exists (DeliveryRow.set_in_flight (now (clock (tick p))) x). split; [by apply Hin|done].
  - intros x Hx Hnot.
    assert (DeliveryRow.delivery_id x ∉ claim_ids name conc (clock (tick p)) (after_reclaim p)) as Hn.
    { intros (y & Hy & Hid)%Hids%elem_of_List_map. apply Hnot.
      assert (x = y) as -> by (eapply (NoDup_map_inj_on DeliveryRow.delivery_id);
        [apply (wf_delivery_ids _ Hwfp)|done|by apply elem_of_batch_of in Hy as [? _]|done]).
      done. }
    split.
    + cbn. apply elem_of_List_map. exists x. split; [done|]. unfold g. by rewrite bool_decide_false.
    + intros (r & [_ Hr%bool_decide_eq_true]%elem_of_List_filter & Hid)%elem_of_List_map.
      apply Hn. by rewrite Hid.
Qed.

(** What an iteration does to the deliveries: those of its batch are answered, each once, and
    settled; the others stay as the reclaim left them. *)
Lemma iteration_settles order w :
  ready_worker w → 0 ≤ conc ≤ i64_max →
  let p := pg_of w in
  ∃ E w',
    EmitterWorker.iteration powi self order w = (Ok (match batch_of p with [] => false | _ => true end), w') ∧
    ready_worker w' ∧ emits downstream E (backend w).2 (backend w').2 ∧
    claimed_ids (map fst E) ≡ₚ map DeliveryRow.delivery_id (batch_of p) ∧
    (∀ x, x ∈ batch_of p → ∃ q out y, (q, out) ∈ E ∧
       db_delivery q.1 = DeliveryRow.set_in_flight (now (clock (tick p))) x ∧
       db_receipt q.2 ∈ webhook_receipts (db p) ∧
       WebhookReceipt.receipt_id q.2 = WebhookDelivery.receipt_id q.1 ∧
       settled policy (db_delivery q.1) out y ∧ y ∈ webhook_deliveries (db (pg_of w'))) ∧
    (∀ x, x ∈ webhook_deliveries (after_reclaim p) → x ∉ batch_of p → x ∈ webhook_deliveries (db (pg_of w'))).
Proof.
  intros Hr Hconc p. pose proof Hr as (Hh & Hwf & Hc & _).
  destruct (iteration_run order w Hr Hconc) as (rows & d1 & l & E & w' & Hclaim & Hmap & Hall & HE & Hrun & Hr' & _ & Hd).
  destruct (reclaimed_ready (pg_of w) Hh Hwf Hc) as (_ & Hwfp & _).
  destruct (claim_batch _ rows d1 l Hwfp Hclaim Hmap) as (_ & Hnd & Hin).
  destruct (claims_batch p rows d1 Hwf ltac:(lia) Hclaim) as (Hids & Hbatch & Hrest).
  assert (claimed_ids (map fst E) ≡ₚ map DeliveryRow.delivery_id (batch_of p)) as HEids.
  { unfold claimed_ids in *. rewrite HE, <- Hids, <- Hmap. by rewrite map_map. }
  exists E, w'. split_and!; [|done|apply Hd|done| |].
  - rewrite Hrun. do 2 f_equal. apply Permutation_length in Hids. rewrite !length_map, <- Hmap, length_map in Hids.
    destruct l, (batch_of p); cbn in Hids; done.
  - intros x Hx. specialize (Hbatch x Hx). rewrite <- Hmap in Hbatch.
    apply elem_of_List_map in Hbatch as (q & Hq & Hqx).
    assert (q ∈ map fst E) as HqE by by rewrite HE.
    apply elem_of_List_map in HqE as ([q' out] & HqE & Hfst). cbn in Hfst. subst q'.
    destruct (dispatched_each _ _ _ _ _ _ _ Hd HqE) as (y & Hset & Hy); [destruct q as [d r]; by apply (Hin d r)|].
    rewrite Forall_forall in Hall. destruct (Hall q Hq) as [Hrc Hrid]. exists q, out, y. by split_and!.
  - intros x Hx Hnot. destruct (Hrest x Hx Hnot) as [Hx1 Hn].
    destruct (proj1 (list_elem_of_lookup _ _) Hx1) as [i Hi].
    destruct (Forall2_lookup_l _ _ _ _ _ (dis_rows _ _ _ _ _ Hd) Hi) as (y & Hy & [_ Hsame]).
    rewrite Hsame in Hy; [by eapply list_elem_of_lookup_2|].
    rewrite HEids, <- Hids. exact Hn.
Qed.

(** [k] iterations that each try the delivery [i]; between them the clocks, the broker and the
    health may be anything, other processes may do anything to the other rows, and the order of
    the polls in each may be any. *)
Inductive due_iterations (i : Uuid) : nat → Db → Db → Prop :=
| due_none d : due_iterations i 0 d d
| due_more k d d1 w x order w' :
    due_iterations i k d d1 → ready_worker w →
    (∀ y, y ∈ webhook_deliveries d1 → DeliveryRow.delivery_id y = i → y ∈ webhook_deliveries (db (pg_of w))) →
    x ∈ batch_of (pg_of w) → DeliveryRow.delivery_id x = i →
    EmitterWorker.iteration powi self order w = (Ok true, w') →
    due_iterations i (S k) d (db (pg_of w')).
End batch.

(** The row of a delivery after [k] failed attempts. *)
Definition after_failures (max_attempts : Z) (k : nat) (y : DeliveryRow.t) : Prop :=
  Z.of_nat k ≤ Z.max 1 max_attempts ∧
  if decide (k = 0%nat) then DeliveryRow.state y = "pending" ∧ DeliveryRow.attempt_count y = 0
  else if decide (Z.of_nat k < max_attempts)
  then DeliveryRow.state y = "failed" ∧ DeliveryRow.attempt_count y = Z.of_nat k
  else DeliveryRow.state y = "dead_lettered" ∧ DeliveryRow.attempt_count y = Z.of_nat k - 1.


(** C14: with an emitter that always fails (with a text PostgreSQL accepts), a pending delivery
    that is among those each of [k] iterations takes is tried at most [max(1, max_attempts)]
    times, whatever happens to the other rows in between: it is [failed] with the exact count of
    its attempts until the last one, which dead-letters it; the row of the dead letter keeps the
    count of the attempt before, one less than the attempts made. *)
Theorem failing_delivery_is_dead_lettered name policy conc poll lease horizon x0 d0 k dk :
  usable_policy policy horizon → RetryPolicy.max_attempts policy ≤ i32_max →
  0 ≤ conc ≤ i64_max →
  (∀ ev b, ∃ err, (downstream ev b).1 = Err err ∧ no_nul (EmitError.to_string err) = true) →
  x0 ∈ webhook_deliveries d0 → db_wf d0 →
  DeliveryRow.state x0 = "pending" → DeliveryRow.attempt_count x0 = 0 →
  due_iterations name policy conc poll lease horizon (DeliveryRow.delivery_id x0) k d0 dk →
  ∃ y, y ∈ webhook_deliveries dk ∧ DeliveryRow.delivery_id y = DeliveryRow.delivery_id x0 ∧
       after_failures (RetryPolicy.max_attempts policy) k y.
Proof.
  intros Hpol Hmax Hconc Hfail Hx0 Hwf0 Hst0 Hn0 Hrun.
  set (i := DeliveryRow.delivery_id x0) in *.
  induction Hrun as [d|k d d1 w x order w' _ IH Hr Hkept Hx Hid Hit].
  { exists x0. split_and!; [done|done|]. split; [lia|done]. }
  destruct (IH Hx0 Hwf0) as (z & Hz & Hzi & Hk & Hzs). apply Hkept in Hz; [|done].
  pose proof Hr as (_ & Hwf & Hc & _). pose proof (after_reclaim_wf name lease _ Hwf) as Hwfr.
  pose proof (elem_of_batch_of _ _ _ _ _ Hx) as [Hxr Hdis].
  assert (z = x) as ->.
  { eapply (NoDup_map_inj_on DeliveryRow.delivery_id); [apply (wf_delivery_ids _ Hwfr)| |done|congruence].
    apply after_reclaim_keeps; [done|]. intros Hf. rewrite Hf in Hzs. by repeat case_decide; destruct Hzs. }
  destruct (iteration_settles name policy conc poll lease horizon Hpol Hmax order w Hr Hconc)
    as (E & w1 & Hit' & _ & Hem & _ & Hset & _).
  rewrite Hit in Hit'. injection Hit' as _ <-.
  destruct (Hset x Hx) as (q & out & y & HqE & Hqx & _ & _ & Hs & Hy). rewrite Hqx in Hs.
  destruct (emits_answers downstream (λ _, True)
    (λ _ out, ∃ err, out = Err err ∧ no_nul (EmitError.to_string err) = true) _ _ _
    (λ q b _, conj (Hfail _ b) I) Hem I) as [_ Hans].
  destruct (Hans _ _ HqE) as (err & -> & Hnul).
  assert (DeliveryRow.attempt_count x = Z.of_nat k ∧ (k = 0%nat ∨ Z.of_nat k < RetryPolicy.max_attempts policy))
    as [Hcount Hlt].
  { destruct (decide (k = 0%nat)) as [->|]; [by destruct Hzs as [_ ->]; auto|].
    destruct (decide _) as [Hl|]; [by destruct Hzs; auto|]. exfalso.
    unfold dispatchable in Hdis. destruct Hzs as [Hs' _]. rewrite Hs' in Hdis. cbn in Hdis.
    by rewrite andb_false_r in Hdis. }
  exists y. split_and!; [done|by rewrite (settled_id _ _ _ _ Hs)|].
  split; [destruct Hlt; lia|]. rewrite decide_False by done.
  inversion Hs as [|err' _ Hm Heq Hy'|err' nw delay _ Hm Hdel Heq Hy'|err' Hn']; subst; cbn in *; [| |congruence].
  - rewrite decide_False by lia. cbn. split; [done|lia].
  - rewrite decide_True by lia. cbn. split; [done|lia].
Qed.
End worker_props.

(** ** Witnesses *)

Definition broken_broker (_ : NormalizedEvent.t) : M unit (result unit EmitError.t) :=
  ret (Err (EmitError.Timeout "no answer")).
Definition two_shots : RetryPolicy.t :=
  RetryPolicy.mk 2 (Duration_from_secs 1) (Duration_from_secs 60) 2%float 0%float.

Lemma two_shots_usable : usable_policy two_shots 2000.
Proof.
  split_and!; [vm_compute; discriminate..|]. exists 60. split; [lia|reflexivity].
Qed.

Lemma counts_checked d :
  forallb (λ y, (0 <=? DeliveryRow.attempt_count y) && (DeliveryRow.attempt_count y <? i32_max))
    (webhook_deliveries d) = true → counts_ok d.
Proof.
  intros Hd y Hy%list_elem_of_In. rewrite forallb_forall in Hd. specialize (Hd y Hy).
  apply andb_prop in Hd as [?%Z.leb_le ?%Z.ltb_lt]. lia.
Qed.

(** Two attempts are allowed; the emitter has a delivery in its history and another one that is
    due, and its worker takes one at a time. *)
Lemma failing_delivery_is_dead_lettered_witness :
  let x0 := sample_delivery 10%N "pending" 0 None in
  let d0 := sample_db [sample_delivery 12%N "emitted" 0 (Some 500); x0] in
  let self := pg_worker broken_broker "kafka" two_shots 1 0 (Duration_from_secs 30) in
  let w1 := sample_world (session d0 2000 20%N, tt) in
  let d1 := db (pg_of (EmitterWorker.iteration powi_iter self [] w1).2) in
  let w2 := sample_world (session d1 100000000000 30%N, tt) in
  let d2 := db (pg_of (EmitterWorker.iteration powi_iter self [] w2).2) in
  (∃ y, y ∈ webhook_deliveries d1 ∧ DeliveryRow.delivery_id y = 10%N ∧ after_failures 2 1 y) ∧
  (∃ y, y ∈ webhook_deliveries d2 ∧ DeliveryRow.delivery_id y = 10%N ∧ after_failures 2 2 y).
Proof.
  intros x0 d0 self w1 d1 w2 d2.
  assert (∀ d t u, db_wf d → counts_ok d → Dispatch.ready_worker 2000 (sample_world (session d t u, tt))) as Hready.
  { intros d t u Hwf Hc. split_and!; [reflexivity|exact Hwf|exact Hc|intros j; vm_compute; discriminate]. }
  assert (due_iterations powi_iter broken_broker "kafka" two_shots 1 0 (Duration_from_secs 30) 2000 10%N 1 d0 d1) as Hd1.
  { apply (due_more powi_iter broken_broker "kafka" two_shots 1 0 (Duration_from_secs 30) 2000 10%N 0
             d0 d0 w1 x0 [] (EmitterWorker.iteration powi_iter self [] w1).2).
    - apply due_none.
    - apply Hready; [vm_decide|]. apply counts_checked. vm_compute. reflexivity.
    - intros y Hy _. exact Hy.
    - vm_compute. apply elem_of_cons. left. reflexivity.
    - reflexivity.
    - refine (pair_fst (EmitterWorker.iteration powi_iter _ [] w1) (Ok true) _). vm_compute. reflexivity. }
  assert (due_iterations powi_iter broken_broker "kafka" two_shots 1 0 (Duration_from_secs 30) 2000 10%N 2 d0 d2) as Hd2.
  { assert (∃ x, x ∈ batch_of "kafka" 1 (Duration_from_secs 30) (pg_of w2) ∧ DeliveryRow.delivery_id x = 10%N)
      as (x & Hx & Hid).
    { vm_compute. eexists. split; [apply elem_of_cons; left; reflexivity|reflexivity]. }
    apply (due_more powi_iter broken_broker "kafka" two_shots 1 0 (Duration_from_secs 30) 2000 10%N 1
             d0 d1 w2 x [] (EmitterWorker.iteration powi_iter self [] w2).2).
    - exact Hd1.
    - apply Hready; [vm_decide|]. apply counts_checked. vm_compute. reflexivity.
    - intros y Hy _. exact Hy.
    - exact Hx.
    - exact Hid.
    - refine (pair_fst (EmitterWorker.iteration powi_iter _ [] w2) (Ok true) _). vm_compute. reflexivity. }
  split.
  - apply (failing_delivery_is_dead_lettered powi_iter broken_broker "kafka" two_shots 1 0
      (Duration_from_secs 30) 2000 x0 d0 1 d1);
      [exact two_shots_usable|vm_compute; discriminate|vm_compute; split; discriminate| | |vm_decide| | |exact Hd1].
    + intros ev b. exists (EmitError.Timeout "no answer"). split; reflexivity.
    + apply elem_of_cons. right. apply elem_of_cons. left. reflexivity.
    + reflexivity.
    + reflexivity.
  - apply (failing_delivery_is_dead_lettered powi_iter broken_broker "kafka" two_shots 1 0
      (Duration_from_secs 30) 2000 x0 d0 2 d2);
      [exact two_shots_usable|vm_compute; discriminate|vm_compute; split; discriminate| | |vm_decide| | |exact Hd2].
    + intros ev b. exists (EmitError.Timeout "no answer"). split; reflexivity.
    + apply elem_of_cons. right. apply elem_of_cons. left. reflexivity.
    + reflexivity.
    + reflexivity.
Defined.

(** A broker that accepts everything. *)
Definition accepting_broker (_ : NormalizedEvent.t) : M unit (result unit EmitError.t) :=
  ret (Ok tt).

