(* ===== verification/Memory.v ===== *)
(** * scenario-tests/src/{world,fake_emitter}.rs: the in-memory doubles

    [MemoryStorage] and its shared handle, the two constant verifiers and the fake emitter of
    the scenario suites.  A double runs over the environment of the harness: the successive
    answers of the wall clock, of the monotonic clock, of the identifier generator and of the
    random generator. *)

From stdpp Require Import pretty.
From S2P Require Import Prelude RustStd F64 Types Traits Worker.
Local Open Scope Z_scope.
Local Open Scope rust_scope.

(** ** std::sync::Mutex

    A panic while the guard is held poisons the mutex; its content stays what it was then. *)
Record Mutex (A : Type) : Type := mkMutex { content : A; poisoned : bool }.
Arguments mkMutex {A}. Arguments content {A}. Arguments poisoned {A}.

Definition mutex_new {A} (a : A) : Mutex A := mkMutex a false.

(** The text of [PoisonError]. *)
Definition poison_error : string := "poisoned lock: another task failed inside".

Definition lock {A} (m : Mutex A) : result A string :=
  if poisoned m then Err poison_error else Ok (content m).

Definition with_content {A} (a : A) (m : Mutex A) : Mutex A := mkMutex a (poisoned m).

(** ** The environment of the harness *)
Record Env : Type := mkEnv {
  utc : nat → DateTime;
  instants : nat → Duration;
  uuids : nat → Uuid;
  draws : nat → f64;
  reads : nat
}.

Section env.
Definition read_env {A} (f : Env → nat → A) : M Env A := λ e,
  (f e (reads e), mkEnv (utc e) (instants e) (uuids e) (draws e) (S (reads e))).

(** [Utc::now()], [tokio::time::Instant::now()], [Uuid::new_v4()] and [fastrand::f64()]. *)
Definition utc_now : M Env DateTime := read_env utc.
Definition instant_now : M Env Duration := read_env instants.
Definition new_uuid : M Env Uuid := read_env uuids.
Definition random_f64 : M Env f64 := read_env draws.
(** [sleep]: the clocks answer anything afterwards. *)
Definition sleep (delay : Duration) : M Env unit := ret tt.
End env.

(** ** MemoryStorage *)

Module MemoryStorage.

Record t : Type := mk {
  receipts : Mutex (list WebhookReceipt.t);
  deliveries : Mutex (list WebhookDelivery.t)
}.

Definition new : t := mk (mutex_new []) (mutex_new []).
Definition default : t := new.

Definition set_receipts (rs : list WebhookReceipt.t) (m : t) : t :=
  mk (with_content rs (receipts m)) (deliveries m).
Definition set_deliveries (ds : list WebhookDelivery.t) (m : t) : t :=
  mk (receipts m) (with_content ds (deliveries m)).

Definition lock_receipts (m : t) : result (list WebhookReceipt.t) StorageError.t :=
  map_err StorageError.Internal (lock (receipts m)).
Definition lock_deliveries (m : t) : result (list WebhookDelivery.t) StorageError.t :=
  map_err StorageError.Internal (lock (deliveries m)).

Definition all_deliveries (m : t) : result (list WebhookDelivery.t) StorageError.t :=
  lock_deliveries m.

Definition deliveries_for_receipt (receipt_id : ReceiptId.t) (m : t) :
    result (list WebhookDelivery.t) StorageError.t :=
  match lock_deliveries m with
  | Ok g => Ok (List.filter (λ d, bool_decide (WebhookDelivery.receipt_id d = receipt_id)) g)
  | Err e => Err e
  end.

(** The world of the operations that read a clock or draw an identifier. *)
Definition World : Type := (t * Env)%type.
Definition on_env {A} (m : M Env A) : M World A :=
  λ w, let '(a, e) := m w.2 in (a, (w.1, e)).

(** [iter_mut().find(|d| d.delivery_id == id)] and the mutation of what it found; the rows
    before it stay, and so does every row when there is none. *)
Fixpoint mutate_first (id : DeliveryId.t)
    (mutator : WebhookDelivery.t → M Env (WebhookDelivery.t * result unit Panic))
    (ds : list WebhookDelivery.t) : M Env (list WebhookDelivery.t * result unit Panic) :=
  match ds with
  | [] => ret ([], Ok tt)
  | d :: ds' =>
      if decide (WebhookDelivery.delivery_id d = id) then
        '(d', r) <- mutator d ;; ret (d' :: ds', r)
      else '(ds'', r) <- mutate_first id mutator ds' ;; ret (d :: ds'', r)
  end.

(** A mutator that panics poisons the mutex and leaves the fields it had written. *)
Definition update_delivery (id : DeliveryId.t)
    (mutator : WebhookDelivery.t → M Env (WebhookDelivery.t * result unit Panic)) :
    M World (result (result unit StorageError.t) Panic) := λ w,
  match lock_deliveries w.1 with
  | Err e => (Ok (Err e), w)
  | Ok guard =>
      let '((ds, r), e) := mutate_first id mutator guard w.2 in
      match r with
      | Ok _ => (Ok (Ok tt), (set_deliveries ds w.1, e))
      | Err p => (Err p, (mk (receipts w.1) (mkMutex ds true), e))
      end
  end.

Definition retryable (d : WebhookDelivery.t) : bool :=
  negb (WebhookDelivery.immutable d) &&
  match WebhookDelivery.state d with
  | DeliveryState.Pending | DeliveryState.Failed => true
  | _ => false
  end.

Definition pending_deliveries : M World (result (list WebhookDelivery.t) StorageError.t) :=
  now <- on_env utc_now ;;
  λ w, (match lock_deliveries w.1 with
        | Ok g => Ok (List.filter (λ d, retryable d && (WebhookDelivery.next_attempt_at d <=? now)) g)
        | Err e => Err e
        end, w).

(** *** [impl Storage for MemoryStorage] *)

Definition store (receipt : WebhookReceipt.t) : M World (result StoreResult.t StorageError.t) := λ w,
  match lock_receipts w.1 with
  | Err e => (Err e, w)
  | Ok receipts =>
      match List.find (λ r, bool_decide (WebhookReceipt.dedupe_key r = WebhookReceipt.dedupe_key receipt))
              receipts with
      | Some existing => (Ok (StoreResult.Duplicate (WebhookReceipt.receipt_id existing)), w)
      | None => (Ok StoreResult.Stored, (set_receipts (receipts ++ [receipt]) w.1, w.2))
      end
  end.

Definition get (id : Uuid) : M World (result (option WebhookReceipt.t) StorageError.t) := λ w,
  (match lock_receipts w.1 with
   | Err e => Err e
   | Ok receipts =>
       Ok (List.find (λ r, bool_decide (ReceiptId.uuid (WebhookReceipt.receipt_id r) = id)) receipts)
   end, w).

Definition set_state (state : ProcessingState.t) (error : option string) (r : WebhookReceipt.t) :
    WebhookReceipt.t :=
  WebhookReceipt.mk (WebhookReceipt.receipt_id r) (WebhookReceipt.provider_name r)
    (WebhookReceipt.provider_event_id r) (WebhookReceipt.external_reference r)
    (WebhookReceipt.dedupe_key r) (WebhookReceipt.payload_hash r) (WebhookReceipt.raw_body r)
    (WebhookReceipt.parsed_payload r) (WebhookReceipt.raw_headers r)
    (WebhookReceipt.normalized_event_type r) (WebhookReceipt.verification_status r)
    (WebhookReceipt.verification_reason r) state (WebhookReceipt.emit_count r) error
    (WebhookReceipt.received_at r) (WebhookReceipt.processed_at r) (WebhookReceipt.metadata r).

(** The first receipt with this id. *)
Fixpoint update_first (id : Uuid) (f : WebhookReceipt.t → WebhookReceipt.t)
    (rs : list WebhookReceipt.t) : list WebhookReceipt.t :=
  match rs with
  | [] => []
  | r :: rs' =>
      if decide (ReceiptId.uuid (WebhookReceipt.receipt_id r) = id) then f r :: rs'
      else r :: update_first id f rs'
  end.

Definition update_state (id : Uuid) (state : ProcessingState.t) (error : option string) :
    M World (result unit StorageError.t) := λ w,
  match lock_receipts w.1 with
  | Err e => (Err e, w)
  | Ok receipts => (Ok tt, (set_receipts (update_first id (set_state state error) receipts) w.1, w.2))
  end.

(** The filter is not looked at. *)
Definition query (_filter : ReceiptFilter.t) : M World (result (list WebhookReceipt.t) StorageError.t) :=
  λ w, (lock_receipts w.1, w).

Definition pending_row (receipt : WebhookReceipt.t) (name : string) (now : DateTime) (id : Uuid) :
    WebhookDelivery.t :=
  {| WebhookDelivery.delivery_id := DeliveryId.mk id;
     WebhookDelivery.receipt_id := WebhookReceipt.receipt_id receipt;
     WebhookDelivery.emitter_name := name;
     WebhookDelivery.state := DeliveryState.Pending;
     WebhookDelivery.attempt_count := 0;
     WebhookDelivery.last_error := None;
     WebhookDelivery.last_attempt_at := None;
     WebhookDelivery.next_attempt_at := now;
     WebhookDelivery.emitted_at := None;
     WebhookDelivery.immutable := false;
     WebhookDelivery.created_at := now |}.

(** [deliveries.push(...)], once per name. *)
Fixpoint push_rows (receipt : WebhookReceipt.t) (now : DateTime) (names : list string)
    (ds : list WebhookDelivery.t) : M Env (list WebhookDelivery.t) :=
  match names with
  | [] => ret ds
  | name :: names' =>
      id <- new_uuid ;; push_rows receipt now names' (ds ++ [pending_row receipt name now id])
  end.

Definition store_with_deliveries (receipt : WebhookReceipt.t) (emitter_names : list string) :
    M World (result StoreResult.t StorageError.t) :=
  store_result <-? store receipt ;;
  match store_result with
  | StoreResult.Duplicate _ => ret (Ok store_result)
  | StoreResult.Stored =>
      now <- on_env utc_now ;;
      λ w, match lock_deliveries w.1 with
           | Err e => (Err e, w)
           | Ok guard =>
               let '(ds, e) := push_rows receipt now emitter_names guard w.2 in
               (Ok StoreResult.Stored, (set_deliveries ds w.1, e))
           end
  end.

Definition storage : Storage World :=
  {| Traits.store := store; Traits.get := get; Traits.update_state := update_state;
     Traits.query := query; Traits.store_with_deliveries := store_with_deliveries |}.
End MemoryStorage.

(** ** SharedMemoryStorage

    A handle to the storage of the world [W]: every method is that of the storage behind the
    [Arc], which the other handles see change. *)
Module SharedMemoryStorage.
Section shared.
Context {W : Type} (inner : W → MemoryStorage.World) (set_inner : MemoryStorage.World → W → W).

Definition forward {A} (m : M MemoryStorage.World A) : M W A :=
  λ w, let '(a, i) := m (inner w) in (a, set_inner i w).

Definition storage : Storage W :=
  {| Traits.store := λ r, forward (MemoryStorage.store r);
     Traits.get := λ id, forward (MemoryStorage.get id);
     Traits.update_state := λ id s e, forward (MemoryStorage.update_state id s e);
     Traits.query := λ f, forward (MemoryStorage.query f);
     Traits.store_with_deliveries := λ r names, forward (MemoryStorage.store_with_deliveries r names) |}.
End shared.
End SharedMemoryStorage.

(** ** The constant verifiers *)

Definition PassVerifier (provider : string) : SignatureVerifier :=
  mkVerifier provider (λ _ _ _, VerificationResult.mk VerificationStatus.Verified (Some "signature_valid")).
Definition FailVerifier (provider : string) : SignatureVerifier :=
  mkVerifier provider (λ _ _ _, VerificationResult.mk VerificationStatus.Failed (Some "invalid_signature")).

(** ** FakeEmitter *)

Module EmitterBehavior.
Inductive t : Type :=
| Healthy
| FailFor (d : Duration)
| FailUntilAttempt (threshold : Z)
| Slow (delay : Duration)
| AlwaysFail.
End EmitterBehavior.

(** [{:?}] of a [Duration]: the largest unit that leaves an integral part, and the fractional
    digits without their trailing zeros. *)
Fixpoint debug_fraction (fuel : nat) (fractional divisor : Z) : string :=
  match fuel with
  | O => EmptyString
  | S fuel' =>
      if fractional <=? 0 then EmptyString
      else pretty (fractional / divisor) +:+ debug_fraction fuel' (fractional `mod` divisor) (divisor / 10)
  end.

Definition debug_decimal (integral fractional divisor : Z) (unit : string) : string :=
  let fraction := debug_fraction 9 fractional divisor in
  pretty integral +:+
  (if bool_decide (fraction = EmptyString) then EmptyString else "." +:+ fraction) +:+ unit.

Definition debug_duration (d : Duration) : string :=
  let nanos := d `mod` nanos_per_sec in
  if 0 <? d / nanos_per_sec then debug_decimal (d / nanos_per_sec) nanos 100000000 "s"
  else if 1000000 <=? nanos then debug_decimal (nanos / 1000000) (nanos `mod` 1000000) 100000 "ms"
  else if 1000 <=? nanos then debug_decimal (nanos / 1000) (nanos `mod` 1000) 100 "µs"
  else debug_decimal nanos 0 1 "ns".

Module FakeEmitter.

Record t : Type := mk {
  name : string;
  behavior : Mutex EmitterBehavior.t;
  received : Mutex (list NormalizedEvent.t);
  attempt_count : Mutex Z;
  fail_start : Mutex (option Duration)
}.

Definition new (name : string) (behavior : EmitterBehavior.t) : t :=
  mk name (mutex_new behavior) (mutex_new []) (mutex_new 0) (mutex_new None).

Definition received_count (self : t) : nat :=
  match lock (received self) with Ok g => List.length g | Err _ => O end.
Definition attempts (self : t) : Z :=
  match lock (attempt_count self) with Ok g => g | Err _ => 0 end.
Definition received_events (self : t) : list NormalizedEvent.t :=
  match lock (received self) with Ok g => g | Err _ => [] end.

(** The behaviour changes even when the second lock fails. *)
Definition set_behavior (b : EmitterBehavior.t) : M t (result unit string) := λ self,
  match lock (behavior self) with
  | Err e => (Err e, self)
  | Ok _ =>
      let self1 := mk (name self) (with_content b (behavior self)) (received self)
                     (attempt_count self) (fail_start self) in
      match lock (fail_start self) with
      | Err e => (Err e, self1)
      | Ok _ => (Ok tt, mk (name self1) (behavior self1) (received self1) (attempt_count self1)
                          (with_content None (fail_start self1)))
      end
  end.

Notation MF := (M (t * Env)).

Definition poisoned_lock (e : string) : EmitError.t := EmitError.Downstream ("mutex poisoned: " +:+ e).

(** [lock().map_err(...)?] on one field. *)
Definition lock_field {A} (field : t → Mutex A) : MF (result A EmitError.t) := λ w,
  (map_err poisoned_lock (lock (field w.1)), w).
Definition on_env {A} (m : M Env A) : MF A := λ w, let '(a, e) := m w.2 in (a, (w.1, e)).
Definition modify (f : t → t) : MF unit := λ w, (tt, (f w.1, w.2)).

Definition set_attempts (n : Z) (self : t) : t :=
  mk (name self) (behavior self) (received self) (with_content n (attempt_count self)) (fail_start self).
Definition set_received (l : list NormalizedEvent.t) (self : t) : t :=
  mk (name self) (behavior self) (with_content l (received self)) (attempt_count self) (fail_start self).
Definition set_fail_start (s : option Duration) (self : t) : t :=
  mk (name self) (behavior self) (received self) (attempt_count self) (with_content s (fail_start self)).

(** [received.lock()?.push(event.clone()); Ok(())] *)
Definition receive (event : NormalizedEvent.t) : MF (result unit EmitError.t) :=
  guard <-? lock_field received ;;
  modify (set_received (guard ++ [event])) ;;;
  ret (Ok tt).

Definition fail (self : t) (reason : string) : MF (result unit EmitError.t) :=
  ret (Err (EmitError.Downstream (name self +:+ ": " +:+ reason))).

(** [*guard.get_or_insert_with(Instant::now)] *)
Definition start_of : MF (result Duration EmitError.t) :=
  guard <-? lock_field fail_start ;;
  match guard with
  | Some start => ret (Ok start)
  | None => start <- on_env instant_now ;; modify (set_fail_start (Some start)) ;;; ret (Ok start)
  end.

Definition emit (event : NormalizedEvent.t) : MF (result unit EmitError.t) := λ w,
  let self := w.1 in
  (behavior <-? lock_field behavior ;;
   count <-? lock_field attempt_count ;;
   let attempt := u32_wrapping_add count 1 in
   modify (set_attempts attempt) ;;;
   match behavior with
   | EmitterBehavior.Healthy => receive event
   | EmitterBehavior.AlwaysFail => fail self "always-fail emitter"
   | EmitterBehavior.FailUntilAttempt threshold =>
       if attempt <? threshold
       then fail self ("failing on attempt " +:+ pretty attempt +:+ ", threshold " +:+ pretty threshold)
       else receive event
   | EmitterBehavior.Slow delay => on_env (sleep delay) ;;; receive event
   | EmitterBehavior.FailFor duration =>
       start <-? start_of ;;
       now <- on_env instant_now ;;
       if Z.max 0 (now - start) <? duration
       then fail self ("failing for " +:+ debug_duration duration +:+ " since start")
       else receive event
   end) w.
End FakeEmitter.
