(* ===== verification/MemoryProps.v ===== *)
(** * Properties of the in-memory doubles

    The scenario suites replace PostgreSQL by [MemoryStorage]; here the one is shown to answer
    as the other does, request by request, as long as no mutex is poisoned, no statement fails
    and the columns can hold the receipts; the double keeps a receipt as it is given, PostgreSQL
    as its columns do. *)

From S2P Require Import Prelude RustStd F64 Types Traits Database Samples DatabaseProps Postgres PostgresProps Instances Worker Memory.
Local Open Scope Z_scope.
Local Open Scope rust_scope.

(** ** Requests to a storage *)

Inductive Request : Type :=
| StoreReceipt (receipt : WebhookReceipt.t)
| StoreWithDeliveries (receipt : WebhookReceipt.t) (emitter_names : list string)
| GetReceipt (id : Uuid)
| UpdateState (id : Uuid) (state : ProcessingState.t) (error : option string).

Inductive Reply : Type :=
| StoreReply (r : result StoreResult.t StorageError.t)
| GetReply (r : result (option WebhookReceipt.t) StorageError.t)
| UpdateReply (r : result unit StorageError.t).

Definition serve_request {W} (S : Storage W) (q : Request) : M W Reply :=
  match q with
  | StoreReceipt r => a <- store S r ;; ret (StoreReply a)
  | StoreWithDeliveries r names => a <- store_with_deliveries S r names ;; ret (StoreReply a)
  | GetReceipt id => a <- get S id ;; ret (GetReply a)
  | UpdateState id s e => a <- update_state S id s e ;; ret (UpdateReply a)
  end.

Fixpoint serve_requests {W} (S : Storage W) (qs : list Request) : M W (list Reply) :=
  match qs with
  | [] => ret []
  | q :: qs' => a <- serve_request S q ;; l <- serve_requests S qs' ;; ret (a :: l)
  end.

(** The receipt a request brings. *)
Definition brings (q : Request) : list Uuid :=
  match q with
  | StoreReceipt r | StoreWithDeliveries r _ => [ReceiptId.uuid (WebhookReceipt.receipt_id r)]
  | _ => []
  end.

(** What the columns of PostgreSQL can hold: receipts, and error texts without a NUL. *)
Definition acceptable `{PgTypes} (q : Request) : bool :=
  match q with
  | StoreReceipt r | StoreWithDeliveries r _ => storable r
  | UpdateState _ _ error => texts_ok [error]
  | GetReceipt _ => true
  end.

(** The reply about a receipt that was kept in columns. *)
Definition stored_reply `{PgTypes} (a : Reply) : Reply :=
  match a with GetReply (Ok (Some r)) => GetReply (Ok (Some (stored_form r))) | _ => a end.

(** ** The simulation *)

(** The row and the delivery describe the same work; their ids and instants come from two
    different generators and clocks. *)
Definition same_work (row : DeliveryRow.t) (d : WebhookDelivery.t) : Prop :=
  DeliveryRow.receipt_id row = ReceiptId.uuid (WebhookDelivery.receipt_id d) ∧
  DeliveryRow.emitter_name row = WebhookDelivery.emitter_name d ∧
  DeliveryRow.state row = DeliveryState.serde_name (WebhookDelivery.state d) ∧
  DeliveryRow.attempt_count row = WebhookDelivery.attempt_count d ∧
  DeliveryRow.last_error row = WebhookDelivery.last_error d ∧
  DeliveryRow.immutable row = WebhookDelivery.immutable d.

Definition unpoisoned (m : MemoryStorage.t) : Prop :=
  poisoned (MemoryStorage.receipts m) = false ∧ poisoned (MemoryStorage.deliveries m) = false.

Notation receipts_of w := (content (MemoryStorage.receipts (fst w))).
Notation deliveries_of w := (content (MemoryStorage.deliveries (fst w))).

Record simulates `{PgTypes} (w : MemoryStorage.World) (p : Pg) : Prop := mk_simulates {
  sim_unpoisoned : unpoisoned w.1;
  sim_healthy : healthy p;
  sim_fresh : fresh_draws p (db p);
  sim_wf : db_wf (db p);
  sim_receipts : webhook_receipts (db p) = map (λ r, db_receipt (stored_form r)) (receipts_of w);
  sim_deliveries : Forall2 same_work (webhook_deliveries (db p)) (deliveries_of w)
}.

(** *** The two lookups agree *)

Lemma find_map_eq {A B} (f : A → B) (p : B → bool) (q : A → bool) (l : list A) :
  (∀ x, x ∈ l → p (f x) = q x) → List.find p (map f l) = f <$> List.find q l.
Proof.
  induction l as [|a l IH]; intros Hpq; [done|]. cbn.
  rewrite (Hpq a) by (apply elem_of_cons; by left). destruct (q a); [done|].
  apply IH. intros x Hx. apply Hpq, elem_of_cons. by right.
Qed.

Lemma find_by_key `{PgTypes} k (l : list WebhookReceipt.t) :
  List.find (has_dedupe_key k) (map (λ r, db_receipt (stored_form r)) l) =
  (λ r, db_receipt (stored_form r)) <$> List.find (λ r, bool_decide (WebhookReceipt.dedupe_key r = k)) l.
Proof. by apply find_map_eq. Qed.

Lemma find_by_id `{PgTypes} id (l : list WebhookReceipt.t) :
  List.find (has_receipt_id id) (map (λ r, db_receipt (stored_form r)) l) =
  (λ r, db_receipt (stored_form r)) <$> List.find (λ r, bool_decide (ReceiptId.uuid (WebhookReceipt.receipt_id r) = id)) l.
Proof. by apply find_map_eq. Qed.

(** With unique ids the first receipt is the only one. *)
Lemma update_first_map id f (l : list WebhookReceipt.t) :
  NoDup (map (λ r, ReceiptId.uuid (WebhookReceipt.receipt_id r)) l) →
  MemoryStorage.update_first id f l =
  map (λ r, if decide (ReceiptId.uuid (WebhookReceipt.receipt_id r) = id) then f r else r) l.
Proof.
  induction l as [|r l IH]; [done|]. cbn. intros [Hr Hl]%NoDup_cons.
  case_decide as Hid; [|by rewrite IH]. f_equal. symmetry.
  rewrite <- (map_id l) at 2. apply map_ext_in. intros x Hx. case_decide as Hx'; [|done].
  destruct Hr. apply elem_of_List_map. exists x. split; [by apply list_elem_of_In|congruence].
Qed.

Lemma push_rows_rows receipt now names ds e :
  ∃ new e', MemoryStorage.push_rows receipt now names ds e = (ds ++ new, e') ∧
    Forall2 (λ d n, ∃ id, d = MemoryStorage.pending_row receipt n now id) new names.
Proof.
  revert ds e. induction names as [|n names IH]; intros ds e.
  { exists [], e. by rewrite app_nil_r. }
  cbn [MemoryStorage.push_rows]. unfold bind, new_uuid, read_env.
  destruct (IH (ds ++ [MemoryStorage.pending_row receipt n now (uuids e (reads e))])
              (mkEnv (utc e) (instants e) (uuids e) (draws e) (S (reads e))))
    as (new & e' & -> & Hnew).
  eexists (_ :: new), e'. rewrite <- app_assoc. split; [done|]. constructor; eauto.
Qed.

Section simulation.
Context `{SerdeJson} `{PgTypes} `{UuidText}.

(** *** PostgreSQL without faults *)

Lemma storable_key r : storable r = true → texts_ok [Some (WebhookReceipt.dedupe_key r)] = true.
Proof.
  intros [[Ht _]%andb_prop _]%andb_prop. rewrite texts_ok_one. unfold texts_ok in Ht.
  rewrite forallb_forall in Ht. apply (Ht (Some (WebhookReceipt.dedupe_key r))). cbn. tauto.
Qed.

Lemma duplicate_healthy r names p row :
  healthy p → storable r = true →
  List.find (has_dedupe_key (WebhookReceipt.dedupe_key r)) (webhook_receipts (db p)) = Some row →
  ∃ p', PostgresStorage.store_with_deliveries r names p =
          (Ok (StoreResult.Duplicate (ReceiptId.mk (ReceiptRow.receipt_id row))), p') ∧ advanced p p'.
Proof.
  intros Hp Hst Hrow. unfold PostgresStorage.store_with_deliveries, lift_result.
  rewrite processing_state_text_ok, verification_status_text_ok, !bind_try_ok. fold (bound_receipt r).
  assert (begin p = (Ok (mkTx (db p) (now (clock p))), tick p)) as Hb
    by (unfold begin, next_round, tick; by rewrite Hp).
  rewrite (bind_try_run _ _ _ _ _ Hb).
  assert (existsb (has_dedupe_key (WebhookReceipt.dedupe_key r)) (webhook_receipts (db p)) = true) as Hex.
  { apply find_Some_elem in Hrow as [Hin Hk]. apply existsb_exists. exists row.
    split; [by apply list_elem_of_In|done]. }
  unfold bind_try at 1, bind at 1. rewrite tx_execute_healthy by by apply healthy_tick.
  rewrite insert_receipt_run by (by apply storable_accepted). unfold insert_stored. cbn [tx_db].
  change (ReceiptRow.dedupe_key (json_columns (bound_receipt r))) with (WebhookReceipt.dedupe_key r). rewrite Hex.
  assert (rollback (mkTx (db p) (tx_now (mkTx (db p) (now (clock p))))) (tick (tick p)) =
          (Ok tt, tick (tick (tick p)))) as Hrb
    by (unfold rollback, next_round, tick; cbn; by rewrite Hp).
  rewrite (bind_try_run _ _ _ _ _ Hrb).
  assert (healthy (tick (tick (tick p)))) as Hh by (by do 3 apply healthy_tick).
  unfold bind_try, bind. rewrite execute_healthy by done. unfold select_id_by_key.
  rewrite bind_text_run by by apply storable_key. unfold read.
  change (db (tick (tick (tick p)))) with (db p). rewrite Hrow. eexists. split; [done|].
  do 3 (etrans; [apply advanced_tick|]). apply advanced_tick.
Qed.

(** *** One request *)

Definition keeps (q : Request) (w w' : MemoryStorage.World) : Prop :=
  ∀ r, r ∈ receipts_of w' →
    ReceiptId.uuid (WebhookReceipt.receipt_id r)
      ∈ map (λ r, ReceiptId.uuid (WebhookReceipt.receipt_id r)) (receipts_of w) ++ brings q.

Definition agrees (q : Request) (w : MemoryStorage.World) (p : Pg) : Prop :=
  ∃ a w' p', serve_request MemoryStorage.storage q w = (a, w') ∧
             serve_request PostgresStorage.storage q p = (stored_reply a, p') ∧
             simulates w' p' ∧ keeps q w w'.

Lemma lock_receipts_ok w p :
  simulates w p → MemoryStorage.lock_receipts w.1 = Ok (receipts_of w).
Proof. intros [[Hr _] _ _ _ _ _]. unfold MemoryStorage.lock_receipts, lock. by rewrite Hr. Qed.
Lemma lock_deliveries_ok w p :
  simulates w p → MemoryStorage.lock_deliveries w.1 = Ok (deliveries_of w).
Proof. intros [[_ Hd] _ _ _ _ _]. unfold MemoryStorage.lock_deliveries, lock. by rewrite Hd. Qed.

Lemma simulates_advanced w p p' : simulates w p → advanced p p' → simulates w p'.
Proof.
  intros [] Hadv. pose proof Hadv as (Hdb & _ & _ & Hh).
  split; rewrite ?Hdb; auto. by eapply fresh_draws_advanced.
Qed.

Lemma keeps_same q w : keeps q w w.
Proof. intros r Hr. apply elem_of_app. left. apply elem_of_List_map. by exists r. Qed.

Lemma keeps_snoc q w w' r :
  receipts_of w' = receipts_of w ++ [r] → brings q = [ReceiptId.uuid (WebhookReceipt.receipt_id r)] →
  keeps q w w'.
Proof.
  intros Hw Hq x. rewrite Hw, Hq, !elem_of_app, elem_of_List_map, !list_elem_of_singleton.
  intros [Hx| ->]; [left; by exists x|by right].
Qed.

(** The ids of the receipts, on both sides. *)
Lemma receipt_ids_eq w p :
  simulates w p →
  map ReceiptRow.receipt_id (webhook_receipts (db p)) =
  map (λ r, ReceiptId.uuid (WebhookReceipt.receipt_id r)) (receipts_of w).
Proof. intros Hs. by rewrite (sim_receipts _ _ Hs), map_map. Qed.

Lemma agrees_get id w p : simulates w p → agrees (GetReceipt id) w p.
Proof.
  intros Hs. exists (GetReply (Ok (List.find (λ r, bool_decide (ReceiptId.uuid (WebhookReceipt.receipt_id r) = id))
    (receipts_of w)))), w, (tick p).
  split_and!; [| |by eapply simulates_advanced, advanced_tick|apply keeps_same];
    unfold serve_request, bind at 1; cbn [get MemoryStorage.storage PostgresStorage.storage].
  { unfold MemoryStorage.get. by rewrite (lock_receipts_ok _ _ Hs). }
  unfold PostgresStorage.get, bind_try, bind, select_receipt.
  erewrite execute_read_healthy; [|apply (sim_healthy _ _ Hs)|reflexivity].
  rewrite (sim_receipts _ _ Hs), find_by_id, set_db_same. cbn.
  destruct (List.find _ _) as [r|]; [|done]. cbn. by rewrite receipt_round_trip.
Qed.

Lemma agrees_update id s e w p :
  simulates w p → texts_ok [e] = true → agrees (UpdateState id s e) w p.
Proof.
  intros Hs He. pose proof Hs as [Hu Hh Hf Hwf Hr Hd].
  set (rs := MemoryStorage.update_first id (MemoryStorage.set_state s e) (receipts_of w)).
  set (d' := set_receipts (λ r, if has_receipt_id id r
    then ReceiptRow.set_state (ProcessingState.serde_name s) (ReceiptRow.emit_count r) e r else r) (db p)).
  assert (rs = map (λ r, if decide (ReceiptId.uuid (WebhookReceipt.receipt_id r) = id)
                         then MemoryStorage.set_state s e r else r) (receipts_of w)) as Hrs.
  { apply update_first_map. rewrite <- (receipt_ids_eq _ _ Hs). apply (wf_receipt_ids _ Hwf). }
  exists (UpdateReply (Ok tt)), (MemoryStorage.set_receipts rs w.1, w.2), (set_db d' (tick p)).
  split_and!;
    [unfold serve_request, bind at 1; cbn [update_state MemoryStorage.storage PostgresStorage.storage]..| |].
  - unfold MemoryStorage.update_state. by rewrite (lock_receipts_ok _ _ Hs).
  - unfold PostgresStorage.update_state, lift_result. rewrite serialize_processing_state, bind_try_ok.
    unfold bind_try, bind. rewrite execute_healthy by done. unfold update_receipt_state.
    by rewrite bind_text_run.
  - split; cbn; try done; [by apply healthy_tick| | |].
    + intros i Hi. destruct (Hf i) as [Hn Hj]; [cbn in Hi; lia|]. split; [done|].
      intros j Hj'. apply Hj. cbn in Hj'. lia.
    + refine (update_receipt_state_wf (ProcessingState.serde_name s) e id _ (clock p) (db p) _ d' Hwf _);
        [destruct s; enum_name|]. unfold update_receipt_state. by rewrite bind_text_run.
    + rewrite Hr, Hrs, !map_map. apply map_ext. intros r. unfold has_receipt_id. cbn.
      by repeat case_decide.
  - intros r Hr'. apply elem_of_app. left. cbn in Hr'. rewrite Hrs in Hr'.
    apply elem_of_List_map in Hr' as (r0 & Hr0 & ->). apply elem_of_List_map. exists r0.
    split; [done|]. by case_decide.
Qed.

(** A duplicate, whatever else the request asks for. *)
Lemma find_existing k w p :
  simulates w p →
  List.find (has_dedupe_key k) (webhook_receipts (db p)) =
  (λ r, db_receipt (stored_form r)) <$>
    List.find (λ r, bool_decide (WebhookReceipt.dedupe_key r = k)) (receipts_of w).
Proof. intros Hs. by rewrite (sim_receipts _ _ Hs), find_by_key. Qed.

Lemma not_found_fresh k w p :
  simulates w p →
  List.find (λ r, bool_decide (WebhookReceipt.dedupe_key r = k)) (receipts_of w) = None →
  k ∉ map ReceiptRow.dedupe_key (webhook_receipts (db p)).
Proof.
  intros Hs Hn (row & Hrow & ->)%elem_of_List_map. rewrite (sim_receipts _ _ Hs) in Hrow.
  apply elem_of_List_map in Hrow as (r & Hr & ->). eapply find_None_elem in Hn; [|exact Hr].
  by apply bool_decide_eq_false in Hn.
Qed.

(** The rows of a new receipt. *)
Lemma new_rows_same_work r now names new_rows new :
  Forall2 (λ x n, ∃ u t, x = new_delivery (mkClock t u (λ _, false))
                           (ReceiptId.uuid (WebhookReceipt.receipt_id r)) n) new_rows names →
  Forall2 (λ d n, ∃ id, d = MemoryStorage.pending_row r n now id) new names →
  Forall2 same_work new_rows new.
Proof.
  intros Hrows Hnew. revert new Hnew. induction Hrows as [|x n rows names (u & t & ->) _ IH];
    intros new Hnew; inversion Hnew as [|d ? ? ? (id & ->)]; subst; constructor; [done|]. by apply IH.
Qed.

Lemma agrees_store_with_deliveries r names w p :
  simulates w p → storable r = true →
  ReceiptId.uuid (WebhookReceipt.receipt_id r) ∉
    map (λ r, ReceiptId.uuid (WebhookReceipt.receipt_id r)) (receipts_of w) →
  agrees (StoreWithDeliveries r names) w p.
Proof.
  intros Hs Hst Hid. unfold agrees, serve_request, bind.
  cbn [store_with_deliveries MemoryStorage.storage PostgresStorage.storage].
  unfold MemoryStorage.store_with_deliveries, bind_try at 1, bind at 1, MemoryStorage.store.
  rewrite (lock_receipts_ok _ _ Hs).
  pose proof (find_existing (WebhookReceipt.dedupe_key r) _ _ Hs) as Hfind.
  pose proof (not_found_fresh (WebhookReceipt.dedupe_key r) _ _ Hs) as Hfresh.
  destruct (List.find _ (receipts_of w)) as [x|]; cbn in Hfind.
  - destruct (duplicate_healthy r names p _ (sim_healthy _ _ Hs) Hst Hfind) as (p' & Hp' & Hadv).
    rewrite Hp'. eexists _, w, p'. split_and!; [done| |by eapply simulates_advanced|apply keeps_same].
    cbn. by rewrite mk_uuid.
  - rewrite <- (receipt_ids_eq _ _ Hs) in Hid.
    destruct (store_with_deliveries_healthy r names p) as (p' & Hp' & Hh' & Hf'); [apply Hs|done|auto..|apply Hs|].
    rewrite Hp'. pose proof Hp' as (Hcom & Hwf' & _)%store_with_deliveries_inv.
    destruct Hcom as (_ & _ & new_rows & Hdb & Hrows). destruct Hs as [[Hpr Hpd] _ _ Hwf Hr Hd].
    unfold bind, MemoryStorage.on_env, MemoryStorage.lock_deliveries, lock. cbn. rewrite Hpd. cbn.
    destruct (push_rows_rows r (utc w.2 (reads w.2)) names (deliveries_of w)
      (mkEnv (utc w.2) (instants w.2) (uuids w.2) (draws w.2) (S (reads w.2)))) as (new & e' & -> & Hnew).
    eexists _, _, p'. split_and!; [done|done| |by apply (keeps_snoc _ _ _ r)].
    split; cbn; [done|done|done|by apply Hwf'| |]; rewrite Hdb; cbn.
    + by rewrite Hr, map_app.
    + apply Forall2_app; [done|]. eapply new_rows_same_work; [|done].
      eapply Forall2_impl; [exact Hrows|]. intros y n (u & ->). by eexists u, _.
Qed.

Lemma fresh_draws_later p p' d :
  fresh_draws p d → clock_at p' = clock_at p → (rounds p ≤ rounds p')%nat → fresh_draws p' d.
Proof.
  intros Hf Hc Hr i Hi. rewrite Hc. destruct (Hf i) as [Hn Hj]; [lia|]. split; [done|].
  intros j Hj'. apply Hj. lia.
Qed.

Lemma agrees_store r w p :
  simulates w p → storable r = true →
  ReceiptId.uuid (WebhookReceipt.receipt_id r) ∉
    map (λ r, ReceiptId.uuid (WebhookReceipt.receipt_id r)) (receipts_of w) →
  agrees (StoreReceipt r) w p.
Proof.
  intros Hs Hst Hid. unfold agrees, serve_request, bind.
  cbn [store MemoryStorage.storage PostgresStorage.storage].
  unfold MemoryStorage.store. rewrite (lock_receipts_ok _ _ Hs).
  unfold PostgresStorage.store, lift_result.
  rewrite processing_state_text_ok, verification_status_text_ok, !bind_try_ok. fold (bound_receipt r).
  pose proof (find_existing (WebhookReceipt.dedupe_key r) _ _ Hs) as Hfind.
  pose proof (not_found_fresh (WebhookReceipt.dedupe_key r) _ _ Hs) as Hfresh.
  unfold bind_try at 1, bind at 1. rewrite execute_healthy by apply Hs.
  rewrite insert_receipt_run by (by apply storable_accepted). unfold insert_stored.
  change (ReceiptRow.dedupe_key (json_columns (bound_receipt r))) with (WebhookReceipt.dedupe_key r).
  destruct (List.find _ (receipts_of w)) as [x|]; cbn in Hfind.
  - assert (existsb (has_dedupe_key (WebhookReceipt.dedupe_key r)) (webhook_receipts (db p)) = true) as ->.
    { apply find_Some_elem in Hfind as [Hin Hk]. apply existsb_exists. exists (db_receipt (stored_form x)).
      split; [by apply list_elem_of_In|done]. }
    rewrite set_db_same. unfold bind_try, bind. rewrite execute_healthy by (by apply healthy_tick, Hs).
    unfold select_id_by_key. rewrite bind_text_run by by apply storable_key. unfold read.
    change (db (tick p)) with (db p). rewrite Hfind.
    eexists _, w, _. split_and!; [done|cbn; by rewrite mk_uuid| |apply keeps_same].
    eapply simulates_advanced; [done|]. etrans; apply advanced_tick.
  - rewrite <- (receipt_ids_eq _ _ Hs) in Hid. destruct Hs as [[Hpr Hpd] Hh Hf Hwf Hr Hd].
    unfold has_dedupe_key, has_receipt_id. rewrite !existsb_of_not_in by auto.
    pose proof Hst as [_ Hix]%andb_prop. rewrite Hix. cbn [negb]. rewrite stored_columns.
    eexists _, _, _. split_and!; [done|done| |by apply (keeps_snoc _ _ _ r)].
    split; cbn; [done|by apply healthy_tick| | | |done].
    + eapply fresh_draws_later; [exact Hf|done|cbn; lia].
    + apply db_wf_snoc_receipt; auto.
    + by rewrite Hr, map_app.
Qed.

Lemma agrees_request q w p :
  simulates w p → acceptable q = true →
  (∀ id, id ∈ brings q → id ∉ map (λ r, ReceiptId.uuid (WebhookReceipt.receipt_id r)) (receipts_of w)) →
  agrees q w p.
Proof.
  destruct q as [r|r names|id|id s e]; intros Hs Hq Hid; cbn in Hid.
  - apply agrees_store; [done..|]. apply Hid, list_elem_of_singleton. done.
  - apply agrees_store_with_deliveries; [done..|]. apply Hid, list_elem_of_singleton. done.
  - by apply agrees_get.
  - by apply agrees_update.
Qed.

End simulation.

Definition calm_env : Env := mkEnv (λ _, 1000) (λ _, 0) (λ n, (100 + N.of_nat n)%N) (λ _, 0.5%float) 0.

