(* ===== verification/Scenario.v ===== *)
(** * scenario-tests/src/{world,steps}.rs: the in-memory scenarios

    The world of the core scenarios and its step definitions.  The pipeline under test and
    [storage_handle] share one [MemoryStorage]: both read and write the fields [memory] and
    [env] of the world, and a step that builds a pipeline allocates a new storage for both.
    A step that panics fails its scenario. *)

From S2P Require Import Prelude RustStd F64 Types Traits Transitions Dedupe Metrics Pipeline Worker Memory.
Local Open Scope Z_scope.
Local Open Scope rust_scope.

(** What the pipeline under test works on: the shared storage and its own recent-key cache. *)
Definition Backends : Type := (MemoryStorage.World * InMemoryRecentDedupe.Inner)%type.

Definition scenario_storage : Storage Backends :=
  SharedMemoryStorage.storage fst (λ i b, (i, b.2)).
Definition scenario_dedupe (capacity : nat) : DedupeStrategy Backends :=
  InMemoryRecentDedupe.strategy capacity snd (λ i b, (b.1, i)).

(** *** Mutators of a delivery row *)

(** The columns an attempt writes. *)
Definition set_outcome (state : DeliveryState.t) (count : Z) (error : option string)
    (last_attempt_at : option DateTime) (next_attempt_at : DateTime) (emitted_at : option DateTime)
    (row : WebhookDelivery.t) : WebhookDelivery.t :=
  WebhookDelivery.mk (WebhookDelivery.delivery_id row) (WebhookDelivery.receipt_id row)
    (WebhookDelivery.emitter_name row) state count error last_attempt_at next_attempt_at emitted_at
    (WebhookDelivery.immutable row) (WebhookDelivery.created_at row).

Notation Mutator := (WebhookDelivery.t → M Env (WebhookDelivery.t * result unit Panic)).

(** The success of [run_deliveries_to_completion], which leaves the count alone, and that of
    [run_until_exhausted], which increments it. *)
Definition mark_emitted (count : Z → Z) : Mutator := λ row,
  last <- utc_now ;;
  emitted <- utc_now ;;
  ret (set_outcome DeliveryState.Emitted (count (WebhookDelivery.attempt_count row))
         (WebhookDelivery.last_error row) (Some last) (WebhookDelivery.next_attempt_at row)
         (Some emitted) row, Ok tt).

Definition mark_dead_lettered (new_attempt : Z) (err : string) : Mutator := λ row,
  last <- utc_now ;;
  ret (set_outcome DeliveryState.DeadLettered new_attempt (Some err) (Some last)
         (WebhookDelivery.next_attempt_at row) (WebhookDelivery.emitted_at row) row, Ok tt).

(** [Utc::now() + backoff] is the last assignment; when it panics the others are done. *)
Definition mark_failed (new_attempt : Z) (err : string) (backoff : Duration) : Mutator := λ row,
  last <- utc_now ;;
  now <- utc_now ;;
  let failed next := set_outcome DeliveryState.Failed new_attempt (Some err) (Some last) next
                       (WebhookDelivery.emitted_at row) row in
  ret (match from_std backoff ≫= add_delta now with
       | Some next => (failed next, Ok tt)
       | None => (failed (WebhookDelivery.next_attempt_at row), Err panic)
       end).

Module IngestWorld.

Record t : Type := mk {
  pipeline : option (HookboxPipeline.t Backends);
  results : list IngestResult.t;
  emitters : gmap string FakeEmitter.t;
  storage_handle : bool;
  scratch_retry_policy : option RetryPolicy.t;
  scratch_attempt : Z;
  (** behind the handles *)
  memory : MemoryStorage.t;
  cache : InMemoryRecentDedupe.Inner;
  metrics : list Metric;
  env : Env
}.

Definition empty_cache : InMemoryRecentDedupe.Inner := InMemoryRecentDedupe.mkInner ∅ [].

Definition new (e : Env) : t :=
  mk None [] ∅ false None 0 MemoryStorage.new empty_cache [] e.

Notation MI A := (M t (result A Panic)).

Definition set_emitters (m : gmap string FakeEmitter.t) (w : t) : t :=
  mk (pipeline w) (results w) m (storage_handle w) (scratch_retry_policy w) (scratch_attempt w)
    (memory w) (cache w) (metrics w) (env w).
Definition set_memory (i : MemoryStorage.World) (w : t) : t :=
  mk (pipeline w) (results w) (emitters w) (storage_handle w) (scratch_retry_policy w)
    (scratch_attempt w) i.1 (cache w) (metrics w) i.2.
Definition set_env (e : Env) (w : t) : t := set_memory (memory w, e) w.

(** [.expect(...)] *)
Definition expect {A E} (r : result A E) : result A Panic := map_err (λ _, panic) r.

(** On the storage behind [storage_handle], which must be set. *)
Definition on_storage {A E} (m : M MemoryStorage.World (result A E)) : MI A := λ w,
  if storage_handle w then
    let '(r, i) := m (memory w, env w) in (expect r, set_memory i w)
  else (Err panic, w).

Definition on_env {A} (m : M Env A) : MI A := λ w,
  let '(a, e) := m (env w) in (Ok a, set_env e w).

(** *** Pipelines *)

(** [storage], [verifier] and the others of the builder, as the steps chain them. *)
Definition build_pipeline (verifiers : list SignatureVerifier) (emitter_names : list string) :
    option (HookboxPipeline.t Backends) :=
  HookboxPipelineBuilder.build
    (foldl (λ b v, HookboxPipelineBuilder.verifier_boxed v b)
       (HookboxPipelineBuilder.with_emitter_names emitter_names
          (HookboxPipelineBuilder.with_dedupe (scenario_dedupe 100)
             (HookboxPipelineBuilder.with_storage scenario_storage HookboxPipelineBuilder.builder)))
       verifiers).

(** A new storage, shared by the handle and the new pipeline, which starts with an empty cache. *)
Definition install (verifiers : list SignatureVerifier) (emitter_names : list string) (w : t) : t :=
  mk (build_pipeline verifiers emitter_names) (results w) (emitters w) true
    (scratch_retry_policy w) (scratch_attempt w) MemoryStorage.new empty_cache (metrics w) (env w).

Definition build_pipeline_with_emitters (names : list string) (w : t) : t :=
  install [PassVerifier "stripe"] names
    (set_emitters (foldl (λ m name, <[name := FakeEmitter.new name EmitterBehavior.Healthy]> m)
       (emitters w) names) w).

Section ingest.
Context `{SerdeJson} `{Codecs} `{Crypto}.

(** [Ok] results are pushed; the error of the pipeline is returned. *)
Definition ingest (provider : string) (body : bytes) : MI (result IngestResult.t IngestError.t) := λ w,
  match pipeline w with
  | None => (Err panic, w)
  | Some p =>
      let '((id, now), e) := (id <- new_uuid ;; now <- utc_now ;; ret (id, now)) (env w) in
      let '(r, ((inner, cache'), ms)) :=
        HookboxPipeline.ingest p (ReceiptId.mk id) (now / 1000000000) now provider
          (mkHeaderMap [] (λ _, [])) body (((memory w, e), cache w), metrics w) in
      (Ok r, mk (pipeline w) (match r with Ok x => results w ++ [x] | Err _ => results w end)
               (emitters w) (storage_handle w) (scratch_retry_policy w) (scratch_attempt w)
               inner.1 cache' ms inner.2)
  end.
End ingest.

(** *** Emitters *)

Definition set_emitter_behavior (name : string) (behavior : EmitterBehavior.t) : MI unit := λ w,
  match emitters w !! name with
  | None => (Err panic, w)
  | Some emitter =>
      let '(r, emitter') := FakeEmitter.set_behavior behavior emitter in
      (expect r, set_emitters (<[name := emitter']> (emitters w)) w)
  end.

(** [self.emitters.get(name).expect(...).emit(event)] *)
Definition emit (name : string) (event : NormalizedEvent.t) : MI (result unit EmitError.t) := λ w,
  match emitters w !! name with
  | None => (Err panic, w)
  | Some emitter =>
      let '(r, (emitter', e)) := FakeEmitter.emit event (emitter, env w) in
      (Ok r, set_emitters (<[name := emitter']> (emitters w)) (set_env e w))
  end.

(** *** Deliveries of the last receipt *)

Definition last_accepted (rs : list IngestResult.t) : option ReceiptId.t :=
  foldl (λ acc r, match r with IngestResult.Accepted id => Some id | _ => acc end) None rs.

Definition last_receipt_deliveries : MI (list WebhookDelivery.t) := λ w,
  if storage_handle w then
    match last_accepted (results w) with
    | None => (Ok [], w)
    | Some receipt_id => (expect (MemoryStorage.deliveries_for_receipt receipt_id (memory w)), w)
    end
  else (Err panic, w).

Definition last_receipt_state : MI ProcessingState.t :=
  deliveries <-? last_receipt_deliveries ;;
  ret (Ok (receipt_aggregate_state deliveries ProcessingState.Stored)).

(** *** Driving the deliveries *)
Section drive.
Variable powi : f64 → Z → f64.

Definition update_delivery (id : DeliveryId.t) (mutator : Mutator) : MI unit :=
  updated <-? on_storage (MemoryStorage.update_delivery id mutator) ;;
  ret (expect updated).

(** One delivery of a round; [emitted] is the mutator of a success. *)
Definition attempt (emitted : Mutator) (policy : RetryPolicy.t) (delivery : WebhookDelivery.t) : MI unit :=
  maybe_receipt <-? on_storage (MemoryStorage.get (ReceiptId.uuid (WebhookDelivery.receipt_id delivery))) ;;
  match maybe_receipt with
  | None => ret (Ok tt)
  | Some receipt =>
      outcome <-? emit (WebhookDelivery.emitter_name delivery) (NormalizedEvent.from_receipt receipt) ;;
      match outcome with
      | Ok _ => update_delivery (WebhookDelivery.delivery_id delivery) emitted
      | Err err =>
          let err_str := EmitError.to_string err in
          let new_attempt := i32_wrapping_add (WebhookDelivery.attempt_count delivery) 1 in
          if RetryPolicy.max_attempts policy <=? new_attempt then
            update_delivery (WebhookDelivery.delivery_id delivery) (mark_dead_lettered new_attempt err_str)
          else
            rand <-? on_env random_f64 ;;
            backoff <-? ret (ok_or (compute_backoff powi rand new_attempt policy) panic) ;;
            update_delivery (WebhookDelivery.delivery_id delivery) (mark_failed new_attempt err_str backoff)
      end
  end.

Fixpoint completion_rounds (rounds : nat) : MI unit :=
  match rounds with
  | O => ret (Ok tt)
  | S rounds' =>
      pending <-? on_storage MemoryStorage.pending_deliveries ;;
      if bool_decide (List.length pending = 0%nat) then ret (Ok tt)
      else
        _ <-? for_try (attempt (mark_emitted (λ n, n)) RetryPolicy.default) pending ;;
        completion_rounds rounds'
  end.

Definition run_deliveries_to_completion : MI unit := completion_rounds 50.

Definition terminal (d : WebhookDelivery.t) : bool :=
  match WebhookDelivery.state d with
  | DeliveryState.Emitted | DeliveryState.DeadLettered => true
  | _ => false
  end.

(** Every retryable row becomes due now; one reading of the clock per row. *)
Definition due_now (row : WebhookDelivery.t) (now : DateTime) : WebhookDelivery.t :=
  set_outcome (WebhookDelivery.state row) (WebhookDelivery.attempt_count row)
    (WebhookDelivery.last_error row) (WebhookDelivery.last_attempt_at row) now
    (WebhookDelivery.emitted_at row) row.

Fixpoint make_due (rows : list WebhookDelivery.t) : M Env (list WebhookDelivery.t) :=
  match rows with
  | [] => ret []
  | row :: rows' =>
      row' <- (if MemoryStorage.retryable row then now <- utc_now ;; ret (due_now row now) else ret row) ;;
      rows'' <- make_due rows' ;;
      ret (row' :: rows'')
  end.

Definition collect_due : M MemoryStorage.World (result (list WebhookDelivery.t) StorageError.t) := λ w,
  match MemoryStorage.lock_deliveries w.1 with
  | Err e => (Err e, w)
  | Ok guard =>
      let '(rows, e) := make_due guard w.2 in
      (Ok (List.filter MemoryStorage.retryable rows), (MemoryStorage.set_deliveries rows w.1, e))
  end.

Fixpoint exhaust_rounds (rounds : nat) : MI unit :=
  match rounds with
  | O => ret (Ok tt)
  | S rounds' =>
      all <-? on_storage (λ w, (MemoryStorage.all_deliveries w.1, w)) ;;
      if negb (existsb (λ d, negb (terminal d)) all) then ret (Ok tt)
      else
        due <-? on_storage collect_due ;;
        if bool_decide (List.length due = 0%nat) then ret (Ok tt)
        else
          _ <-? for_try (attempt (mark_emitted (λ n, i32_wrapping_add n 1)) RetryPolicy.default) due ;;
          exhaust_rounds rounds'
  end.

Definition run_until_exhausted : MI unit := exhaust_rounds 200.
End drive.
End IngestWorld.

(** ** scenario-tests/src/steps.rs

    One definition per step; the text of the step is matched by the runner. *)
Module Steps.
Import IngestWorld.
Notation Step := (M IngestWorld.t (result unit Panic)).

Definition modify (f : IngestWorld.t → IngestWorld.t) : Step := λ w, (Ok tt, f w).
(** [assert!] *)
Definition assert (b : bool) : result unit Panic := if b then Ok tt else Err panic.

(** *** Given *)

Definition given_pipeline_with_passing_verifier (provider : string) : Step :=
  modify (install [PassVerifier provider] []).
Definition given_pipeline_with_failing_verifier (provider : string) : Step :=
  modify (install [FailVerifier provider] []).
Definition given_pipeline_with_no_verifiers : Step := modify (install [] []).

Definition emitter_names_of (emitters_csv : string) : list string :=
  List.filter (λ s, negb (bool_decide (s = EmptyString))) (map trim (split_on "," emitters_csv)).
Definition given_pipeline_with_emitters (emitters_csv : string) : Step :=
  modify (build_pipeline_with_emitters (emitter_names_of emitters_csv)).
Definition given_emitter_permanently_fails (name : string) : Step :=
  set_emitter_behavior name EmitterBehavior.AlwaysFail.
Definition given_emitter_is_paused (name : string) : Step :=
  set_emitter_behavior name (EmitterBehavior.Slow (Duration_from_secs 3600)).

Definition set_scratch (policy : option RetryPolicy.t) (attempt : Z) (w : IngestWorld.t) : IngestWorld.t :=
  IngestWorld.mk (pipeline w) (results w) (emitters w) (storage_handle w) policy attempt (memory w)
    (cache w) (metrics w) (env w).
Definition given_retry_policy_with_jitter (initial_backoff : Z) (multiplier jitter : f64) : Step :=
  modify (λ w, set_scratch (Some (RetryPolicy.mk 10 (Duration_from_secs initial_backoff)
    (Duration_from_secs (u64_max / 2)) multiplier jitter)) (scratch_attempt w) w).
Definition given_retry_policy_with_max_backoff (initial_backoff : Z) (multiplier : f64) (max_backoff : Z) :
    Step :=
  modify (λ w, set_scratch (Some (RetryPolicy.mk 10 (Duration_from_secs initial_backoff)
    (Duration_from_secs max_backoff) multiplier 0%float)) (scratch_attempt w) w).

(** *** When *)
Section steps.
Context `{SerdeJson} `{Codecs} `{Crypto}.
Variable powi : f64 → Z → f64.

Definition when_ingest_webhook (provider body : string) : Step :=
  r <-? ingest provider (as_bytes body) ;;
  ret (match expect r with Ok _ => Ok tt | Err p => Err p end).

(** [{"event":"test"}] *)
Definition test_event : string := "{" +:+ quote +:+ "event" +:+ quote +:+ ":" +:+ quote +:+ "test" +:+ quote +:+ "}".
Definition when_valid_webhook_ingested : Step := when_ingest_webhook "stripe" test_event.
Definition when_same_webhook_ingested_again : Step := when_ingest_webhook "stripe" test_event.
Definition when_all_deliveries_complete : Step := run_deliveries_to_completion powi.
Definition when_workers_run_until_exhausted : Step := run_until_exhausted powi.
Definition when_emitter_fails_first_time : Step :=
  modify (λ w, set_scratch (scratch_retry_policy w) 1 w).
Definition when_emitter_has_failed_n_times (n : Z) : Step :=
  modify (λ w, set_scratch (scratch_retry_policy w) n w).

(** *** Then *)

Definition assert_result_matches (result : IngestResult.t) (expected : string) : Prelude.result unit Panic :=
  if String.eqb expected "accepted" then
    assert (match result with IngestResult.Accepted _ => true | _ => false end)
  else if String.eqb expected "duplicate" then
    assert (match result with IngestResult.Duplicate _ => true | _ => false end)
  else if String.eqb expected "verification_failed" then
    assert (match result with IngestResult.VerificationFailed _ => true | _ => false end)
  else Err panic.

(** The result at [index], out of the bounds of which indexing panics. *)
Definition nth_result_is (index : nat) (expected : string) (w : IngestWorld.t) : result unit Panic :=
  match results w !! index with Some r => assert_result_matches r expected | None => Err panic end.

Definition then_result_should_be (expected : string) : Step := λ w,
  (if bool_decide (List.length (results w) = 1%nat) then nth_result_is 0 expected w else Err panic, w).
Definition then_first_result_should_be (expected : string) : Step := λ w, (nth_result_is 0 expected w, w).
Definition then_second_result_should_be (expected : string) : Step := λ w, (nth_result_is 1 expected w, w).

Definition then_emitter_receives_n_events (name : string) (expected : nat) : Step := λ w,
  (match emitters w !! name with
   | None => Err panic
   | Some emitter => assert (bool_decide (FakeEmitter.received_count emitter = expected))
   end, w).

Definition then_receipt_has_n_delivery_rows (expected : nat) : Step :=
  rows <-? last_receipt_deliveries ;;
  ret (assert (bool_decide (List.length rows = expected))).

Definition processing_state_label (state : ProcessingState.t) : string :=
  match state with
  | ProcessingState.Received => "received"
  | ProcessingState.Verified => "verified"
  | ProcessingState.VerificationFailed => "verification_failed"
  | ProcessingState.Duplicate => "duplicate"
  | ProcessingState.Stored => "stored"
  | ProcessingState.Emitted => "emitted"
  | ProcessingState.Processed => "processed"
  | ProcessingState.EmitFailed => "emit_failed"
  | ProcessingState.DeadLettered => "dead_lettered"
  | ProcessingState.Replayed => "replayed"
  end.
Definition then_receipt_processing_state_is (expected : string) : Step :=
  state <-? last_receipt_state ;;
  ret (assert (String.eqb (processing_state_label state) expected)).

(** Within one second of what is expected. *)
Definition then_next_attempt_at_approximately (expected_secs : Z) : Step :=
  policy <-? (λ w, (ok_or (scratch_retry_policy w) panic, w)) ;;
  _before <-? on_env utc_now ;;
  rand <-? on_env random_f64 ;;
  backoff <-? (λ w, (ok_or (compute_backoff powi rand (scratch_attempt w) policy) panic, w)) ;;
  _after <-? on_env utc_now ;;
  let expected := Duration_from_secs expected_secs in
  let tolerance := Duration_from_secs 1 in
  let lower := Z.max 0 (expected - tolerance) in
  let upper := expected + tolerance in
  if Duration_max <? upper then ret (Err panic)
  else ret (assert ((lower <=? backoff) && (backoff <=? upper))).
End steps.

(** A scenario passes when none of its steps panics. *)
Definition run_scenario (steps : list Step) : Step := for_try (λ step, step) steps.
Definition passes (e : Env) (steps : list Step) : Prop := (run_scenario steps (IngestWorld.new e)).1 = Ok tt.
End Steps.
