(* ===== verification/ScenarioProps.v ===== *)
(** * The in-memory scenarios: the core features, and termination of the delivery loops

    The feature files of scenario-tests/features/core/ run on the model, and the two loops that
    play the workers in them are shown to end with every row settled. *)

From S2P Require Import Prelude RustStd F64 Types Traits Transitions Dedupe Metrics Pipeline PipelineProps Worker Dispatch WorkerProps Memory MemoryProps Scenario Instances.
Local Open Scope Z_scope.
Local Open Scope rust_scope.

(** ** scenario-tests/features/core/ *)
Section features.
Import Steps.
Let powi := powi_iter.

Definition json_event (value : string) : string :=
  "{" +:+ quote +:+ "event" +:+ quote +:+ ":" +:+ quote +:+ value +:+ quote +:+ "}".

Definition backoff_feature : list (list Step) :=
  [ [given_retry_policy_with_jitter 30 2 0; when_emitter_fails_first_time;
     then_next_attempt_at_approximately powi 30];
    [given_retry_policy_with_jitter 30 2 0; when_emitter_has_failed_n_times 2;
     then_next_attempt_at_approximately powi 60];
    [given_retry_policy_with_max_backoff 60 4 120; when_emitter_has_failed_n_times 3;
     then_next_attempt_at_approximately powi 120] ].

Definition derived_state_feature : list (list Step) :=
  [ [given_pipeline_with_emitters "a, b"; when_valid_webhook_ingested;
     when_all_deliveries_complete powi; then_receipt_processing_state_is "emitted"];
    [given_pipeline_with_emitters "ok, broken"; given_emitter_permanently_fails "broken";
     when_valid_webhook_ingested; when_workers_run_until_exhausted powi;
     then_receipt_processing_state_is "dead_lettered"];
    [given_pipeline_with_emitters "slow"; given_emitter_is_paused "slow";
     when_valid_webhook_ingested; then_receipt_processing_state_is "stored"] ].

Definition accepted_scenario (provider body : string) : list Step :=
  [given_pipeline_with_passing_verifier "test"; when_ingest_webhook provider body;
   then_result_should_be "accepted"].

Definition emitters_feature : list (list Step) :=
  [ accepted_scenario "test" (json_event "emitter_test");
    accepted_scenario "test" (json_event "trace_test");
    accepted_scenario "test" (json_event "fail_emit");
    accepted_scenario "test" ("{" +:+ quote +:+ "event" +:+ quote +:+ ":" +:+ quote +:+ "equality_test" +:+
      quote +:+ "," +:+ quote +:+ "amount" +:+ quote +:+ ":42}") ].

Definition fanout_feature : list (list Step) :=
  [ [given_pipeline_with_emitters "chan-a, chan-b"; when_valid_webhook_ingested;
     when_all_deliveries_complete powi; then_emitter_receives_n_events "chan-a" 1;
     then_emitter_receives_n_events "chan-b" 1; then_receipt_has_n_delivery_rows 2];
    [given_pipeline_with_emitters "chan-a"; when_valid_webhook_ingested;
     when_same_webhook_ingested_again; when_all_deliveries_complete powi;
     then_emitter_receives_n_events "chan-a" 1; then_receipt_has_n_delivery_rows 1] ].

Definition ingest_feature : list (list Step) :=
  [ accepted_scenario "test" (json_event "payment.completed");
    [given_pipeline_with_failing_verifier "badprovider";
     when_ingest_webhook "badprovider" (json_event "test"); then_result_should_be "verification_failed"];
    [given_pipeline_with_passing_verifier "test";
     when_ingest_webhook "test" (json_event "payment.completed");
     when_ingest_webhook "test" (json_event "payment.completed");
     then_first_result_should_be "accepted"; then_second_result_should_be "duplicate"];
    [given_pipeline_with_no_verifiers; when_ingest_webhook "unknown" (json_event "test");
     then_result_should_be "accepted"];
    [given_pipeline_with_emitters "kafka,sqs"; when_ingest_webhook "stripe" (json_event "test");
     then_result_should_be "accepted"; then_receipt_has_n_delivery_rows 2] ].

Definition providers_feature : list (list Step) :=
  [ accepted_scenario "test" (json_event "provider_test");
    [given_pipeline_with_passing_verifier "stripe";
     when_ingest_webhook "unknown_provider" (json_event "test"); then_result_should_be "accepted"];
    [given_pipeline_with_no_verifiers; when_ingest_webhook "adyen" (json_event "test");
     then_result_should_be "accepted"] ].

Definition retry_feature : list (list Step) :=
  [ accepted_scenario "test" (json_event "retry_test");
    accepted_scenario "test" (json_event "emit_fail_test") ].

Definition core_features : list (list Step) :=
  backoff_feature ++ derived_state_feature ++ emitters_feature ++ fanout_feature ++ ingest_feature ++
  providers_feature ++ retry_feature.
End features.

(** Every scenario of the feature files passes. *)
Theorem core_features_pass : Forall (Steps.passes calm_env) core_features.
Proof. unfold Steps.passes. repeat constructor; vm_compute; reflexivity. Qed.

(** ** The environment only moves forward *)

Record later (e e' : Env) : Prop := mk_later {
  later_utc : utc e' = utc e;
  later_uuids : uuids e' = uuids e;
  later_reads : (reads e ≤ reads e')%nat
}.

#[export] Instance later_preorder : PreOrder later.
Proof.
  split; [by intros e|]. intros e1 e2 e3 [] []. split; [congruence..|lia].
Qed.

Lemma read_env_later {A} (f : Env → nat → A) e : later e (read_env f e).2.
Proof. split; cbn; [done..|lia]. Qed.

Lemma emit_later event em e : later e (FakeEmitter.emit event (em, e)).2.2.
Proof.
  unfold FakeEmitter.emit, FakeEmitter.receive, FakeEmitter.start_of, FakeEmitter.fail,
    FakeEmitter.lock_field, FakeEmitter.modify, FakeEmitter.on_env, sleep, bind_try, bind, ret.
  cbn. repeat (break_match; cbn in *; simplify_eq); cbn; split; cbn; try done; lia.
Qed.

(** ** One attempt on one row *)

Notation rows w := (content (MemoryStorage.deliveries (IngestWorld.memory w))).
Notation stored w := (content (MemoryStorage.receipts (IngestWorld.memory w))).
Notation attempts_left := (RetryPolicy.max_attempts RetryPolicy.default).

(** What [attempt] makes of a row, [count] being the count after a success. *)
Inductive attempted (count : Z → Z) (d : WebhookDelivery.t) : WebhookDelivery.t → Prop :=
| attempt_emitted last now :
    attempted count d (set_outcome DeliveryState.Emitted (count (WebhookDelivery.attempt_count d))
      (WebhookDelivery.last_error d) (Some last) (WebhookDelivery.next_attempt_at d) (Some now) d)
| attempt_dead_lettered last err :
    attempts_left ≤ WebhookDelivery.attempt_count d + 1 →
    attempted count d (set_outcome DeliveryState.DeadLettered (WebhookDelivery.attempt_count d + 1)
      (Some err) (Some last) (WebhookDelivery.next_attempt_at d) (WebhookDelivery.emitted_at d) d)
| attempt_failed last err next :
    WebhookDelivery.attempt_count d + 1 < attempts_left →
    attempted count d (set_outcome DeliveryState.Failed (WebhookDelivery.attempt_count d + 1)
      (Some err) (Some last) next (WebhookDelivery.emitted_at d) d).

Lemma attempted_id count d d' :
  attempted count d d' → WebhookDelivery.delivery_id d' = WebhookDelivery.delivery_id d.
Proof. by intros []. Qed.

(** The row of [d] becomes [d']. *)
Definition put (d d' : WebhookDelivery.t) (ds : list WebhookDelivery.t) : list WebhookDelivery.t :=
  map (λ x, if decide (WebhookDelivery.delivery_id x = WebhookDelivery.delivery_id d) then d' else x) ds.

Lemma mutate_first_put mutator ds d d' r e e' :
  NoDup (map WebhookDelivery.delivery_id ds) → d ∈ ds → mutator d e = ((d', r), e') →
  MemoryStorage.mutate_first (WebhookDelivery.delivery_id d) mutator ds e = ((put d d' ds, r), e').
Proof.
  intros Hnd Hd Hm. induction ds as [|x ds IH]; [by apply not_elem_of_nil in Hd|].
  cbn in Hnd. apply NoDup_cons in Hnd as [Hx Hnd]. cbn [MemoryStorage.mutate_first put map].
  case_decide as Hid.
  - assert (x = d) as ->.
    { apply elem_of_cons in Hd as [?|Hd]; [done|]. destruct Hx. apply elem_of_List_map. exists d. done. }
    unfold bind. rewrite Hm. do 3 f_equal. rewrite <- (map_id ds) at 1. apply map_ext_in.
    intros y Hy%list_elem_of_In. case_decide as Hy'; [|done]. destruct Hx.
    rewrite <- Hy'. apply elem_of_List_map. by exists y.
  - unfold bind. rewrite IH; [done..|]. apply elem_of_cons in Hd as [->|]; done.
Qed.

(** The parts of the world no delivery touches. *)
Record same_setting (w w' : IngestWorld.t) : Prop := mk_same_setting {
  same_pipeline : IngestWorld.pipeline w' = IngestWorld.pipeline w;
  same_results : IngestWorld.results w' = IngestWorld.results w;
  same_handle : IngestWorld.storage_handle w' = IngestWorld.storage_handle w;
  same_emitters : dom (IngestWorld.emitters w') = dom (IngestWorld.emitters w);
  same_receipts : MemoryStorage.receipts (IngestWorld.memory w') = MemoryStorage.receipts (IngestWorld.memory w);
  same_health : poisoned (MemoryStorage.deliveries (IngestWorld.memory w')) =
                poisoned (MemoryStorage.deliveries (IngestWorld.memory w));
  same_env : later (IngestWorld.env w) (IngestWorld.env w')
}.

#[export] Instance same_setting_preorder : PreOrder same_setting.
Proof.
  split; [by intros w|]. intros w1 w2 w3 [] []. split; try congruence. by etrans.
Qed.

Section drive.
Variable powi : f64 → Z → f64.
Variable horizon : DateTime.
Hypothesis Hhorizon : usable_policy RetryPolicy.default horizon.

(** A world whose deliveries the loops can drive: every row has its receipt and its emitter. *)
Record drivable (w : IngestWorld.t) : Prop := mk_drivable {
  dr_handle : IngestWorld.storage_handle w = true;
  dr_unpoisoned : unpoisoned (IngestWorld.memory w);
  dr_ids : NoDup (map WebhookDelivery.delivery_id (rows w));
  dr_receipts : ∀ d, d ∈ rows w → ∃ r, r ∈ stored w ∧ WebhookReceipt.receipt_id r = WebhookDelivery.receipt_id d;
  dr_emitters : ∀ d, d ∈ rows w → WebhookDelivery.emitter_name d ∈ dom (IngestWorld.emitters w);
  dr_clock : ∀ i, utc (IngestWorld.env w) i ≤ horizon
}.

Lemma set_memory_same w : IngestWorld.set_memory (IngestWorld.memory w, IngestWorld.env w) w = w.
Proof. by destruct w. Qed.

Lemma on_storage_run {A E} (m : M MemoryStorage.World (result A E)) w :
  drivable w →
  IngestWorld.on_storage m w =
  (IngestWorld.expect (m (IngestWorld.memory w, IngestWorld.env w)).1,
   IngestWorld.set_memory (m (IngestWorld.memory w, IngestWorld.env w)).2 w).
Proof. intros Hw. unfold IngestWorld.on_storage. rewrite (dr_handle _ Hw). by destruct (m _). Qed.

Lemma get_receipt_run w d :
  drivable w → d ∈ rows w →
  ∃ r, IngestWorld.on_storage (MemoryStorage.get (ReceiptId.uuid (WebhookDelivery.receipt_id d))) w =
       (Ok (Some r), w).
Proof.
  intros Hw Hd. rewrite on_storage_run by done. unfold MemoryStorage.get, MemoryStorage.lock_receipts, lock.
  destruct (dr_unpoisoned _ Hw) as [Hp _]. cbn. rewrite Hp. cbn. rewrite set_memory_same.
  destruct (dr_receipts _ Hw d Hd) as (r & Hr & Hid).
  destruct (List.find _ _) as [x|] eqn:Ex; [by exists x|]. exfalso.
  eapply find_None_elem in Ex; [|exact Hr]. apply bool_decide_eq_false in Ex. by rewrite Hid in Ex.
Qed.

(** A mutator that does not panic replaces the row. *)
Lemma update_delivery_run mutator w d d' e' :
  drivable w → d ∈ rows w → mutator d (IngestWorld.env w) = ((d', Ok tt), e') → later (IngestWorld.env w) e' →
  ∃ w', IngestWorld.update_delivery (WebhookDelivery.delivery_id d) mutator w = (Ok tt, w') ∧
        same_setting w w' ∧ rows w' = put d d' (rows w).
Proof.
  intros Hw Hd Hm He. unfold IngestWorld.update_delivery, bind_try, bind. rewrite on_storage_run by done.
  unfold MemoryStorage.update_delivery, MemoryStorage.lock_deliveries, lock.
  destruct (dr_unpoisoned _ Hw) as [_ Hp]. cbn [fst snd]. rewrite Hp. cbn [map_err].
  rewrite (mutate_first_put _ _ _ _ _ _ _ (dr_ids _ Hw) Hd Hm). cbn.
  eexists. split; [done|]. split; [|done]. by split.
Qed.

Lemma emit_run w name event :
  name ∈ dom (IngestWorld.emitters w) →
  ∃ r w', IngestWorld.emit name event w = (Ok r, w') ∧ same_setting w w' ∧
          IngestWorld.memory w' = IngestWorld.memory w.
Proof.
  intros [em Hem]%elem_of_dom. unfold IngestWorld.emit. rewrite Hem.
  pose proof (emit_later event em (IngestWorld.env w)) as Hl.
  destruct (FakeEmitter.emit event (em, IngestWorld.env w)) as [r [em' e']]. cbn in Hl.
  eexists r, _. split; [done|]. split; [|done]. split; cbn; try done.
  rewrite dom_insert_L. apply elem_of_dom_2 in Hem. set_solver.
Qed.

(** The rows of [w'] come from those of [w], which are driven by the same setting. *)
Lemma drivable_same w w' :
  drivable w → same_setting w w' →
  map (λ d, (WebhookDelivery.delivery_id d, WebhookDelivery.receipt_id d, WebhookDelivery.emitter_name d)) (rows w') =
  map (λ d, (WebhookDelivery.delivery_id d, WebhookDelivery.receipt_id d, WebhookDelivery.emitter_name d)) (rows w) →
  drivable w'.
Proof.
  intros [Hh [Hpr Hpd] Hids Hre Hem Hc] [Sp Sr Sh Se Srec Shl Sl] Hrows.
  assert (∀ d', d' ∈ rows w' → ∃ d, d ∈ rows w ∧ WebhookDelivery.receipt_id d = WebhookDelivery.receipt_id d' ∧
            WebhookDelivery.emitter_name d = WebhookDelivery.emitter_name d') as Hfrom.
  { intros d' Hd'.
    assert ((WebhookDelivery.delivery_id d', WebhookDelivery.receipt_id d', WebhookDelivery.emitter_name d') ∈
      map (λ d, (WebhookDelivery.delivery_id d, WebhookDelivery.receipt_id d, WebhookDelivery.emitter_name d)) (rows w))
      as (d & Hd & [= _ H1 H2])%elem_of_List_map by (rewrite <- Hrows; apply elem_of_List_map; by exists d').
    by exists d. }
  split; [congruence|split; congruence| | | |].
  - apply (f_equal (map (λ t, t.1.1))) in Hrows. rewrite !map_map in Hrows.
    assert (map WebhookDelivery.delivery_id (rows w') = map WebhookDelivery.delivery_id (rows w)) as ->
      by exact Hrows. done.
  - intros d' Hd'. destruct (Hfrom d' Hd') as (d & Hd & <- & _). rewrite Srec. by apply Hre.
  - intros d' Hd'. destruct (Hfrom d' Hd') as (d & Hd & _ & <-). rewrite Se. by apply Hem.
  - intros i. rewrite (later_utc _ _ Sl). apply Hc.
Qed.

Lemma drivable_put w w' d d' :
  drivable w → same_setting w w' → d ∈ rows w → rows w' = put d d' (rows w) →
  WebhookDelivery.delivery_id d' = WebhookDelivery.delivery_id d →
  WebhookDelivery.receipt_id d' = WebhookDelivery.receipt_id d →
  WebhookDelivery.emitter_name d' = WebhookDelivery.emitter_name d → drivable w'.
Proof.
  intros Hw Hs Hd Hr H1 H2 H3. eapply drivable_same; [done|done|]. rewrite Hr. unfold put. rewrite map_map.
  apply map_ext_in. intros x Hx%list_elem_of_In. case_decide as Hid; [|done].
  assert (x = d) as -> by (by eapply (NoDup_map_inj_on WebhookDelivery.delivery_id); [apply (dr_ids _ Hw)|..]).
  by rewrite H1, H2, H3.
Qed.

Lemma drivable_memory w w' :
  drivable w → same_setting w w' → IngestWorld.memory w' = IngestWorld.memory w → drivable w'.
Proof. intros Hw Hs Hm. eapply drivable_same; [done|done|]. by rewrite Hm. Qed.

(** One delivery of a round. *)
Lemma attempt_run count w d :
  drivable w → d ∈ rows w → 0 ≤ WebhookDelivery.attempt_count d < attempts_left →
  ∃ w' d', IngestWorld.attempt powi (mark_emitted count) RetryPolicy.default d w = (Ok tt, w') ∧
    same_setting w w' ∧ rows w' = put d d' (rows w) ∧ attempted count d d'.
Proof.
  intros Hw Hd Hn. unfold IngestWorld.attempt.
  destruct (get_receipt_run w d Hw Hd) as (r & Hr). rewrite (bind_try_run _ _ _ _ _ Hr).
  destruct (emit_run w (WebhookDelivery.emitter_name d) (NormalizedEvent.from_receipt r))
    as (res & w1 & Hemit & Hs1 & Hm1); [by apply dr_emitters|].
  rewrite (bind_try_run _ _ _ _ _ Hemit). pose proof (drivable_memory _ _ Hw Hs1 Hm1) as Hw1.
  rewrite <- Hm1 in *. rewrite i32_wrapping_add_exact.
  2: { unfold in_i32, i32_min, i32_max, RetryPolicy.default in *. cbn in Hn. lia. }
  assert (∀ mutator d' e' w2, drivable w2 → same_setting w w2 → IngestWorld.memory w2 = IngestWorld.memory w1 →
    mutator d (IngestWorld.env w2) = ((d', Ok tt), e') → later (IngestWorld.env w2) e' → attempted count d d' →
    ∃ w' d', IngestWorld.update_delivery (WebhookDelivery.delivery_id d) mutator w2 = (Ok tt, w') ∧
      same_setting w w' ∧ rows w' = put d d' (rows w1) ∧ attempted count d d') as Hupd.
  { intros mutator d' e' w2 Hw2 Hs2 Hm2 Hmut Hl Ha. rewrite <- Hm2 in Hd |- *.
    destruct (update_delivery_run mutator w2 d d' e' Hw2 Hd Hmut Hl) as (w' & Hrun & Hs' & Hrows).
    exists w', d'. split_and!; [done|by etrans|done|done]. }
  destruct res as [[]|err].
  - eapply Hupd; [done|done|done|reflexivity| |constructor]. etrans; apply (read_env_later utc).
  - destruct (Z.leb_spec attempts_left (WebhookDelivery.attempt_count d + 1)) as [Hlast|Hmore].
    + eapply Hupd; [done|done|done|reflexivity| |by constructor]. apply (read_env_later utc).
    + unfold bind_try at 1, bind at 1, IngestWorld.on_env. cbn [random_f64 read_env].
      set (e1 := mkEnv _ _ _ _ _). set (w2 := IngestWorld.set_env e1 w1).
      assert (same_setting w1 w2) as Hs2 by (split; try done; apply (read_env_later draws)).
      assert (drivable w2) as Hw2 by (by eapply drivable_memory).
      destruct (next_attempt_time powi (draws (IngestWorld.env w1) (reads (IngestWorld.env w1)))
        (WebhookDelivery.attempt_count d + 1) RetryPolicy.default horizon (utc e1 (S (reads e1))) Hhorizon)
        as (delay & Hdelay & Hbound & Hd1 & Ht); [lia|apply (dr_clock _ Hw2)|].
      rewrite Hdelay. cbn [ok_or]. rewrite bind_try_ok.
      eapply (Hupd _ _ _ w2); [done|by etrans|done| | |by apply attempt_failed].
      * unfold mark_failed, bind, utc_now, read_env. cbn [utc reads IngestWorld.env w2 IngestWorld.set_env IngestWorld.set_memory snd].
        assert (from_std delay = Some delay) as -> .
        { unfold from_std. destruct Hhorizon as (_ & Hmax & _). by destruct (Z.leb_spec delay timedelta_max); [|lia]. }
        cbn [mbind option_bind]. subst e1. cbn in Ht |- *. rewrite Ht. reflexivity.
      * split; cbn; [done..|lia].
Qed.

(** *** A round *)

Definition attempted_in (count : Z → Z) (due : list WebhookDelivery.t) (x x' : WebhookDelivery.t) : Prop :=
  if decide (WebhookDelivery.delivery_id x ∈ map WebhookDelivery.delivery_id due)
  then attempted count x x' else x' = x.

Lemma attempts_run count due w :
  drivable w → NoDup (map WebhookDelivery.delivery_id due) →
  (∀ d, d ∈ due → d ∈ rows w ∧ 0 ≤ WebhookDelivery.attempt_count d < attempts_left) →
  ∃ w', for_try (IngestWorld.attempt powi (mark_emitted count) RetryPolicy.default) due w = (Ok tt, w') ∧
    same_setting w w' ∧ drivable w' ∧ Forall2 (attempted_in count due) (rows w) (rows w').
Proof.
  revert w. induction due as [|d due IH]; intros w Hw Hnd Hdue.
  { exists w. split_and!; [done..|]. apply Forall_Forall2_diag, Forall_forall. intros x _.
    unfold attempted_in. by rewrite decide_False by apply not_elem_of_nil. }
  cbn in Hnd. apply NoDup_cons in Hnd as [Hnew Hnd].
  destruct (Hdue d) as [Hd Hn]; [apply elem_of_cons; by left|].
  destruct (attempt_run count w d Hw Hd Hn) as (w1 & d' & Hrun & Hs1 & Hrows1 & Ha).
  pose proof (attempted_id _ _ _ Ha) as Hid'.
  assert (drivable w1) as Hw1 by (eapply drivable_put; [done..| | |]; by destruct Ha).
  destruct (IH w1 Hw1 Hnd) as (w2 & Hrun2 & Hs2 & Hw2 & Hrows2).
  { intros x Hx. destruct (Hdue x) as [Hxw Hxn]; [apply elem_of_cons; by right|]. split; [|done].
    rewrite Hrows1. unfold put. apply elem_of_List_map. exists x. split; [done|].
    case_decide as Hxd; [|done]. destruct Hnew. rewrite <- Hxd. apply elem_of_List_map. by exists x. }
  exists w2. split_and!; [cbn [for_try]; by rewrite (bind_try_run _ _ _ _ _ Hrun)|by etrans|done|].
  rewrite Hrows1 in Hrows2. unfold put in Hrows2.
  match type of Hrows2 with Forall2 _ (map ?f ?l) _ => change (map f l) with (f <$> l) in Hrows2 end.
  rewrite Forall2_fmap_l in Hrows2.
  eapply Forall2_impl_in; [exact Hrows2|].
  intros x x' Hx Hxx'. unfold compose, attempted_in in *. cbn [map].
  destruct (decide (WebhookDelivery.delivery_id x = WebhookDelivery.delivery_id d)) as [Hxd|Hxd].
  - assert (x = d) as -> by (by eapply (NoDup_map_inj_on WebhookDelivery.delivery_id); [apply (dr_ids _ Hw)|..]).
    rewrite (decide_True (P := _ ∈ _ :: _)) by (apply elem_of_cons; by left).
    rewrite Hid', decide_False in Hxx' by done. congruence.
  - destruct (decide (WebhookDelivery.delivery_id x ∈ map _ due)) as [Hin|Hin].
    + rewrite decide_True by (apply elem_of_cons; by right). done.
    + rewrite decide_False; [done|]. intros [?|?]%elem_of_cons; done.
Qed.

(** *** Rounds until every row is settled *)

(** A settled row, or one with at least [k] failures behind it and one attempt left. *)
Definition active_from (k : Z) (d : WebhookDelivery.t) : Prop :=
  IngestWorld.terminal d = true ∨
  (MemoryStorage.retryable d = true ∧ k ≤ WebhookDelivery.attempt_count d < attempts_left).

(** The history of a row under the loops: its identity stays, a settled row stays as it is, and
    a row is settled by a success or by its last failure. *)
Record driven (x x' : WebhookDelivery.t) : Prop := mk_driven {
  driven_id : WebhookDelivery.delivery_id x' = WebhookDelivery.delivery_id x;
  driven_receipt : WebhookDelivery.receipt_id x' = WebhookDelivery.receipt_id x;
  driven_emitter : WebhookDelivery.emitter_name x' = WebhookDelivery.emitter_name x;
  driven_terminal : IngestWorld.terminal x = true → x' = x;
  driven_dead : IngestWorld.terminal x = false → WebhookDelivery.state x' = DeliveryState.DeadLettered →
    WebhookDelivery.attempt_count x' = attempts_left ∧ is_Some (WebhookDelivery.last_error x');
  driven_emitted : IngestWorld.terminal x = false → WebhookDelivery.state x' = DeliveryState.Emitted →
    is_Some (WebhookDelivery.emitted_at x')
}.

Lemma driven_trans x y z : driven x y → driven y z → driven x z.
Proof.
  intros [H1 H2 H3 Ht Hd He] [K1 K2 K3 Kt Kd Ke].
  destruct (IngestWorld.terminal y) eqn:Ey; [|split; try congruence].
  - specialize (Kt eq_refl). subst. by split.
  - intros Hx. specialize (Ht Hx). congruence.
  - intros _. by apply Kd.
  - intros _. by apply Ke.
Qed.

Lemma driven_refl x : IngestWorld.terminal x = true → driven x x.
Proof. intros Hx. split; congruence. Qed.

Lemma retryable_not_terminal d : MemoryStorage.retryable d = true → IngestWorld.terminal d = false.
Proof. unfold MemoryStorage.retryable, IngestWorld.terminal. destruct (WebhookDelivery.state d); by destruct (negb _). Qed.

(** The row once it is due. *)
Definition now_due (x x' : WebhookDelivery.t) : Prop :=
  if MemoryStorage.retryable x then ∃ t, x' = IngestWorld.due_now x t else x' = x.

Lemma make_due_rows ds e :
  Forall2 now_due ds (IngestWorld.make_due ds e).1 ∧ later e (IngestWorld.make_due ds e).2.
Proof.
  revert e. induction ds as [|d ds IH]; intros e; [by split|]. cbn [IngestWorld.make_due].
  unfold now_due, bind, utc_now, read_env. destruct (MemoryStorage.retryable d) eqn:Hd; cbn [ret].
  - destruct (IH (mkEnv (utc e) (instants e) (uuids e) (draws e) (S (reads e)))) as [H1 H2].
    destruct (IngestWorld.make_due ds _) as [ds' e2]. split.
    + constructor; [|done]. rewrite Hd. by eexists.
    + etrans; [apply (read_env_later utc)|exact H2].
  - destruct (IH e) as [H1 H2]. destruct (IngestWorld.make_due ds e) as [ds' e2].
    split; [|done]. constructor; [|done]. by rewrite Hd.
Qed.

Lemma now_due_id x x' : now_due x x' →
  WebhookDelivery.delivery_id x' = WebhookDelivery.delivery_id x ∧
  WebhookDelivery.receipt_id x' = WebhookDelivery.receipt_id x ∧
  WebhookDelivery.emitter_name x' = WebhookDelivery.emitter_name x ∧
  WebhookDelivery.attempt_count x' = WebhookDelivery.attempt_count x ∧
  MemoryStorage.retryable x' = MemoryStorage.retryable x ∧ IngestWorld.terminal x' = IngestWorld.terminal x.
Proof. unfold now_due. destruct (MemoryStorage.retryable x) eqn:Hx; [|by intros ->]. by intros [t ->]. Qed.

Lemma round_row count k due x x1 x2 :
  active_from k x → now_due x x1 → attempted_in count due x1 x2 →
  (MemoryStorage.retryable x = true → WebhookDelivery.delivery_id x1 ∈ map WebhookDelivery.delivery_id due) →
  (WebhookDelivery.delivery_id x1 ∈ map WebhookDelivery.delivery_id due → MemoryStorage.retryable x = true) →
  driven x x2 ∧ active_from (k + 1) x2.
Proof.
  intros Ha Hnow Hatt Hin Hout. destruct (MemoryStorage.retryable x) eqn:Hx.
  - pose proof (retryable_not_terminal _ Hx) as Hnt.
    destruct Ha as [Ha|[_ Ha]]; [congruence|]. unfold now_due in Hnow. rewrite Hx in Hnow.
    destruct Hnow as [t ->]. unfold attempted_in in Hatt. rewrite decide_True in Hatt by auto.
    assert (WebhookDelivery.immutable x = false) as Himm.
    { unfold MemoryStorage.retryable in Hx. by destruct (WebhookDelivery.immutable x). }
    destruct Hatt as [last now|last err Hle|last err next Hlt]; split.
    + split; try done; try congruence.
    + by left.
    + split; try done; try congruence. cbn in *. intros _ _. split; [lia|by eexists].
    + by left.
    + split; done || congruence.
    + right. cbn in Hlt |- *. split; [|lia]. unfold MemoryStorage.retryable. cbn. by rewrite Himm.
  - destruct Ha as [Ha|[Ha _]]; [|congruence].
    unfold now_due in Hnow. rewrite Hx in Hnow. subst x1.
    unfold attempted_in in Hatt. rewrite decide_False in Hatt by (intros ?%Hout; congruence). subst x2.
    split; [by apply driven_refl|by left].
Qed.

(** A locked read of all rows. *)
Lemma all_deliveries_run w {A} (m : list WebhookDelivery.t → M IngestWorld.t (result A Panic)) :
  drivable w →
  bind_try (IngestWorld.on_storage (λ w, (MemoryStorage.all_deliveries w.1, w))) m w = m (rows w) w.
Proof.
  intros Hw. destruct (dr_unpoisoned _ Hw) as [_ Hp].
  unfold bind_try, bind. rewrite on_storage_run by done. cbn [fst snd].
  unfold MemoryStorage.all_deliveries, MemoryStorage.lock_deliveries, lock. rewrite Hp. cbn.
  by rewrite set_memory_same.
Qed.

Lemma exhaust_settled w n :
  drivable w → Forall (λ d, IngestWorld.terminal d = true) (rows w) →
  IngestWorld.exhaust_rounds powi n w = (Ok tt, w).
Proof.
  intros Hw Hall. destruct n; [done|]. cbn [IngestWorld.exhaust_rounds]. rewrite all_deliveries_run by done.
  destruct (existsb _ _) eqn:Hex; [|done]. exfalso.
  apply existsb_exists in Hex as (x & Hx%list_elem_of_In & Hnt).
  rewrite Forall_forall in Hall. by rewrite (Hall x Hx) in Hnt.
Qed.

(** The world after the due rows were collected, and those rows. *)
Definition due_world (w : IngestWorld.t) : IngestWorld.t :=
  let r := IngestWorld.make_due (rows w) (IngestWorld.env w) in
  IngestWorld.set_memory (MemoryStorage.set_deliveries r.1 (IngestWorld.memory w), r.2) w.

Definition due_rows (w : IngestWorld.t) : list WebhookDelivery.t :=
  List.filter MemoryStorage.retryable (rows (due_world w)).

Lemma collect_due_run w :
  drivable w → IngestWorld.on_storage IngestWorld.collect_due w = (Ok (due_rows w), due_world w).
Proof.
  intros Hw. destruct (dr_unpoisoned _ Hw) as [_ Hp]. rewrite on_storage_run by done.
  unfold IngestWorld.collect_due, MemoryStorage.lock_deliveries, lock. cbn [fst snd]. rewrite Hp. cbn [map_err].
  unfold due_rows, due_world. by destruct (IngestWorld.make_due _ _).
Qed.

Lemma now_due_ids l l' :
  Forall2 now_due l l' → map WebhookDelivery.delivery_id l' = map WebhookDelivery.delivery_id l.
Proof. intros Hdue. eapply Forall2_map_eq; [exact Hdue|]. intros x y Hxy. by apply now_due_id. Qed.

Lemma due_world_run w :
  drivable w →
  drivable (due_world w) ∧ same_setting w (due_world w) ∧ Forall2 now_due (rows w) (rows (due_world w)).
Proof.
  intros Hw. destruct (make_due_rows (rows w) (IngestWorld.env w)) as [Hdue He].
  assert (same_setting w (due_world w)) as Hs by by split.
  split_and!; [|done..]. eapply drivable_same; [exact Hw|done|].
  eapply Forall2_map_eq; [exact Hdue|]. intros x y (-> & -> & -> & _)%now_due_id. done.
Qed.

(** A row is among the due rows when it may be retried. *)
Lemma in_due_rows w x x1 :
  drivable w → now_due x x1 → x1 ∈ rows (due_world w) →
  WebhookDelivery.delivery_id x1 ∈ map WebhookDelivery.delivery_id (due_rows w) ↔ MemoryStorage.retryable x = true.
Proof.
  intros Hw (_ & _ & _ & _ & <- & _)%now_due_id Hx1. destruct (due_world_run w Hw) as (Hw1 & _ & _).
  unfold due_rows. rewrite elem_of_List_map. split.
  - intros (y & [Hy Hyr]%elem_of_List_filter & Hid).
    by rewrite (NoDup_map_inj_on WebhookDelivery.delivery_id _ x1 y (dr_ids _ Hw1) Hx1 Hy Hid).
  - intros Hr. exists x1. split; [by apply elem_of_List_filter|done].
Qed.

(** The attempts of a round, on rows that are settled or counted at least [k]. *)
Lemma round_run k w :
  drivable w → 0 ≤ k → Forall (active_from k) (rows w) →
  ∃ w2, for_try (IngestWorld.attempt powi (mark_emitted (λ n, i32_wrapping_add n 1)) RetryPolicy.default)
          (due_rows w) (due_world w) = (Ok tt, w2) ∧
    drivable w2 ∧ same_setting w w2 ∧
    Forall2 (λ x x2, driven x x2 ∧ active_from (k + 1) x2) (rows w) (rows w2).
Proof.
  intros Hw Hk Hact. destruct (due_world_run w Hw) as (Hw1 & Hs1 & Hdue). rewrite Forall_lookup in Hact.
  destruct (attempts_run (λ n, i32_wrapping_add n 1) (due_rows w) (due_world w)) as (w2 & Hrun & Hs2 & Hw2 & Hrows);
    [done| | |].
  - eapply NoDup_map_sublist; [apply List_filter_submseteq|]. apply (dr_ids _ Hw1).
  - intros d [Hd Hr]%elem_of_List_filter. split; [done|].
    apply list_elem_of_lookup in Hd as [i Hi]. destruct (Forall2_lookup_r _ _ _ _ _ Hdue Hi) as (x & Hx & Hxd).
    destruct (now_due_id _ _ Hxd) as (_ & _ & _ & -> & Hret & _).
    destruct (Hact i x Hx) as [Ht|[_ Hn]]; [|lia].
    rewrite Hret in Hr. apply retryable_not_terminal in Hr. congruence.
  - exists w2. split_and!; [done|done|by etrans|]. apply Forall2_same_length_lookup. split.
    { rewrite (Forall2_length _ _ _ Hdue). apply (Forall2_length _ _ _ Hrows). }
    intros i x x2 Hx Hx2. destruct (Forall2_lookup_r _ _ _ _ _ Hrows Hx2) as (x1 & Hx1 & Hatt).
    pose proof (Forall2_lookup_lr _ _ _ _ _ _ Hdue Hx Hx1) as Hnow.
    pose proof (in_due_rows w x x1 Hw Hnow (list_elem_of_lookup_2 _ _ _ Hx1)) as Hiff.
    eapply round_row; [by apply (Hact i)|done|done|tauto|tauto].
Qed.

(** Every row is settled, or the loop goes on after a round that settles rows or counts one
    more failure for each. *)
Lemma exhaust_round k w :
  drivable w → 0 ≤ k → Forall (active_from k) (rows w) →
  Forall (λ d, IngestWorld.terminal d = true) (rows w) ∨
  ∃ w1, drivable w1 ∧ same_setting w w1 ∧ Forall2 driven (rows w) (rows w1) ∧
        Forall (active_from (k + 1)) (rows w1) ∧
        ∀ n, IngestWorld.exhaust_rounds powi (S n) w = IngestWorld.exhaust_rounds powi n w1.
Proof.
  intros Hw Hk Hact. destruct (existsb (λ d, negb (IngestWorld.terminal d)) (rows w)) eqn:Hex.
  2: { left. apply Forall_forall. intros d Hd. destruct (IngestWorld.terminal d) eqn:Et; [done|].
       rewrite <- not_true_iff_false in Hex. destruct Hex. apply existsb_exists. exists d.
       split; [by apply list_elem_of_In|by rewrite Et]. }
  right. destruct (round_run k w Hw Hk Hact) as (w2 & Hrun & Hw2 & Hs2 & Hround).
  exists w2. split_and!; [done|done| | |].
  - eapply Forall2_impl; [exact Hround|]. by intros x y [? _].
  - eapply Forall_forall. intros x2 [i Hi]%list_elem_of_lookup.
    by destruct (Forall2_lookup_r _ _ _ _ _ Hround Hi) as (x & _ & _ & ?).
  - intros n. cbn [IngestWorld.exhaust_rounds]. rewrite all_deliveries_run by done. rewrite Hex. cbn [negb].
    rewrite (bind_try_run _ _ _ _ _ (collect_due_run w Hw)).
    rewrite bool_decide_false; [by rewrite (bind_try_run _ _ _ _ _ Hrun)|].
    apply existsb_exists in Hex as (x & Hx%list_elem_of_In & Hnt).
    apply list_elem_of_lookup in Hx as [i Hi]. rewrite Forall_lookup in Hact.
    destruct (Hact i x Hi) as [Ht|[Hr _]]; [by rewrite Ht in Hnt|].
    destruct (due_world_run w Hw) as (_ & _ & Hdue).
    destruct (Forall2_lookup_l _ _ _ _ _ Hdue Hi) as (x1 & Hx1 & Hnow).
    apply (in_due_rows w x x1 Hw Hnow (list_elem_of_lookup_2 _ _ _ Hx1)) in Hr.
    intros Hlen. destruct (due_rows w); [|done]. by apply not_elem_of_nil in Hr.
Qed.

Lemma exhausts m k w :
  drivable w → 0 ≤ k → attempts_left ≤ k + Z.of_nat m → Forall (active_from k) (rows w) →
  ∃ w', (∀ n, (m ≤ n)%nat → IngestWorld.exhaust_rounds powi n w = (Ok tt, w')) ∧
    drivable w' ∧ same_setting w w' ∧ Forall2 driven (rows w) (rows w') ∧
    Forall (λ d, IngestWorld.terminal d = true) (rows w').
Proof.
  assert (∀ m w, drivable w → Forall (λ d, IngestWorld.terminal d = true) (rows w) →
    ∃ w', (∀ n, (m ≤ n)%nat → IngestWorld.exhaust_rounds powi n w = (Ok tt, w')) ∧
      drivable w' ∧ same_setting w w' ∧ Forall2 driven (rows w) (rows w') ∧
      Forall (λ d, IngestWorld.terminal d = true) (rows w')) as Hdone.
  { intros m1 w1 Hw1 Hall. exists w1. split_and!; [intros n _; by apply exhaust_settled|done|done| |done].
    apply Forall_Forall2_diag. eapply Forall_impl; [exact Hall|by apply driven_refl]. }
  revert k w. induction m as [|m IH]; intros k w Hw Hk Hm Hact.
  { apply Hdone; [done|]. eapply Forall_impl; [exact Hact|]. intros d [Hd|[_ Hd]]; [done|lia]. }
  destruct (exhaust_round k w Hw Hk Hact) as [Hall|(w1 & Hw1 & Hs1 & Hd1 & Hact1 & Hrun)]; [by apply Hdone|].
  destruct (IH (k + 1) w1) as (w' & Hrun' & Hw' & Hs' & Hd' & Hall'); [done|lia|lia|done|].
  exists w'. split_and!; [|done|by etrans| |done].
  - intros [|n] Hn; [lia|]. rewrite Hrun. apply Hrun'. lia.
  - eapply Forall2_compose; [apply driven_trans|exact Hd1|exact Hd'].
Qed.

(** *** The other steps keep the rows drivable *)

(** Identifiers are never drawn twice, and those of the rows are drawn already. *)
Definition fresh_ids (w : IngestWorld.t) : Prop :=
  (∀ i j, uuids (IngestWorld.env w) i = uuids (IngestWorld.env w) j → i = j) ∧
  ∀ d, d ∈ rows w → ∃ i, (i < reads (IngestWorld.env w))%nat ∧
    WebhookDelivery.delivery_id d = DeliveryId.mk (uuids (IngestWorld.env w) i).

(** The worlds that scenarios over the emitters [names] reach. *)
Record scenario_world (names : list string) (w : IngestWorld.t) : Prop := mk_scenario_world {
  sw_drivable : drivable w;
  sw_active : Forall (active_from 0) (rows w);
  sw_fresh : fresh_ids w;
  sw_names : ∀ n, n ∈ names → n ∈ dom (IngestWorld.emitters w);
  sw_pipeline : ∃ vs, IngestWorld.pipeline w = IngestWorld.build_pipeline vs names
}.

Lemma fresh_ids_later w w' :
  fresh_ids w → later (IngestWorld.env w) (IngestWorld.env w') →
  map WebhookDelivery.delivery_id (rows w') = map WebhookDelivery.delivery_id (rows w) → fresh_ids w'.
Proof.
  intros [Hinj Hids] [_ Hu Hr] Hrows. split; [intros i j; rewrite Hu; apply Hinj|].
  intros d Hd. assert (WebhookDelivery.delivery_id d ∈ map WebhookDelivery.delivery_id (rows w))
    as (x & Hx & ->)%elem_of_List_map by (rewrite <- Hrows; apply elem_of_List_map; by exists d).
  destruct (Hids x Hx) as (i & Hi & ->). exists i. rewrite Hu. split; [lia|done].
Qed.

(** Steps that drive deliveries. *)
Lemma scenario_world_driven names w w' :
  scenario_world names w → drivable w' → same_setting w w' →
  map WebhookDelivery.delivery_id (rows w') = map WebhookDelivery.delivery_id (rows w) →
  Forall (active_from 0) (rows w') → scenario_world names w'.
Proof.
  intros [Hd Ha Hf Hn Hp] Hd' Hs Hrows Ha'. pose proof Hs as [Sp Sr Sh Se Srec Shl Sl].
  split; [done|done|by eapply fresh_ids_later|by rewrite Se|by rewrite Sp].
Qed.

Lemma exhausted_active w w' :
  Forall2 driven (rows w) (rows w') → Forall (λ d, IngestWorld.terminal d = true) (rows w') →
  Forall (active_from 0) (rows w') ∧
  map WebhookDelivery.delivery_id (rows w') = map WebhookDelivery.delivery_id (rows w).
Proof.
  intros Hd Hall. split; [eapply Forall_impl; [exact Hall|by left]|].
  eapply Forall2_map_eq; [exact Hd|by intros x y []].
Qed.

Lemma completion_row due x x2 :
  active_from 0 x → attempted_in (λ n, n) due x x2 →
  (WebhookDelivery.delivery_id x ∈ map WebhookDelivery.delivery_id due → MemoryStorage.retryable x = true) →
  WebhookDelivery.delivery_id x2 = WebhookDelivery.delivery_id x ∧ active_from 0 x2.
Proof.
  intros Ha Hatt Hout.
  destruct (decide (WebhookDelivery.delivery_id x ∈ map WebhookDelivery.delivery_id due)) as [Hin|Hin].
  - destruct (round_row (λ n, n) 0 due x x x2) as [[Hid _ _ _ _ _] Ha2]; try done.
    + unfold now_due. rewrite Hout by done. exists (WebhookDelivery.next_attempt_at x). by destruct x.
    + split; [done|]. destruct Ha2 as [?|[? ?]]; [by left|right; split; [done|lia]].
  - unfold attempted_in in Hatt. rewrite decide_False in Hatt by done. by subst.
Qed.

Lemma completion_rounds_run names n w :
  scenario_world names w →
  ∃ w', IngestWorld.completion_rounds powi n w = (Ok tt, w') ∧ scenario_world names w'.
Proof.
  revert w. induction n as [|n IH]; intros w Hw; [by exists w|].
  pose proof (sw_drivable _ _ Hw) as Hd. destruct (dr_unpoisoned _ Hd) as [_ Hp].
  cbn [IngestWorld.completion_rounds].
  set (e1 := (utc_now (IngestWorld.env w)).2).
  set (w1 := IngestWorld.set_memory (IngestWorld.memory w, e1) w).
  set (due := List.filter (λ d, MemoryStorage.retryable d &&
    (WebhookDelivery.next_attempt_at d <=? utc (IngestWorld.env w) (reads (IngestWorld.env w)))) (rows w)).
  assert (IngestWorld.on_storage MemoryStorage.pending_deliveries w = (Ok due, w1)) as Hpending.
  { rewrite on_storage_run by done. unfold MemoryStorage.pending_deliveries, bind, MemoryStorage.on_env,
      MemoryStorage.lock_deliveries, lock. cbn. by rewrite Hp. }
  assert (same_setting w w1) as Hs1 by (split; try done; apply (read_env_later utc)).
  assert (drivable w1) as Hd1 by by eapply drivable_memory.
  assert (scenario_world names w1) as Hw1 by (eapply scenario_world_driven; try done; apply Hw).
  rewrite (bind_try_run _ _ _ _ _ Hpending). case_bool_decide as Hlen; [by exists w1|].
  assert (∀ d, d ∈ due → d ∈ rows w ∧ MemoryStorage.retryable d = true) as Hdue.
  { intros d [Hin [Hr _]%andb_prop]%elem_of_List_filter. done. }
  pose proof (sw_active _ _ Hw) as Hact. rewrite Forall_forall in Hact.
  destruct (attempts_run (λ n, n) due w1 Hd1) as (w2 & Hrun & Hs2 & Hd2 & Hrows).
  { eapply NoDup_map_sublist; [apply List_filter_submseteq|]. apply (dr_ids _ Hd). }
  { intros d Hin. destruct (Hdue d Hin) as [Hdw Hr]. split; [done|].
    destruct (Hact d Hdw) as [Ht|[_ ?]]; [|lia]. apply retryable_not_terminal in Hr. congruence. }
  change (rows w1) with (rows w) in Hrows. rewrite (bind_try_run _ _ _ _ _ Hrun). apply IH.
  assert (Forall2 (λ x x2, WebhookDelivery.delivery_id x2 = WebhookDelivery.delivery_id x ∧ active_from 0 x2)
            (rows w) (rows w2)) as Hround.
  { eapply Forall2_impl_in; [exact Hrows|]. intros x x2 Hx Hatt.
    eapply completion_row; [by apply Hact|done|]. intros (y & Hy & Hid)%elem_of_List_map.
    destruct (Hdue y Hy) as [Hyw Hr]. assert (x = y) as ->; [|done].
    by eapply (NoDup_map_inj_on WebhookDelivery.delivery_id); [apply (dr_ids _ Hd)|..]. }
  eapply (scenario_world_driven names w1); [done|done|done| |].
  - eapply Forall2_map_eq; [exact Hround|by intros x y []].
  - eapply Forall_forall. intros x2 [i Hi]%list_elem_of_lookup.
    by destruct (Forall2_lookup_r _ _ _ _ _ Hround Hi) as (x & _ & _ & ?).
Qed.

(** *** Ingesting *)

(** The rows one ingest appends: pending, for the configured emitters, with new identifiers. *)
Definition new_rows (receipt : WebhookReceipt.t) (names : list string) (e e' : Env)
    (new : list WebhookDelivery.t) : Prop :=
  NoDup (map WebhookDelivery.delivery_id new) ∧
  ∀ d, d ∈ new → ∃ n now i, n ∈ names ∧ (reads e ≤ i < reads e')%nat ∧
    d = MemoryStorage.pending_row receipt n now (uuids e i).

Lemma push_rows_new receipt now names ds e :
  (∀ i j, uuids e i = uuids e j → i = j) →
  ∃ new e', MemoryStorage.push_rows receipt now names ds e = (ds ++ new, e') ∧ later e e' ∧
            new_rows receipt names e e' new.
Proof.
  revert ds e. induction names as [|n names IH]; intros ds e Hinj.
  { exists [], e. rewrite app_nil_r. split_and!; [done|done|]. split; [constructor|].
    by intros d ?%not_elem_of_nil. }
  cbn [MemoryStorage.push_rows]. unfold bind, new_uuid, read_env.
  destruct (IH (ds ++ [MemoryStorage.pending_row receipt n now (uuids e (reads e))])
              (mkEnv (utc e) (instants e) (uuids e) (draws e) (S (reads e))) Hinj)
    as (new & e' & -> & [Hu Hi Hl] & Hnd & Hnew). cbn in Hu, Hi, Hl, Hnew.
  eexists (_ :: new), e'. rewrite <- app_assoc. split_and!; [done|split; [done..|lia]|]. split.
  - cbn. apply NoDup_cons. split; [|done]. intros (d & Hd & Hid)%elem_of_List_map.
    destruct (Hnew d Hd) as (? & ? & i & _ & Hle & ->). cbn in Hid. injection Hid as Hid%Hinj. lia.
  - intros d [->|Hd]%elem_of_cons.
    + exists n, now, (reads e). split_and!; [apply elem_of_cons; by left|lia|lia|done].
    + destruct (Hnew d Hd) as (n' & t & i & Hn & Hle & ->). exists n', t, i.
      split_and!; [apply elem_of_cons; by right|lia|lia|done].
Qed.

(** What a storage request of the pipeline does to the storage: it appends receipts, and rows
    for them. *)
Definition grown (names : list string) (i i' : MemoryStorage.World) : Prop :=
  ∃ rs new, i'.1 = MemoryStorage.set_deliveries (content (MemoryStorage.deliveries i.1) ++ new)
                     (MemoryStorage.set_receipts (content (MemoryStorage.receipts i.1) ++ rs) i.1) ∧
    later i.2 i'.2 ∧ NoDup (map WebhookDelivery.delivery_id new) ∧
    ∀ d, d ∈ new → ∃ r n now k, r ∈ rs ∧ n ∈ names ∧ (reads i.2 ≤ k < reads i'.2)%nat ∧
      d = MemoryStorage.pending_row r n now (uuids i.2 k).

Lemma grown_refl names i : grown names i i.
Proof.
  exists [], []. rewrite !app_nil_r. split_and!; [by destruct i as [[[] []] ?]|done|constructor|].
  by intros d ?%not_elem_of_nil.
Qed.

Lemma store_grows receipt names i :
  unpoisoned i.1 → (∀ j k, uuids i.2 j = uuids i.2 k → j = k) →
  grown names i (MemoryStorage.store_with_deliveries receipt names i).2.
Proof.
  intros [Hr Hd] Hinj. unfold MemoryStorage.store_with_deliveries, bind_try, bind, MemoryStorage.store,
    MemoryStorage.lock_receipts, lock. rewrite Hr. cbn.
  destruct (List.find _ _) as [x|]; [apply grown_refl|]. cbn. unfold MemoryStorage.lock_deliveries, lock. cbn.
  rewrite Hd. cbn.
  match goal with |- context [MemoryStorage.push_rows _ ?t _ ?ds ?e] =>
    destruct (push_rows_new receipt t names ds e Hinj) as (new & e' & -> & [Hu Hi Hl] & Hnd & Hnew) end.
  cbn in *. exists [receipt], new. split_and!; [done|split; [done..|cbn in *; lia]|done|].
  intros d Hin. destruct (Hnew d Hin) as (n & t & k & ? & ? & ->).
  exists receipt, n, t, k. cbn in *. split_and!; try lia; [by apply list_elem_of_singleton|done|done].
Qed.

Lemma build_pipeline_Some vs names :
  ∃ verifiers, IngestWorld.build_pipeline vs names =
    Some (HookboxPipeline.mk scenario_storage (scenario_dedupe 100) names verifiers).
Proof.
  unfold IngestWorld.build_pipeline.
  set (b := HookboxPipelineBuilder.with_emitter_names _ _).
  assert (HookboxPipelineBuilder.storage b = Some scenario_storage ∧
          HookboxPipelineBuilder.dedupe b = Some (scenario_dedupe 100) ∧
          HookboxPipelineBuilder.emitter_names b = names) as H by done.
  clearbody b. revert b H. induction vs as [|v vs IH]; intros b H; [|by apply IH].
  destruct H as (Hs & Hd & Hn). cbn. unfold HookboxPipelineBuilder.build. rewrite Hs, Hd, Hn. cbn. eauto.
Qed.

Lemma grown_scenario names w w' e1 :
  scenario_world names w →
  IngestWorld.pipeline w' = IngestWorld.pipeline w → IngestWorld.storage_handle w' = IngestWorld.storage_handle w →
  IngestWorld.emitters w' = IngestWorld.emitters w → later (IngestWorld.env w) e1 →
  grown names (IngestWorld.memory w, e1) (IngestWorld.memory w', IngestWorld.env w') →
  scenario_world names w'.
Proof.
  intros [[Hh [Hpr Hpd] Hids Hre Hem Hc] Ha [Hinj Hf] Hn Hp] Sp Sh Se He1 (rs & new & Hm & He & Hnd & Hnew).
  cbn in Hm, He, Hnd, Hnew.
  assert (later (IngestWorld.env w) (IngestWorld.env w')) as Hl by by etrans.
  assert (rows w' = rows w ++ new) as Hrows by by rewrite Hm.
  assert (stored w' = stored w ++ rs) as Hstored by by rewrite Hm.
  assert (∀ d, d ∈ new → ∃ r n, r ∈ rs ∧ n ∈ names ∧ WebhookReceipt.receipt_id r = WebhookDelivery.receipt_id d ∧
    WebhookDelivery.emitter_name d = n ∧ active_from 0 d ∧
    ∃ k, (reads (IngestWorld.env w) ≤ k < reads (IngestWorld.env w'))%nat ∧
      WebhookDelivery.delivery_id d = DeliveryId.mk (uuids (IngestWorld.env w) k)) as Hrow.
  { intros d Hd. destruct (Hnew d Hd) as (r & n & now & k & Hr & Hn' & Hk & ->). exists r, n.
    rewrite (later_uuids _ _ He1). pose proof (later_reads _ _ He1).
    split_and!; [done..| |exists k; split; [lia|done]]. right. split; [done|]. cbn. lia. }
  split; [split; [congruence|rewrite Hm; by split|..]|..].
  - rewrite Hrows, map_app. apply NoDup_app. split_and!; [done| |done].
    intros x (d & Hd & ->)%elem_of_List_map (d' & Hd' & Heq)%elem_of_List_map.
    destruct (Hf d Hd) as (i & Hi & Hid). destruct (Hrow d' Hd') as (_ & _ & _ & _ & _ & _ & _ & k & Hk & Hid').
    rewrite Hid, Hid' in Heq. injection Heq as Heq%Hinj. lia.
  - intros d. rewrite Hrows, elem_of_app, Hstored. intros [Hd|Hd].
    + destruct (Hre d Hd) as (r & Hr & Hid). exists r. split; [apply elem_of_app; by left|done].
    + destruct (Hrow d Hd) as (r & n & Hr & _ & Hid & _). exists r. split; [apply elem_of_app; by right|done].
  - intros d. rewrite Hrows, elem_of_app, Se. intros [Hd|Hd]; [by apply Hem|].
    destruct (Hrow d Hd) as (_ & n & _ & Hnn & _ & -> & _). by apply Hn.
  - intros i. rewrite (later_utc _ _ Hl). apply Hc.
  - rewrite Hrows. apply Forall_app. split; [done|]. apply Forall_forall. intros d Hd.
    by destruct (Hrow d Hd) as (_ & _ & _ & _ & _ & _ & ? & _).
  - split; rewrite (later_uuids _ _ Hl); [done|]. intros d. rewrite Hrows, elem_of_app. intros [Hd|Hd].
    + destruct (Hf d Hd) as (i & Hi & Hid). exists i. pose proof (later_reads _ _ Hl). split; [lia|done].
    + destruct (Hrow d Hd) as (_ & _ & _ & _ & _ & _ & _ & k & Hk & Hid). exists k. split; [lia|done].
  - by rewrite Se.
  - by rewrite Sp.
Qed.

Section ingest.
Context `{SerdeJson} `{Codecs} `{Crypto}.

Lemma verify_stage_backends (p : HookboxPipeline.t Backends) provider t headers body st :
  (HookboxPipeline.verify_stage p provider t headers body st).2.1 = st.1.
Proof.
  destruct st as [w ms]. pose proof (verify_stage_spec p provider t headers body w ms) as Hv.
  destruct (HookboxPipeline.verify_stage p provider t headers body (w, ms)) as [[[? ?]|?] [? ?]]; apply Hv.
Qed.

Lemma pipeline_grows vf names id t now provider headers body (st : Pipeline.World Backends) :
  unpoisoned st.1.1.1 → (∀ j k, uuids st.1.1.2 j = uuids st.1.1.2 k → j = k) →
  grown names st.1.1 (HookboxPipeline.ingest
    (HookboxPipeline.mk scenario_storage (scenario_dedupe 100) names vf) id t now provider headers body
    st).2.1.1.
Proof.
  destruct st as [[i c] ms]. cbn [fst snd]. intros Hu Hinj. unfold HookboxPipeline.ingest. rewrite !bind_run. cbn [counter fst snd].
  match goal with |- context [HookboxPipeline.verify_stage ?p provider t headers body ?st] =>
    pose proof (verify_stage_backends p provider t headers body st) as Hv;
    destruct (HookboxPipeline.verify_stage p provider t headers body st)
      as [[[status reason]|reason] [w1 ms1]] end; cbn in Hv; subst w1; [|apply grown_refl].
  cbn [fst snd]. unfold bind at 1, call at 1. cbn [fst snd HookboxPipeline.dedupe scenario_dedupe check
    InMemoryRecentDedupe.strategy]. unfold InMemoryRecentDedupe.check.
  assert (∀ decision ms2, grown names i
    ((dd <- counter "hookbox_dedupe_checks_total" [("provider", provider); ("result", dedupe_decision_label decision)] ;;
      HookboxPipeline.store_stage (HookboxPipeline.mk scenario_storage (scenario_dedupe 100) names vf) provider
        (HookboxPipeline.build_receipt id now provider headers body status reason)) ((i, c), ms2)).2.1.1) as Hstore.
  { intros decision ms2. unfold HookboxPipeline.store_stage, bind, call.
    cbn -[MemoryStorage.store_with_deliveries HookboxPipeline.build_receipt InMemoryRecentDedupe.record].
    unfold SharedMemoryStorage.forward. cbn [fst snd].
    match goal with |- context [MemoryStorage.store_with_deliveries ?r ?n ?j] =>
      pose proof (store_grows r n j Hu Hinj) as Hg;
      destruct (MemoryStorage.store_with_deliveries r n j) as [[[|x]|e] i'] end; cbn in Hg |- *; [|exact Hg..].
    destruct (InMemoryRecentDedupe.record _ _ _ c) as [r' c']. exact Hg. }
  destruct (InMemoryRecentDedupe.map c !! _) as [h|]; [destruct (decide _)|]; apply Hstore.
Qed.

(** *** Scenarios *)

(** The steps of the feature files that act on the world. *)
Inductive acting_step : Steps.Step → Prop :=
| act_ingest provider body : acting_step (Steps.when_ingest_webhook provider body)
| act_behavior name behavior : acting_step (IngestWorld.set_emitter_behavior name behavior)
| act_complete : acting_step (Steps.when_all_deliveries_complete powi)
| act_exhaust : acting_step (Steps.when_workers_run_until_exhausted powi).

Lemma ingest_scenario names provider body w w' :
  scenario_world names w → Steps.when_ingest_webhook provider body w = (Ok tt, w') → scenario_world names w'.
Proof.
  intros Hw Hrun. destruct (sw_pipeline _ _ Hw) as (vs & Hp).
  destruct (build_pipeline_Some vs names) as (vf & Hb). rewrite Hb in Hp.
  unfold Steps.when_ingest_webhook in Hrun. unfold bind_try, bind, IngestWorld.ingest in Hrun.
  rewrite Hp in Hrun. unfold bind, new_uuid, utc_now, read_env, ret in Hrun. cbn [fst snd utc reads] in Hrun.
  match type of Hrun with context [HookboxPipeline.ingest ?p ?a ?b ?c ?d ?h ?y ?st] =>
    pose proof (pipeline_grows vf names a b c d h y st (dr_unpoisoned _ (sw_drivable _ _ Hw)) (proj1 (sw_fresh _ _ Hw))) as Hg;
    destruct (HookboxPipeline.ingest p a b c d h y st) as [r [[[m' e'] c'] ms']] end.
  cbn in Hg, Hrun. injection Hrun as _ <-.
  eapply (grown_scenario names w); [exact Hw|done..| |exact Hg]. split; cbn; [done..|lia].
Qed.

Lemma acting_step_scenario names step w w' :
  acting_step step → scenario_world names w → step w = (Ok tt, w') → scenario_world names w'.
Proof.
  intros [provider body|name b| |] Hw Hrun.
  - by eapply ingest_scenario.
  - unfold IngestWorld.set_emitter_behavior in Hrun.
    destruct (IngestWorld.emitters w !! name) as [em|] eqn:Hem; [|done].
    destruct (FakeEmitter.set_behavior b em) as [r em']. injection Hrun as _ <-.
    apply elem_of_dom_2 in Hem. eapply scenario_world_driven; [exact Hw| | |done|apply Hw].
    + eapply drivable_memory; [apply Hw| |done]. split; try done. cbn. rewrite dom_insert_L. set_solver.
    + split; try done. cbn. rewrite dom_insert_L. set_solver.
  - destruct (completion_rounds_run names 50 w Hw) as (w1 & Hrun1 & Hw1).
    unfold Steps.when_all_deliveries_complete, IngestWorld.run_deliveries_to_completion in Hrun. congruence.
  - destruct (exhausts 5 0 w) as (w1 & Hrun1 & Hd1 & Hs1 & Hdr1 & Hall1); [apply Hw|lia|done|apply Hw|].
    unfold Steps.when_workers_run_until_exhausted, IngestWorld.run_until_exhausted in Hrun.
    rewrite Hrun1 in Hrun by lia. injection Hrun as <-.
    destruct (exhausted_active _ _ Hdr1 Hall1) as [Ha Hids]. by eapply scenario_world_driven.
Qed.

Lemma steps_scenario names steps w w' :
  Forall acting_step steps → scenario_world names w → Steps.run_scenario steps w = (Ok tt, w') →
  scenario_world names w'.
Proof.
  intros Hsteps. revert w. induction Hsteps as [|step steps Hstep _ IH]; intros w Hw Hrun.
  { unfold Steps.run_scenario, for_try, ret in Hrun. by injection Hrun as <-. }
  unfold Steps.run_scenario in Hrun. cbn [for_try] in Hrun.
  apply bind_try_inv in Hrun as [(? & _ & ?)|([] & w1 & Hs & Hrun)]; [done|].
  eapply IH; [|exact Hrun]. by eapply acting_step_scenario.
Qed.

Lemma given_scenario csv e :
  (∀ i, utc e i ≤ horizon) → (∀ i j, uuids e i = uuids e j → i = j) →
  scenario_world (Steps.emitter_names_of csv)
    (IngestWorld.build_pipeline_with_emitters (Steps.emitter_names_of csv) (IngestWorld.new e)).
Proof.
  intros Hc Hinj. generalize (Steps.emitter_names_of csv). intros names.
  split; cbn; [split; cbn; try done; [constructor|by intros d ?%not_elem_of_nil..]|constructor| | |].
  - split; [done|]. by intros d ?%not_elem_of_nil.
  - intros n Hn. generalize (∅ : gmap string FakeEmitter.t). induction names as [|m names IH]; intros em.
    { by apply not_elem_of_nil in Hn. }
    cbn. destruct (decide (n ∈ names)) as [Hin|Hout]; [by apply IH|].
    apply elem_of_cons in Hn as [->|?]; [|done]. clear IH.
    assert (∀ em : gmap string FakeEmitter.t, m ∈ dom em →
      m ∈ dom (foldl (λ m0 name, <[name := FakeEmitter.new name EmitterBehavior.Healthy]> m0) em names)) as H2.
    { clear. induction names as [|x names IH]; intros em Hm; [done|]. cbn. apply IH. set_solver. }
    apply H2. set_solver.
  - by exists [PassVerifier "stripe"].
Qed.

(** C40: the delivery loop of the scenarios terminates with every delivery settled: after any
    sequence of ingests, changes of behaviour and runs over the configured emitters, whatever
    the emitters answer, [run_until_exhausted] ends without a panic within [max_attempts]
    rounds (so its budget of 200 never stops it), every row is [Emitted] or [DeadLettered], a
    settled row is left as it was, and a row is dead-lettered only after [max_attempts]
    failures, with the last error. *)
Theorem run_until_exhausted_settles_every_row csv e steps w :
  (∀ i, utc e i ≤ horizon) → (∀ i j, uuids e i = uuids e j → i = j) →
  Forall acting_step steps →
  Steps.run_scenario (Steps.given_pipeline_with_emitters csv :: steps) (IngestWorld.new e) = (Ok tt, w) →
  ∃ w', IngestWorld.run_until_exhausted powi w = (Ok tt, w') ∧
    (∀ rounds, attempts_left ≤ Z.of_nat rounds → IngestWorld.exhaust_rounds powi rounds w = (Ok tt, w')) ∧
    Forall2 driven (rows w) (rows w') ∧
    Forall (λ d, IngestWorld.terminal d = true) (rows w').
Proof.
  intros Hc Hinj Hsteps Hrun. unfold Steps.run_scenario in Hrun. cbn [for_try] in Hrun.
  unfold bind_try at 1, bind at 1, Steps.given_pipeline_with_emitters, Steps.modify in Hrun.
  pose proof (steps_scenario _ _ _ _ Hsteps (given_scenario csv e Hc Hinj) Hrun) as Hw.
  destruct (exhausts 5 0 w) as (w' & Hrun' & _ & _ & Hd & Hall); [apply Hw|lia|done|apply Hw|].
  exists w'. split_and!; [apply Hrun'; lia| |done|done].
  intros n Hn. apply Hrun'. cbn in Hn. lia.
Qed.
End ingest.
End drive.

Lemma default_policy_usable : usable_policy RetryPolicy.default 1000000.
Proof. split_and!; [vm_compute; discriminate..|]. exists 3600. split; [lia|reflexivity]. Qed.

Lemma run_until_exhausted_settles_every_row_witness :
  let w := (Steps.run_scenario [Steps.given_pipeline_with_emitters "ok, broken";
    IngestWorld.set_emitter_behavior "broken" EmitterBehavior.AlwaysFail;
    Steps.when_valid_webhook_ingested] (IngestWorld.new calm_env)).2 in
  ∃ w', IngestWorld.run_until_exhausted powi_iter w = (Ok tt, w') ∧
    map WebhookDelivery.state (rows w') = [DeliveryState.Emitted; DeliveryState.DeadLettered].
Proof.
  intros w.
  destruct (run_until_exhausted_settles_every_row powi_iter 1000000 default_policy_usable "ok, broken" calm_env
    [IngestWorld.set_emitter_behavior "broken" EmitterBehavior.AlwaysFail; Steps.when_valid_webhook_ingested] w)
    as (w' & Hrun & _).
  - intros i. vm_compute. discriminate.
  - intros i j Hij. cbn in Hij. lia.
  - repeat constructor.
  - refine (pair_fst (Steps.run_scenario _ (IngestWorld.new calm_env)) (Ok tt) _). vm_compute. reflexivity.
  - exists w'. split; [exact Hrun|]. rewrite <- (f_equal snd Hrun : _ = w'). vm_compute. reflexivity.
Defined.
