(* ===== verification/Harness.v ===== *)
(** * crates/hookbox-verify: the harnesses of the repository's own verification

    Each Kani proof and each Bolero property is a function of the inputs the tool explores; it
    answers [false] when an assertion, an [expect] or a call in it would panic.  A Kani
    [assume] and the early return of a Bolero closure end the run with [true]. *)

From S2P Require Import Prelude RustStd F64 Types Traits Transitions Dedupe Metrics Pipeline PipelineProps Instances.
Local Open Scope Z_scope.

Definition assume (b k : bool) : bool := if b then k else true.

(** ** kani_proofs.rs *)
Module Kani.
Definition any_state (n : Z) : ProcessingState.t :=
  if n =? 0 then ProcessingState.Received
  else if n =? 1 then ProcessingState.Verified
  else if n =? 2 then ProcessingState.VerificationFailed
  else if n =? 3 then ProcessingState.Duplicate
  else if n =? 4 then ProcessingState.Stored
  else if n =? 5 then ProcessingState.Emitted
  else if n =? 6 then ProcessingState.Processed
  else if n =? 7 then ProcessingState.EmitFailed
  else if n =? 8 then ProcessingState.DeadLettered
  else ProcessingState.Replayed.

Definition processing_state_variants_are_distinct (n : Z) : bool :=
  assume (n <? 10) (
    let serialized :=
      match any_state n with
      | ProcessingState.Received => "received"
      | ProcessingState.Verified => "verified"
      | ProcessingState.VerificationFailed => "verification_failed"
      | ProcessingState.Duplicate => "duplicate"
      | ProcessingState.Stored => "stored"
      | ProcessingState.Emitted => "emitted"
      | ProcessingState.Processed => "processed"
      | ProcessingState.EmitFailed => "emit_failed"
      | ProcessingState.DeadLettered => "dead_lettered"
      | ProcessingState.Replayed => "replayed"
      end in
    negb (String.eqb serialized "")).

(** [while i < states.len() - 1] *)
Fixpoint adjacent_differ (states : list ProcessingState.t) : bool :=
  match states with
  | s :: ((s' :: _) as rest) => negb (bool_decide (s = s')) && adjacent_differ rest
  | _ => true
  end.

Definition happy_path_transition_sequence_is_valid : bool :=
  adjacent_differ [ProcessingState.Received; ProcessingState.Verified; ProcessingState.Stored;
                   ProcessingState.Emitted; ProcessingState.Processed].

Definition stored_is_acceptance_boundary (n : Z) : bool :=
  assume (n <? 10) (
    let state := any_state n in
    let is_post_store :=
      match state with
      | ProcessingState.Emitted | ProcessingState.Processed | ProcessingState.EmitFailed
      | ProcessingState.DeadLettered | ProcessingState.Replayed => true
      | _ => false
      end in
    let is_pre_store :=
      match state with
      | ProcessingState.Received | ProcessingState.Verified | ProcessingState.VerificationFailed
      | ProcessingState.Duplicate | ProcessingState.Stored => true
      | _ => false
      end in
    (is_pre_store || is_post_store) && negb (is_pre_store && is_post_store)).

Definition terminal_states_are_not_delivery_states (n : Z) : bool :=
  assume (n <? 10) (
    let state := any_state n in
    let is_terminal :=
      match state with
      | ProcessingState.VerificationFailed | ProcessingState.Duplicate | ProcessingState.Processed => true
      | _ => false
      end in
    let is_delivery :=
      match state with
      | ProcessingState.Emitted | ProcessingState.EmitFailed | ProcessingState.DeadLettered
      | ProcessingState.Replayed => true
      | _ => false
      end in
    negb (is_terminal && is_delivery)).

Definition retry_next_state_always_valid (emit_count max_attempts : Z) : bool :=
  assume ((0 <=? emit_count) && (emit_count <? i32_max)) (
    assume (1 <=? max_attempts) (
      let '(_, new_state) := retry_next_state emit_count max_attempts in
      match new_state with
      | ProcessingState.DeadLettered | ProcessingState.EmitFailed => true
      | _ => false
      end)).

Definition reset_always_findable (max_attempts : Z) : bool :=
  assume (1 <=? max_attempts) (
    let '(new_count, new_state) := reset_state in
    is_findable_by_worker new_count new_state max_attempts).

Definition any_delivery_state (n : Z) : DeliveryState.t :=
  if n =? 0 then DeliveryState.Pending
  else if n =? 1 then DeliveryState.InFlight
  else if n =? 2 then DeliveryState.Emitted
  else if n =? 3 then DeliveryState.Failed
  else DeliveryState.DeadLettered.

Definition is_state (s s' : DeliveryState.t) : bool := bool_decide (s = s').

Definition proof_aggregate_from_states_total (n1 n2 : Z) : bool :=
  assume (n1 <? 5) (assume (n2 <? 5) (
    let s1 := any_delivery_state n1 in
    let s2 := any_delivery_state n2 in
    let result := aggregate_from_states [s1; s2] ProcessingState.Stored in
    let has_dead := is_state s1 DeliveryState.DeadLettered || is_state s2 DeliveryState.DeadLettered in
    let has_failed := is_state s1 DeliveryState.Failed || is_state s2 DeliveryState.Failed in
    let all_emitted := is_state s1 DeliveryState.Emitted && is_state s2 DeliveryState.Emitted in
    if has_dead then bool_decide (result = ProcessingState.DeadLettered)
    else if has_failed then bool_decide (result = ProcessingState.EmitFailed)
    else if all_emitted then bool_decide (result = ProcessingState.Emitted)
    else bool_decide (result = ProcessingState.Stored))).

(** Every Kani proof of the repository holds, for every value of its inputs. *)
Theorem kani_proofs_hold (n n' : Z) (emit_count max_attempts : Z) :
  processing_state_variants_are_distinct n = true ∧
  happy_path_transition_sequence_is_valid = true ∧
  stored_is_acceptance_boundary n = true ∧
  terminal_states_are_not_delivery_states n = true ∧
  retry_next_state_always_valid emit_count max_attempts = true ∧
  reset_always_findable max_attempts = true ∧
  proof_aggregate_from_states_total n n' = true.
Proof.
  split_and!; unfold processing_state_variants_are_distinct, stored_is_acceptance_boundary,
    terminal_states_are_not_delivery_states, proof_aggregate_from_states_total, assume.
  - destruct (n <? 10); [|done]. by destruct (any_state n).
  - done.
  - destruct (n <? 10); [|done]. by destruct (any_state n).
  - destruct (n <? 10); [|done]. by destruct (any_state n).
  - unfold retry_next_state_always_valid, retry_next_state, assume. do 2 (case_match; [|done]).
    by destruct (max_attempts <=? _).
  - unfold reset_always_findable, is_findable_by_worker, reset_state, assume.
    destruct (Z.leb_spec 1 max_attempts); [|done]. rewrite bool_decide_true by done.
    apply Z.ltb_lt. lia.
  - do 2 (case_match; [|done]). by destruct (any_delivery_state n), (any_delivery_state n').
Qed.
End Kani.

(** ** The Bolero properties

    [u8] inputs are integers; the range is a hypothesis where it matters. *)
Module Bolero.

(** *** retry_props.rs *)
Definition retry_always_reaches_dead_lettered_at_max (emit_count max_attempts : Z) : bool :=
  let max_attempts := Z.max max_attempts 1 in
  let '(new_count, new_state) := retry_next_state emit_count max_attempts in
  (new_count =? emit_count + 1) &&
  (if max_attempts <=? new_count
   then bool_decide (new_state = ProcessingState.DeadLettered)
   else bool_decide (new_state = ProcessingState.EmitFailed)).

Definition reset_is_always_findable_by_worker (max_attempts : Z) : bool :=
  let max_attempts := Z.max max_attempts 1 in
  let '(new_count, new_state) := reset_state in
  is_findable_by_worker new_count new_state max_attempts.

Definition dead_lettered_is_never_findable_by_worker (count max_attempts : Z) : bool :=
  let max_attempts := Z.max max_attempts 1 in
  negb (is_findable_by_worker count ProcessingState.DeadLettered max_attempts).

(** *** metrics_props.rs *)
Definition verification_label_is_never_empty (n : Z) : bool :=
  let status :=
    if n `mod` 3 =? 0 then VerificationStatus.Verified
    else if n `mod` 3 =? 1 then VerificationStatus.Failed
    else VerificationStatus.Skipped in
  let label := verification_status_label status in
  negb (String.eqb label "") && bool_decide (label ∈ ["verified"; "failed"; "skipped"]).

Definition dedupe_label_is_never_empty (n : Z) : bool :=
  let decision :=
    if n `mod` 3 =? 0 then DedupeDecision.New
    else if n `mod` 3 =? 1 then DedupeDecision.Duplicate
    else DedupeDecision.Conflict in
  let label := dedupe_decision_label decision in
  negb (String.eqb label "") && bool_decide (label ∈ ["new"; "duplicate"; "conflict"]).

Definition ingest_result_labels_are_all_non_empty : bool :=
  forallb (λ label, negb (String.eqb label "")) INGEST_RESULT_LABELS.

(** *** dedupe_props.rs *)
Section dedupe.
Import InMemoryRecentDedupe.

(** [InMemoryRecentDedupe::new(capacity)], the [record]s, and a [check]. *)
Fixpoint record_keys (capacity : nat) (pairs : list (string * string)) (i : Inner) : option Inner :=
  match pairs with
  | [] => Some i
  | (k, h) :: pairs' =>
      match record capacity k h i with
      | (Ok _, i') => record_keys capacity pairs' i'
      | (Err _, _) => None
      end
  end.

Definition check_after (capacity : nat) (pairs : list (string * string)) (key hash : string)
    (expected : DedupeDecision.t) : bool :=
  match new capacity ≫= λ c, record_keys capacity pairs (inner c) with
  | Some i => match (check key hash i).1 with
              | Ok decision => bool_decide (decision = expected)
              | Err _ => false
              end
  | None => false
  end.

Definition after_record_check_returns_duplicate (key hash : string) : bool :=
  check_after 64 [(key, hash)] key hash DedupeDecision.Duplicate.

Definition after_record_check_different_hash_returns_conflict (key hash1 hash2 : string) : bool :=
  if bool_decide (hash1 = hash2) then true
  else check_after 64 [(key, hash1)] key hash2 DedupeDecision.Conflict.

Definition check_on_never_recorded_key_returns_new (key hash : string) : bool :=
  check_after 64 [] key hash DedupeDecision.New.

(** The five keys, the first of which must have left the cache of four. *)
Definition capacity_respected_first_key_evicted (k0 k1 k2 k3 k4 : string) : bool :=
  let keys := [k0; k1; k2; k3; k4] in
  if bool_decide (List.length (remove_dups keys) < 5)%nat then true
  else check_after 4 (List.map (λ k, (k, "hash")) keys) k0 "hash" DedupeDecision.New.
End dedupe.

(** *** state_props.rs *)
Section state.
Context `{SerdeJson}.

(** [serde_json::to_string], then [from_str], of a unit variant: its name as a JSON string. *)
Definition serde_round_trips {T} `{EqDecision T} (all : list T) (serde_name : T → string) (variant : T) : bool :=
  let serialized := json_of_str (serde_name variant) in
  match json_to_str serialized ≫= (λ n, List.find (λ v, bool_decide (serde_name v = n)) all) with
  | Some deserialized => bool_decide (variant = deserialized)
  | None => false
  end.

Definition processing_state_round_trips_through_serde : bool :=
  forallb (serde_round_trips ProcessingState.all ProcessingState.serde_name)
    [ProcessingState.Received; ProcessingState.Verified; ProcessingState.VerificationFailed;
     ProcessingState.Duplicate; ProcessingState.Stored; ProcessingState.Emitted;
     ProcessingState.Processed; ProcessingState.EmitFailed; ProcessingState.DeadLettered;
     ProcessingState.Replayed].

Definition verification_status_round_trips_through_serde : bool :=
  forallb (serde_round_trips VerificationStatus.all VerificationStatus.serde_name)
    [VerificationStatus.Verified; VerificationStatus.Failed; VerificationStatus.Skipped].
End state.

(** *** hash_props.rs and provider_props.rs *)
Section hash.
Context `{Codecs} `{Crypto}.

Definition hash_is_deterministic (input : bytes) : bool :=
  String.eqb (compute_payload_hash input) (compute_payload_hash input).

Definition is_ascii_hexdigit (a : ascii) : bool :=
  let n := Z.of_nat (nat_of_ascii a) in
  is_hex_char a || ((65 <=? n) && (n <=? 70)).

Definition hash_output_is_64_hex_characters (input : bytes) : bool :=
  let hash := compute_payload_hash input in
  (String.length hash =? 64)%nat && chars_all is_ascii_hexdigit hash.

Definition base64_hmac_always_valid (body : bytes) : bool :=
  let sig := hmac_sha256 (as_bytes "key") body in
  match base64_decode (base64_encode sig) with
  | Some decoded => bool_decide (decoded = sig)
  | None => false
  end.
End hash.

(** *** backoff_props.rs *)
Section backoff.
Variable powi : f64 → Z → f64.

(** [(f64::from(multiplier_x10.max(10)) / 10.0).min(4.0)] *)
Definition bounded_policy (initial_secs max_secs_delta multiplier_x10 max_attempts : Z) : RetryPolicy.t :=
  let initial := Duration_from_secs (Z.max initial_secs 1) in
  let max := initial + Duration_from_secs max_secs_delta in
  {| RetryPolicy.max_attempts := Z.max max_attempts 1;
     RetryPolicy.initial_backoff := initial;
     RetryPolicy.max_backoff := max;
     RetryPolicy.backoff_multiplier := f64_min (f64_of_Z (Z.max multiplier_x10 10) / 10)%float 4;
     RetryPolicy.jitter := 0%float |}.

Definition prop_backoff_first_failure_is_initial_under_no_jitter (rand : f64) (i d m a : Z) : bool :=
  let p := bounded_policy i d m a in
  match compute_backoff powi rand 1 p with
  | Some got => got =? RetryPolicy.initial_backoff p
  | None => false
  end.

Definition prop_backoff_within_max_backoff (rand : f64) (i d m a attempt_raw : Z) : bool :=
  let p := bounded_policy i d m a in
  let attempt := Z.max attempt_raw 1 in
  match compute_backoff powi rand attempt p with
  | Some got => got <=? RetryPolicy.max_backoff p
  | None => false
  end.
End backoff.

(** *** They hold *)
Section hold.
Context `{SerdeJson} `{Codecs} `{Crypto}.
Variable powi : f64 → Z → f64.

Definition u8 (n : Z) : Prop := 0 ≤ n ≤ 255.

(** A cache after distinct keys is the list of the last of them. *)
Lemma check_after_window capacity pairs key hash expected :
  (0 < capacity)%nat → NoDup (List.map fst pairs) →
  InMemoryRecentDedupe.spec_check key hash (drop (List.length pairs - capacity) pairs) = expected →
  check_after capacity pairs key hash expected = true.
Proof.
  intros Hc Hnd <-. unfold check_after, InMemoryRecentDedupe.new. rewrite decide_True by done.
  assert (∀ i, record_keys capacity pairs i = Some (InMemoryRecentDedupe.record_all capacity pairs i)) as Hrec.
  { clear. induction pairs as [|[k h] pairs IH]; intros i; [done|]. cbn -[InMemoryRecentDedupe.record].
    rewrite <- IH. unfold InMemoryRecentDedupe.record.
    by destruct (InMemoryRecentDedupe.map i !! k). }
  cbn [mbind option_bind InMemoryRecentDedupe.inner]. rewrite Hrec.
  rewrite (InMemoryRecentDedupe.check_refines _ _ _ _ (InMemoryRecentDedupe.record_all_refines _ _ Hc Hnd)).
  by apply bool_decide_eq_true.
Qed.

Lemma first_key_evicted k0 k1 k2 k3 k4 :
  capacity_respected_first_key_evicted k0 k1 k2 k3 k4 = true.
Proof.
  unfold capacity_respected_first_key_evicted. case_bool_decide as Hlen; [done|].
  assert (NoDup [k0; k1; k2; k3; k4]) as Hnd.
  { assert (remove_dups [k0; k1; k2; k3; k4] ⊆+ [k0; k1; k2; k3; k4]) as Hsub
      by (apply NoDup_submseteq; [apply NoDup_remove_dups|intros x; by rewrite elem_of_remove_dups]).
    apply submseteq_length_Permutation in Hsub as <-; [apply NoDup_remove_dups|cbn in *; lia]. }
  apply check_after_window; [lia|done|].
  unfold InMemoryRecentDedupe.spec_check. cbn. do 4 (apply NoDup_cons in Hnd as [? Hnd]).
  repeat (rewrite decide_False by set_solver). done.
Qed.

Lemma backoff_of_bounded_policy rand i d m a attempt :
  u8 i → u8 d →
  prop_backoff_within_max_backoff powi rand i d m a attempt = true.
Proof.
  intros Hi Hd. unfold prop_backoff_within_max_backoff.
  destruct (compute_backoff_in_cap powi rand (Z.max attempt 1) (bounded_policy i d m a) (Z.max i 1 + d))
    as (got & -> & _ & Hle); unfold u8 in *; [cbn; unfold Duration_from_secs; lia|lia| |].
  - cbn. unfold Duration_from_secs, nanos_per_sec. lia.
  - apply Z.leb_le, Hle. lia.
Qed.

(** The Bolero properties of the repository hold for every input, not only the sampled
    ones, except the two that ask for more than the code's libraries promise (no collision of
    SHA-256, a monotone [powi]); the first retry needs [powi(m, 0) = 1]. *)
Theorem bolero_properties_hold (n m d a attempt : Z) (rand : f64) (k0 k1 k2 k3 k4 h1 h2 : string) (body : bytes) :
  u8 n → u8 m → u8 d → u8 a → u8 attempt →
  powi (RetryPolicy.backoff_multiplier (bounded_policy n d m a)) 0 = 1%float →
  retry_always_reaches_dead_lettered_at_max n m = true ∧
  reset_is_always_findable_by_worker m = true ∧
  dead_lettered_is_never_findable_by_worker n m = true ∧
  verification_label_is_never_empty n = true ∧ dedupe_label_is_never_empty n = true ∧
  ingest_result_labels_are_all_non_empty = true ∧
  after_record_check_returns_duplicate k0 h1 = true ∧
  after_record_check_different_hash_returns_conflict k0 h1 h2 = true ∧
  check_on_never_recorded_key_returns_new k0 h1 = true ∧
  capacity_respected_first_key_evicted k0 k1 k2 k3 k4 = true ∧
  processing_state_round_trips_through_serde = true ∧
  verification_status_round_trips_through_serde = true ∧
  hash_is_deterministic body = true ∧ hash_output_is_64_hex_characters body = true ∧
  base64_hmac_always_valid body = true ∧
  prop_backoff_first_failure_is_initial_under_no_jitter powi rand n d m a = true ∧
  prop_backoff_within_max_backoff powi rand n d m a attempt = true.
Proof.
  intros Hn Hm Hd Ha Hat Hpowi. unfold u8 in *.
  split_and!.
  - unfold retry_always_reaches_dead_lettered_at_max, retry_next_state.
    rewrite i32_saturating_add_exact by (unfold in_i32, i32_min, i32_max; lia).
    rewrite Z.eqb_refl. by destruct (Z.max m 1 <=? n + 1).
  - unfold reset_is_always_findable_by_worker, reset_state, is_findable_by_worker.
    rewrite bool_decide_true by done. apply Z.ltb_lt. lia.
  - done.
  - unfold verification_label_is_never_empty. by repeat (destruct (_ =? _); [done|]).
  - unfold dedupe_label_is_never_empty. by repeat (destruct (_ =? _); [done|]).
  - done.
  - apply check_after_window; [lia|apply NoDup_singleton|]. unfold InMemoryRecentDedupe.spec_check. cbn.
    by rewrite !decide_True.
  - unfold after_record_check_different_hash_returns_conflict. case_bool_decide as Hh; [done|].
    apply check_after_window; [lia|apply NoDup_singleton|]. unfold InMemoryRecentDedupe.spec_check. cbn.
    by rewrite decide_True, decide_False.
  - apply check_after_window; [lia|constructor|done].
  - apply first_key_evicted.
  - cbn. unfold serde_round_trips. cbn [ProcessingState.serde_name].
    by rewrite !json_of_plain, !json_to_plain.
  - cbn. unfold serde_round_trips. cbn [VerificationStatus.serde_name].
    by rewrite !json_of_plain, !json_to_plain.
  - unfold hash_is_deterministic. apply String.eqb_refl.
  - unfold hash_output_is_64_hex_characters. rewrite payload_hash_length. cbn [Nat.eqb andb].
    unfold compute_payload_hash. generalize (hex_encode_chars (sha256 body)).
    generalize (hex_encode (sha256 body)). intros s. induction s as [|c s IH]; [done|]. cbn [chars_all].
    intros [Hc Hs]%andb_prop. rewrite (IH Hs), andb_true_r. unfold is_ascii_hexdigit. by rewrite Hc.
  - unfold base64_hmac_always_valid. rewrite base64_decode_encode. by apply bool_decide_eq_true.
  - unfold prop_backoff_first_failure_is_initial_under_no_jitter.
    rewrite (compute_backoff_first_attempt powi rand (bounded_policy n d m a) (Z.max n 1) (Z.max n 1 + d));
      [|done|lia|cbn; unfold Duration_from_secs, nanos_per_sec; lia|lia|done|exact Hpowi].
    apply Z.eqb_eq. cbn. unfold Duration_from_secs, nanos_per_sec. lia.
  - apply backoff_of_bounded_policy; unfold u8; lia.
Qed.
End hold.

Lemma bolero_properties_hold_witness :
  capacity_respected_first_key_evicted "a" "b" "c" "d" "e" = true ∧
  prop_backoff_first_failure_is_initial_under_no_jitter powi_iter 0.5%float 30 90 25 5 = true.
Proof.
  destruct (bolero_properties_hold powi_iter 30 25 90 5 3 0.5%float "a" "b" "c" "d" "e" "1" "2" [])
    as (_ & _ & _ & _ & _ & _ & _ & _ & _ & H1 & _ & _ & _ & _ & _ & H2 & _); [unfold u8; lia..|reflexivity|].
  split; [exact H1|exact H2].
Defined.
End Bolero.
