(* ===== verification/Json.v ===== *)
(** * The JSON of the API

    What [#[derive(Serialize)]] gives for the types the handlers answer with
    ([crates/hookbox/src/{state,types}.rs], [crates/hookbox-server/src/routes/health.rs]):
    one member per field, in order; [Option] is the value or [null]; an identifier is its
    hyphenated text, a byte string its base64, an enum the name of its variant. *)

From S2P Require Import Prelude RustStd F64 Types Traits Worker.
From stdpp Require Import pretty.
Local Open Scope Z_scope.

(** [chrono]: the RFC 3339 text of an instant. *)
Class ChronoText : Type := { rfc3339 : DateTime → string }.

(** [serde_json::Map::get]. *)
Fixpoint map_get (k : string) (m : list (string * Value)) : option Value :=
  match m with
  | [] => None
  | (k', v) :: m' => if decide (k = k') then Some v else map_get k m'
  end.

Definition value_get (k : string) (v : Value) : option Value :=
  match v with VObject m => map_get k m | _ => None end.

Lemma map_get_insert k k' v m :
  map_get k (map_insert k' v m) = if decide (k = k') then Some v else map_get k m.
Proof.
  induction m as [|[k1 v1] m IH]; cbn; [done|].
  destruct (decide (k' = k1)) as [<-|Hne]; cbn; [by repeat case_decide|].
  rewrite IH. repeat case_decide; naive_solver.
Qed.

(** A [BTreeMap] iterates in the order of its keys. *)
Definition key_before {A} (x y : string * A) : Prop := Is_true (str_leb x.1 y.1).

#[export] Instance key_before_dec {A} : RelDecision (@key_before A) := λ x y, _.

Definition btree_iter {A} (m : gmap string A) : list (string * A) :=
  merge_sort key_before (map_to_list m).

Lemma elem_of_btree_iter {A} (m : gmap string A) k a : (k, a) ∈ btree_iter m ↔ m !! k = Some a.
Proof. unfold btree_iter. rewrite merge_sort_Permutation. apply elem_of_map_to_list. Qed.

Section to_value.
Context `{Codecs} `{UuidText} `{ChronoText}.

Definition opt_value {A} (f : A → Value) (o : option A) : Value :=
  match o with Some a => f a | None => VNull end.
Definition int_value (n : Z) : Value := VNumber (pretty n).
Definition uuid_value (u : Uuid) : Value := VString (uuid_to_string u).
Definition time_value (t : DateTime) : Value := VString (rfc3339 t).

(** The module [serde_bytes_base64]. *)
Definition serde_bytes_base64_serialize (b : bytes) : Value := VString (base64_encode b).
Definition serde_bytes_base64_deserialize (v : Value) : option bytes :=
  match v with VString s => base64_decode s | _ => None end.

Definition receipt_value (r : WebhookReceipt.t) : Value :=
  VObject
    [("receipt_id", uuid_value (ReceiptId.uuid (WebhookReceipt.receipt_id r)));
     ("provider_name", VString (WebhookReceipt.provider_name r));
     ("provider_event_id", opt_value VString (WebhookReceipt.provider_event_id r));
     ("external_reference", opt_value VString (WebhookReceipt.external_reference r));
     ("dedupe_key", VString (WebhookReceipt.dedupe_key r));
     ("payload_hash", VString (WebhookReceipt.payload_hash r));
     ("raw_body", serde_bytes_base64_serialize (WebhookReceipt.raw_body r));
     ("parsed_payload", opt_value id (WebhookReceipt.parsed_payload r));
     ("raw_headers", WebhookReceipt.raw_headers r);
     ("normalized_event_type", opt_value VString (WebhookReceipt.normalized_event_type r));
     ("verification_status",
       VString (VerificationStatus.serde_name (WebhookReceipt.verification_status r)));
     ("verification_reason", opt_value VString (WebhookReceipt.verification_reason r));
     ("processing_state", VString (ProcessingState.serde_name (WebhookReceipt.processing_state r)));
     ("emit_count", int_value (WebhookReceipt.emit_count r));
     ("last_error", opt_value VString (WebhookReceipt.last_error r));
     ("received_at", time_value (WebhookReceipt.received_at r));
     ("processed_at", opt_value time_value (WebhookReceipt.processed_at r));
     ("metadata", WebhookReceipt.metadata r)].

Definition delivery_value (d : WebhookDelivery.t) : Value :=
  VObject
    [("delivery_id", uuid_value (DeliveryId.uuid (WebhookDelivery.delivery_id d)));
     ("receipt_id", uuid_value (ReceiptId.uuid (WebhookDelivery.receipt_id d)));
     ("emitter_name", VString (WebhookDelivery.emitter_name d));
     ("state", VString (DeliveryState.serde_name (WebhookDelivery.state d)));
     ("attempt_count", int_value (WebhookDelivery.attempt_count d));
     ("last_error", opt_value VString (WebhookDelivery.last_error d));
     ("last_attempt_at", opt_value time_value (WebhookDelivery.last_attempt_at d));
     ("next_attempt_at", time_value (WebhookDelivery.next_attempt_at d));
     ("emitted_at", opt_value time_value (WebhookDelivery.emitted_at d));
     ("immutable", VBool (WebhookDelivery.immutable d));
     ("created_at", time_value (WebhookDelivery.created_at d))].

Definition health_status_name (s : HealthStatus.t) : string :=
  match s with
  | HealthStatus.Healthy => "healthy"
  | HealthStatus.Degraded => "degraded"
  | HealthStatus.Unhealthy => "unhealthy"
  end.

(** The map of the latest delivery states. *)
Definition summary_value (m : gmap string DeliveryState.t) : Value :=
  VObject (List.map (λ p, (p.1, VString (DeliveryState.serde_name p.2))) (btree_iter m)).
End to_value.

(** The body of a stored receipt can be recovered from its JSON. *)
Lemma base64_body_round_trip `{Codecs} b :
  serde_bytes_base64_deserialize (serde_bytes_base64_serialize b) = Some b.
Proof. apply base64_decode_encode. Qed.
