(* ===== verification/Emitters.v ===== *)
(** * The broker adapters and crates/hookbox-server/src/emitter_factory.rs

    [KafkaEmitter], [NatsEmitter], [RedisEmitter], [SqsEmitter] and [ChannelEmitter], over the
    client libraries they wrap, which are type classes here: a client call is a computation
    over the world [W] of the broker, an error is its [Display] text (its [Debug] text for SQS), and a call under
    [tokio::time::timeout] answers [None] when the time is up. *)

From S2P Require Import Prelude RustStd F64 Types Traits Config Worker Json.
From stdpp Require Import pretty.
Local Open Scope Z_scope.
Local Open Scope rust_scope.

(** [serde_json::to_string] of a value. *)
Class JsonText : Type := { json_text : Value → string }.

(** [rdkafka]: a producer made from its settings, and a send (topic, key, payload, timeout). *)
Class Rdkafka (W : Type) : Type := {
  kafka_producer : Type;
  kafka_create : list (string * string) → result kafka_producer string;
  kafka_send : kafka_producer → string → string → bytes → Duration → M W (result unit string)
}.

(** [async_nats] *)
Class AsyncNats (W : Type) : Type := {
  nats_client : Type;
  nats_connect : string → M W (result nats_client string);
  nats_publish : nats_client → string → bytes → M W (result unit string)
}.

(** [redis]: opening an address, connecting within a time, and [XADD] (stream, approximate
    length, entry id, fields) within a time. *)
Class RedisClient (W : Type) : Type := {
  redis_client : Type;
  redis_conn : Type;
  redis_open : string → result redis_client string;
  redis_connect : redis_client → Duration → M W (option (result redis_conn string));
  redis_xadd : redis_conn → string → option Z → string → list (string * string) → Duration →
               M W (option (result unit string))
}.

(** [aws_sdk_sqs]: a client for a region and an endpoint, and a send (queue, body, the group
    and deduplication ids of a FIFO queue) within a time. *)
Class AwsSqs (W : Type) : Type := {
  sqs_client : Type;
  sqs_load : option string → option string → M W sqs_client;
  sqs_send : sqs_client → string → string → option (string * string) → Duration →
             M W (option (result unit string))
}.

(** [tokio::sync::mpsc]: [send] completes when there is room, or fails once the receiver is
    gone; [recv] answers an event, [Some None] when the channel is closed and empty, or [None]
    when it would wait. *)
Class Mpsc (W : Type) : Type := {
  mpsc_sender : Type;
  mpsc_receiver : Type;
  mpsc_channel : Z → M W (mpsc_sender * mpsc_receiver);
  mpsc_send : mpsc_sender → NormalizedEvent.t → M W (result unit string);
  mpsc_recv : mpsc_receiver → M W (option (option NormalizedEvent.t))
}.

Definition Duration_from_millis (ms : Z) : Duration := ms * 1000000.
Definition Duration_as_millis (d : Duration) : Z := d / 1000000.

(** [str::contains] *)
Definition str_contains (sub s : string) : bool :=
  match String.index 0 sub s with Some _ => true | None => false end.

Section event.
Context `{UuidText} `{ChronoText}.

(** [#[derive(Serialize)]] of [NormalizedEvent]. *)
Definition event_value (e : NormalizedEvent.t) : Value :=
  VObject
    [("receipt_id", uuid_value (ReceiptId.uuid (NormalizedEvent.receipt_id e)));
     ("provider_name", VString (NormalizedEvent.provider_name e));
     ("event_type", opt_value VString (NormalizedEvent.event_type e));
     ("external_reference", opt_value VString (NormalizedEvent.external_reference e));
     ("parsed_payload", opt_value id (NormalizedEvent.parsed_payload e));
     ("payload_hash", VString (NormalizedEvent.payload_hash e));
     ("received_at", time_value (NormalizedEvent.received_at e));
     ("metadata", NormalizedEvent.metadata e)].

Definition event_key (e : NormalizedEvent.t) : string :=
  uuid_to_string (ReceiptId.uuid (NormalizedEvent.receipt_id e)).
End event.

Module KafkaEmitter.
Section kafka.
Context {W : Type} `{Rdkafka W} `{UuidText} `{ChronoText} `{JsonText}.

Record t : Type := mk { producer : kafka_producer; topic : string; timeout : Duration }.

Definition new (brokers topic client_id acks : string) (timeout_ms : Z) : result t EmitError.t :=
  match kafka_create [("bootstrap.servers", brokers); ("client.id", client_id); ("acks", acks);
                      ("delivery.timeout.ms", pretty timeout_ms)] with
  | Err e => Err (EmitError.Downstream e)
  | Ok producer => Ok (mk producer topic (Duration_from_millis timeout_ms))
  end.

Definition emit (self : t) (event : NormalizedEvent.t) : M W (result unit EmitError.t) :=
  let payload := as_bytes (json_text (event_value event)) in
  sent <- kafka_send (producer self) (topic self) (event_key event) payload (timeout self) ;;
  ret (map_err (λ e,
    let msg := "kafka send failed: " +:+ e in
    if str_contains "timed out" e || str_contains "Timed out" e
    then EmitError.Timeout msg else EmitError.Downstream msg) sent).
End kafka.
End KafkaEmitter.

Module NatsEmitter.
Section nats.
Context {W : Type} `{AsyncNats W} `{UuidText} `{ChronoText} `{JsonText}.

Record t : Type := mk { client : nats_client; subject : string }.

Definition new (url subject : string) : M W (result t EmitError.t) :=
  connected <- nats_connect url ;;
  ret (match connected with
       | Err e => Err (EmitError.Downstream e)
       | Ok client => Ok (mk client subject)
       end).

Definition emit (self : t) (event : NormalizedEvent.t) : M W (result unit EmitError.t) :=
  published <- nats_publish (client self) (subject self) (as_bytes (json_text (event_value event))) ;;
  ret (map_err EmitError.Downstream published).
End nats.
End NatsEmitter.

Module RedisEmitter.
Section redis.
Context {W : Type} `{RedisClient W} `{UuidText} `{ChronoText} `{JsonText}.

Record t : Type := mk {
  conn : redis_conn; stream : string; maxlen : option Z; timeout : Duration
}.

Definition new (url stream : string) (maxlen : option Z) (timeout_ms : Z) :
    M W (result t EmitError.t) :=
  let timeout := Duration_from_millis timeout_ms in
  match redis_open url with
  | Err e => ret (Err (EmitError.Downstream e))
  | Ok client =>
      connected <- redis_connect client timeout ;;
      ret (match connected with
           | Some (Ok conn) => Ok (mk conn stream maxlen timeout)
           | Some (Err e) => Err (EmitError.Downstream e)
           | None => Err (EmitError.Timeout
               ("redis connect timed out after " +:+ pretty (Duration_as_millis timeout) +:+ "ms"))
           end)
  end.

Definition emit (self : t) (event : NormalizedEvent.t) : M W (result unit EmitError.t) :=
  let payload := json_text (event_value event) in
  added <- redis_xadd (conn self) (stream self) (maxlen self) "*" [("data", payload)] (timeout self) ;;
  ret (match added with
       | Some (Ok tt) => Ok tt
       | Some (Err e) => Err (EmitError.Downstream ("redis xadd failed: " +:+ e))
       | None => Err (EmitError.Timeout
           ("redis xadd timed out after " +:+ pretty (Duration_as_millis (timeout self)) +:+ "ms"))
       end).
End redis.
End RedisEmitter.

Module SqsEmitter.
Definition SQS_TIMEOUT : Duration := Duration_from_secs 10.

Section sqs.
Context {W : Type} `{AwsSqs W} `{UuidText} `{ChronoText} `{JsonText}.

Record t : Type := mk { client : sqs_client; queue_url : string; fifo : bool }.

Definition new (queue_url : string) (region : option string) (fifo : bool)
    (endpoint_url : option string) : M W (result t EmitError.t) :=
  client <- sqs_load region endpoint_url ;;
  ret (Ok (mk client queue_url fifo)).

Definition with_client (client : sqs_client) (queue_url : string) (fifo : bool) : t :=
  mk client queue_url fifo.

Definition emit (self : t) (event : NormalizedEvent.t) : M W (result unit EmitError.t) :=
  let json := json_text (event_value event) in
  let ids := if fifo self then Some (NormalizedEvent.provider_name event, event_key event) else None in
  sent <- sqs_send (client self) (queue_url self) json ids SQS_TIMEOUT ;;
  ret (match sent with
       | Some (Ok tt) => Ok tt
       | Some (Err e) => Err (EmitError.Downstream ("sqs send failed: " +:+ e))
       | None => Err (EmitError.Timeout "sqs send timed out after 10s")
       end).
End sqs.
End SqsEmitter.

(** ** emitter.rs *)

Module ChannelEmitter.
Section channel.
Context {W : Type} `{Mpsc W}.

Record t : Type := mk { sender : mpsc_sender }.

(** [None]: a buffer of 0 panics. *)
Definition new (buffer : Z) : option (M W (t * mpsc_receiver)) :=
  if decide (0 < buffer)
  then Some ('(sender, receiver) <- mpsc_channel buffer ;; ret (mk sender, receiver))
  else None.

Definition emit (self : t) (event : NormalizedEvent.t) : M W (result unit EmitError.t) :=
  sent <- mpsc_send (sender self) event ;;
  ret (map_err EmitError.Downstream sent).
End channel.
End ChannelEmitter.

Module CallbackEmitter.
Record t (W : Type) : Type := mk { handler : NormalizedEvent.t → M W (result unit EmitError.t) }.
Arguments mk {W}. Arguments handler {W}.

Definition new {W} (handler : NormalizedEvent.t → M W (result unit EmitError.t)) : t W := mk handler.

Definition emit {W} (self : t W) (event : NormalizedEvent.t) : M W (result unit EmitError.t) :=
  handler self event.
End CallbackEmitter.

(** [impl Emitter for Box<T>] and [impl Emitter for Arc<T>]: a pointer to an emitter emits as the
    emitter does. *)
Definition box_emitter {W} (inner : Emitter W) : Emitter W := mkEmitter W (λ event, Traits.emit inner event).
Definition arc_emitter {W} (inner : Emitter W) : Emitter W := mkEmitter W (λ event, Traits.emit inner event).

(** ** emitter_factory.rs *)

(** An [anyhow::Error]: its message under the contexts it was given, the outermost first. *)
Definition AnyhowError : Type := list string.
Definition anyhow (msg : string) : AnyhowError := [msg].
Definition context {A} (ctx : string) (r : result A AnyhowError) : result A AnyhowError :=
  map_err (cons ctx) r.

Section factory.
Context {W : Type} `{Rdkafka W} `{AsyncNats W} `{RedisClient W} `{AwsSqs W} `{Mpsc W}
  `{UuidText} `{ChronoText} `{JsonText}.

Inductive BuiltEmitter : Type :=
| Ready (emitter : Emitter W)
| Channel (emitter : Emitter W) (rx : mpsc_receiver).

(** [.context("failed to create ... emitter")?] *)
Definition created {T} (what : string) (emit : T → NormalizedEvent.t → M W (result unit EmitError.t))
    (r : result T EmitError.t) : result BuiltEmitter AnyhowError :=
  match r with
  | Ok emitter => Ok (Ready (mkEmitter W (emit emitter)))
  | Err e => context ("failed to create " +:+ what +:+ " emitter") (Err (anyhow (EmitError.to_string e)))
  end.

Definition section_required (ty : string) : AnyhowError :=
  anyhow ("[emitter." +:+ ty +:+ "] section required when type = " +:+ quote +:+ ty +:+ quote).

Definition build_emitter (cfg : EmitterConfig.t) : M W (result BuiltEmitter AnyhowError) :=
  let ty := EmitterConfig.emitter_type cfg in
  if decide (ty = "kafka") then
    match EmitterConfig.kafka cfg with
    | None => ret (Err (section_required "kafka"))
    | Some kafka =>
        ret (created "Kafka" KafkaEmitter.emit
          (KafkaEmitter.new (KafkaEmitterConfig.brokers kafka) (KafkaEmitterConfig.topic kafka)
            (KafkaEmitterConfig.client_id kafka) (KafkaEmitterConfig.acks kafka)
            (KafkaEmitterConfig.timeout_ms kafka)))
    end
  else if decide (ty = "nats") then
    match EmitterConfig.nats cfg with
    | None => ret (Err (section_required "nats"))
    | Some nats =>
        emitter <- NatsEmitter.new (NatsEmitterConfig.url nats) (NatsEmitterConfig.subject nats) ;;
        ret (created "NATS" NatsEmitter.emit emitter)
    end
  else if decide (ty = "sqs") then
    match EmitterConfig.sqs cfg with
    | None => ret (Err (section_required "sqs"))
    | Some sqs =>
        emitter <- SqsEmitter.new (SqsEmitterConfig.queue_url sqs) (SqsEmitterConfig.region sqs)
                     (SqsEmitterConfig.fifo sqs) (SqsEmitterConfig.endpoint_url sqs) ;;
        ret (created "SQS" SqsEmitter.emit emitter)
    end
  else if decide (ty = "redis") then
    match EmitterConfig.redis cfg with
    | None => ret (Err (section_required "redis"))
    | Some redis =>
        emitter <- RedisEmitter.new (RedisEmitterConfig.url redis) (RedisEmitterConfig.stream redis)
                     (RedisEmitterConfig.maxlen redis) (RedisEmitterConfig.timeout_ms redis) ;;
        ret (created "Redis" RedisEmitter.emit emitter)
    end
  else if decide (ty = "channel") then
    match ChannelEmitter.new 1024 with
    | None => ret (Err []) (* 1024 is positive *)
    | Some make =>
        '(channel_emitter, rx) <- make ;;
        ret (Ok (Channel (mkEmitter W (ChannelEmitter.emit channel_emitter)) rx))
    end
  else
    ret (Err (anyhow ("unknown emitter type " +:+ str_debug ty +:+
                      "; valid values: kafka, nats, sqs, redis, channel"))).
End factory.
