(* ===== verification/Channel.v ===== *)
(** * The development emitter and its drain task

    [ChannelEmitter] of [crates/hookbox/src/emitter.rs] feeds a bounded channel whose receiver
    [drain_emitter] of [crates/hookbox-server/src/serve.rs] empties, logging each event.  The
    channel is [tokio::sync::mpsc], an interface with its documented laws. *)

From S2P Require Import Prelude RustStd F64 Types Traits Config Worker Json Emitters Samples.
Local Open Scope Z_scope.
Local Open Scope rust_scope.

(** What a channel holds, how much it can hold, and which of its ends are left. *)
Record Channel : Type := mkChannel {
  buffered : list NormalizedEvent.t;
  buffer : nat;
  senders_left : bool;
  receiver_left : bool
}.

Definition has_room (c : Channel) : Prop := (List.length (buffered c) < buffer c)%nat.
Definition with_buffered (evs : list NormalizedEvent.t) (c : Channel) : Channel :=
  mkChannel evs (buffer c) (senders_left c) (receiver_left c).

(** The laws of a channel with its ends [tx] and [rx], seen through [channel]. *)
Class MpscLaws {W} `{Mpsc W} (tx : mpsc_sender) (rx : mpsc_receiver) (channel : W → Channel) : Prop := {
  send_room : ∀ ev w, receiver_left (channel w) = true → has_room (channel w) →
    (mpsc_send tx ev w).1 = Ok tt ∧
    channel (mpsc_send tx ev w).2 = with_buffered (buffered (channel w) ++ [ev]) (channel w);
  send_closed : ∀ ev w, receiver_left (channel w) = false →
    (∃ e, (mpsc_send tx ev w).1 = Err e) ∧ channel (mpsc_send tx ev w).2 = channel w;
  recv_first : ∀ ev evs w, buffered (channel w) = ev :: evs →
    (mpsc_recv rx w).1 = Some (Some ev) ∧
    channel (mpsc_recv rx w).2 = with_buffered evs (channel w);
  recv_empty : ∀ w, buffered (channel w) = [] →
    (mpsc_recv rx w).1 = (if senders_left (channel w) then None else Some None) ∧
    channel (mpsc_recv rx w).2 = channel w
}.

(** ** drain_emitter *)

(** The lines the task logs: one per event, and one when the channel is closed. *)
Inductive LogLine : Type :=
| Emitted (emitter_name : string) (receipt_id : ReceiptId.t) (provider : string) (event_type : option string)
| Closed (emitter_name : string).

Definition log_line (emitter_name : string) (event : NormalizedEvent.t) : LogLine :=
  Emitted emitter_name (NormalizedEvent.receipt_id event) (NormalizedEvent.provider_name event)
    (NormalizedEvent.event_type event).

Section drain.
Context {W : Type} `{Mpsc W}.

(** A turn of the task: it receives until it would wait or the channel is closed.  The answer
    tells whether it has ended; [None] means that the fuel was not enough for what the channel
    holds. *)
Fixpoint drain_emitter (fuel : nat) (emitter_name : string) (rx : mpsc_receiver) :
    M (W * list LogLine) (option bool) :=
  match fuel with
  | O => ret None
  | S fuel => λ s,
      let '(received, w) := mpsc_recv rx s.1 in
      match received with
      | None => (Some false, (w, s.2))
      | Some None => (Some true, (w, s.2 ++ [Closed emitter_name]))
      | Some (Some event) =>
          drain_emitter fuel emitter_name rx (w, s.2 ++ [log_line emitter_name event])
      end
  end.

Context (tx : mpsc_sender) (rx : mpsc_receiver) (channel : W → Channel) `{!MpscLaws tx rx channel}.
Variable emitter_name : string.
Notation line := (log_line emitter_name).

(** A turn returns as soon as its fuel exceeds what is buffered; it logs every buffered event, in
    order, and ends exactly when no sender is left. *)
Lemma drain_turn fuel w log :
  (List.length (buffered (channel w)) < fuel)%nat →
  ∃ w', drain_emitter fuel emitter_name rx (w, log) =
    (Some (negb (senders_left (channel w))),
     (w', log ++ map line (buffered (channel w)) ++
          (if senders_left (channel w) then [] else [Closed emitter_name]))) ∧
    channel w' = with_buffered [] (channel w).
Proof.
  revert w log. induction fuel as [|fuel IH]; intros w log Hf; [lia|]. cbn [drain_emitter].
  destruct (buffered (channel w)) as [|ev evs] eqn:Eb.
  - destruct (recv_empty w Eb) as [Hr Hc]. cbn [fst snd].
    destruct (mpsc_recv rx w) as [received w']. cbn in Hr, Hc. subst received. exists w'.
    assert (with_buffered [] (channel w) = channel w) as -> by (destruct (channel w); cbn in *; by subst).
    by destruct (senders_left (channel w)); cbn; rewrite ?app_nil_r.
  - destruct (recv_first ev evs w Eb) as [Hr Hc]. cbn [fst snd].
    destruct (mpsc_recv rx w) as [received w1]. cbn in Hr, Hc. subst received.
    destruct (IH w1 (log ++ [line ev])) as (w' & Hrun & Hc'); [rewrite Hc; cbn in *; lia|].
    exists w'. rewrite Hrun, Hc', Hc. cbn. split; [|done]. by rewrite <- app_assoc.
Qed.

(** What happens to a running development emitter: an event is emitted (when there is room; the
    [send] waits for it), the drain task has a turn, or the last sender is dropped. *)
Inductive dev_step : W * list LogLine * list NormalizedEvent.t → W * list LogLine * list NormalizedEvent.t → Prop :=
| dev_emit w log sent event r w' :
    has_room (channel w) →
    ChannelEmitter.emit (ChannelEmitter.mk tx) event w = (r, w') →
    dev_step (w, log, sent) (w', log, match r with Ok _ => sent ++ [event] | Err _ => sent end)
| dev_turn fuel w log sent ended w' log' :
    drain_emitter fuel emitter_name rx (w, log) = (Some ended, (w', log')) → ended = false →
    (List.length (buffered (channel w)) < fuel)%nat →
    dev_step (w, log, sent) (w', log', sent).

Definition dev_steps := rtc dev_step.

(** Both ends are there, and what was accepted is logged or buffered, in order. *)
Definition dev_inv (s : W * list LogLine * list NormalizedEvent.t) : Prop :=
  receiver_left (channel s.1.1) = true ∧ senders_left (channel s.1.1) = true ∧
  map line s.2 = s.1.2 ++ map line (buffered (channel s.1.1)).

Lemma dev_step_inv s s' : dev_step s s' → dev_inv s → dev_inv s'.
Proof.
  intros [w log sent event r w' Hroom Hrun|fuel w log sent ended w' log' Hrun -> Hf] (Hr & Hl & Hinv); cbn in *.
  - unfold ChannelEmitter.emit in Hrun. rewrite bind_run in Hrun. cbn in Hrun.
    destruct (send_room event w Hr Hroom) as [Hok Hc]. rewrite Hok in Hrun. injection Hrun as <- <-.
    unfold dev_inv. cbn. rewrite Hc. cbn. split_and!; [done..|]. by rewrite !map_app, Hinv, app_assoc.
  - destruct (drain_turn fuel w log Hf) as (w1 & Hrun' & Hc). rewrite Hrun in Hrun'.
    injection Hrun' as _ Hw' Hlog'. subst w1 log'. unfold dev_inv. cbn. rewrite Hc. cbn.
    split_and!; [done..|]. by rewrite Hl, Hinv, !app_nil_r.
Qed.

Lemma dev_steps_inv s s' : dev_steps s s' → dev_inv s → dev_inv s'.
Proof. induction 1; eauto using dev_step_inv. Qed.

(** Whatever the interleaving of emits and turns of the drain task, an event that there is room
    for is accepted, the log holds the accepted events in order, but for those still
    buffered, and the next turn logs these too: nothing is lost, repeated or reordered. *)
Theorem dev_emitter_logs_in_order w0 w log sent :
  receiver_left (channel w0) = true → senders_left (channel w0) = true → buffered (channel w0) = [] →
  dev_steps (w0, [], []) (w, log, sent) →
  (∀ event, has_room (channel w) → (ChannelEmitter.emit (ChannelEmitter.mk tx) event w).1 = Ok tt) ∧
  map line sent = log ++ map line (buffered (channel w)) ∧
  ∃ w', drain_emitter (S (List.length (buffered (channel w)))) emitter_name rx (w, log) =
        (Some false, (w', map line sent)).
Proof.
  intros Hr Hl Hb Hs. destruct (dev_steps_inv _ _ Hs) as (Hr' & Hl' & Hinv); [unfold dev_inv; cbn; by rewrite Hb|]. cbn in Hr', Hl', Hinv.
  split_and!; [|done|].
  - intros event Hroom. unfold ChannelEmitter.emit. rewrite bind_run. cbn.
    by destruct (send_room event w Hr' Hroom) as [-> _].
  - destruct (drain_turn (S (List.length (buffered (channel w)))) w log) as (w' & Hrun & _); [lia|].
    exists w'. rewrite Hrun, Hl', app_nil_r. cbn. by rewrite Hinv.
Qed.
End drain.

(** A channel as its contents. *)
#[export] Instance queue_channel : Mpsc Channel :=
  {| mpsc_sender := unit; mpsc_receiver := unit;
     mpsc_channel := λ n _, (tt, tt, mkChannel [] (Z.to_nat n) true true);
     mpsc_send := λ _ ev c,
       if receiver_left c then (Ok tt, with_buffered (buffered c ++ [ev]) c) else (Err "channel closed", c);
     mpsc_recv := λ _ c,
       match buffered c with
       | ev :: evs => (Some (Some ev), with_buffered evs c)
       | [] => (if senders_left c then None else Some None, c)
       end |}.

#[export] Instance queue_channel_laws : MpscLaws (H := queue_channel) tt tt (λ c, c).
Proof.
  split.
  - intros ev c Hr _. cbn. by rewrite Hr.
  - intros ev c Hr. cbn. rewrite Hr. eauto.
  - intros ev evs c Hb. cbn. by rewrite Hb.
  - intros c Hb. cbn. rewrite Hb. by destruct (senders_left c).
Qed.

Lemma dev_emitter_logs_in_order_witness :
  let c0 := mkChannel [] 2 true true in
  let ev := NormalizedEvent.from_receipt sample_receipt in
  ∃ w', drain_emitter (H := queue_channel) 2 "dev" tt (with_buffered [ev] c0, []) = (Some false, (w', [log_line "dev" ev])).
Proof.
  intros c0 ev.
  destruct (@dev_emitter_logs_in_order Channel queue_channel tt tt (λ c, c) queue_channel_laws "dev" c0 (with_buffered [ev] c0) [] [ev]) as (_ & _ & w' & Hrun).
  - reflexivity.
  - reflexivity.
  - reflexivity.
  - eapply rtc_once, (@dev_emit Channel queue_channel tt tt (λ c, c) "dev" c0 [] [] ev (Ok tt)); [|reflexivity].
    unfold has_room. cbn. lia.
  - exists w'. exact Hrun.
Defined.
