(* ===== verification/Serde.v ===== *)
(** * [#[derive(Deserialize)]] on the public types

    [crates/hookbox/src/{state,types}.rs] derive [Deserialize]; this is what the derived code
    makes of a JSON value, for the types that consumers of the emitted JSON read back.
    [None] is a [serde_json::Error], whose text is not modelled. *)

From S2P Require Import Prelude RustStd F64 Types Traits Database Worker Json Emitters Samples Instances.
From stdpp Require Import pretty.
Local Open Scope Z_scope.

(** [chrono]: RFC 3339 text reads back. *)
Class ChronoParse `{ChronoText} : Type := {
  parse_rfc3339 : string → option DateTime;
  rfc3339_round_trip : ∀ t, parse_rfc3339 (rfc3339 t) = Some t
}.

(** A number that [serde_json] holds as an integer: its text has no fraction or exponent, and
    ["-0"] is a float. *)
Definition parse_int (repr : string) : option Z :=
  match repr with
  | String "-" s => n ← parse_nat_str s; if decide (n = 0) then None else Some (- n)
  | _ => parse_nat_str repr
  end.

Section from_value.
Context `{Codecs} `{UuidText} `{ChronoText} `{!ChronoParse}.

Definition de_string (v : Value) : option string := match v with VString s => Some s | _ => None end.
Definition de_bool (v : Value) : option bool := match v with VBool b => Some b | _ => None end.
Definition de_i32 (v : Value) : option Z :=
  match v with VNumber repr => parse_int repr ≫= in_range i32_min i32_max | _ => None end.
Definition de_uuid (v : Value) : option Uuid := de_string v ≫= uuid_from_str.
Definition de_time (v : Value) : option DateTime := de_string v ≫= parse_rfc3339.
Definition de_value (v : Value) : option Value := Some v.

(** [Option<T>]: [null] is [None]. *)
Definition de_option {A} (de : Value → option A) (v : Value) : option (option A) :=
  match v with VNull => Some None | _ => Some <$> de v end.

(** A unit variant: its name, or an object whose only member is its name with [null]. *)
Definition de_enum {A} (all : list A) (serde_name : A → string) (v : Value) : option A :=
  let variant name := List.find (λ a, bool_decide (serde_name a = name)) all in
  match v with
  | VString name => variant name
  | VObject [(name, VNull)] => variant name
  | _ => None
  end.

(** The fields of a struct: the members of an object, unknown ones ignored, or the elements of an
    array of the right length.  [None] inside is a missing field. *)
Definition de_struct (names : list string) (v : Value) : option (string → option Value) :=
  match v with
  | VObject m => Some (λ name, map_get name m)
  | VArray l =>
      if decide (List.length l = List.length names) then Some (λ name, map_get name (zip names l)) else None
  | _ => None
  end.

Definition required {A} (de : Value → option A) (field : option Value) : option A := field ≫= de.
(** A missing [Option] field is [None]. *)
Definition optional {A} (de : Value → option A) (field : option Value) : option (option A) :=
  match field with Some v => de_option de v | None => Some None end.

Definition receipt_fields : list string :=
  ["receipt_id"; "provider_name"; "provider_event_id"; "external_reference"; "dedupe_key"; "payload_hash";
   "raw_body"; "parsed_payload"; "raw_headers"; "normalized_event_type"; "verification_status";
   "verification_reason"; "processing_state"; "emit_count"; "last_error"; "received_at"; "processed_at";
   "metadata"].

Definition receipt_of_value (v : Value) : option WebhookReceipt.t :=
  field ← de_struct receipt_fields v;
  receipt_id ← required de_uuid (field "receipt_id");
  provider_name ← required de_string (field "provider_name");
  provider_event_id ← optional de_string (field "provider_event_id");
  external_reference ← optional de_string (field "external_reference");
  dedupe_key ← required de_string (field "dedupe_key");
  payload_hash ← required de_string (field "payload_hash");
  raw_body ← required serde_bytes_base64_deserialize (field "raw_body");
  parsed_payload ← optional de_value (field "parsed_payload");
  raw_headers ← required de_value (field "raw_headers");
  normalized_event_type ← optional de_string (field "normalized_event_type");
  verification_status ← required (de_enum VerificationStatus.all VerificationStatus.serde_name) (field "verification_status");
  verification_reason ← optional de_string (field "verification_reason");
  processing_state ← required (de_enum ProcessingState.all ProcessingState.serde_name) (field "processing_state");
  emit_count ← required de_i32 (field "emit_count");
  last_error ← optional de_string (field "last_error");
  received_at ← required de_time (field "received_at");
  processed_at ← optional de_time (field "processed_at");
  metadata ← required de_value (field "metadata");
  Some (WebhookReceipt.mk (ReceiptId.mk receipt_id) provider_name provider_event_id external_reference dedupe_key
          payload_hash raw_body parsed_payload raw_headers normalized_event_type verification_status
          verification_reason processing_state emit_count last_error received_at processed_at metadata).

Definition delivery_fields : list string :=
  ["delivery_id"; "receipt_id"; "emitter_name"; "state"; "attempt_count"; "last_error"; "last_attempt_at";
   "next_attempt_at"; "emitted_at"; "immutable"; "created_at"].

Definition delivery_of_value (v : Value) : option WebhookDelivery.t :=
  field ← de_struct delivery_fields v;
  delivery_id ← required de_uuid (field "delivery_id");
  receipt_id ← required de_uuid (field "receipt_id");
  emitter_name ← required de_string (field "emitter_name");
  state ← required (de_enum DeliveryState.all DeliveryState.serde_name) (field "state");
  attempt_count ← required de_i32 (field "attempt_count");
  last_error ← optional de_string (field "last_error");
  last_attempt_at ← optional de_time (field "last_attempt_at");
  next_attempt_at ← required de_time (field "next_attempt_at");
  emitted_at ← optional de_time (field "emitted_at");
  immutable ← required de_bool (field "immutable");
  created_at ← required de_time (field "created_at");
  Some (WebhookDelivery.mk (DeliveryId.mk delivery_id) (ReceiptId.mk receipt_id) emitter_name state attempt_count
          last_error last_attempt_at next_attempt_at emitted_at immutable created_at).

Definition event_fields : list string :=
  ["receipt_id"; "provider_name"; "event_type"; "external_reference"; "parsed_payload"; "payload_hash";
   "received_at"; "metadata"].

Definition event_of_value (v : Value) : option NormalizedEvent.t :=
  field ← de_struct event_fields v;
  receipt_id ← required de_uuid (field "receipt_id");
  provider_name ← required de_string (field "provider_name");
  event_type ← optional de_string (field "event_type");
  external_reference ← optional de_string (field "external_reference");
  parsed_payload ← optional de_value (field "parsed_payload");
  payload_hash ← required de_string (field "payload_hash");
  received_at ← required de_time (field "received_at");
  metadata ← required de_value (field "metadata");
  Some (NormalizedEvent.mk (ReceiptId.mk receipt_id) provider_name event_type external_reference parsed_payload
          payload_hash received_at metadata).

(** ** Round trips *)

Lemma parse_digits_pretty x s : parse_digits 0 (pretty_N_go x s) = parse_digits (Z.of_N x) s.
Proof.
  revert s. induction (N.lt_wf_0 x) as [x _ IH]; intros s.
  destruct (decide (x = 0)%N) as [->|Hx]; [done|].
  rewrite pretty_N_go_step by lia. rewrite IH by (apply N.div_lt; lia). cbn [parse_digits].
  pose proof (N.mod_lt x 10 ltac:(lia)) as Hm.
  assert (digit_val (pretty_N_char (x mod 10)) = Some (Z.of_N (x mod 10))) as ->.
  { generalize dependent (x mod 10)%N. intros d Hd.
    assert (d = 0 ∨ d = 1 ∨ d = 2 ∨ d = 3 ∨ d = 4 ∨ d = 5 ∨ d = 6 ∨ d = 7 ∨ d = 8 ∨ d = 9)%N as Hcases by lia.
    by repeat destruct Hcases as [->|Hcases]; [..|subst]. }
  f_equal. rewrite N2Z.inj_div, N2Z.inj_mod. pose proof (Z.div_mod (Z.of_N x) 10). change (Z.of_N 10) with 10. lia.
Qed.

(** A decimal text starts with a digit. *)
Definition starts_with_digit (s : string) : Prop := ∃ d s', s = String (pretty_N_char d) s'.

Lemma pretty_N_digit (x : N) : starts_with_digit (pretty x).
Proof.
  unfold pretty, pretty_N. case_decide as Hx; [by exists 0%N, EmptyString|].
  assert (∀ s, x ≠ 0%N ∨ starts_with_digit s → starts_with_digit (pretty_N_go x s)) as Hgo; [|auto].
  clear Hx. induction (N.lt_wf_0 x) as [x _ IH]. intros s Hs.
  destruct (decide (x = 0)%N) as [->|Hx]; [destruct Hs as [|Hs]; [done|exact Hs]|].
  rewrite pretty_N_go_step by lia. apply IH; [apply N.div_lt; lia|]. right. by eexists _, _.
Qed.

Lemma parse_nat_str_pretty (x : N) : parse_nat_str (pretty x) = Some (Z.of_N x).
Proof.
  destruct (pretty_N_digit x) as (d & s & Hd). unfold parse_nat_str. rewrite Hd, <- Hd.
  unfold pretty, pretty_N. case_decide as Hx; [by subst|]. by rewrite parse_digits_pretty.
Qed.

Lemma parse_int_digit s : starts_with_digit s → parse_int s = parse_nat_str s.
Proof. intros (d & s' & ->). unfold parse_int, pretty_N_char. by repeat case_match. Qed.

Lemma parse_int_pretty (n : Z) : parse_int (pretty n) = Some n.
Proof.
  destruct n as [|p|p]; [done|..].
  - change (pretty (Z.pos p)) with (pretty (N.pos p)).
    by rewrite parse_int_digit, parse_nat_str_pretty by apply pretty_N_digit.
  - change (pretty (Z.neg p)) with ("-" +:+ pretty (N.pos p)). 
    change (parse_int _) with (parse_nat_str (pretty (N.pos p)) ≫= λ n, if decide (n = 0) then None else Some (- n)).
    by rewrite parse_nat_str_pretty.
Qed.

Lemma de_i32_int n : in_i32 n → de_i32 (int_value n) = Some n.
Proof. intros Hn. cbn. rewrite parse_int_pretty. cbn. unfold in_range. by rewrite decide_True. Qed.

Lemma de_uuid_value u : de_uuid (uuid_value u) = Some u.
Proof. apply uuid_round_trip. Qed.

Lemma de_time_value t : de_time (time_value t) = Some t.
Proof. apply rfc3339_round_trip. Qed.

Lemma de_enum_name {A} `{EqDecision A} (all : list A) (serde_name : A → string) a :
  a ∈ all → (∀ x, x ∈ all → serde_name x = serde_name a → x = a) →
  de_enum all serde_name (VString (serde_name a)) = Some a.
Proof.
  intros Ha Hinj. cbn. induction all as [|x all IH]; [by apply not_elem_of_nil in Ha|]. cbn.
  case_bool_decide as Hx; [by rewrite (Hinj x) by (done || by apply elem_of_cons; left)|].
  apply elem_of_cons in Ha as [->|Ha]; [done|]. apply IH; [done|].
  intros y Hy. apply Hinj. by apply elem_of_cons; right.
Qed.

Lemma optional_opt_value {A} (de : Value → option A) (f : A → Value) o :
  (∀ a, de (f a) = Some a) → (∀ a, o = Some a → f a ≠ VNull) → optional de (Some (opt_value f o)) = Some o.
Proof.
  intros Hde Hf. destruct o as [a|]; [|done]. cbn. unfold de_option. rewrite Hde.
  by destruct (f a) eqn:E; [destruct (Hf a)|..].
Qed.

Lemma de_processing_state (st : ProcessingState.t) :
  de_enum ProcessingState.all ProcessingState.serde_name (VString (ProcessingState.serde_name st)) = Some st.
Proof. by destruct st. Qed.

Lemma de_verification_status (st : VerificationStatus.t) :
  de_enum VerificationStatus.all VerificationStatus.serde_name (VString (VerificationStatus.serde_name st)) = Some st.
Proof. by destruct st. Qed.

Lemma de_delivery_state (st : DeliveryState.t) :
  de_enum DeliveryState.all DeliveryState.serde_name (VString (DeliveryState.serde_name st)) = Some st.
Proof. by destruct st. Qed.

(** A payload that is the JSON [null] reads as no payload. *)
Definition null_as_none (o : option Value) : option Value :=
  match o with Some VNull => None | _ => o end.

Lemma de_payload o : optional de_value (Some (opt_value id o)) = Some (null_as_none o).
Proof. by destruct o as [[]|]. Qed.

Lemma opt_string_value (o : option string) : optional de_string (Some (opt_value VString o)) = Some o.
Proof. by destruct o. Qed.

Lemma opt_time_value (o : option DateTime) : optional de_time (Some (opt_value time_value o)) = Some o.
Proof. apply optional_opt_value; [apply de_time_value|done]. Qed.

Lemma null_as_none_payload o : o ≠ Some VNull → null_as_none o = o.
Proof. by destruct o as [[]|]. Qed.

Definition read_event (e : NormalizedEvent.t) : NormalizedEvent.t :=
  NormalizedEvent.mk (NormalizedEvent.receipt_id e) (NormalizedEvent.provider_name e) (NormalizedEvent.event_type e)
    (NormalizedEvent.external_reference e) (null_as_none (NormalizedEvent.parsed_payload e))
    (NormalizedEvent.payload_hash e) (NormalizedEvent.received_at e) (NormalizedEvent.metadata e).

Definition read_receipt (r : WebhookReceipt.t) : WebhookReceipt.t :=
  WebhookReceipt.mk (WebhookReceipt.receipt_id r) (WebhookReceipt.provider_name r) (WebhookReceipt.provider_event_id r)
    (WebhookReceipt.external_reference r) (WebhookReceipt.dedupe_key r) (WebhookReceipt.payload_hash r)
    (WebhookReceipt.raw_body r) (null_as_none (WebhookReceipt.parsed_payload r)) (WebhookReceipt.raw_headers r)
    (WebhookReceipt.normalized_event_type r) (WebhookReceipt.verification_status r)
    (WebhookReceipt.verification_reason r) (WebhookReceipt.processing_state r) (WebhookReceipt.emit_count r)
    (WebhookReceipt.last_error r) (WebhookReceipt.received_at r) (WebhookReceipt.processed_at r)
    (WebhookReceipt.metadata r).

Lemma bind_Some_step {A B} (o : option A) (k : A → option B) a r :
  o = Some a → k a = r → o ≫= k = r.
Proof. by intros -> <-. Qed.

(** One field after the other. *)
Ltac read_fields :=
  repeat (eapply bind_Some_step; [first
    [ apply de_uuid_value | apply de_time_value | apply base64_body_round_trip
    | apply de_processing_state | apply de_verification_status | apply de_delivery_state
    | apply de_payload | apply opt_string_value | apply opt_time_value
    | by apply de_i32_int | reflexivity ] | cbn beta ]).

(** What a consumer reads from the JSON of an event is the event, but for a [null] payload. *)
Lemma event_reads_back e : event_of_value (event_value e) = Some (read_event e).
Proof.
  unfold event_of_value, event_value. eapply bind_Some_step; [reflexivity|]. cbn beta. read_fields. by destruct e as [[]].
Qed.

(** What the API answers for a receipt reads back as the receipt, whole: its body included. *)
Lemma receipt_reads_back r :
  in_i32 (WebhookReceipt.emit_count r) → receipt_of_value (receipt_value r) = Some (read_receipt r).
Proof.
  intros Hr. unfold receipt_of_value, receipt_value. eapply bind_Some_step; [reflexivity|]. cbn beta. read_fields. by destruct r as [[]].
Qed.

Lemma delivery_reads_back d :
  in_i32 (WebhookDelivery.attempt_count d) → delivery_of_value (delivery_value d) = Some d.
Proof.
  intros Hd. unfold delivery_of_value, delivery_value. eapply bind_Some_step; [reflexivity|]. cbn beta. read_fields. by destruct d as [[] []].
Qed.

(** C22: the JSON of an event, of a receipt (its body included) and of a delivery reads back, by the
    derived code, as the value it was made from; only a payload that is the JSON [null] reads
    back as no payload. *)
Theorem json_values_read_back e r d :
  event_of_value (event_value e) = Some (read_event e) ∧
  (in_i32 (WebhookReceipt.emit_count r) → receipt_of_value (receipt_value r) = Some (read_receipt r)) ∧
  (in_i32 (WebhookDelivery.attempt_count d) → delivery_of_value (delivery_value d) = Some d) ∧
  (NormalizedEvent.parsed_payload e ≠ Some VNull → read_event e = e) ∧
  (WebhookReceipt.parsed_payload r ≠ Some VNull → read_receipt r = r).
Proof.
  split_and!; [apply event_reads_back|apply receipt_reads_back|apply delivery_reads_back|intros Hp..].
  - unfold read_event. rewrite (null_as_none_payload _ Hp). by destruct e.
  - unfold read_receipt. rewrite (null_as_none_payload _ Hp). by destruct r.
Qed.
End from_value.

(** Decimal text for instants, for the tests. *)
#[export] Instance decimal_time : ChronoText := {| rfc3339 := pretty |}.
#[export] Instance decimal_time_parse : ChronoParse :=
  {| parse_rfc3339 := parse_int; rfc3339_round_trip := parse_int_pretty |}.

Lemma json_values_read_back_witness :
  in_i32 (WebhookReceipt.emit_count sample_receipt) ∧
  receipt_of_value (receipt_value sample_receipt) = Some sample_receipt.
Proof.
  split; [by apply (bool_decide_eq_true_1 _)|].
  destruct (json_values_read_back (NormalizedEvent.from_receipt sample_receipt) sample_receipt
    (WebhookDelivery.mk (DeliveryId.mk 1%N) (ReceiptId.mk 1%N) "kafka" DeliveryState.Pending 0 None None 0 None false 0))
    as (_ & Hr & _ & _ & Hn).
  rewrite Hr by by apply (bool_decide_eq_true_1 _). by rewrite Hn by discriminate.
Defined.
