(* ===== verification/Health.v ===== *)
(** * crates/hookbox-server/src/routes/health.rs and the application state of lib.rs *)

From S2P Require Import Prelude RustStd F64 Types Traits Metrics Pipeline Worker Json.
Local Open Scope Z_scope.

Module StatusCode.
Inductive t : Type :=
| OK | ACCEPTED | BAD_REQUEST | UNAUTHORIZED | NOT_FOUND | INTERNAL_SERVER_ERROR
| SERVICE_UNAVAILABLE.
#[global] Instance eq_dec : EqDecision t.
Proof. solve_decision. Defined.
End StatusCode.

Module EmitterHealthSnapshot.
Record t : Type := mk {
  status : HealthStatus.t;
  last_success_at : option DateTime;
  last_failure_at : option DateTime;
  consecutive_failures : Z;
  dlq_depth : Z;
  pending_count : Z
}.

(** The snapshot a handler takes of a worker's health. *)
Definition of_health (h : EmitterHealth.t) : t :=
  mk (EmitterHealth.status h) (EmitterHealth.last_success_at h) (EmitterHealth.last_failure_at h)
    (EmitterHealth.consecutive_failures h) (EmitterHealth.dlq_depth h)
    (EmitterHealth.pending_count h).

(** What is synthesized for an emitter without a worker. *)
Definition missing : t := mk HealthStatus.Unhealthy None None 0 0 0.
End EmitterHealthSnapshot.

Definition synthesize_missing_emitters (emitters : gmap string EmitterHealthSnapshot.t)
    (configured : list string) : gmap string EmitterHealthSnapshot.t :=
  foldl (λ m name,
    match m !! name with
    | Some _ => m
    | None => <[name := EmitterHealthSnapshot.missing]> m
    end) emitters configured.

Definition has_status (s : HealthStatus.t) (e : EmitterHealthSnapshot.t) : bool :=
  bool_decide (EmitterHealthSnapshot.status e = s).

Definition compute_overall_status (db : HealthStatus.t) (emitters : gmap string EmitterHealthSnapshot.t) :
    HealthStatus.t :=
  let values := map snd (map_to_list emitters) in
  if decide (db = HealthStatus.Unhealthy) then HealthStatus.Unhealthy
  else if existsb (has_status HealthStatus.Unhealthy) values then HealthStatus.Unhealthy
  else if existsb (has_status HealthStatus.Degraded) values then HealthStatus.Degraded
  else HealthStatus.Healthy.

(** [AppState]: [pool] tells whether there is a pool, [prometheus] is the text its handle
    renders. *)
Module AppState.
Record t (W : Type) : Type := mk {
  pipeline : HookboxPipeline.t W;
  pool : bool;
  admin_token : option string;
  prometheus : option string;
  emitter_health : gmap string EmitterHealth.t
}.
Arguments mk {W}. Arguments pipeline {W}. Arguments pool {W}. Arguments admin_token {W}.
Arguments prometheus {W}.
Arguments emitter_health {W}.
End AppState.

Definition healthz : StatusCode.t := StatusCode.OK.

Record ReadyzResponse : Type := mkReadyz {
  status : HealthStatus.t;
  database : HealthStatus.t;
  emitters : gmap string EmitterHealthSnapshot.t
}.

(** The map both handlers build from the registered workers and the configured names. *)
Definition emitter_snapshots {W} (state : AppState.t W) : gmap string EmitterHealthSnapshot.t :=
  synthesize_missing_emitters (EmitterHealthSnapshot.of_health <$> AppState.emitter_health state)
    (HookboxPipeline.emitter_names (AppState.pipeline state)).

(** [ping]: whether [SELECT 1] answers within two seconds. *)
Definition readyz {W} (state : AppState.t W) (ping : bool) : StatusCode.t * ReadyzResponse :=
  let db_status :=
    if AppState.pool state
    then if ping then HealthStatus.Healthy else HealthStatus.Unhealthy
    else HealthStatus.Unhealthy in
  let emitters := emitter_snapshots state in
  let overall := compute_overall_status db_status emitters in
  let status_code :=
    match overall with
    | HealthStatus.Unhealthy => StatusCode.SERVICE_UNAVAILABLE
    | HealthStatus.Degraded | HealthStatus.Healthy => StatusCode.OK
    end in
  (status_code, mkReadyz overall db_status emitters).

(** [GET /metrics] *)
Definition metrics {W} (state : AppState.t W) : string :=
  match AppState.prometheus state with
  | Some text => text
  | None => "# no prometheus recorder installed" +:+ String "010" EmptyString
  end.

(** The bodies. *)
Section to_value.
Context `{ChronoText}.

Definition snapshot_value (e : EmitterHealthSnapshot.t) : Value :=
  VObject
    [("status", VString (health_status_name (EmitterHealthSnapshot.status e)));
     ("last_success_at", opt_value time_value (EmitterHealthSnapshot.last_success_at e));
     ("last_failure_at", opt_value time_value (EmitterHealthSnapshot.last_failure_at e));
     ("consecutive_failures", int_value (EmitterHealthSnapshot.consecutive_failures e));
     ("dlq_depth", int_value (EmitterHealthSnapshot.dlq_depth e));
     ("pending_count", int_value (EmitterHealthSnapshot.pending_count e))].

Definition readyz_value (r : ReadyzResponse) : Value :=
  VObject
    [("status", VString (health_status_name (status r)));
     ("database", VObject [("status", VString (health_status_name (database r)))]);
     ("emitters", VObject (List.map (λ p, (p.1, snapshot_value p.2)) (btree_iter (emitters r))))].
End to_value.

(** ** Properties *)

Lemma synthesize_lookup m l name :
  synthesize_missing_emitters m l !! name =
  match m !! name with
  | Some s => Some s
  | None => if decide (name ∈ l) then Some EmitterHealthSnapshot.missing else None
  end.
Proof.
  unfold synthesize_missing_emitters. revert m. induction l as [|n l IH]; intros m; cbn [foldl].
  { by destruct (m !! name). }
  rewrite IH. destruct (decide (n = name)) as [->|Hne].
  - destruct (m !! name) as [s|] eqn:E; [by rewrite E|].
    rewrite lookup_insert_eq, decide_True; [done|]. apply elem_of_cons. by left.
  - assert ((match m !! n with Some _ => m | None => <[n := EmitterHealthSnapshot.missing]> m end) !! name
            = m !! name) as ->.
    { destruct (m !! n); [done|]. by rewrite lookup_insert_ne. }
    destruct (m !! name); [done|]. destruct (decide (name ∈ l)), (decide (name ∈ n :: l)) as [Hin|Hin];
      try done; rewrite elem_of_cons in Hin; naive_solver.
Qed.

Lemma exists_status (m : gmap string EmitterHealthSnapshot.t) s :
  existsb (has_status s) (map snd (map_to_list m)) = true ↔
  ∃ name e, m !! name = Some e ∧ EmitterHealthSnapshot.status e = s.
Proof.
  rewrite existsb_exists. split.
  - intros (e & He & Hs%bool_decide_eq_true). apply list_elem_of_In, elem_of_List_map in He as ([n e'] & Hin & ->).
    apply elem_of_map_to_list in Hin. eauto.
  - intros (n & e & Hl & Hs). exists e. split; [|by apply bool_decide_eq_true].
    apply list_elem_of_In, elem_of_List_map. exists (n, e). split; [|done]. by apply elem_of_map_to_list.
Qed.

Lemma snapshot_exists {W} (state : AppState.t W) :
  let names := HookboxPipeline.emitter_names (AppState.pipeline state) in
  let health := AppState.emitter_health state in
  (∃ name e, emitter_snapshots state !! name = Some e ∧
     EmitterHealthSnapshot.status e = HealthStatus.Unhealthy) ↔
  (∃ name h, health !! name = Some h ∧ EmitterHealth.status h = HealthStatus.Unhealthy) ∨
  (∃ name, name ∈ names ∧ health !! name = None).
Proof.
  intros names health. unfold emitter_snapshots. setoid_rewrite synthesize_lookup.
  setoid_rewrite lookup_fmap. fold names health. split.
  - intros (name & e & He & Hs). destruct (health !! name) as [h|] eqn:E; cbn in He.
    + injection He as <-. left. eauto.
    + destruct (decide (name ∈ names)); [|done]. right. eauto.
  - intros [(name & h & Hh & Hs)|(name & Hn & Hh)].
    + exists name, (EmitterHealthSnapshot.of_health h). by rewrite Hh.
    + exists name, EmitterHealthSnapshot.missing. rewrite Hh. cbn. by rewrite decide_True.
Qed.

Lemma readyz_unavailable {W} (state : AppState.t W) ping :
  (readyz state ping).1 = StatusCode.SERVICE_UNAVAILABLE ↔
  AppState.pool state && ping = false ∨
  ∃ name e, emitter_snapshots state !! name = Some e ∧
    EmitterHealthSnapshot.status e = HealthStatus.Unhealthy.
Proof.
  rewrite <- exists_status. unfold readyz, compute_overall_status. cbn [fst].
  set (values := map snd (map_to_list (emitter_snapshots state))).
  destruct (AppState.pool state), ping, (existsb (has_status HealthStatus.Unhealthy) values),
    (existsb (has_status HealthStatus.Degraded) values); cbn; naive_solver.
Qed.

Lemma readyz_code {W} (state : AppState.t W) ping :
  (readyz state ping).1 = StatusCode.OK ∨ (readyz state ping).1 = StatusCode.SERVICE_UNAVAILABLE.
Proof. unfold readyz. destruct (compute_overall_status _ _); auto. Qed.

(** [/readyz] answers 503 exactly when the database does not answer, or some registered
    worker is unhealthy, or a configured emitter has no registered worker; every configured
    emitter is in the body. *)
Theorem readyz_unavailable_iff {W} (state : AppState.t W) ping :
  let names := HookboxPipeline.emitter_names (AppState.pipeline state) in
  let health := AppState.emitter_health state in
  ((readyz state ping).1 = StatusCode.SERVICE_UNAVAILABLE ↔
   AppState.pool state && ping = false ∨
   (∃ name h, health !! name = Some h ∧ EmitterHealth.status h = HealthStatus.Unhealthy) ∨
   (∃ name, name ∈ names ∧ health !! name = None)) ∧
  ∀ name, name ∈ names → is_Some (emitters (readyz state ping).2 !! name).
Proof.
  intros names health. split.
  - rewrite readyz_unavailable. apply or_iff_compat_l, snapshot_exists.
  - intros name Hn. cbn. unfold emitter_snapshots. rewrite synthesize_lookup.
    destruct ((EmitterHealthSnapshot.of_health <$> AppState.emitter_health state) !! name); [done|].
    by rewrite decide_True.
Qed.
