(* ===== verification/Serve.v ===== *)
(** * crates/hookbox-server/src/{bootstrap,serve}.rs

    From a normalized configuration to a running server: the verifiers, the pipeline, one
    worker per emitter, and the state of the HTTP handlers. *)

From S2P Require Import Prelude RustStd F64 Types Traits Transitions Metrics Dedupe Database Postgres Pipeline Config Providers Node Worker Json Emitters Health.
From stdpp Require Import pretty.
Local Open Scope Z_scope.
Local Open Scope rust_scope.

(** ** bootstrap.rs *)

Definition validate_retry_config (retry : RetryConfig.t) : result unit AnyhowError :=
  if negb (1 <=? RetryConfig.interval_seconds retry)
  then Err (anyhow "retry.interval_seconds must be >= 1")
  else if negb (1 <=? RetryConfig.max_attempts retry)
  then Err (anyhow "retry.max_attempts must be >= 1")
  else Ok tt.

(** [.as_deref().filter(|s| !s.is_empty()).ok_or_else(...)] *)
Definition non_empty (o : option string) (msg : string) : result string AnyhowError :=
  match o with
  | Some s => if decide (s = EmptyString) then Err (anyhow msg) else Ok s
  | None => Err (anyhow msg)
  end.

Definition non_empty_secret (name : string) (provider : ProviderConfig.t) :
    result string AnyhowError :=
  non_empty (ProviderConfig.secret provider)
    ("provider '" +:+ name +:+ "' requires a non-empty secret").

Section bootstrap.
Context `{Codecs} `{Crypto} `{Rsa}.

Definition build_one_verifier (name : string) (provider : ProviderConfig.t) :
    result SignatureVerifier AnyhowError :=
  let ty := ProviderConfig.verifier_type provider in
  let secret := ProviderConfig.secret provider in
  let tolerance_seconds := ProviderConfig.tolerance_seconds provider in
  let generic header :=
    and_then (non_empty_secret name provider) (λ secret,
      let header := unwrap_or (ProviderConfig.header provider) header in
      Ok (GenericHmacVerifier.verifier (GenericHmacVerifier.new name (as_bytes secret) header))) in
  if decide (ty = "stripe") then
    and_then (non_empty_secret name provider) (λ secret,
      let verifier := StripeVerifier.new name secret in
      let verifier :=
        match tolerance_seconds with
        | Some secs => StripeVerifier.with_tolerance verifier (Duration_from_secs secs)
        | None => verifier
        end in
      Ok (StripeVerifier.verifier verifier))
  else if decide (ty = "adyen") then
    and_then (non_empty secret ("adyen provider '" +:+ name +:+
                "' requires a non-empty secret (hex-encoded HMAC key)")) (λ secret,
      match AdyenVerifier.new name secret with
      | Some verifier => Ok (AdyenVerifier.verifier verifier)
      | None => Err (anyhow ("invalid hex key for Adyen provider '" +:+ name +:+ "'"))
      end)
  else if decide (ty = "bvnk") then
    and_then (non_empty secret ("bvnk provider '" +:+ name +:+ "' requires a non-empty secret"))
      (λ secret, Ok (BvnkVerifier.verifier (BvnkVerifier.new name (as_bytes secret))))
  else if decide (ty = "triplea-fiat") then
    and_then (non_empty (ProviderConfig.public_key provider) ("triplea-fiat provider '" +:+ name +:+
                "' requires a non-empty public_key")) (λ pem,
      match TripleAFiatVerifier.new name pem with
      | Some verifier => Ok (TripleAFiatVerifier.verifier verifier)
      | None => Err (anyhow ("invalid PEM public key for Triple-A fiat provider '" +:+ name +:+ "'"))
      end)
  else if decide (ty = "triplea-crypto") then
    and_then (non_empty secret ("triplea-crypto provider '" +:+ name +:+
                "' requires a non-empty secret (notify_secret)")) (λ secret,
      let verifier := TripleACryptoVerifier.new name secret in
      let verifier :=
        match tolerance_seconds with
        | Some secs => TripleACryptoVerifier.with_tolerance verifier (Duration_from_secs secs)
        | None => verifier
        end in
      Ok (TripleACryptoVerifier.verifier verifier))
  else if decide (ty = "walapay") then
    and_then (non_empty secret ("walapay provider '" +:+ name +:+
                "' requires a non-empty secret (whsec_...)")) (λ secret,
      match WalapayVerifier.new name secret with
      | None => Err (anyhow ("invalid Svix secret for Walapay provider '" +:+ name +:+
                             "' (expected whsec_...)"))
      | Some verifier =>
          let verifier :=
            match tolerance_seconds with
            | Some secs => WalapayVerifier.with_tolerance verifier (Duration_from_secs secs)
            | None => verifier
            end in
          Ok (WalapayVerifier.verifier verifier)
      end)
  else if decide (ty = "checkout") then
    and_then (non_empty secret ("checkout provider '" +:+ name +:+ "' requires a non-empty secret"))
      (λ secret,
      let header := unwrap_or (ProviderConfig.header provider) "Cko-Signature" in
      Ok (GenericHmacVerifier.verifier (GenericHmacVerifier.new name (as_bytes secret) header)))
  else if decide (ty = "hmac-sha256") then generic ("X-" +:+ name +:+ "-Signature")
  else generic ("X-" +:+ name +:+ "-Signature").

(** The providers in the order of their names; the first error wins. *)
Definition build_provider_verifiers (providers : gmap string ProviderConfig.t) :
    result (list SignatureVerifier) AnyhowError :=
  try_collect (λ p, context ("provider '" +:+ p.1 +:+ "'") (build_one_verifier p.1 p.2))
    (btree_iter providers).
End bootstrap.

(** ** serve.rs *)

Definition DEFAULT_LEASE_DURATION : Duration := Duration_from_secs 30.

(** A spawned worker, as its configuration; and the name of every spawned task. *)
Module EmitterWorkerSpec.
Record t (W : Type) : Type := mk {
  name : string;
  emitter : Emitter W;
  policy : RetryPolicy.t;
  concurrency : Z;
  poll_interval : Duration;
  lease_duration : Duration;
  health : EmitterHealth.t
}.
Arguments mk {W}. Arguments name {W}. Arguments emitter {W}. Arguments policy {W}.
Arguments concurrency {W}. Arguments poll_interval {W}. Arguments lease_duration {W}.
Arguments health {W}.
End EmitterWorkerSpec.

Section serve.
Context `{SerdeJson} `{PgTypes} `{UuidText} `{Codecs} `{Crypto} `{Rsa} `{ChronoText} `{JsonText}.
Context {W : Type} `{Rdkafka W} `{AsyncNats W} `{RedisClient W} `{AwsSqs W} `{Mpsc W}.

(** [build_pipeline]: [Ok None] is the panic on a cache of capacity zero. *)
Definition build_pipeline (config : HookboxConfig.t) :
    result (option (HookboxPipeline.t Node)) AnyhowError :=
  let lru_capacity := DedupeConfig.lru_capacity (HookboxConfig.dedupe config) in
  let emitter_names := List.map EmitterEntry.name (HookboxConfig.emitters config) in
  if lru_capacity =? 0 then Ok None
  else
    and_then (build_provider_verifiers (HookboxConfig.providers config)) (λ verifiers,
      Ok (Node.build_pipeline (Z.to_nat lru_capacity) emitter_names verifiers)).

(** The second component tells whether a drain task goes with the emitter. *)
Definition build_emitter_for_entry (entry : EmitterEntry.t) :
    M W (result (Emitter W * bool) AnyhowError) :=
  built <- build_emitter (EmitterEntry.to_emitter_config entry) ;;
  ret (match built with
       | Err e => Err e
       | Ok (Ready emitter) => Ok (emitter, false)
       | Ok (Channel emitter rx) => Ok (emitter, true)
       end).

Definition worker_of (entry : EmitterEntry.t) (emitter : Emitter W) : EmitterWorkerSpec.t W :=
  {| EmitterWorkerSpec.name := EmitterEntry.name entry;
     EmitterWorkerSpec.emitter := emitter;
     EmitterWorkerSpec.policy := RetryPolicyConfig.into_policy (EmitterEntry.retry entry);
     EmitterWorkerSpec.concurrency := EmitterEntry.concurrency entry;
     EmitterWorkerSpec.poll_interval := Duration_from_secs (EmitterEntry.poll_interval_seconds entry);
     EmitterWorkerSpec.lease_duration :=
       match EmitterEntry.lease_duration_seconds entry with
       | Some secs => Duration_from_secs secs
       | None => DEFAULT_LEASE_DURATION
       end;
     EmitterWorkerSpec.health := EmitterHealth.default |}.

(** What the loop of [spawn_emitter_workers] has so far: the health map, the workers and the
    names of the tasks, in order. *)
Record Spawned : Type := mkSpawned {
  emitter_health : gmap string EmitterHealth.t;
  workers : list (EmitterWorkerSpec.t W);
  worker_handles : list string
}.

(** An error comes with the tasks already spawned, which are drained before it is returned. *)
Fixpoint spawn_from (acc : Spawned) (entries : list EmitterEntry.t) :
    M W (result Spawned (AnyhowError * list string)) :=
  match entries with
  | [] => ret (Ok acc)
  | entry :: entries' =>
      built <- build_emitter_for_entry entry ;;
      match built with
      | Err err => ret (Err (err, worker_handles acc))
      | Ok (emitter, drained) =>
          let name := EmitterEntry.name entry in
          let handles := worker_handles acc ++ (if drained then [name +:+ "-drain"] else []) in
          spawn_from
            (mkSpawned (<[name := EmitterHealth.default]> (emitter_health acc))
               (workers acc ++ [worker_of entry emitter]) (handles ++ [name])) entries'
      end
  end.

Definition spawn_emitter_workers (config : HookboxConfig.t) :
    M W (result Spawned (AnyhowError * list string)) :=
  spawn_from (mkSpawned ∅ [] []) (HookboxConfig.emitters config).

(** [drain_worker_handles]: each task with whether it ended in a panic. *)
Definition drain_worker_handles (handles : list (string * bool)) : result unit AnyhowError :=
  let panicked := List.map fst (List.filter snd handles) in
  if bool_decide (panicked = []) then Ok tt
  else Err (anyhow ("shutdown completed but " +:+ pretty (Z.of_nat (List.length panicked)) +:+
                    " emitter task(s) panicked: [" +:+ RustStd.join ", " (List.map str_debug panicked) +:+ "]")).

(** [serve_inner] up to [axum::serve]: [connect] and [migrate] are the outcomes of the database
    connection and of the migrations, [rendered] what the metrics handle renders.  [None] is
    the panic of [build_pipeline]. *)
Definition serve_inner (config : HookboxConfig.t) (rendered : string)
    (connect migrate : result unit AnyhowError) :
    M W (option (result (AppState.t Node * Spawned) AnyhowError)) :=
  match validate_retry_config (HookboxConfig.retry config) with
  | Err e => ret (Some (Err e))
  | Ok _ =>
      match context "failed to connect to database" connect with
      | Err e => ret (Some (Err e))
      | Ok _ =>
          match context "database migration failed" migrate with
          | Err e => ret (Some (Err e))
          | Ok _ =>
              match build_pipeline config with
              | Err e => ret (Some (Err e))
              | Ok None => ret None
              | Ok (Some pipeline) =>
                  spawned <- spawn_emitter_workers config ;;
                  ret (Some (match spawned with
                    | Err (e, _) => Err e
                    | Ok s =>
                        Ok (AppState.mk pipeline true
                              (AdminConfig.bearer_token (HookboxConfig.admin config))
                              (Some rendered) (emitter_health s), s)
                    end))
              end
          end
      end
  end.
End serve.
