(* ===== verification/ServeProps.v ===== *)
(** * A started server verifies every configured provider and runs every configured emitter *)

From S2P Require Import Prelude RustStd F64 Types Traits Transitions Metrics Dedupe Database Samples Postgres Pipeline PipelineProps Config Providers Instances Node Worker Json Emitters Health Serve.
Local Open Scope Z_scope.

Lemma map_err_Ok {A E F} (f : E → F) (r : result A E) a : map_err f r = Ok a → r = Ok a.
Proof. destruct r; cbn; congruence. Qed.

(** A verifier for [name] that always decides. *)
Definition decides (name : string) (v : SignatureVerifier) : Prop :=
  provider_name v = name ∧
  ∀ t h b, VerificationResult.status (verify v t h b) ≠ VerificationStatus.Skipped.

Section verifiers.
Context `{Codecs} `{Crypto} `{Rsa}.

(** Every answer of a [verify] method is made by [failed] or [verified]. *)
Ltac always_decides :=
  split; [done|]; intros t h b; cbn;
  unfold StripeVerifier.verify, GenericHmacVerifier.verify, AdyenVerifier.verify,
    BvnkVerifier.verify, WalapayVerifier.verify, TripleACryptoVerifier.verify,
    TripleAFiatVerifier.verify, failed, verified;
  repeat case_match; done.

Lemma stripe_decides s : decides (StripeVerifier.provider s) (StripeVerifier.verifier s).
Proof. always_decides. Qed.
Lemma generic_decides s : decides (GenericHmacVerifier.provider s) (GenericHmacVerifier.verifier s).
Proof. always_decides. Qed.
Lemma adyen_decides s : decides (AdyenVerifier.provider s) (AdyenVerifier.verifier s).
Proof. always_decides. Qed.
Lemma bvnk_decides s : decides (BvnkVerifier.provider s) (BvnkVerifier.verifier s).
Proof. always_decides. Qed.
Lemma walapay_decides s : decides (WalapayVerifier.provider s) (WalapayVerifier.verifier s).
Proof. always_decides. Qed.
Lemma triplea_crypto_decides s :
  decides (TripleACryptoVerifier.provider s) (TripleACryptoVerifier.verifier s).
Proof. always_decides. Qed.
Lemma triplea_fiat_decides s :
  decides (TripleAFiatVerifier.provider s) (TripleAFiatVerifier.verifier s).
Proof. always_decides. Qed.

Lemma adyen_new_provider name s v : AdyenVerifier.new name s = Some v → AdyenVerifier.provider v = name.
Proof.
  unfold AdyenVerifier.new. case_decide; [done|]. destruct (hex_decode s); [|done]. by intros [= <-].
Qed.
Lemma walapay_new_provider name s v :
  WalapayVerifier.new name s = Some v → WalapayVerifier.provider v = name.
Proof.
  unfold WalapayVerifier.new. destruct (strip_prefix _ s) as [b|]; [|done]. cbn.
  destruct (base64_decode b) as [k|]; [|done]. cbn. case_decide; [done|]. by intros [= <-].
Qed.
Lemma triplea_new_provider name s v :
  TripleAFiatVerifier.new name s = Some v → TripleAFiatVerifier.provider v = name.
Proof. unfold TripleAFiatVerifier.new. destruct (from_public_key_pem s); [|done]. by intros [= <-]. Qed.

Lemma build_one_verifier_decides name p v : build_one_verifier name p = Ok v → decides name v.
Proof.
  unfold build_one_verifier. repeat case_decide; intros (s & _ & Hv)%and_then_Ok.
  - injection Hv as <-. destruct (ProviderConfig.tolerance_seconds p); apply stripe_decides.
  - destruct (AdyenVerifier.new name s) as [a|] eqn:E; [|done]. injection Hv as <-.
    rewrite <- (adyen_new_provider _ _ _ E). apply adyen_decides.
  - injection Hv as <-. apply bvnk_decides.
  - destruct (TripleAFiatVerifier.new name s) as [a|] eqn:E; [|done]. injection Hv as <-.
    rewrite <- (triplea_new_provider _ _ _ E). apply triplea_fiat_decides.
  - injection Hv as <-. destruct (ProviderConfig.tolerance_seconds p); apply triplea_crypto_decides.
  - destruct (WalapayVerifier.new name s) as [a|] eqn:E; [|done]. injection Hv as <-.
    rewrite <- (walapay_new_provider _ _ _ E).
    destruct (ProviderConfig.tolerance_seconds p);
      [apply (walapay_decides (WalapayVerifier.with_tolerance _ _))|apply walapay_decides].
  - injection Hv as <-. apply generic_decides.
  - injection Hv as <-. apply generic_decides.
  - injection Hv as <-. apply generic_decides.
Qed.
End verifiers.

(** ** The registered verifiers *)

Lemma register_app vs v : register (vs ++ [v]) = <[provider_name v := v]> (register vs).
Proof. unfold register. by rewrite foldl_app. Qed.

Lemma register_lookup vs name :
  match register vs !! name with
  | Some v => v ∈ vs ∧ provider_name v = name
  | None => ∀ v, v ∈ vs → provider_name v ≠ name
  end.
Proof.
  induction vs as [|v vs IH] using rev_ind.
  { unfold register. cbn [foldl]. rewrite lookup_empty. by intros v ?%elem_of_nil. }
  rewrite register_app, lookup_insert. case_decide as Hn.
  - split; [|done]. apply elem_of_app. right. by apply list_elem_of_singleton.
  - destruct (register vs !! name) as [v'|].
    + split; [|apply IH]. apply elem_of_app. left. apply IH.
    + intros v' [Hv'| ->%list_elem_of_singleton]%elem_of_app; auto.
Qed.

Section serve.
Context `{SerdeJson} `{PgTypes} `{UuidText} `{Codecs} `{Crypto} `{Rsa} `{ChronoText} `{JsonText}.

Lemma build_provider_verifiers_spec providers vs :
  build_provider_verifiers providers = Ok vs →
  (∀ name p, providers !! name = Some p → ∃ v, v ∈ vs ∧ decides name v) ∧
  (∀ v, v ∈ vs → ∃ name, is_Some (providers !! name) ∧ decides name v).
Proof.
  intros Hvs%try_collect_Forall2. split.
  - intros name p Hp. apply elem_of_btree_iter, list_elem_of_lookup in Hp as [i Hi].
    destruct (Forall2_lookup_l _ _ _ _ _ Hvs Hi) as (v & Hv & Hb%map_err_Ok).
    exists v. split; [by eapply list_elem_of_lookup_2|]. by eapply build_one_verifier_decides.
  - intros v [i Hi]%list_elem_of_lookup.
    destruct (Forall2_lookup_r _ _ _ _ _ Hvs Hi) as ([name p] & Hp & Hb%map_err_Ok).
    exists name. split; [|by eapply build_one_verifier_decides].
    exists p. apply elem_of_btree_iter. by eapply list_elem_of_lookup_2.
Qed.

Lemma build_pipeline_inv config pipeline :
  build_pipeline config = Ok (Some pipeline) →
  ∃ vs capacity, build_provider_verifiers (HookboxConfig.providers config) = Ok vs ∧
    pipeline = node_pipeline capacity (map EmitterEntry.name (HookboxConfig.emitters config)) vs.
Proof.
  unfold build_pipeline. destruct (_ =? 0); [done|].
  destruct (build_provider_verifiers _) as [vs|]; [|done]. cbn. rewrite build_pipeline_result.
  destruct (decide _); [|done]. intros [= <-]. eauto.
Qed.

(** C19: in a pipeline built from a configuration, verification is skipped exactly for the
    providers the configuration does not name: whatever the type, key material and tolerance
    of a configured provider, its webhooks are verified or rejected. *)
Theorem configured_provider_is_verified config pipeline name t h b :
  build_pipeline config = Ok (Some pipeline) →
  VerificationResult.status (verdict pipeline name t h b) = VerificationStatus.Skipped ↔
  HookboxConfig.providers config !! name = None.
Proof.
  intros (vs & capacity & Hvs & ->)%build_pipeline_inv.
  apply build_provider_verifiers_spec in Hvs as [Hall Honly].
  unfold verdict. cbn [HookboxPipeline.verifiers node_pipeline].
  pose proof (register_lookup vs name) as Hl. destruct (register vs !! name) as [v|].
  - destruct Hl as [Hin Hname]. destruct (Honly v Hin) as (n' & [p Hp] & Hn' & Hdec).
    split; [intros Hs; by destruct (Hdec t h b)|intros Hnone; congruence].
  - split; [intros _|done]. destruct (HookboxConfig.providers config !! name) as [p|] eqn:E; [|done].
    destruct (Hall name p E) as (v & Hin & Hn & _). by destruct (Hl v Hin).
Qed.

(** ** Workers *)

Context {W : Type} `{Rdkafka W} `{AsyncNats W} `{RedisClient W} `{AwsSqs W} `{Mpsc W}.

Lemma spawn_from_inv acc entries (w : W) s w' :
  spawn_from acc entries w = (Ok s, w') →
  map EmitterWorkerSpec.name (workers s) =
    map EmitterWorkerSpec.name (workers acc) ++ map EmitterEntry.name entries ∧
  (∀ name h, emitter_health s !! name = Some h →
     emitter_health acc !! name = Some h ∨ (h = EmitterHealth.default ∧ name ∈ map EmitterEntry.name entries)) ∧
  (∀ name, is_Some (emitter_health acc !! name) ∨ name ∈ map EmitterEntry.name entries →
     is_Some (emitter_health s !! name)).
Proof.
  revert acc w. induction entries as [|e entries IH]; intros acc w; cbn.
  { intros [= <- <-]. rewrite app_nil_r. split_and!; [done|by left|].
    intros name [?|Hn]; [done|by apply elem_of_nil in Hn]. }
  unfold bind. destruct (build_emitter_for_entry e w) as [[[emitter drained]|err] w1]; [|done].
  intros (Hw & Hh & Hs)%IH. cbn in Hw, Hh, Hs. split_and!.
  - rewrite Hw, map_app. cbn. by rewrite <- app_assoc.
  - intros name h Hn. destruct (Hh name h Hn) as [Ha|[-> Hin]].
    + rewrite lookup_insert in Ha. case_decide as Heq; [|by left].
      injection Ha as <-. right. split; [done|]. rewrite <- Heq. apply elem_of_cons. by left.
    + right. split; [done|]. apply elem_of_cons. by right.
  - intros name Hn. apply Hs. rewrite lookup_insert. rewrite elem_of_cons in Hn.
    case_decide; [left; eauto|]. naive_solver.
Qed.

(** C31: when the server starts, exactly the configured emitters have a worker, in order, and a
    health entry, which is the map the handlers read; so [/readyz] answers 200 as soon as the
    database answers and 503 while it does not; and the administration token is the one of
    the configuration. *)
Theorem started_server_is_ready config rendered connect migrate (w : W) state s w' :
  serve_inner config rendered connect migrate w = (Some (Ok (state, s)), w') →
  let names := map EmitterEntry.name (HookboxConfig.emitters config) in
  HookboxPipeline.emitter_names (AppState.pipeline state) = names ∧
  map EmitterWorkerSpec.name (workers s) = names ∧
  (∀ name, name ∈ names ↔ is_Some (AppState.emitter_health state !! name)) ∧
  (readyz state true).1 = StatusCode.OK ∧
  (readyz state false).1 = StatusCode.SERVICE_UNAVAILABLE ∧
  AppState.admin_token state = AdminConfig.bearer_token (HookboxConfig.admin config).
Proof.
  unfold serve_inner. destruct (validate_retry_config _); [|done].
  destruct (context _ connect); [|done]. destruct (context _ migrate); [|done].
  destruct (build_pipeline config) as [[pipeline|]|] eqn:Ep; [|done..].
  unfold bind. destruct (spawn_emitter_workers config w) as [[s'|[e l]] w1] eqn:Es; [|done].
  intros [= <- <- <-]. cbn zeta.
  apply build_pipeline_inv in Ep as (vs & capacity & _ & ->).
  apply spawn_from_inv in Es as (Hw & Hh & Hs). cbn in Hw.
  set (names := map EmitterEntry.name (HookboxConfig.emitters config)) in *.
  set (state := AppState.mk _ _ _ _ _).
  assert (∀ name, name ∈ names ↔ is_Some (emitter_health s' !! name)) as Hnames.
  { intros name. split; [auto|]. intros [h Hn]. destruct (Hh name h Hn) as [Hn'|[_ ?]]; [|done].
    cbn in Hn'. by rewrite lookup_empty in Hn'. }
  split_and!; try done.
  destruct (readyz_code state true) as [Hc|Hc]; [done|]. exfalso.
  apply readyz_unavailable in Hc as [Hc|Hc]; [done|].
  apply snapshot_exists in Hc as [(name & h & Hn & Hu)|(name & Hin & Hn)].
  - destruct (Hh name h Hn) as [Hn'|[-> _]]; [cbn in Hn'; by rewrite lookup_empty in Hn'|done].
  - apply Hnames in Hin. cbn in Hn. rewrite Hn in Hin. by destruct Hin.
Qed.

(** A validated entry never fails to build for want of a section or a known type: the only
    errors left at startup are those of the broker's client. *)
Theorem validated_entry_builds entry (w : W) err w' :
  valid_entry entry →
  build_emitter (EmitterEntry.to_emitter_config entry) w = (Err err, w') →
  ∃ what e, what ∈ ["Kafka"; "NATS"; "SQS"; "Redis"] ∧
    err = ["failed to create " +:+ what +:+ " emitter"; EmitError.to_string e].
Proof.
  intros (_ & _ & _ & _ & _ & _ & _ & Hty).
  assert (∀ {T} what (emit : T → NormalizedEvent.t → M W (result unit EmitError.t)) r,
    created what emit r = Err err → what ∈ ["Kafka"; "NATS"; "SQS"; "Redis"] →
    ∃ what e, what ∈ ["Kafka"; "NATS"; "SQS"; "Redis"] ∧
      err = ["failed to create " +:+ what +:+ " emitter"; EmitError.to_string e]) as Hcr.
  { intros T what emit [t|e]; cbn; [done|]. intros [= <-] Hin. eauto. }
  unfold build_emitter, bind, ret. cbn [EmitterEntry.to_emitter_config EmitterConfig.emitter_type
    EmitterConfig.kafka EmitterConfig.nats EmitterConfig.sqs EmitterConfig.redis].
  destruct Hty as [->|[[-> [c ->]]|[[-> [c ->]]|[[-> [c ->]]|[-> [c ->]]]]]]; repeat (case_decide; try done).
  - unfold ChannelEmitter.new, bind. rewrite decide_True by lia. cbn.
    by destruct (mpsc_channel 1024 w) as [[sender rx] w1].
  - intros [= Hc <-]. eapply Hcr; [exact Hc|]. set_solver.
  - destruct (NatsEmitter.new _ _ w) as [r w1]. intros [= Hc <-]. eapply Hcr; [exact Hc|]. set_solver.
  - destruct (SqsEmitter.new _ _ _ _ w) as [r w1]. intros [= Hc <-]. eapply Hcr; [exact Hc|]. set_solver.
  - destruct (RedisEmitter.new _ _ _ _ w) as [r w1]. intros [= Hc <-]. eapply Hcr; [exact Hc|]. set_solver.
Qed.
End serve.

(** ** A configured retry policy is usable by the worker *)

Lemma SFcompare_total x y :
  f64_is_nan x = false → f64_is_nan y = false → SFcompare (Prim2SF x) (Prim2SF y) ≠ None.
Proof.
  unfold f64_is_nan. intros Hx Hy.
  destruct (Prim2SF x) as [?| []| |[] ? ?]; destruct (Prim2SF y) as [?|[]| |[] ? ?]; try done; cbn;
    repeat case_match; done.
Qed.

Lemma SFcompare_swap x y c :
  SFcompare x y = Some c → SFcompare y x = Some (CompOpp c).
Proof.
  assert (∀ p q : positive, Pos.compare_cont Eq q p = CompOpp (Pos.compare_cont Eq p q)) as Hp
    by exact (λ p q, Pos.compare_antisym p q).
  destruct x as [?|[]| |[] mx ex], y as [?|[]| |[] my ey]; cbn; try (intros [= <-]; done);
    rewrite (Z.compare_antisym ex ey), (Hp mx my); destruct (ex ?= ey); cbn;
    try destruct (Pos.compare_cont Eq mx my); intros [= <-]; done.
Qed.

Lemma f64_not_ltb x y :
  f64_is_nan x = false → f64_is_nan y = false → (x <? y)%float = false → (y <=? x)%float = true.
Proof.
  intros Hx Hy. rewrite ltb_spec, leb_spec. unfold SFltb, SFleb.
  pose proof (SFcompare_total x y Hx Hy) as Ht.
  destruct (SFcompare (Prim2SF x) (Prim2SF y)) as [c|] eqn:E; [|done].
  rewrite (SFcompare_swap _ _ _ E). by destruct c.
Qed.

(** A validated entry whose jitter is a number and whose multiplier is finite and positive, which
    the validation does not ask, meets every assertion of [compute_backoff]: the debug build is
    the release build, and the worker waits at most [max_backoff_seconds]. *)
Theorem validated_retry_is_usable powi rand attempt entry :
  let retry := EmitterEntry.retry entry in
  let policy := RetryPolicyConfig.into_policy retry in
  valid_entry entry →
  f64_is_nan (RetryPolicyConfig.jitter retry) = false →
  f64_is_finite (RetryPolicyConfig.backoff_multiplier retry) = true →
  (0 <? RetryPolicyConfig.backoff_multiplier retry)%float = true →
  0 ≤ RetryPolicyConfig.initial_backoff_seconds retry →
  0 ≤ RetryPolicyConfig.max_backoff_seconds retry < 2 ^ 53 →
  1 ≤ attempt →
  compute_backoff_debug powi rand attempt policy = compute_backoff powi rand attempt policy ∧
  ∃ d, compute_backoff powi rand attempt policy = Some d ∧
       0 ≤ d ≤ Duration_from_secs (RetryPolicyConfig.max_backoff_seconds retry).
Proof.
  intros retry policy (_ & _ & _ & Hlo & Hhi & _) Hnan Hfin Hpos Hinit Hmax Hatt. split.
  - unfold compute_backoff_debug, backoff_assertions. cbn. fold retry.
    rewrite Hfin, Hpos, (proj2 (Z.ltb_lt 0 attempt)) by lia.
    by rewrite (f64_not_ltb _ 0 Hnan (eq_refl false) Hlo), (f64_not_ltb 1 _ (eq_refl false) Hnan Hhi).
  - edestruct (compute_backoff_in_cap powi rand attempt policy) as (d & Hd & H0 & Hc);
      [done..|cbn; unfold Duration_from_secs, nanos_per_sec; lia|].
    exists d. split; [done|]. split; [done|by apply Hc].
Qed.

(** A NaN jitter, and a multiplier of zero, pass the validation and the debug build panics on
    them. *)
Example unusable_retry_passes_and_panics powi retry :
  retry ∈ [RetryPolicyConfig.mk 5 30 3600 2 nan; RetryPolicyConfig.mk 5 30 3600 0 0] →
  validate_emitter_entries (E := string)
    [EmitterEntry.mk "events" "channel" 5 1 None None None None None retry] = Ok tt ∧
  compute_backoff_debug powi 0.5%float 1 (RetryPolicyConfig.into_policy retry) = None.
Proof. intros [->|[->|[]%not_elem_of_nil]%elem_of_cons]%elem_of_cons; by vm_compute. Qed.

(** ** Witnesses

    Client libraries of a machine without brokers: nothing can be connected to, but the
    channel works. *)

#[export] Instance unary_time : ChronoText := {| rfc3339 := λ t, unary (Z.to_nat t) |}.
#[export] Instance no_text : JsonText := {| json_text := λ _, "" |}.
#[export] Instance no_rsa : Rsa :=
  {| rsa_key := unit; rsa_signature := unit; from_public_key_pem := λ _, None;
     signature_try_from := λ _, None; rsa_sha512_verify := λ _ _ _, false |}.
#[export] Instance no_kafka : Rdkafka unit :=
  {| kafka_producer := unit; kafka_create := λ _, Err "no broker";
     kafka_send := λ _ _ _ _ _, ret (Err "no broker") |}.
#[export] Instance no_nats : AsyncNats unit :=
  {| nats_client := unit; nats_connect := λ _, ret (Err "no server");
     nats_publish := λ _ _ _, ret (Err "no server") |}.
#[export] Instance no_redis : RedisClient unit :=
  {| redis_client := unit; redis_conn := unit; redis_open := λ _, Ok tt;
     redis_connect := λ _ _, ret None; redis_xadd := λ _ _ _ _ _ _, ret None |}.
#[export] Instance no_sqs : AwsSqs unit :=
  {| sqs_client := unit; sqs_load := λ _ _, ret tt; sqs_send := λ _ _ _ _ _, ret None |}.
#[export] Instance unit_channel : Mpsc unit :=
  {| mpsc_sender := unit; mpsc_receiver := unit; mpsc_channel := λ _, ret (tt, tt);
     mpsc_send := λ _ _, ret (Ok tt); mpsc_recv := λ _, ret None |}.

(** One provider and the development emitter. *)
Definition sample_config : HookboxConfig.t :=
  HookboxConfig.mk ServerConfig.default (DatabaseConfig.mk "postgres://localhost" 10)
    {["stripe" := ProviderConfig.mk "stripe" (Some "whsec") None None (Some 60)]}
    (DedupeConfig.mk 8) (AdminConfig.mk (Some "s3cret")) RetryConfig.default None
    [EmitterEntry.from_legacy EmitterConfig.default RetryConfig.default].

Lemma configured_provider_is_verified_witness :
  ∃ pipeline, build_pipeline sample_config = Ok (Some pipeline) ∧
    ∀ t h b,
      VerificationResult.status (verdict pipeline "stripe" t h b) ≠ VerificationStatus.Skipped ∧
      VerificationResult.status (verdict pipeline "paypal" t h b) = VerificationStatus.Skipped.
Proof.
  eexists. split; [reflexivity|]. intros t h b. split.
  - intros Hs. eapply (configured_provider_is_verified sample_config) in Hs; [|reflexivity].
    vm_compute in Hs. discriminate.
  - apply (configured_provider_is_verified sample_config); reflexivity.
Defined.

Lemma started_server_is_ready_witness :
  ∃ state s, (serve_inner sample_config "" (Ok tt) (Ok tt) tt).1 = Some (Ok (state, s)) ∧
    (readyz state true).1 = StatusCode.OK ∧
    map EmitterWorkerSpec.name (workers s) = ["default"].
Proof.
  assert (match (serve_inner sample_config "" (Ok tt) (Ok tt) tt).1 with
          | Some (Ok _) => true | _ => false end = true) as Hstarts by (vm_compute; reflexivity).
  destruct (serve_inner sample_config "" (Ok tt) (Ok tt) tt) as [[[[state s]|e]|] w'] eqn:E;
    [|discriminate Hstarts..].
  exists state, s.
  destruct (started_server_is_ready sample_config "" (Ok tt) (Ok tt) tt state s w' E)
    as (_ & Hw & _ & Hr & _).
  split; [reflexivity|]. split; [exact Hr|exact Hw].
Defined.

Lemma validated_entry_builds_witness :
  let entry := EmitterEntry.mk "events" "redis" 5 1 None None None None
                 (Some (RedisEmitterConfig.mk "redis://localhost" "hooks" None 500))
                 RetryPolicyConfig.default in
  ∃ err, (build_emitter (EmitterEntry.to_emitter_config entry) tt).1 = Err err ∧
    ∃ what e, what ∈ ["Kafka"; "NATS"; "SQS"; "Redis"] ∧
      err = ["failed to create " +:+ what +:+ " emitter"; EmitError.to_string e].
Proof.
  intros entry. eexists. split; [vm_compute; reflexivity|].
  apply (validated_entry_builds entry tt _ tt).
  - split_and!; try (vm_compute; (reflexivity || discriminate)). right; right; right; right.
    split; [reflexivity|]. eexists. reflexivity.
  - vm_compute. reflexivity.
Defined.

Lemma validated_retry_is_usable_witness :
  let entry := EmitterEntry.from_legacy EmitterConfig.default RetryConfig.default in
  let policy := RetryPolicyConfig.into_policy (EmitterEntry.retry entry) in
  compute_backoff_debug (λ m _, m) 0.5%float 3 policy = compute_backoff (λ m _, m) 0.5%float 3 policy ∧
  ∃ d, compute_backoff (λ m _, m) 0.5%float 3 policy = Some d ∧
       0 ≤ d ≤ Duration_from_secs (RetryPolicyConfig.max_backoff_seconds (EmitterEntry.retry entry)).
Proof.
  intros entry policy.
  apply (validated_retry_is_usable (λ m _, m) 0.5%float 3 entry).
  - split_and!; [..|by left]; vm_compute; (reflexivity || discriminate).
  - reflexivity.
  - reflexivity.
  - reflexivity.
  - vm_compute. discriminate.
  - split; [vm_compute; discriminate|reflexivity].
  - lia.
Defined.
