(* ===== verification/Shutdown.v ===== *)
(** * crates/hookbox-server/src/shutdown.rs and the end of serve.rs

    The future that waits for a signal, as a function of the signals that arrive, and what
    [serve_inner] does once [axum::serve] has returned. *)

From S2P Require Import Prelude RustStd F64 Types Traits Config Worker Emitters Serve.
Local Open Scope Z_scope.
Local Open Scope rust_scope.

(** ** shutdown_signal *)

Inductive Signal : Type := SIGINT | SIGTERM.
#[export] Instance signal_eq_dec : EqDecision Signal.
Proof. solve_decision. Defined.

(** Whether the handlers could be installed; without its handler a branch is pending forever. *)
Record Handlers : Type := mkHandlers { ctrl_c : bool; terminate : bool }.

(** A branch is ready at the first of its signals. *)
Definition branch (installed : bool) (signal s : Signal) : bool :=
  installed && bool_decide (s = signal).

(** [tokio::select!] over the two branches, given the signals in the order they arrive: the
    signal that ended the wait and those that arrive later, or [None] while it still waits. *)
Fixpoint shutdown_signal (handlers : Handlers) (arrived : list Signal) : option (Signal * list Signal) :=
  match arrived with
  | [] => None
  | s :: later =>
      if branch (ctrl_c handlers) SIGINT s || branch (terminate handlers) SIGTERM s
      then Some (s, later)
      else shutdown_signal handlers later
  end.

(** The branch of a signal. *)
Definition handled (handlers : Handlers) (s : Signal) : bool :=
  match s with SIGINT => ctrl_c handlers | SIGTERM => terminate handlers end.

Lemma branches_handled handlers s :
  branch (ctrl_c handlers) SIGINT s || branch (terminate handlers) SIGTERM s = handled handlers s.
Proof. by destruct handlers as [[] []], s. Qed.

(** The wait ends at the first signal whose handler is installed, and not before; with neither
    handler it never ends. *)
Theorem shutdown_signal_spec handlers arrived s later :
  shutdown_signal handlers arrived = Some (s, later) ↔
  ∃ earlier, arrived = earlier ++ s :: later ∧ handled handlers s = true ∧
             ∀ s', s' ∈ earlier → handled handlers s' = false.
Proof.
  revert s later. induction arrived as [|x arrived IH]; intros s later; cbn [shutdown_signal].
  { split; [done|]. intros (earlier & Heq & _). by destruct earlier. }
  rewrite branches_handled. destruct (handled handlers x) eqn:Hx.
  - split.
    + intros [= <- <-]. exists []. split_and!; [done|done|]. by intros ? ?%not_elem_of_nil.
    + intros ([|y earlier] & [= <- ->] & Hs & Hbefore); [done|].
      rewrite Hbefore in Hx by (apply elem_of_cons; by left). done.
  - rewrite IH. split.
    + intros (earlier & -> & Hs & Hbefore). exists (x :: earlier). split_and!; [done|done|].
      intros s' [->|?]%elem_of_cons; auto.
    + intros ([|y earlier] & [= <- ->] & Hs & Hbefore); [congruence|]. exists earlier.
      split_and!; [done|done|]. intros s' ?. apply Hbefore, elem_of_cons. by right.
Qed.

Lemma shutdown_signal_spec_witness :
  shutdown_signal (mkHandlers false true) [SIGINT; SIGTERM; SIGINT] = Some (SIGTERM, [SIGINT]).
Proof.
  apply shutdown_signal_spec. exists [SIGINT]. split_and!; [reflexivity|reflexivity|].
  intros s ->%list_elem_of_singleton. reflexivity.
Defined.

(** ** The end of serve_inner *)

(** Once [axum::serve] has returned [served]: the workers are told to stop and drained whatever
    it returned; [tasks] says how each of them ended. *)
Definition after_serve (served : result unit AnyhowError) (tasks : list (string * bool)) :
    result unit AnyhowError :=
  let serve_result := context "server encountered a fatal error" served in
  let drain_result := drain_worker_handles tasks in
  match serve_result with
  | Err e => Err e
  | Ok _ => drain_result
  end.

(** A process ends without an error exactly when the server did and no task panicked; the error
    of the server wins over that of the tasks, and one that panicked is named. *)
Theorem after_serve_spec served tasks :
  match after_serve served tasks with
  | Ok _ => served = Ok tt ∧ ∀ name, (name, true) ∉ tasks
  | Err e =>
      (∃ cause, served = Err cause ∧ e = "server encountered a fatal error" :: cause) ∨
      (served = Ok tt ∧ (∃ name, (name, true) ∈ tasks) ∧ drain_worker_handles tasks = Err e)
  end.
Proof.
  unfold after_serve. destruct served as [[]|cause]; cbn; [|by left; exists cause].
  assert (∀ name, name ∈ List.map fst (List.filter snd tasks) ↔ (name, true) ∈ tasks) as Hpan.
  { intros name. rewrite elem_of_List_map. setoid_rewrite elem_of_List_filter. split.
    - by intros ([n b] & [Hin Hb] & ->); cbn in Hb; subst.
    - intros Hin. by exists (name, true). }
  destruct (drain_worker_handles tasks) as [[]|e] eqn:Hd; unfold drain_worker_handles in Hd;
    case_bool_decide as Hnone; try done.
  - split; [done|]. intros name Hin%Hpan. rewrite Hnone in Hin. by apply not_elem_of_nil in Hin.
  - right. split_and!; [done| |done].
    destruct (List.map fst (List.filter snd tasks)) as [|name l]; [done|].
    exists name. apply Hpan, elem_of_cons. by left.
Qed.
