(* ===== verification/Admin.v ===== *)
(** * crates/hookbox-server/src/routes/{admin,ingest}.rs and the router of lib.rs

    The HTTP handlers, over any backend: the world of a handler is the backends' state and the
    metrics emitted so far. *)

From S2P Require Import Prelude RustStd F64 Types Traits Transitions Database Postgres Metrics Pipeline Worker Json Health.
Local Open Scope Z_scope.
Local Open Scope rust_scope.

(** A response: a status with a JSON body, a text or nothing. *)
Inductive Body : Type := NoBody | Json (v : Value) | Text (s : string).
Record Response : Type := mkResponse { status_code : StatusCode.t; body : Body }.

Definition json_response (code : StatusCode.t) (v : Value) : Response := mkResponse code (Json v).
(** [json!({"error": ...})] *)
Definition error_json (text : string) : Value := VObject [("error", VString text)].

(** ** Query parameters *)

Module ListReceiptsQuery.
Record t : Type := mk {
  provider : option string; state : option ProcessingState.t; limit : option Z; offset : option Z
}.
End ListReceiptsQuery.

Module ListDlqQuery.
Record t : Type := mk { emitter : option string; limit : option Z; offset : option Z }.
End ListDlqQuery.

Module ReplayReceiptQuery.
Record t : Type := mk { emitter : option string }.
End ReplayReceiptQuery.

(** [check_auth] *)
Definition check_auth {W} (state : AppState.t W) (headers : HeaderMap) : result unit Response :=
  match AppState.admin_token state with
  | None => Ok tt
  | Some expected =>
      match header_get "authorization" headers with
      | None =>
          Err (json_response StatusCode.UNAUTHORIZED (error_json "missing authorization header"))
      | Some auth =>
          match to_str auth with
          | None =>
              Err (json_response StatusCode.UNAUTHORIZED (error_json "invalid authorization header"))
          | Some auth_str =>
              let expected_value := "Bearer " +:+ expected in
              if decide (auth_str ≠ expected_value)
              then Err (json_response StatusCode.UNAUTHORIZED (error_json "invalid token"))
              else Ok tt
          end
      end
  end.

Section json.
Context `{Codecs} `{UuidText} `{ChronoText}.

Definition receipt_list_item_json (receipt : WebhookReceipt.t)
    (deliveries : list WebhookDelivery.t) : Value :=
  let derived_state := receipt_aggregate_state deliveries (WebhookReceipt.processing_state receipt) in
  let summary := receipt_deliveries_summary deliveries in
  match receipt_value receipt with
  | VObject map =>
      let map := map_insert "processing_state" (VString (ProcessingState.serde_name derived_state)) map in
      let map := map_insert "deliveries_summary" (summary_value summary) map in
      VObject map
  | val => val
  end.

Definition receipt_detail_json (receipt : WebhookReceipt.t)
    (deliveries : list WebhookDelivery.t) : Value :=
  let derived_state := receipt_aggregate_state deliveries (WebhookReceipt.processing_state receipt) in
  let summary := receipt_deliveries_summary deliveries in
  match receipt_value receipt with
  | VObject map =>
      let map := map_insert "processing_state" (VString (ProcessingState.serde_name derived_state)) map in
      let map := map_insert "deliveries_summary" (summary_value summary) map in
      let map := map_insert "deliveries" (VArray (List.map delivery_value deliveries)) map in
      VObject map
  | val => val
  end.

Definition delivery_with_receipt_json (p : WebhookDelivery.t * WebhookReceipt.t) : Value :=
  VObject [("delivery", delivery_value p.1); ("receipt", receipt_value p.2)].
End json.

(** ** Handlers *)

Section handlers.
Context {W E : Type} `{Codecs} `{UuidText} `{ChronoText}.
(** The state, the backend's [DeliveryStorage] and the [Display] of its errors. *)
Variable state : AppState.t W.
Variable deliveries : DeliveryStorage W E.
Variable display : E → string.

Notation pipeline := (AppState.pipeline state).
Notation storage := (HookboxPipeline.storage pipeline).

(** The early return of [check_auth]. *)
Definition authorized (headers : HeaderMap) (handler : M W Response) : M W Response :=
  match check_auth state headers with
  | Err resp => ret resp
  | Ok _ => handler
  end.

Definition internal_error (text : string) : Response :=
  json_response StatusCode.INTERNAL_SERVER_ERROR (error_json text).
Definition not_configured (name : string) (id : Uuid) : Response :=
  json_response StatusCode.BAD_REQUEST
    (VObject
      [("error", VString ("emitter '" +:+ name +:+ "' is not currently configured"));
       ("hint", VString ("use POST /api/receipts/" +:+ uuid_to_string id +:+
                         "/replay?emitter=<configured-name>"))]).

(** The loop of [list_receipts]: the first failing load ends it. *)
Fixpoint list_items (receipts : list WebhookReceipt.t) : M W (result (list Value) Response) :=
  match receipts with
  | [] => ret (Ok [])
  | receipt :: receipts' =>
      loaded <- get_deliveries_for_receipt deliveries (WebhookReceipt.receipt_id receipt) ;;
      match loaded with
      | Err e => ret (Err (internal_error (display e)))
      | Ok rows =>
          items <-? list_items receipts' ;;
          ret (Ok (receipt_list_item_json receipt rows :: items))
      end
  end.

Definition list_receipts (headers : HeaderMap) (params : ListReceiptsQuery.t) : M W Response :=
  authorized headers
    (let filter := ReceiptFilter.mk (ListReceiptsQuery.provider params)
                     (ListReceiptsQuery.state params) None None
                     (ListReceiptsQuery.limit params) (ListReceiptsQuery.offset params) in
     receipts <- query storage filter ;;
     match receipts with
     | Err e => ret (internal_error (StorageError.to_string e))
     | Ok receipts =>
         items <- list_items receipts ;;
         ret (match items with
              | Err resp => resp
              | Ok items => json_response StatusCode.OK (VArray items)
              end)
     end).

(** [sort_by_key(|d| d.created_at)], which is stable. *)
Definition by_created_at : list WebhookDelivery.t → list WebhookDelivery.t :=
  merge_sort (λ x y, WebhookDelivery.created_at x <= WebhookDelivery.created_at y).

Definition get_receipt (headers : HeaderMap) (id : Uuid) : M W Response :=
  authorized headers
    (receipt <- get storage id ;;
     match receipt with
     | Ok None => ret (json_response StatusCode.NOT_FOUND (error_json "receipt not found"))
     | Err e => ret (internal_error (StorageError.to_string e))
     | Ok (Some receipt) =>
         loaded <- get_deliveries_for_receipt deliveries (WebhookReceipt.receipt_id receipt) ;;
         match loaded with
         | Err e => ret (internal_error (display e))
         | Ok rows =>
             ret (json_response StatusCode.OK (receipt_detail_json receipt (by_created_at rows)))
         end
     end).

(** The emitters a replay goes to: the requested one if it is configured, or all. *)
Definition replay_targets (requested : option string) : option (list string) :=
  match requested with
  | Some name =>
      if negb (bool_decide (name ∈ HookboxPipeline.emitter_names pipeline)) then None
      else Some [name]
  | None => Some (HookboxPipeline.emitter_names pipeline)
  end.

Definition replay_receipt (headers : HeaderMap) (id : Uuid) (params : ReplayReceiptQuery.t) :
    M W Response :=
  authorized headers
    (receipt <- get storage id ;;
     match receipt with
     | Ok None => ret (json_response StatusCode.NOT_FOUND (error_json "receipt not found"))
     | Err e => ret (internal_error (StorageError.to_string e))
     | Ok (Some receipt) =>
         match replay_targets (ReplayReceiptQuery.emitter params) with
         | None => ret (not_configured (unwrap_or (ReplayReceiptQuery.emitter params) "") id)
         | Some emitter_names =>
             inserted <- insert_replays deliveries (WebhookReceipt.receipt_id receipt) emitter_names ;;
             ret (match inserted with
                  | Err e => internal_error (display e)
                  | Ok ids =>
                      json_response StatusCode.ACCEPTED
                        (VObject [("delivery_ids",
                           VArray (List.map (λ d, uuid_value (DeliveryId.uuid d)) ids))])
                  end)
         end
     end).

Definition get_delivery_route (headers : HeaderMap) (id : Uuid) : M W Response :=
  authorized headers
    (found <- get_delivery deliveries (DeliveryId.mk id) ;;
     ret (match found with
          | Ok (Some p) => json_response StatusCode.OK (delivery_with_receipt_json p)
          | Ok None => json_response StatusCode.NOT_FOUND (error_json "delivery not found")
          | Err e => internal_error (display e)
          end)).

Definition replay_delivery (headers : HeaderMap) (id : Uuid) : M W Response :=
  authorized headers
    (found <- get_delivery deliveries (DeliveryId.mk id) ;;
     match found with
     | Ok None => ret (json_response StatusCode.NOT_FOUND (error_json "delivery not found"))
     | Err e => ret (internal_error (display e))
     | Ok (Some (delivery, _)) =>
         let name := WebhookDelivery.emitter_name delivery in
         if negb (bool_decide (name ∈ HookboxPipeline.emitter_names pipeline))
         then ret (not_configured name (ReceiptId.uuid (WebhookDelivery.receipt_id delivery)))
         else
           inserted <- insert_replay deliveries (WebhookDelivery.receipt_id delivery) name ;;
           ret (match inserted with
                | Ok new_delivery_id =>
                    json_response StatusCode.ACCEPTED
                      (VObject [("delivery_id", uuid_value (DeliveryId.uuid new_delivery_id))])
                | Err e => internal_error (display e)
                end)
     end).

Definition list_emitters (headers : HeaderMap) : M W Response :=
  authorized headers
    (let items := List.map (λ p,
       match snapshot_value p.2 with
       | VObject map => VObject (map_insert "name" (VString p.1) map)
       | val => val
       end) (btree_iter (emitter_snapshots state)) in
     ret (json_response StatusCode.OK (VArray items))).

Definition list_dlq_route (headers : HeaderMap) (params : ListDlqQuery.t) : M W Response :=
  authorized headers
    (let limit := unwrap_or (ListDlqQuery.limit params) 100 in
     let offset := unwrap_or (ListDlqQuery.offset params) 0 in
     listed <- list_dlq deliveries (ListDlqQuery.emitter params) limit offset ;;
     ret (match listed with
          | Ok pairs =>
              json_response StatusCode.OK (VArray (List.map delivery_with_receipt_json pairs))
          | Err e => internal_error (display e)
          end)).

(** ** routes/ingest.rs *)

Context `{SerdeJson} `{Crypto}.

Definition ingest_response (res : result IngestResult.t IngestError.t) : Response :=
  match res with
  | Ok (IngestResult.Accepted receipt_id) =>
      json_response StatusCode.OK
        (VObject [("status", VString "accepted");
                  ("receipt_id", uuid_value (ReceiptId.uuid receipt_id))])
  | Ok (IngestResult.Duplicate existing_id) =>
      json_response StatusCode.OK
        (VObject [("status", VString "duplicate");
                  ("existing_id", uuid_value (ReceiptId.uuid existing_id))])
  | Ok (IngestResult.VerificationFailed reason) =>
      json_response StatusCode.UNAUTHORIZED
        (VObject [("status", VString "verification_failed"); ("reason", VString reason)])
  | Err e =>
      json_response StatusCode.INTERNAL_SERVER_ERROR
        (VObject [("status", VString "error"); ("reason", VString "internal server error")])
  end.

Definition ingest_webhook (receipt_id : ReceiptId.t) (verify_now : Z) (now : DateTime)
    (provider : string) (headers : HeaderMap) (body : bytes) : M (World W) Response :=
  res <- HookboxPipeline.ingest pipeline receipt_id verify_now now provider headers body ;;
  ret (ingest_response res).

(** ** lib.rs: the router

    A request the router has matched to a route and whose path, query, headers and body the
    extractors have read; what the server draws and reads while it answers is part of it. *)
Inductive Request : Type :=
| PostWebhook (provider : string) (headers : HeaderMap) (body : bytes)
    (drawn : ReceiptId.t) (verify_now : Z) (now : DateTime)
| GetHealthz
| GetReadyz (ping : bool)
| GetReceipts (headers : HeaderMap) (params : ListReceiptsQuery.t)
| GetReceipt (headers : HeaderMap) (id : Uuid)
| PostReceiptReplay (headers : HeaderMap) (id : Uuid) (params : ReplayReceiptQuery.t)
| GetDlq (headers : HeaderMap) (params : ListDlqQuery.t)
| GetDelivery (headers : HeaderMap) (id : Uuid)
| PostDeliveryReplay (headers : HeaderMap) (id : Uuid)
| GetEmitters (headers : HeaderMap)
| GetMetrics.

Definition build_router (request : Request) : M (World W) Response :=
  match request with
  | PostWebhook provider headers body drawn verify_now now =>
      ingest_webhook drawn verify_now now provider headers body
  | GetHealthz => ret (mkResponse healthz NoBody)
  | GetReadyz ping =>
      let '(code, r) := readyz state ping in ret (json_response code (readyz_value r))
  | GetReceipts headers params => call (list_receipts headers params)
  | GetReceipt headers id => call (get_receipt headers id)
  | PostReceiptReplay headers id params => call (replay_receipt headers id params)
  | GetDlq headers params => call (list_dlq_route headers params)
  | GetDelivery headers id => call (get_delivery_route headers id)
  | PostDeliveryReplay headers id => call (replay_delivery headers id)
  | GetEmitters headers => call (list_emitters headers)
  | GetMetrics => ret (mkResponse StatusCode.OK (Text (metrics state)))
  end.

(** The headers a request to the administration API carries. *)
Definition admin_headers (request : Request) : option HeaderMap :=
  match request with
  | GetReceipts headers _ | GetReceipt headers _ | PostReceiptReplay headers _ _
  | GetDlq headers _ | GetDelivery headers _ | PostDeliveryReplay headers _
  | GetEmitters headers => Some headers
  | _ => None
  end.
End handlers.
