(* ===== verification/AdminProps.v ===== *)
(** * The administration API is guarded, and replays are all or nothing *)

From S2P Require Import Prelude RustStd F64 Types Traits Transitions Dedupe Database Samples DatabaseProps Postgres PostgresProps Metrics Pipeline PipelineProps Instances Node Worker Json Emitters Health Serve ServeProps Admin.
Local Open Scope Z_scope.

(** ** Authorization *)

(** The request carries the configured token. *)
Definition bears (token : string) (headers : HeaderMap) : Prop :=
  ∃ v, header_get "authorization" headers = Some v ∧ to_str v = Some ("Bearer " +:+ token).

Section auth.
Context {W : Type}.

Lemma check_auth_cases (state : AppState.t W) headers :
  (check_auth state headers = Ok tt ∧
   ∀ token, AppState.admin_token state = Some token → bears token headers) ∨
  (∃ text token, check_auth state headers = Err (json_response StatusCode.UNAUTHORIZED (error_json text)) ∧
     AppState.admin_token state = Some token ∧ ¬ bears token headers).
Proof.
  unfold check_auth, bears. destruct (AppState.admin_token state) as [expected|]; [|by left].
  destruct (header_get "authorization" headers) as [v|]; [|right; eexists _, _; split_and!; [done..|naive_solver]].
  destruct (to_str v) as [s|] eqn:Ev; [|right; eexists _, _; split_and!; [done..|]].
  - case_decide as Hs; [right; eexists _, _; split_and!; [done..|]|left; split; [done|]].
    + intros (v' & [= <-] & Hv'). congruence.
    + intros token [= <-]. exists v. split; [done|]. destruct (decide (s = "Bearer " +:+ expected)); [congruence|done].
  - intros (v' & [= <-] & Hv'). congruence.
Qed.

(** An administration request passes exactly when no token is configured or the first
    [Authorization] header is readable text equal to [Bearer <token>]. *)
Theorem check_auth_exact (state : AppState.t W) headers :
  check_auth state headers = Ok tt ↔
  match AppState.admin_token state with None => True | Some token => bears token headers end.
Proof.
  destruct (check_auth_cases state headers) as [[-> H]|(text & token & -> & Ht & Hn)].
  - split; [|done]. intros _. destruct (AppState.admin_token state); auto.
  - rewrite Ht. by split.
Qed.
End auth.

Section router.
Context {W E : Type} `{Codecs} `{UuidText} `{ChronoText} `{SerdeJson} `{Crypto}.
Variable state : AppState.t W.
Variable deliveries : DeliveryStorage W E.
Variable display : E → string.

(** C23: with a token configured, a request to any administration route without it is answered
    401, and neither the storage nor the metrics are touched: no handler does anything before
    the check. *)
Theorem unauthorized_request_is_inert request headers token w :
  admin_headers request = Some headers →
  AppState.admin_token state = Some token → ¬ bears token headers →
  ∃ text, build_router state deliveries display request w =
          (json_response StatusCode.UNAUTHORIZED (error_json text), w).
Proof.
  intros Hreq Ht Hn.
  destruct (check_auth_cases state headers) as [[_ Hb]|(text & token' & Hc & _)]; [by destruct Hn; auto|].
  exists text. assert (∀ h : M W Response,
    call (authorized state headers h) w = (json_response StatusCode.UNAUTHORIZED (error_json text), w)) as Ha.
  { intros h. unfold call, authorized. rewrite Hc. by destruct w. }
  destruct request; cbn in Hreq; try done; injection Hreq as ->; apply Ha.
Qed.

(** ** What the sender of a webhook may conclude from the status *)

Context `{C : !StorageContract (HookboxPipeline.storage (AppState.pipeline state))}
        `{A : !AdvisoryDedupe (HookboxPipeline.storage (AppState.pipeline state))
                (HookboxPipeline.dedupe (AppState.pipeline state))}.

(** C4: the answer to a webhook is 200, 401 or 500; 200 means that the event's key is owned by
    the stored receipt whose id is in the body, so the sender may forget the event; 401 means
    that nothing was stored, and is sent exactly when the registered verifier rejects. *)
Theorem webhook_status_is_truthful provider headers body id t now w resp w' :
  let key := HookboxPipeline.dedupe_key provider (compute_payload_hash body) in
  let rejected := VerificationResult.status
                    (verdict (AppState.pipeline state) provider t headers body) =
                  VerificationStatus.Failed in
  build_router state deliveries display (PostWebhook provider headers body id t now) w = (resp, w') →
  (status_code resp = StatusCode.UNAUTHORIZED ↔ rejected) ∧
  match status_code resp with
  | StatusCode.OK =>
      ∃ owner label member, key_owner w'.1 key = Some owner ∧
        Admin.body resp = Json (VObject [("status", VString label);
                                         (member, uuid_value (ReceiptId.uuid owner))])
  | StatusCode.UNAUTHORIZED => w'.1 = w.1
  | StatusCode.INTERNAL_SERVER_ERROR => True
  | _ => False
  end.
Proof.
  intros key rejected. cbn [build_router]. unfold ingest_webhook, bind, ret.
  destruct w as [w ms]. destruct (HookboxPipeline.ingest _ _ _ _ _ _ _ _) as [res [w1 ms1]] eqn:Hrun.
  apply (ingest_outcome _ (C := C) (A := A)) in Hrun. intros [= <- <-]. unfold outcome in Hrun. fold rejected in Hrun.
  destruct res as [[id'|id'|reason]|[e|e|e|e]]; cbn.
  - destruct Hrun as (-> & Hnr & (_ & Hk & _)). split; [done|].
    eexists _, _, _. split; [|done]. rewrite Hk. by rewrite decide_True.
  - destruct Hrun as (Hnr & Hk & (Hko & _)). split; [done|].
    eexists _, _, _. split; [|done]. by rewrite Hko.
  - destruct Hrun as [Hr ->]. done.
  - by destruct Hrun as [Hnr _].
  - by destruct Hrun as [Hnr _].
  - done.
  - done.
Qed.
End router.

(** ** Reading a receipt *)

Section node_api.
Context `{SerdeJson} `{PgTypes} `{UuidText} `{Codecs} `{Crypto} `{ChronoText}.

(** [PostgresStorage] as the backend of the handlers of a server process. *)
Definition node_deliveries : DeliveryStorage Node StorageError.t :=
  let d := PostgresStorage.delivery_storage in
  {| Traits.claim_pending := λ n b, on_pg (claim_pending d n b);
     Traits.reclaim_expired := λ n l, on_pg (reclaim_expired d n l);
     Traits.mark_emitted := λ i, on_pg (mark_emitted d i);
     Traits.mark_failed := λ i a t e, on_pg (mark_failed d i a t e);
     Traits.mark_dead_lettered := λ i e, on_pg (mark_dead_lettered d i e);
     Traits.count_dlq := λ n, on_pg (count_dlq d n);
     Traits.count_pending := λ n, on_pg (count_pending d n);
     Traits.count_in_flight := λ n, on_pg (count_in_flight d n);
     Traits.insert_replay := λ i n, on_pg (insert_replay d i n);
     Traits.insert_replays := λ i ns, on_pg (insert_replays d i ns);
     Traits.get_delivery := λ i, on_pg (get_delivery d i);
     Traits.get_deliveries_for_receipt := λ i, on_pg (get_deliveries_for_receipt d i);
     Traits.list_dlq := λ n l o, on_pg (list_dlq d n l o) |}.

(** C24: a replay is all or nothing.  202 means that one new pending row per target was added
    for an existing receipt (the requested emitter, or every configured one), in one
    transaction, and the body lists exactly their ids; on 500 either nothing was added or all
    of them; any other answer adds nothing. *)
Theorem replay_is_all_or_nothing (state : AppState.t Node) headers id params n resp n' :
  HookboxPipeline.storage (AppState.pipeline state) = node_storage →
  replay_receipt state node_deliveries StorageError.to_string headers id params n = (resp, n') →
  let targets := replay_targets state (ReplayReceiptQuery.emitter params) in
  match status_code resp with
  | StatusCode.ACCEPTED =>
      id ∈ map ReceiptRow.receipt_id (webhook_receipts (db (pg n))) ∧
      ∃ names new, targets = Some names ∧ replayed id names (db (pg n)) (db (pg n')) new ∧
        body resp = Json (VObject [("delivery_ids",
          VArray (map (λ x, uuid_value (DeliveryRow.delivery_id x)) new))])
  | StatusCode.INTERNAL_SERVER_ERROR =>
      db (pg n') = db (pg n) ∨
      ∃ names new, targets = Some names ∧ replayed id names (db (pg n)) (db (pg n')) new
  | _ => db (pg n') = db (pg n)
  end.
Proof.
  intros Hst. unfold replay_receipt, authorized.
  destruct (check_auth_cases state headers) as [[-> _]|(text & token & -> & _)];
    [|by intros [= <- <-]].
  rewrite Hst. unfold bind. cbn [node_storage Traits.get]. unfold on_pg at 1.
  destruct (PostgresStorage.get id (pg n)) as [res w1] eqn:Eg. apply get_inv in Eg as [Hdb Hres].
  destruct res as [[r|]|e]; [|by intros [= <- <-]|intros [= <- <-]; by left].
  destruct Hres as [Hid Hin].
  destruct (replay_targets state (ReplayReceiptQuery.emitter params)) as [names|];
    [|by intros [= <- <-]].
  cbn [node_deliveries Traits.insert_replays PostgresStorage.delivery_storage]. unfold on_pg.
  cbn [pg cache].
  destruct (WebhookReceipt.receipt_id r) as [i]. cbn in Hid. subst i.
  destruct (PostgresStorage.insert_replays (ReceiptId.mk id) names w1) as [ins w2] eqn:Ei.
  apply insert_replays_inv in Ei. cbn [ReceiptId.uuid] in Ei. rewrite Hdb in Ei.
  destruct ins as [ids|e]; intros [= <- <-]; cbn.
  - destruct Ei as (new & Hrep & _ & ->). split; [done|]. exists names, new. split_and!; [done..|].
    by rewrite map_map.
  - destruct Ei as [Heq|(new & Hrep & _)]; [by left|right; eauto].
Qed.

#[export] Instance created_total :
  Total (λ x y, WebhookDelivery.created_at x <= WebhookDelivery.created_at y).
Proof. intros x y. lia. Qed.
#[export] Instance created_trans :
  Transitive (λ x y, WebhookDelivery.created_at x <= WebhookDelivery.created_at y).
Proof. intros x y z. lia. Qed.

(** C25: without faults, an authorized [GET /api/receipts/{id}] of a stored receipt answers 200
    with that receipt and all its delivery rows in order of creation; the [processing_state]
    it shows is the state derived from the rows, not the stored one; nothing changes. *)
Theorem get_receipt_shows_derived_state (state : AppState.t Node) headers n row :
  HookboxPipeline.storage (AppState.pipeline state) = node_storage →
  check_auth state headers = Ok tt →
  healthy (pg n) → db_wf (db (pg n)) → row ∈ webhook_receipts (db (pg n)) →
  ∃ r ds n',
    get_receipt state node_deliveries StorageError.to_string headers (ReceiptRow.receipt_id row) n =
      (json_response StatusCode.OK (receipt_detail_json r ds), n') ∧
    db_receipt r = row ∧
    map db_delivery ds ≡ₚ deliveries_of (ReceiptRow.receipt_id row) (db (pg n)) ∧
    StronglySorted (λ x y, WebhookDelivery.created_at x <= WebhookDelivery.created_at y) ds ∧
    value_get "processing_state" (receipt_detail_json r ds) =
      Some (VString (ProcessingState.serde_name
              (receipt_aggregate_state ds (WebhookReceipt.processing_state r)))) ∧
    value_get "deliveries" (receipt_detail_json r ds) = Some (VArray (List.map delivery_value ds)) ∧
    db (pg n') = db (pg n).
Proof.
  intros Hst Hauth Hw Hwf Hrow. destruct (get_healthy (pg n) row Hw Hwf Hrow) as (r & Hr & Hget).
  assert (WebhookReceipt.receipt_id r = ReceiptId.mk (ReceiptRow.receipt_id row)) as Hid.
  { rewrite <- Hr. cbn. by destruct (WebhookReceipt.receipt_id r). }
  destruct (get_deliveries_healthy (ReceiptRow.receipt_id row) (tick (pg n))) as (ds & Hds & Hperm);
    [by apply healthy_tick|done|].
  exists r, (by_created_at ds), (mkNode (tick (tick (pg n))) (cache n)). split_and!.
  - unfold get_receipt, authorized. rewrite Hauth, Hst. unfold bind.
    cbn [node_storage Traits.get node_deliveries Traits.get_deliveries_for_receipt
         PostgresStorage.delivery_storage]. unfold on_pg. rewrite Hget. cbn [pg cache].
    by rewrite Hid, Hds.
  - done.
  - unfold by_created_at. by rewrite merge_sort_Permutation.
  - apply StronglySorted_merge_sort; apply _.
  - reflexivity.
  - reflexivity.
  - done.
Qed.
End node_api.

(** ** Witnesses *)

Definition sample_state : AppState.t Node :=
  AppState.mk sample_pipeline true (Some "s3cret") None ∅.
Definition token_headers (token : string) : HeaderMap :=
  mkHeaderMap ["authorization"]
    (λ n, if decide (n = "authorization") then [mkHeaderValue (Some ("Bearer " +:+ token))] else []).
(** A node that has stored one webhook. *)
Definition stored_node : Node := (sample_ingest 7%N "stripe" sample_node).2.1.

Lemma unauthorized_request_is_inert_witness :
  ∃ text, build_router sample_state node_deliveries StorageError.to_string
            (PostReceiptReplay (token_headers "guess") 7%N (ReplayReceiptQuery.mk None))
            (stored_node, []) =
          (json_response StatusCode.UNAUTHORIZED (error_json text), (stored_node, [])).
Proof.
  apply (unauthorized_request_is_inert sample_state node_deliveries StorageError.to_string
           _ (token_headers "guess") "s3cret"); [reflexivity|reflexivity|].
  intros (v & Hv & Ht). cbn in Hv. injection Hv as <-. vm_compute in Ht. discriminate.
Defined.

Lemma webhook_status_is_truthful_witness :
  let p := build_router sample_state node_deliveries StorageError.to_string
             (PostWebhook "stripe" sample_headers sample_body (ReceiptId.mk 9%N) 0 1000)
             (stored_node, []) in
  status_code p.1 = StatusCode.OK ∧
  ∃ owner label member,
    pg_key_owner (pg p.2.1) (HookboxPipeline.dedupe_key "stripe" (compute_payload_hash sample_body)) =
      Some owner ∧
    Admin.body p.1 = Json (VObject [("status", VString label);
                                    (member, uuid_value (ReceiptId.uuid owner))]).
Proof.
  intros p. assert (status_code p.1 = StatusCode.OK) as Hp by (vm_compute; reflexivity).
  split; [exact Hp|].
  pose proof (webhook_status_is_truthful sample_state node_deliveries StorageError.to_string
    (C := node_contract) (A := node_dedupe_advisory 4) "stripe" sample_headers sample_body
    (ReceiptId.mk 9%N) 0 1000 (stored_node, []) p.1 p.2 (surjective_pairing p)) as [_ H].
  rewrite Hp in H. exact H.
Defined.

Lemma replay_is_all_or_nothing_witness :
  let p := replay_receipt sample_state node_deliveries StorageError.to_string
             (token_headers "s3cret") 7%N (ReplayReceiptQuery.mk (Some "nats")) stored_node in
  status_code p.1 = StatusCode.ACCEPTED ∧
  ∃ names new, replay_targets sample_state (Some "nats") = Some names ∧
    replayed 7%N names (db (pg stored_node)) (db (pg p.2)) new.
Proof.
  intros p. assert (status_code p.1 = StatusCode.ACCEPTED) as Hp by (vm_compute; reflexivity).
  split; [exact Hp|].
  pose proof (replay_is_all_or_nothing sample_state (token_headers "s3cret") 7%N
    (ReplayReceiptQuery.mk (Some "nats")) stored_node p.1 p.2 eq_refl (surjective_pairing p)) as H.
  cbn zeta in H. rewrite Hp in H. destruct H as (_ & names & new & Ht & Hn & _).
  exists names, new. split; [exact Ht|exact Hn].
Defined.

Lemma get_receipt_shows_derived_state_witness :
  ∃ row r ds n', row ∈ webhook_receipts (db (pg stored_node)) ∧
    get_receipt sample_state node_deliveries StorageError.to_string (token_headers "s3cret")
      (ReceiptRow.receipt_id row) stored_node =
      (json_response StatusCode.OK (receipt_detail_json r ds), n').
Proof.
  destruct (webhook_receipts (db (pg stored_node))) as [|row l] eqn:E; [vm_compute in E; discriminate|].
  exists row.
  destruct (get_receipt_shows_derived_state sample_state (token_headers "s3cret") stored_node row)
    as (r & ds & n' & H & _).
  - reflexivity.
  - vm_compute. reflexivity.
  - vm_compute. reflexivity.
  - vm_decide.
  - rewrite E. apply elem_of_cons. by left.
  - exists r, ds, n'. split; [apply elem_of_cons; by left|exact H].
Defined.
