(* ===== verification/TestServer.v ===== *)
(** * scenario-tests/src/{server_harness,steps_server}.rs: a running server

    The router over one database with one spawned worker per emitter, as a system of concurrent
    tasks: a request is answered, or the timer of a worker fires and its loop makes one
    iteration, polling the dispatches of its batch in an arbitrary order.  Tasks interleave
    between requests and iterations, in any order.  Also [ServerWorld] of world.rs and the steps
    of the server scenarios. *)

From S2P Require Import Prelude Futures RustStd F64 Types Traits Transitions Dedupe Metrics Database Postgres Pipeline Node Worker Dispatch WorkerProps Json Emitters Health Admin AdminProps Memory.
Local Open Scope Z_scope.
Local Open Scope rust_scope.

Definition FAKE_PROVIDER : string := "fake".

Module EmitterSpec.
Record t : Type := mk {
  name : string;
  fake : FakeEmitter.t;
  policy : RetryPolicy.t;
  concurrency : Z
}.

Definition new (name : string) (fake : FakeEmitter.t) : t :=
  mk name fake (RetryPolicy.mk 2 (Duration_from_secs 1) (Duration_from_secs 2) 2%float 0%float) 1.
Definition with_policy (policy : RetryPolicy.t) (self : t) : t :=
  mk (name self) (fake self) policy (concurrency self).
End EmitterSpec.

(** ** TestServer *)
Module TestServer.

(** What the emitter of a worker works on: the fake, and the clocks it reads. *)
Notation Broker := (FakeEmitter.t * Env)%type.

(** A spawned worker: its settings, the part of the process that is its own (its emitter, health,
    metrics and clock), and whether its task has not ended. *)
Record Task : Type := mkTask {
  worker : EmitterWorker.t (Pg * Broker) StorageError.t;
  local : WorkerWorld Broker;
  running : bool
}.

(** [handles] are the entries of both maps by name, [emitters] and [emitter_health], which share
    the fake and the health of a task with its worker. *)
Record t : Type := mk {
  node : Node;
  metrics : list Metric;
  process : Env;
  pipeline : HookboxPipeline.t Node;
  handles : gmap string nat;
  tasks : list Task;
  shutdown_tx : bool
}.

Definition set_node (n : Node) (s : t) : t :=
  mk n (metrics s) (process s) (pipeline s) (handles s) (tasks s) (shutdown_tx s).
Definition set_tasks (ts : list Task) (s : t) : t :=
  mk (node s) (metrics s) (process s) (pipeline s) (handles s) ts (shutdown_tx s).
Definition set_pg (p : Pg) (s : t) : t := set_node (mkNode p (cache (node s))) s.

(** The streams a worker reads: its clock, its random numbers, and those of its emitter. *)
Record Streams : Type := mkStreams {
  wall : nat → DateTime; random : nat → f64; fake_env : Env
}.

(** What starting a server depends on: the container with its pool and the migrations, the
    listener, and what the process reads later. *)
Record Launch : Type := mkLaunch {
  booted : result Pg AnyhowError;
  bound : result unit AnyhowError;
  process_env : Env;
  streams : nat → Streams
}.

(** Workers whose timers fire, each with the order of the polls of its batch. *)
Definition Fires : Type := list (nat * list nat).

Section server.
Context `{SerdeJson} `{PgTypes} `{UuidText} `{Codecs} `{Crypto} `{ChronoText}.
Variable powi : f64 → Z → f64.

Definition emitter_worker (spec : EmitterSpec.t) : EmitterWorker.t (Pg * Broker) StorageError.t :=
  pg_worker FakeEmitter.emit (EmitterSpec.name spec) (EmitterSpec.policy spec) (EmitterSpec.concurrency spec)
    (100 * 1000000) (Duration_from_secs 30).

Definition spawn_task (io : Streams) (spec : EmitterSpec.t) : Task :=
  mkTask (emitter_worker spec)
    (mkWorld (EmitterSpec.fake spec, fake_env io) EmitterHealth.default [] (wall io) 0 (random io) 0) true.

(** One [insert] per spec: a later one of the same name replaces the handle of an earlier one,
    whose worker still runs. *)
Definition register_handles (specs : list EmitterSpec.t) : gmap string nat :=
  foldl (λ m p, <[EmitterSpec.name p.2 := p.1]> m) ∅ (imap pair specs).

(** [None] is a panic. *)
Definition start (launch : Launch) (specs : list EmitterSpec.t) : option (result t AnyhowError) :=
  match booted launch with
  | Err e => Some (Err e)
  | Ok pool =>
      match Node.build_pipeline 1024 (map EmitterSpec.name specs) [PassVerifier FAKE_PROVIDER] with
      | None => None
      | Some pipeline =>
          match bound launch with
          | Err e => Some (Err e)
          | Ok _ =>
              Some (Ok (mk (mkNode pool (InMemoryRecentDedupe.mkInner ∅ [])) [] (process_env launch) pipeline
                          (register_handles specs)
                          (imap (λ i spec, spawn_task (streams launch i) spec) specs) false))
          end
      end
  end.

Definition emitter (name : string) (s : t) : option FakeEmitter.t :=
  i ← handles s !! name; task ← tasks s !! i; Some (backend (local task)).1.

(** The state of the handlers: the health of an emitter is read from its worker. *)
Definition app_state (s : t) : AppState.t Node :=
  AppState.mk (pipeline s) true None None
    (omap (λ i, (λ task, health (local task)) <$> tasks s !! i) (handles s)).

(** A request, answered by the router. *)
Definition handle (request : Request) : M t Response := λ s,
  let '(response, (n, ms)) :=
    build_router (app_state s) node_deliveries StorageError.to_string request (node s, metrics s) in
  (response, mk n ms (process s) (pipeline s) (handles s) (tasks s) (shutdown_tx s)).

(** What the handler of a webhook reads: a new id, and the clock. *)
Definition draw_receipt : M Env (Uuid * DateTime) :=
  id <- new_uuid ;; now <- utc_now ;; ret (id, now).

(** [POST /webhooks/{provider}] *)
Definition post_webhook (provider : string) (headers : HeaderMap) (body : bytes) : M t Response := λ s,
  let '((id, now), e) := draw_receipt (process s) in
  handle (PostWebhook provider headers body (ReceiptId.mk id) (now / 1000000000) now)
    (mk (node s) (metrics s) e (pipeline s) (handles s) (tasks s) (shutdown_tx s)).

(** The loop of a worker goes on with [woken], polling a batch in [order]: its task ends when the
    loop is left or panics, and the server does not notice. *)
Definition wake (woken : EmitterWorker.Wake) (order : list nat) (i : nat) (s : t) : t :=
  match tasks s !! i with
  | Some task =>
      if running task then
        let l := local task in
        let '(r, w) := EmitterWorker.run powi (worker task) [(woken, order, shutdown_tx s)]
          (mkWorld (pg (node s), backend l) (health l) (Worker.metrics l) (wall_clock l) (clock_reads l)
             (randoms l) (random_reads l)) in
        let task' := mkTask (worker task)
          (mkWorld (backend w).2 (health w) (Worker.metrics w) (wall_clock w) (clock_reads w) (randoms w)
             (random_reads w))
          (match r with Ok broke => negb broke | Err _ => false end) in
        set_pg (backend w).1 (set_tasks (<[i := task']> (tasks s)) s)
      else s
  | None => s
  end.

(** The timers of these workers fire, in this order. *)
Definition timers (wakes : Fires) (s : t) : t :=
  foldl (λ s p, wake EmitterWorker.Timer p.2 p.1 s) s wakes.

Definition stop (task : Task) : Task := mkTask (worker task) (local task) false.

(** [shutdown]: every task sees the flag and is awaited. *)
Definition shutdown (s : t) : t :=
  mk (node s) (metrics s) (process s) (pipeline s) (handles s) (map stop (tasks s)) true.
End server.
End TestServer.

(** ** ServerWorld and steps_server.rs *)
Module ServerWorld.
Record t : Type := mk {
  server : option TestServer.t;
  last_status : option Z;
  last_body : option Body
}.
Definition new : t := mk None None None.
Definition install (s : TestServer.t) (w : t) : t := mk (Some s) (last_status w) (last_body w).
End ServerWorld.

Definition as_u16 (code : StatusCode.t) : Z :=
  match code with
  | StatusCode.OK => 200 | StatusCode.ACCEPTED => 202 | StatusCode.BAD_REQUEST => 400
  | StatusCode.UNAUTHORIZED => 401 | StatusCode.NOT_FOUND => 404
  | StatusCode.INTERNAL_SERVER_ERROR => 500 | StatusCode.SERVICE_UNAVAILABLE => 503
  end.

Module ServerSteps.
Notation Step := (M ServerWorld.t (result unit Panic)).

Section steps.
Context `{SerdeJson} `{PgTypes} `{UuidText} `{Codecs} `{Crypto} `{ChronoText} `{JsonText}.
Variable powi : f64 → Z → f64.
Variable launch : TestServer.Launch.
(** The headers of the HTTP client. *)
Variable client_headers : HeaderMap.

(** [converge]: the check is polled until it holds or the deadline has passed; [sleeps] has one
    entry per sleep before the deadline, with the timers that fire during it. *)
Fixpoint converge (check : M TestServer.t bool) (sleeps : list TestServer.Fires) : M TestServer.t bool := λ s,
  let '(ok, s) := check s in
  if ok then (true, s)
  else match sleeps with
       | [] => (false, s)
       | wakes :: rest => converge check rest (TestServer.timers powi wakes s)
       end.

(** [world.server()] panics without a server. *)
Definition on_server {A} (m : M TestServer.t (result A Panic)) : M ServerWorld.t (result A Panic) := λ w,
  match ServerWorld.server w with
  | None => (Err panic, w)
  | Some s => let '(r, s) := m s in (r, ServerWorld.install s w)
  end.

Definition assert (b : bool) : result unit Panic := if b then Ok tt else Err panic.

(** [TestServer::start(...).await.expect(...)] and [world.install] *)
Definition given_server (specs : list EmitterSpec.t) : Step := λ w,
  match TestServer.start launch specs with
  | Some (Ok s) => (Ok tt, ServerWorld.install s w)
  | _ => (Err panic, w)
  end.

Definition given_two_healthy : Step :=
  given_server [EmitterSpec.new "primary" (FakeEmitter.new "primary" EmitterBehavior.Healthy);
                EmitterSpec.new "secondary" (FakeEmitter.new "secondary" EmitterBehavior.Healthy)].
Definition given_flaky (name : string) : Step :=
  given_server [EmitterSpec.new "healthy" (FakeEmitter.new "healthy" EmitterBehavior.Healthy);
                EmitterSpec.new name (FakeEmitter.new name (EmitterBehavior.FailUntilAttempt 2))].
Definition given_always_fail (name : string) : Step :=
  given_server [EmitterSpec.new "healthy" (FakeEmitter.new "healthy" EmitterBehavior.Healthy);
                EmitterSpec.new name (FakeEmitter.new name EmitterBehavior.AlwaysFail)].

(** The body of the response is kept as the router made it. *)
Definition when_post (id : string) : Step := λ w,
  match ServerWorld.server w with
  | None => (Err panic, w)
  | Some s =>
      let body := as_bytes (json_text (VObject [("id", VString id)])) in
      let '(resp, s) := TestServer.post_webhook FAKE_PROVIDER client_headers body s in
      (Ok tt, ServerWorld.mk (Some s) (Some (as_u16 (status_code resp))) (Some (Admin.body resp)))
  end.

Definition then_status (code : Z) : Step := λ w,
  (assert (bool_decide (ServerWorld.last_status w = Some code)), w).

(** A check of the fake of [name], which the step looks up first. *)
Definition converge_on_fake (name : string) (check : FakeEmitter.t → bool) (sleeps : list TestServer.Fires) : Step :=
  on_server (λ s,
    match TestServer.emitter name s with
    | None => (Err panic, s)
    | Some _ =>
        let '(ok, s) := converge (λ s, (match TestServer.emitter name s with
                                        | Some fake => check fake
                                        | None => false
                                        end, s)) sleeps s in
        (assert ok, s)
    end).

Definition then_emitter_receives (name : string) (count : nat) : list TestServer.Fires → Step :=
  converge_on_fake name (λ fake, bool_decide (count ≤ FakeEmitter.received_count fake)%nat).
Definition then_attempts_at_least (name : string) (min : Z) : list TestServer.Fires → Step :=
  converge_on_fake name (λ fake, min <=? FakeEmitter.attempts fake).

(** The rows counted by [WHERE emitter_name = $1 AND state = $2]. *)
Definition in_state (emitter state : string) (_ : Clock) (d : DeliveryRow.t) : bool :=
  bool_decide (DeliveryRow.emitter_name d = emitter) && bool_decide (DeliveryRow.state d = state).

Definition then_delivery_rows (expected : Z) (emitter state : string) (sleeps : list TestServer.Fires) : Step :=
  on_server (λ s,
    let '(ok, s) := converge (λ s,
      let '(r, p) := execute (count_where (in_state emitter state)) (pg (TestServer.node s)) in
      (match r with Ok c => c =? expected | Err _ => false end, TestServer.set_pg p s)) sleeps s in
    (assert ok, s)).

(** A scenario: its steps one by one; before each, and while it waits, timers fire. *)
Inductive Line : Type :=
| Plain (step : Step)
| Waiting (step : list TestServer.Fires → Step).

Definition run_line (line : Line) (schedule : TestServer.Fires * list TestServer.Fires) : Step := λ w,
  let w := match ServerWorld.server w with
           | Some s => ServerWorld.install (TestServer.timers powi schedule.1 s) w
           | None => w
           end in
  match line with
  | Plain step => step w
  | Waiting step => step schedule.2 w
  end.

Definition run_scenario (lines : list Line) (schedule : nat → TestServer.Fires * list TestServer.Fires) : Step :=
  for_try (λ p : nat * Line, run_line p.2 (schedule p.1)) (imap pair lines).

(** *** features/server *)

Definition server_fanout_feature : list Line :=
  [Plain given_two_healthy; Plain (when_post "evt-fanout-1"); Plain (then_status 200);
   Waiting (then_emitter_receives "primary" 1); Waiting (then_emitter_receives "secondary" 1);
   Waiting (then_delivery_rows 1 "primary" "emitted"); Waiting (then_delivery_rows 1 "secondary" "emitted")].

Definition server_retry_feature : list Line :=
  [Plain (given_flaky "flaky"); Plain (when_post "evt-retry-1"); Plain (then_status 200);
   Waiting (then_emitter_receives "healthy" 1); Waiting (then_attempts_at_least "flaky" 2);
   Waiting (then_emitter_receives "flaky" 1);
   Waiting (then_delivery_rows 1 "flaky" "emitted"); Waiting (then_delivery_rows 1 "healthy" "emitted")].

Definition server_dlq_feature : list Line :=
  [Plain (given_always_fail "broken"); Plain (when_post "evt-dlq-1"); Plain (then_status 200);
   Waiting (then_emitter_receives "healthy" 1);
   Waiting (then_delivery_rows 1 "healthy" "emitted"); Waiting (then_delivery_rows 1 "broken" "dead_lettered")].
End steps.
End ServerSteps.
