(* ===== verification/TestServerProps.v ===== *)
(** * A running server: what its interleaved tasks do together

    The server scenarios on a concrete run, and the fan-out of a whole server for every
    interleaving of requests and worker iterations. *)

From S2P Require Import Prelude RustStd F64 Types Traits Transitions Dedupe Metrics Database Samples DatabaseProps Postgres PostgresProps Pipeline PipelineProps Node Worker Dispatch WorkerProps Json Emitters Health Admin AdminProps ServeProps Memory MemoryProps TestServer Instances.
Local Open Scope Z_scope.
Local Open Scope rust_scope.

(** ** The database clock *)

(** The session of a server that nothing else disturbs: its clock does not run backwards, and
    no other process locks a row. *)
Record calm (p0 : Pg) : Prop := mk_calm {
  calm_forward : ∀ i j, (i ≤ j)%nat → now (clock_at p0 i) ≤ now (clock_at p0 j);
  calm_unlocked : ∀ i id, locked (clock_at p0 i) id = false
}.

Lemma clock_forward p0 p p' : calm p0 → ticked p0 p → ticked p p' → now (clock p) ≤ now (clock p').
Proof.
  intros Hc (H1 & _ & _) (H2 & Hr & _). unfold clock. rewrite H2, H1. by apply (calm_forward _ Hc).
Qed.

Lemma clock_unlocked p0 p id : calm p0 → ticked p0 p → locked (clock p) id = false.
Proof. intros Hc (H1 & _ & _). unfold clock. rewrite H1. apply (calm_unlocked _ Hc). Qed.

(** ** The state of a fan-out

    One emitter [n] of the server: every receipt has one row for it, pending and due or emitted,
    and [received] are the receipts of its emitted rows. *)

Definition queued (t : DateTime) (x : DeliveryRow.t) : Prop :=
  DeliveryRow.state x = "pending" ∧ DeliveryRow.next_attempt_at x ≤ t.
Definition emitted (x : DeliveryRow.t) : bool := bool_decide (DeliveryRow.state x = "emitted").

Definition in_order (t : DateTime) (x : DeliveryRow.t) : Prop :=
  DeliveryRow.immutable x = false ∧ (emitted x = true ∨ queued t x).

Lemma in_order_later t t' x : t ≤ t' → in_order t x → in_order t' x.
Proof. intros Ht [Hi [He|[Hs Hn]]]; (split; [done|]); [by left|right; split; [done|lia]]. Qed.

Record fan_out (n : string) (p0 p : Pg) (received : list Uuid) : Prop := mk_fan_out {
  fo_time : ticked p0 p;
  fo_healthy : healthy p;
  fo_wf : db_wf (db p);
  fo_counts : counts_ok (db p);
  fo_rows : map DeliveryRow.receipt_id (rows_of n (db p)) = map ReceiptRow.receipt_id (webhook_receipts (db p));
  fo_state : Forall (in_order (now (clock p))) (rows_of n (db p));
  fo_received : received ≡ₚ map DeliveryRow.receipt_id (List.filter emitted (rows_of n (db p)))
}.

Lemma fan_out_time n p0 p p' received :
  calm p0 → fan_out n p0 p received → ticked p p' → db p' = db p → fan_out n p0 p' received.
Proof.
  intros Hc [Ht Hh Hwf Hn Hrows Hst Hrec] Hp Hdb. pose proof Hp as (_ & _ & Hh').
  split; rewrite ?Hdb; [by etrans|by apply Hh'|done|done|done| |done].
  eapply Forall_impl; [exact Hst|]. intros x. apply in_order_later. by eapply clock_forward.
Qed.

(** *** A request adds one pending row for the emitter, or nothing *)

Lemma new_rows_of n t id names new :
  Forall2 (λ x m, ∃ u, x = new_delivery (mkClock t u (λ _, false)) id m) new names → NoDup names →
  let mine := List.filter (λ x, bool_decide (DeliveryRow.emitter_name x = n)) new in
  if decide (n ∈ names) then ∃ u, mine = [new_delivery (mkClock t u (λ _, false)) id n] else mine = [].
Proof.
  induction 1 as [|x m new names (u & ->) _ IH]; intros Hnd; cbn; [done|].
  apply NoDup_cons in Hnd as [Hm Hnd]. specialize (IH Hnd).
  destruct (decide (m = n)) as [->|Hne].
  - rewrite bool_decide_true by done. rewrite decide_False in IH by done.
    rewrite decide_True by (apply elem_of_cons; by left). exists u. by rewrite IH.
  - rewrite bool_decide_false by done. destruct (decide (n ∈ names)) as [Hin|Hin].
    + by rewrite decide_True by (apply elem_of_cons; by right).
    + rewrite decide_False; [done|]. by intros [->|?]%elem_of_cons.
Qed.

Lemma fan_out_commits `{PgTypes} n p0 p p' r names received :
  calm p0 → fan_out n p0 p received → NoDup names → n ∈ names → ticked p p' →
  commits r names (now (clock p)) (db p) (db p') → fan_out n p0 p' received.
Proof.
  intros Hc [Ht Hh Hwf Hcounts Hrows Hst Hrec] Hnd Hn Hp [(_ & _ & new & Hdb & Hnew) [Hwf' _]].
  pose proof Hp as (_ & _ & Hh'). pose proof (new_rows_of n _ _ _ _ Hnew Hnd) as Hmine.
  rewrite decide_True in Hmine by done. destruct Hmine as [u Hmine].
  assert (rows_of n (db p') = rows_of n (db p) ++ [new_delivery (mkClock (now (clock p)) u (λ _, false))
            (ReceiptId.uuid (WebhookReceipt.receipt_id r)) n]) as Hrows'.
  { unfold rows_of. rewrite Hdb. cbn. by rewrite List.filter_app, Hmine. }
  split; [by etrans|by apply Hh'|by apply Hwf'| | | |].
  - rewrite Hdb. intros y [Hy|Hy]%elem_of_app; [by apply Hcounts|].
    apply list_elem_of_lookup in Hy as [i Hy]. apply (Forall2_lookup_l _ _ _ _ _ Hnew) in Hy as (m & _ & v & ->).
    cbn. unfold i32_max. lia.
  - rewrite Hrows', Hdb. cbn [webhook_receipts]. by rewrite !map_app, Hrows.
  - pose proof (clock_forward _ _ _ Hc Ht Hp) as Hle. rewrite Hrows'. apply Forall_app. split.
    + eapply Forall_impl; [exact Hst|]. intros x. by apply in_order_later.
    + apply Forall_singleton. split; [done|]. right. by split.
  - rewrite Hrows', List.filter_app, map_app. cbn. by rewrite app_nil_r.
Qed.

Section server.
Context `{SerdeJson} `{PgTypes} `{UuidText} `{Codecs} `{Crypto} `{ChronoText}.

Lemma fan_out_store n p0 p r names received :
  calm p0 → fan_out n p0 p received → NoDup names → n ∈ names →
  fan_out n p0 (PostgresStorage.store_with_deliveries r names p).2 received.
Proof.
  intros Hc Hf Hnd Hn. pose proof (timely_store_with_deliveries r names p) as Ht.
  destruct (PostgresStorage.store_with_deliveries r names p) as [res p'] eqn:E. cbn in Ht |- *.
  apply store_with_deliveries_inv in E.
  assert (db p' = db p ∨ commits r names (now (clock p)) (db p) (db p')) as [Hdb|Hcom].
  { destruct res as [[|id]|e]; [by right|left; by destruct E|done]. }
  - by eapply fan_out_time.
  - by eapply fan_out_commits.
Qed.

Lemma fan_out_ingest n p0 capacity names verifiers id t now provider headers body received w :
  calm p0 → NoDup names → n ∈ names →
  fan_out n p0 (pg w.1) received →
  fan_out n p0 (pg (HookboxPipeline.ingest (node_pipeline capacity names verifiers) id t now provider
                      headers body w).2.1) received.
Proof.
  intros Hc Hnd Hn Hf. destruct w as [w ms].
  apply (ingest_invariant (node_pipeline capacity names verifiers) (λ w, fan_out n p0 (pg w) received)); [| | |done].
  - intros w' Hw'.
    destruct (node_check_healthy capacity (HookboxPipeline.dedupe_key provider (compute_payload_hash body))
      (compute_payload_hash body) w' (fo_healthy _ _ _ _ Hw')) as (d & w1 & Hrun & Hadv & _).
    cbn [HookboxPipeline.dedupe node_pipeline]. rewrite Hrun.
    eapply fan_out_time; [done|exact Hw'|by apply advanced_ticked|apply Hadv].
  - intros w' Hw'. cbn. unfold LayeredDedupe.record, bind_try, bind. cbn.
    unfold InMemoryRecentDedupe.record.
    by destruct (InMemoryRecentDedupe.map (cache w') !! _).
  - intros st reason w' Hw'. cbn. unfold on_pg.
    pose proof (fan_out_store n p0 (pg w') (HookboxPipeline.build_receipt id now provider headers body st reason)
      names received Hc Hw' Hnd Hn) as Hs.
    by destruct (PostgresStorage.store_with_deliveries _ names (pg w')).
Qed.
End server.

(** *** An iteration of a worker settles the rows it claims, and leaves the others *)

Section iteration.
Context `{SerdeJson} `{PgTypes} `{UuidText} {B : Type}.
Variable powi : f64 → Z → f64.
Variable downstream : NormalizedEvent.t → M B (result unit EmitError.t).
Variables (name : string) (policy : RetryPolicy.t) (conc : Z) (poll lease : Duration) (horizon : DateTime).
Hypothesis Hpolicy : usable_policy policy horizon.
Hypothesis Hmax : RetryPolicy.max_attempts policy ≤ i32_max.
Hypothesis Hconc : 0 ≤ conc ≤ i64_max.
Notation self := (pg_worker downstream name policy conc poll lease).
Notation after p := (reclaimed name lease p).

Definition claimed (p : Pg) (x : DeliveryRow.t) : bool :=
  bool_decide (DeliveryRow.delivery_id x ∈ claim_ids name conc (clock (after p)) (db (after p))).

Definition take_row (p : Pg) (x : DeliveryRow.t) : DeliveryRow.t :=
  if claimed p x then DeliveryRow.set_in_flight (now (clock (after p))) x else x.

Lemma take_row_id p x : DeliveryRow.delivery_id (take_row p x) = DeliveryRow.delivery_id x.
Proof. unfold take_row. by destruct (claimed p x). Qed.
Lemma take_row_receipt p x : DeliveryRow.receipt_id (take_row p x) = DeliveryRow.receipt_id x.
Proof. unfold take_row. by destruct (claimed p x). Qed.
Lemma take_row_claimed p x : claimed p (take_row p x) = claimed p x.
Proof. unfold claimed at 1. by rewrite take_row_id. Qed.

Lemma claim_after p :
  claim name conc (clock (after p)) (db (after p)) =
  Ok (List.filter (claimed p) (map (take_row p) (webhook_deliveries (db (after p)))),
      set_deliveries (take_row p) (db (after p))).
Proof. by rewrite claim_effect by lia. Qed.

Lemma claimed_row_ids p x :
  x ∈ webhook_deliveries (db (after p)) →
  DeliveryRow.delivery_id x ∈
    map DeliveryRow.delivery_id (List.filter (claimed p) (map (take_row p) (webhook_deliveries (db (after p))))) ↔
  claimed p x = true.
Proof.
  intros Hx. rewrite filter_map_comm, map_map, elem_of_List_map by apply take_row_claimed. split.
  - intros (y & [_ Hy]%elem_of_List_filter & Hid). rewrite take_row_id in Hid. unfold claimed in *. by rewrite Hid.
  - intros Hcl. exists x. split; [by apply elem_of_List_filter|by rewrite take_row_id].
Qed.

Definition iterated (Q : result unit EmitError.t → Prop) (p : Pg) (x x' : DeliveryRow.t) : Prop :=
  if claimed p x then ∃ t res, Q res ∧ settled policy (DeliveryRow.set_in_flight t x) res x' else x' = x.

Lemma iteration_table (P : B → Prop) (Q : result unit EmitError.t → Prop) order w :
  (∀ ev b, P b → Q (downstream ev b).1 ∧ P (downstream ev b).2) → P (backend w).2 →
  ready_worker horizon w →
  ∃ busy w' E,
    EmitterWorker.iteration powi self order w = (Ok busy, w') ∧ ready_worker horizon w' ∧
    ticked (pg_of w) (pg_of w') ∧ P (backend w').2 ∧
    webhook_receipts (db (pg_of w')) = webhook_receipts (db (pg_of w)) ∧
    Forall2 (iterated Q (pg_of w)) (webhook_deliveries (db (after (pg_of w)))) (webhook_deliveries (db (pg_of w'))) ∧
    emits downstream E (backend w).2 (backend w').2 ∧
    map (λ p, ReceiptId.uuid (WebhookReceipt.receipt_id p.1.2)) E ≡ₚ
      map DeliveryRow.receipt_id (List.filter (claimed (pg_of w)) (webhook_deliveries (db (after (pg_of w))))).
Proof.
  intros Hbroker HP Hr. pose proof Hr as (Hh & Hwf & Hc & _).
  destruct (iteration_run powi downstream name policy conc poll lease horizon Hpolicy Hmax order w Hr Hconc)
    as (rows & d1 & l & E & w' & Hclaim & Hmap & Hrid & HE & Hrun & Hr' & Ht & Hd).
  destruct (reclaimed_ready name lease (pg_of w) Hh Hwf Hc) as (_ & Hwfp & _).
  destruct (claim_batch name conc _ rows d1 l Hwfp Hclaim Hmap) as (Hwf1 & Hnd & Hin).
  destruct (dispatched_table downstream P Q policy E _ _ Hbroker Hd HP (wf_delivery_ids _ Hwf1))
    as (Hrec & HP' & Hrows); [intros [d r] Hp; apply (Hin d r); by rewrite <- HE|].
  rewrite claim_after in Hclaim.
  assert (List.filter (claimed (pg_of w)) (map (take_row (pg_of w)) (webhook_deliveries (db (after (pg_of w))))) = rows ∧
          set_deliveries (take_row (pg_of w)) (db (after (pg_of w))) = d1) as [Hrows1 Hd1] by (split; congruence).
  clear Hclaim. assert (claimed_ids l = map DeliveryRow.delivery_id rows) as Hids by by rewrite <- Hmap, map_map.
  assert (∀ i, i ∈ claimed_ids (map fst E) ↔ i ∈ claimed_ids l) as HEids by (intros i; unfold claimed_ids; by rewrite HE).
  exists (match l with [] => false | _ => true end), w', E. cbn [fst snd] in Hrec, Hrows, HP'.
  split_and!; [done..| | |apply (dis_emits _ _ _ _ _ Hd)|].
  - by rewrite Hrec, <- Hd1.
  - rewrite <- Hd1 in Hrows. unfold set_deliveries in Hrows. cbn [webhook_deliveries] in Hrows.
    match type of Hrows with Forall2 _ (map ?f ?k) _ => change (map f k) with (f <$> k) in Hrows end.
    rewrite Forall2_fmap_l in Hrows. eapply Forall2_impl_in; [exact Hrows|].
    intros x x' Hx Hxx'. unfold compose, batched in Hxx'. unfold iterated. rewrite take_row_id in Hxx'.
    assert (DeliveryRow.delivery_id x ∈ claimed_ids (map fst E) ↔ claimed (pg_of w) x = true) as Hiff
      by (rewrite HEids, Hids, <- Hrows1; by apply claimed_row_ids).
    destruct (claimed (pg_of w) x) eqn:Hcl.
    + rewrite decide_True in Hxx' by by apply Hiff. unfold take_row in Hxx'. rewrite Hcl in Hxx'.
      destruct Hxx' as (res & HQ & Hset). eauto.
    + rewrite decide_False in Hxx' by by intros Hx'%Hiff. unfold take_row in Hxx'. by rewrite Hcl in Hxx'.
  - transitivity (map DeliveryRow.receipt_id rows).
    + rewrite <- (map_map fst (λ q, ReceiptId.uuid (WebhookReceipt.receipt_id (snd q)))), HE. apply eq_subrelation; [apply _|].
      rewrite <- Hmap, map_map. apply map_ext_in. intros [d r] Hq%list_elem_of_In.
      rewrite Forall_forall in Hrid. destruct (Hrid (d, r) Hq) as [_ Hid]. cbn in Hid |- *. by rewrite Hid.
    + rewrite <- Hrows1, filter_map_comm, map_map by apply take_row_claimed. apply eq_subrelation; [apply _|].
      apply map_ext, take_row_receipt.
Qed.

Lemma iterated_name Q p x x' :
  iterated Q p x x' → DeliveryRow.emitter_name x' = DeliveryRow.emitter_name x.
Proof.
  unfold iterated. destruct (claimed p x); [|by intros ->].
  by intros (t & res & _ & [-> _]%settled_keeps).
Qed.

(** A claimed row is one of the emitter, pending or failed, and due. *)
Lemma claimed_dispatchable p x :
  db_wf (db (after p)) → x ∈ webhook_deliveries (db (after p)) → claimed p x = true →
  dispatchable name (clock (after p)) x = true.
Proof.
  intros Hwf Hx Hcl%bool_decide_eq_true. apply elem_of_claim_ids in Hcl as (r & Hr & Hid & Hdis & _).
  by rewrite <- (NoDup_map_inj_on DeliveryRow.delivery_id _ r x (wf_delivery_ids _ Hwf) Hr Hx Hid).
Qed.

Lemma dispatchable_name n c x : dispatchable n c x = true → DeliveryRow.emitter_name x = n.
Proof. unfold dispatchable. by intros [[[?%bool_decide_eq_true _]%andb_true_iff _]%andb_true_iff _]%andb_true_iff. Qed.

Lemma elem_of_rows_of n d x : x ∈ rows_of n d ↔ x ∈ webhook_deliveries d ∧ DeliveryRow.emitter_name x = n.
Proof. unfold rows_of. by rewrite elem_of_List_filter, bool_decide_eq_true. Qed.

(** The reclaim leaves the rows that are not of the emitter or not in flight. *)
Lemma rows_of_reclaimed_same n p :
  (∀ x, x ∈ rows_of n (db p) → n ≠ name ∨ DeliveryRow.state x ≠ "in_flight") →
  rows_of n (db (after p)) = rows_of n (db p).
Proof.
  intros Hn. rewrite rows_of_reclaimed. etrans; [apply map_ext_in|apply map_id].
  intros x Hx%list_elem_of_In. pose proof (proj1 (elem_of_rows_of _ _ _) Hx) as [_ Hxn].
  unfold lease_expired. destruct (Hn x Hx) as [Hne|Hst].
  - rewrite bool_decide_false by congruence. done.
  - rewrite (bool_decide_false (DeliveryRow.state x = "in_flight")) by done. by rewrite andb_false_r.
Qed.

Lemma rows_of_iterated Q p d' n :
  Forall2 (iterated Q p) (webhook_deliveries (db (after p))) (webhook_deliveries d') →
  Forall2 (iterated Q p) (rows_of n (db (after p))) (rows_of n d').
Proof.
  intros H2. apply Forall2_filter; [done|]. intros x x' _ Hxx'. by rewrite (iterated_name _ _ _ _ Hxx').
Qed.

(** The rows of another emitter are left alone. *)
Lemma rows_of_other Q p d' n :
  n ≠ name → db_wf (db (after p)) →
  Forall2 (iterated Q p) (webhook_deliveries (db (after p))) (webhook_deliveries d') →
  rows_of n d' = rows_of n (db p).
Proof.
  intros Hne Hwf H2. rewrite <- (rows_of_reclaimed_same n p) by by left.
  apply rows_of_iterated with (n := n) in H2.
  assert (∀ l l', Forall2 (iterated Q p) l l' → (∀ x, x ∈ l → claimed p x = false) → l' = l) as Hsame.
  { clear. induction 1 as [|x x' l l' Hxx' _ IH]; intros Hl; [done|]. unfold iterated in Hxx'.
    rewrite Hl in Hxx' by (apply elem_of_cons; by left). rewrite Hxx'. f_equal.
    apply IH. intros y Hy. apply Hl, elem_of_cons. by right. }
  apply Hsame; [done|]. intros x [Hx Hxn]%elem_of_rows_of. apply not_true_iff_false. intros Hcl.
  apply claimed_dispatchable, dispatchable_name in Hcl; [congruence|done..].
Qed.

(** Its own rows, when every answer is a success: a claimed row was waiting, and is emitted. *)
Definition delivered (c : DeliveryRow.t → bool) (x x' : DeliveryRow.t) : Prop :=
  DeliveryRow.receipt_id x' = DeliveryRow.receipt_id x ∧ DeliveryRow.immutable x' = DeliveryRow.immutable x ∧
  if c x then emitted x = false ∧ emitted x' = true else x' = x.

Lemma rows_of_own p d' t :
  db_wf (db (after p)) → Forall (in_order t) (rows_of name (db p)) →
  Forall2 (iterated (λ r, r = Ok tt) p) (webhook_deliveries (db (after p))) (webhook_deliveries d') →
  rows_of name (db (after p)) = rows_of name (db p) ∧
  Forall2 (delivered (claimed p)) (rows_of name (db p)) (rows_of name d').
Proof.
  intros Hwf Hord H2. rewrite Forall_forall in Hord.
  assert (rows_of name (db (after p)) = rows_of name (db p)) as Hsame.
  { apply rows_of_reclaimed_same. intros x Hx. right. destruct (Hord x Hx) as [_ [He|[Hs _]]]; [|congruence].
    apply bool_decide_eq_true in He. congruence. }
  split; [done|]. apply rows_of_iterated with (n := name) in H2. rewrite <- Hsame.
  eapply Forall2_impl_in; [exact H2|]. intros x x' Hx Hxx'. unfold iterated, delivered in *.
  pose proof Hx as [Hxd _]%elem_of_rows_of. destruct (claimed p x) eqn:Hcl; [|by subst].
  destruct Hxx' as (t' & res & -> & Hset). pose proof (settled_keeps _ _ _ _ Hset) as (_ & -> & ->).
  split_and!; [done|done| |by inversion Hset].
  pose proof (claimed_dispatchable p x Hwf Hxd Hcl) as Hdis. unfold dispatchable in Hdis.
  apply bool_decide_eq_false. intros He. by rewrite He, andb_false_r in Hdis.
Qed.

Lemma delivered_perm c l l' :
  Forall2 (delivered c) l l' →
  map DeliveryRow.receipt_id (List.filter emitted l') ≡ₚ
  map DeliveryRow.receipt_id (List.filter emitted l) ++ map DeliveryRow.receipt_id (List.filter c l).
Proof.
  induction 1 as [|x x' l l' (Hid & _ & Hx) _ IH]; [done|]. cbn. destruct (c x).
  - destruct Hx as [-> ->]. cbn. rewrite Hid, IH. apply Permutation_middle.
  - subst x'. destruct (emitted x); cbn; by rewrite IH.
Qed.

Lemma delivered_in_order c t l l' : Forall2 (delivered c) l l' → Forall (in_order t) l → Forall (in_order t) l'.
Proof.
  induction 1 as [|x x' l l' (_ & Him & Hx) _ IH]; intros Hl; [done|].
  apply Forall_cons in Hl as [[Hi Ho] Hl]. constructor; [|by apply IH]. split; [congruence|].
  destruct (c x); [left; apply Hx|by subst].
Qed.

Lemma delivered_receipts c l l' :
  Forall2 (delivered c) l l' → map DeliveryRow.receipt_id l' = map DeliveryRow.receipt_id l.
Proof. induction 1 as [|x x' l l' (Hid & _ & _) _ IH]; [done|]. cbn. by rewrite Hid, IH. Qed.

(** A row that waits is claimed, or another one before it. *)
Lemma claims_waiting p x :
  1 ≤ conc → db_wf (db (after p)) → x ∈ webhook_deliveries (db (after p)) →
  dispatchable name (clock (after p)) x = true → locked (clock (after p)) (DeliveryRow.delivery_id x) = false →
  List.filter (claimed p) (rows_of name (db (after p))) ≠ [].
Proof.
  intros Hone Hwf Hx Hdis Hlock Hnil.
  assert (0 < List.length (claim_ids name conc (clock (after p)) (db (after p))))%nat as Hlen.
  { rewrite length_claim_ids. assert (x ∈ ready name (clock (after p)) (db (after p))) as Hr.
    { unfold ready. by rewrite elem_of_List_filter, Hdis, Hlock. }
    destruct (ready name (clock (after p)) (db (after p))) eqn:E; [by apply not_elem_of_nil in Hr|]. cbn. lia. }
  destruct (claim_ids name conc (clock (after p)) (db (after p))) as [|i ids] eqn:E; [cbn in Hlen; lia|].
  destruct (elem_of_claim_ids name conc (clock (after p)) (db (after p)) i) as (r & Hr & Hid & Hd & _);
    [rewrite E; apply elem_of_cons; by left|].
  assert (r ∈ List.filter (claimed p) (rows_of name (db (after p)))) as Hin.
  { rewrite elem_of_List_filter, elem_of_rows_of. split_and!; [done|by eapply dispatchable_name|].
    unfold claimed. apply bool_decide_eq_true. rewrite E, Hid. apply elem_of_cons. by left. }
  rewrite Hnil in Hin. by apply not_elem_of_nil in Hin.
Qed.

(** An iteration of the worker of another emitter keeps the fan-out to [n]. *)
Lemma fan_out_other n p0 order w received :
  calm p0 → n ≠ name → ready_worker horizon w → fan_out n p0 (pg_of w) received →
  ∃ busy w', EmitterWorker.iteration powi self order w = (Ok busy, w') ∧ ready_worker horizon w' ∧
    webhook_receipts (db (pg_of w')) = webhook_receipts (db (pg_of w)) ∧ fan_out n p0 (pg_of w') received.
Proof.
  intros Hc Hne Hr [Ht Hh Hwf Hcounts Hrows Hst Hrec].
  destruct (iteration_table (λ _, True) (λ _, True) order w) as (busy & w' & E & Hrun & Hr' & Ht' & _ & Hrcpt & H2 & _);
    [done..|].
  destruct (reclaimed_ready name lease (pg_of w) Hh Hwf Hcounts) as (_ & Hwfp & _).
  pose proof (rows_of_other _ _ _ n Hne Hwfp H2) as Hsame. destruct Hr' as (Hh' & Hwf' & Hcounts' & Hclk').
  exists busy, w'. split_and!; [done..|]. split; rewrite ?Hsame, ?Hrcpt; [by etrans|done..| |done].
  eapply Forall_impl; [exact Hst|]. intros x. apply in_order_later. by eapply clock_forward.
Qed.
End iteration.

(** *** A healthy fake accepts every event *)

Definition good_fake (b : FakeEmitter.t * Env) : Prop :=
  FakeEmitter.behavior b.1 = mutex_new EmitterBehavior.Healthy ∧
  poisoned (FakeEmitter.received b.1) = false ∧ poisoned (FakeEmitter.attempt_count b.1) = false.

(** The receipts whose events a fake has received, in order. *)
Definition received_receipts (fake : FakeEmitter.t) : list Uuid :=
  map (λ e, ReceiptId.uuid (NormalizedEvent.receipt_id e)) (FakeEmitter.received_events fake).

Lemma good_emit ev b :
  good_fake b →
  (FakeEmitter.emit ev b).1 = Ok tt ∧ good_fake (FakeEmitter.emit ev b).2 ∧
  received_receipts (FakeEmitter.emit ev b).2.1 =
    received_receipts b.1 ++ [ReceiptId.uuid (NormalizedEvent.receipt_id ev)].
Proof.
  destruct b as [[name behavior [evs p] [n p'] start] e]. intros (Hb & Hr & Ha). cbn in Hb, Hr, Ha. subst.
  cbn. split_and!; [done|by split_and!|]. unfold received_receipts, FakeEmitter.received_events, lock. cbn.
  by rewrite map_app.
Qed.

Lemma emits_received E b b' :
  emits FakeEmitter.emit E b b' → good_fake b →
  good_fake b' ∧
  received_receipts b'.1 =
    received_receipts b.1 ++ map (λ p, ReceiptId.uuid (WebhookReceipt.receipt_id p.1.2)) E.
Proof.
  induction 1 as [b|E q out b b1 b2 _ IH Hd]; intros Hg; [by rewrite app_nil_r|].
  destruct (IH Hg) as [Hg1 Hrec1]. destruct (good_emit (NormalizedEvent.from_receipt q.2) b1 Hg1) as (_ & Hg2 & Hrec2).
  rewrite Hd in Hg2, Hrec2. cbn [snd] in *. split; [done|]. by rewrite Hrec2, Hrec1, map_app, app_assoc.
Qed.

(** *** An iteration of the emitter's own worker emits at least one of the waiting rows *)

Section own.
Context `{SerdeJson} `{PgTypes} `{UuidText}.
Variable powi : f64 → Z → f64.
Variables (name : string) (policy : RetryPolicy.t) (conc : Z) (poll lease : Duration) (horizon : DateTime).
Hypothesis Hpolicy : usable_policy policy horizon.
Hypothesis Hmax : RetryPolicy.max_attempts policy ≤ i32_max.
Hypothesis Hconc : 1 ≤ conc ≤ i64_max.
Notation self := (pg_worker FakeEmitter.emit name policy conc poll lease).
Notation received w := (received_receipts (backend w).2.1).

Lemma fan_out_own p0 order w :
  calm p0 → ready_worker horizon w → good_fake (backend w).2 → fan_out name p0 (pg_of w) (received w) →
  ∃ busy w', EmitterWorker.iteration powi self order w = (Ok busy, w') ∧ ready_worker horizon w' ∧
    webhook_receipts (db (pg_of w')) = webhook_receipts (db (pg_of w)) ∧
    good_fake (backend w').2 ∧ fan_out name p0 (pg_of w') (received w') ∧
    ∃ new, received w' = received w ++ new ∧
           (Forall (λ x, emitted x = true) (rows_of name (db (pg_of w))) ∨ new ≠ []).
Proof.
  intros Hc Hr Hg [Ht Hh Hwf Hcounts Hrows Hst Hrec]. assert (0 ≤ conc ≤ i64_max) as Hconc0 by lia.
  destruct (iteration_table powi FakeEmitter.emit name policy conc poll lease horizon Hpolicy Hmax Hconc0
    good_fake (λ r, r = Ok tt) order w) as (busy & w' & E & Hrun & Hr' & Ht' & Hg' & Hrcpt & H2 & Hd & Hids); [|done..|].
  { intros ev b Hb. by destruct (good_emit ev b Hb) as (? & ? & _). }
  destruct (reclaimed_ready name lease (pg_of w) Hh Hwf Hcounts) as (_ & Hwfp & _).
  destruct (rows_of_own name policy conc lease (pg_of w) _ _ Hwfp Hst H2) as [Hsame Hown].
  apply emits_received in Hd as [_ Hd]; [|done].
  rewrite (filter_filter_impl _ (λ x, bool_decide (DeliveryRow.emitter_name x = name))) in Hids.
  2: { intros x Hx Hcl. apply bool_decide_eq_true. eapply dispatchable_name. by eapply claimed_dispatchable. }
  fold (rows_of name (db (reclaimed name lease (pg_of w)))) in Hids.
  destruct Hr' as (Hh' & Hwf' & Hcounts' & Hclk').
  assert (now (clock (pg_of w)) ≤ now (clock (pg_of w'))) as Hle by by eapply clock_forward.
  exists busy, w'. split_and!; [done|done|done|done| |].
  - split; [by etrans|done..| | |].
    + rewrite Hrcpt. by rewrite (delivered_receipts _ _ _ Hown).
    + eapply delivered_in_order; [exact Hown|]. eapply Forall_impl; [exact Hst|]. intros x. by apply in_order_later.
    + by rewrite (delivered_perm _ _ _ Hown), Hd, Hids, Hrec, Hsame.
  - rewrite Hd. eexists. split; [done|].
    destruct (Forall_Exists_dec (λ x, emitted x = true) (λ x, emitted x = false)
      (λ x, match emitted x as b return {b = true} + {b = false} with true => left eq_refl | false => right eq_refl end)
      (rows_of name (db (pg_of w)))) as [Hall|Hex]; [by left|right].
    apply Exists_exists in Hex as (x & Hx & Hne). rewrite Forall_forall in Hst.
    destruct (Hst x Hx) as [Him [He|[Hs Hdue]]]; [congruence|].
    assert (ticked (pg_of w) (reclaimed name lease (pg_of w))) as Htp by apply ticked_round.
    pose proof (clock_forward _ _ _ Hc Ht Htp) as Hlep.
    intros Hnil. rewrite Hnil in Hids. apply Permutation_nil_l in Hids. symmetry in Hids. apply map_eq_nil in Hids. revert Hids.
    apply (claims_waiting name conc lease (pg_of w) x); [lia|done| | |].
    + rewrite <- Hsame in Hx. by apply elem_of_rows_of in Hx as [? _].
    + apply elem_of_rows_of in Hx as [_ Hxn].
      assert (DeliveryRow.next_attempt_at x <=? now (clock (reclaimed name lease (pg_of w))) = true) as Hl
        by (apply Z.leb_le; lia).
      unfold dispatchable. rewrite Hl, Him, Hs. by rewrite bool_decide_true by done.
    + eapply clock_unlocked; [done|]. by etrans.
Qed.
End own.

(** ** The whole server *)

(** What happens to a running server: a webhook arrives, or the timer of a worker fires, whose
    iteration polls its batch in some order. *)
Inductive Action : Type :=
| Post (provider : string) (headers : HeaderMap) (body : bytes)
| Fire (j : nat) (order : list nat).

Section whole.
Context `{SerdeJson} `{PgTypes} `{UuidText} `{Codecs} `{Crypto} `{ChronoText}.
Variable powi : f64 → Z → f64.

Definition perform (s : TestServer.t) (a : Action) : TestServer.t :=
  match a with
  | Post provider headers body => (TestServer.post_webhook provider headers body s).2
  | Fire j order => TestServer.wake powi EmitterWorker.Timer order j s
  end.

Definition fire (p : nat * list nat) : Action := Fire p.1 p.2.

Definition stored (s : TestServer.t) : list Uuid :=
  map ReceiptRow.receipt_id (webhook_receipts (db (pg (TestServer.node s)))).

(** The settings of a worker that can run until [horizon]. *)
Definition usable_spec (horizon : DateTime) (sp : EmitterSpec.t) : Prop :=
  usable_policy (EmitterSpec.policy sp) horizon ∧ RetryPolicy.max_attempts (EmitterSpec.policy sp) ≤ i32_max ∧
  1 ≤ EmitterSpec.concurrency sp ≤ i64_max.

Lemma run_timer {W E} (self : EmitterWorker.t W E) order w busy w' :
  EmitterWorker.iteration powi self order w = (Ok busy, w') →
  EmitterWorker.run powi self [(EmitterWorker.Timer, order, false)] w = (Ok false, w').
Proof. intros Hrun. cbn. rewrite (bind_try_run _ _ _ _ _ Hrun). by rewrite andb_false_r. Qed.

(** A request changes the state of the process and the database as the pipeline does. *)
Lemma post_webhook_run provider headers body s :
  let s' := (TestServer.post_webhook provider headers body s).2 in
  ∃ id t now,
    TestServer.node s' =
      (HookboxPipeline.ingest (TestServer.pipeline s) id t now provider headers body
         (TestServer.node s, TestServer.metrics s)).2.1 ∧
    TestServer.pipeline s' = TestServer.pipeline s ∧ TestServer.handles s' = TestServer.handles s ∧
    TestServer.tasks s' = TestServer.tasks s ∧ TestServer.shutdown_tx s' = TestServer.shutdown_tx s.
Proof.
  unfold TestServer.post_webhook. destruct (TestServer.draw_receipt (TestServer.process s)) as [[id now] e].
  exists (ReceiptId.mk id), (now / 1000000000), now.
  unfold TestServer.handle. cbn [build_router]. unfold ingest_webhook. rewrite bind_run.
  cbn [TestServer.node TestServer.metrics TestServer.app_state TestServer.pipeline AppState.pipeline].
  by destruct (HookboxPipeline.ingest (TestServer.pipeline s) (ReceiptId.mk id) (now / 1000000000) now provider
    headers body (TestServer.node s, TestServer.metrics s)) as [res [n ms]].
Qed.

Section serving.
Variables (p0 : Pg) (specs : list EmitterSpec.t) (horizon : DateTime) (i : nat) (spec : EmitterSpec.t).
Hypothesis Hcalm : calm p0.
Hypothesis Hnames : NoDup (map EmitterSpec.name specs).
Hypothesis Hspecs : Forall (usable_spec horizon) specs.
Hypothesis Hspec : specs !! i = Some spec.
Notation n := (EmitterSpec.name spec).
Notation pg_at s := (pg (TestServer.node s)).

(** The server with the worker of [spec] in service. *)
Record serving (s : TestServer.t) (received : list Uuid) : Prop := mk_serving {
  sv_pipeline : TestServer.pipeline s =
                node_pipeline 1024 (map EmitterSpec.name specs) [PassVerifier FAKE_PROVIDER];
  sv_flag : TestServer.shutdown_tx s = false;
  sv_handle : TestServer.handles s !! n = Some i;
  sv_tasks : ∀ j task, TestServer.tasks s !! j = Some task →
    ∃ sp, specs !! j = Some sp ∧ TestServer.worker task = TestServer.emitter_worker sp ∧
          ∀ k, wall_clock (TestServer.local task) k ≤ horizon;
  sv_own : ∃ task, TestServer.tasks s !! i = Some task ∧ TestServer.running task = true ∧
    good_fake (backend (TestServer.local task)) ∧ received = received_receipts (backend (TestServer.local task)).1;
  sv_fan_out : fan_out n p0 (pg_at s) received
}.

Lemma post_serving provider headers body s received :
  serving s received → serving (TestServer.post_webhook provider headers body s).2 received.
Proof.
  intros [Hp Hf Hh Ht Ho Hfan].
  destruct (post_webhook_run provider headers body s) as (id & t & now & Hnode & Hp' & Hh' & Ht' & Hf').
  split; rewrite ?Hp', ?Hh', ?Ht', ?Hf'; [done..|]. rewrite Hnode, Hp. apply fan_out_ingest; [done|done| |done].
  apply elem_of_List_map. exists spec. split; [by eapply list_elem_of_lookup_2|done].
Qed.

(** A worker's turn updates its task and the database. *)
Lemma serving_step j task task' p' s received received' :
  serving s received → TestServer.tasks s !! j = Some task →
  TestServer.worker task' = TestServer.worker task →
  (∀ k, wall_clock (TestServer.local task') k ≤ horizon) →
  fan_out n p0 p' received' →
  (if decide (j = i)
   then TestServer.running task' = true ∧ good_fake (backend (TestServer.local task')) ∧
        received' = received_receipts (backend (TestServer.local task')).1
   else received' = received) →
  serving (TestServer.set_pg p' (TestServer.set_tasks (<[j := task']> (TestServer.tasks s)) s)) received'.
Proof.
  intros [Hp Hf Hh Ht Ho Hfan] Hj Hw Hclk Hfan' Hown. split; cbn; [done..| | |done].
  - intros k t Hk. destruct (decide (j = k)) as [->|Hne].
    + rewrite list_lookup_insert_eq in Hk by by eapply lookup_lt_Some. injection Hk as <-.
      destruct (Ht k task Hj) as (sp & Hsp & Hws & _). exists sp. split_and!; [done|congruence|done].
    + rewrite list_lookup_insert_ne in Hk by done. by apply Ht.
  - destruct (decide (j = i)) as [->|Hne].
    + exists task'. split_and!; [|by apply Hown..]. apply list_lookup_insert_eq. by eapply lookup_lt_Some.
    + destruct Ho as (t & Hi & Hr & Hg & ->). exists t. by rewrite list_lookup_insert_ne.
Qed.

Lemma fire_serving j order s received :
  serving s received →
  ∃ new, serving (perform s (Fire j order)) (received ++ new) ∧ stored (perform s (Fire j order)) = stored s ∧
    (j = i → Forall (λ x, emitted x = true) (rows_of n (db (pg_at s))) ∨ new ≠ []).
Proof.
  intros Hs. pose proof Hs as [Hp Hf Hh Ht (own & Hown & Hrun & Hgood & Hrec) Hfan].
  cbn [perform]. unfold TestServer.wake. destruct (TestServer.tasks s !! j) as [task|] eqn:Hj.
  2: { exists []. rewrite app_nil_r. split_and!; [done|done|]. intros ->. congruence. }
  destruct (TestServer.running task) eqn:Hrunning.
  2: { exists []. rewrite app_nil_r. split_and!; [done|done|]. intros ->. congruence. }
  destruct (Ht j task Hj) as (sp & Hsp & Hworker & Hclk). rewrite Hworker, Hf.
  pose proof (proj1 (Forall_lookup _ _) Hspecs j sp Hsp) as (Hpol & Hmax & Hconc).
  set (w := mkWorld (pg_at s, backend (TestServer.local task)) _ _ _ _ _ _).
  assert (ready_worker horizon w) as Hready by (destruct Hfan; by split_and!).
  destruct (decide (j = i)) as [->|Hne].
  - assert (sp = spec) as -> by congruence. assert (own = task) as -> by congruence. subst received.
    destruct (fan_out_own powi n _ _ (100 * 1000000) (Duration_from_secs 30) horizon Hpol Hmax Hconc p0 order w
      Hcalm Hready Hgood Hfan) as (busy & w' & Hit & Hr' & Hrcpt & Hg' & Hfan' & new & Hnew & Hprog).
    unfold TestServer.emitter_worker. rewrite (run_timer _ _ _ _ _ Hit). exists new. cbn [backend w snd] in Hnew.
    rewrite <- Hnew. split_and!; [| |by intros _].
    + apply (serving_step i task _ _ _ _ _ Hs Hj); [done| |done|].
      * destruct Hr' as (_ & _ & _ & Hclk'). exact Hclk'.
      * by rewrite decide_True.
    + unfold stored. cbn. unfold pg_of in Hrcpt. by rewrite Hrcpt.
  - assert (n ≠ EmitterSpec.name sp) as Hname.
    { intros Heq. apply Hne. change (map EmitterSpec.name specs) with (EmitterSpec.name <$> specs) in Hnames.
      apply (NoDup_lookup _ _ _ n Hnames); by rewrite list_lookup_fmap, ?Hsp, ?Hspec; cbn; rewrite ?Heq. }
    assert (0 ≤ EmitterSpec.concurrency sp ≤ i64_max) as Hconc0 by lia.
    destruct (fan_out_other powi FakeEmitter.emit (EmitterSpec.name sp) _ _ (100 * 1000000)
      (Duration_from_secs 30) horizon Hpol Hmax Hconc0 n p0 order w received Hcalm Hname Hready Hfan)
      as (busy & w' & Hit & Hr' & Hrcpt & Hfan').
    unfold TestServer.emitter_worker. rewrite (run_timer _ _ _ _ _ Hit). exists []. rewrite app_nil_r.
    split_and!; [| |done].
    + apply (serving_step j task _ _ _ _ _ Hs Hj); [done| |done|].
      * destruct Hr' as (_ & _ & _ & Hclk'). exact Hclk'.
      * by rewrite decide_False.
    + unfold stored. cbn. unfold pg_of in Hrcpt. by rewrite Hrcpt.
Qed.

Lemma perform_serving acts s received :
  serving s received → ∃ received', serving (foldl perform s acts) received'.
Proof.
  revert s received. induction acts as [|a acts IH]; intros s received Hs; [by exists received|]. cbn.
  destruct a as [provider headers body|j order].
  - eapply IH. by apply post_serving.
  - destruct (fire_serving j order s received Hs) as (new & Hs' & _). by eapply IH.
Qed.

(** The receipts of the emitted rows are as many as the receipts, or rows are waiting. *)
Lemma serving_all_emitted s received :
  serving s received →
  List.length received = List.length (stored s) ↔ Forall (λ x, emitted x = true) (rows_of n (db (pg_at s))).
Proof.
  intros [_ _ _ _ _ [_ _ _ _ Hrows _ Hrec]]. rewrite Hrec. unfold stored. rewrite <- Hrows, !length_map. split.
  - intros Hlen. apply Forall_forall. intros x Hx. rewrite <- (filter_all_length _ _ Hlen) in Hx.
    by apply elem_of_List_filter in Hx as [_ ?].
  - intros Hall. by rewrite filter_all_true.
Qed.

(** Each time its timer fires, the worker catches up with at least one row. *)
Lemma fires_serving fires s received :
  serving s received →
  ∃ received', serving (foldl perform s (map fire fires)) received' ∧
    stored (foldl perform s (map fire fires)) = stored s ∧
    (Nat.min (List.length (stored s)) (List.length received + count_occ Nat.eq_dec (map fst fires) i) ≤ List.length received')%nat.
Proof.
  revert s received. induction fires as [|[j order] fires IH]; intros s received Hs.
  { exists received. split_and!; [done|done|]. cbn. lia. }
  cbn [map foldl fst]. change (fire (j, order)) with (Fire j order).
  destruct (fire_serving j order s received Hs) as (new & Hs' & Hst & Hprog).
  destruct (IH _ _ Hs') as (received' & Hs2 & Hst2 & Hlen). exists received'.
  split_and!; [done|congruence|]. rewrite Hst, length_app in Hlen. cbn [count_occ].
  destruct (Nat.eq_dec j i) as [->|]; [|lia].
  destruct (Hprog eq_refl) as [Hall|Hne]; [apply (serving_all_emitted s received Hs) in Hall; lia|].
  destruct new; [done|cbn in Hlen; lia].
Qed.

Lemma serving_receives s received :
  serving s received → NoDup received ∧ (∀ id, id ∈ received → id ∈ stored s) ∧
  (List.length (stored s) ≤ List.length received → received ≡ₚ stored s)%nat.
Proof.
  intros Hs. pose proof Hs as [_ _ _ _ _ [_ _ Hwf _ Hrows _ Hrec]].
  assert (received ⊆+ stored s) as Hsub.
  { rewrite Hrec. unfold stored. rewrite <- Hrows. apply (fmap_submseteq DeliveryRow.receipt_id), List_filter_submseteq. }
  split_and!.
  - rewrite Hrec. eapply NoDup_map_sublist; [apply List_filter_submseteq|]. rewrite Hrows. apply (wf_receipt_ids _ Hwf).
  - intros id Hid. by eapply elem_of_submseteq.
  - intros Hlen. by apply submseteq_length_Permutation.
Qed.

Lemma serving_emitter s received :
  serving s received → ∃ fake, TestServer.emitter n s = Some fake ∧ received_receipts fake = received.
Proof.
  intros [_ _ Hh _ (task & Hi & _ & _ & ->) _]. unfold TestServer.emitter. rewrite Hh. cbn. rewrite Hi. by eexists.
Qed.
End serving.

(** *** A server that has just started *)

Lemma register_handles_snoc specs sp :
  TestServer.register_handles (specs ++ [sp]) =
  <[EmitterSpec.name sp := List.length specs]> (TestServer.register_handles specs).
Proof.
  unfold TestServer.register_handles. rewrite imap_app, foldl_app. cbn. by rewrite Nat.add_0_r.
Qed.

Lemma register_handles_lookup specs i spec :
  NoDup (map EmitterSpec.name specs) → specs !! i = Some spec →
  TestServer.register_handles specs !! EmitterSpec.name spec = Some i.
Proof.
  revert i. induction specs as [|sp specs IH] using rev_ind; intros i Hnd Hi; [by rewrite lookup_nil in Hi|].
  rewrite register_handles_snoc. rewrite map_app in Hnd. apply NoDup_app in Hnd as (Hnd & Hnew & _).
  apply lookup_app_Some in Hi as [Hi|[Hlen Hi]].
  - rewrite lookup_insert_ne; [by apply IH|]. intros Heq. eapply (Hnew (EmitterSpec.name spec)).
    + apply elem_of_List_map. exists spec. split; [by eapply list_elem_of_lookup_2|done].
    + rewrite <- Heq. by apply list_elem_of_singleton.
  - apply list_lookup_singleton_Some in Hi as [Hi ->]. rewrite lookup_insert_eq. f_equal. lia.
Qed.

Lemma empty_fan_out n p0 : healthy p0 → db p0 = empty_db → fan_out n p0 p0 [].
Proof.
  intros Hh Hdb. split; rewrite ?Hdb; [reflexivity|done|apply empty_db_wf| |done|constructor|done].
  intros y Hy. by apply not_elem_of_nil in Hy.
Qed.

Lemma started_serving launch p0 specs horizon i spec s0 :
  NoDup (map EmitterSpec.name specs) → specs !! i = Some spec →
  TestServer.booted launch = Ok p0 → db p0 = empty_db → healthy p0 →
  (∀ j k, TestServer.wall (TestServer.streams launch j) k ≤ horizon) →
  EmitterSpec.fake spec = FakeEmitter.new (EmitterSpec.name spec) EmitterBehavior.Healthy →
  TestServer.start launch specs = Some (Ok s0) → serving p0 specs horizon i spec s0 [].
Proof.
  intros Hnames Hspec Hboot Hdb Hh Hwall Hfake Hstart. unfold TestServer.start in Hstart. rewrite Hboot in Hstart.
  rewrite build_pipeline_result, decide_True in Hstart by lia.
  destruct (TestServer.bound launch) as [[]|e]; [|done]. injection Hstart as <-. split; cbn.
  - done.
  - done.
  - by apply register_handles_lookup.
  - intros j task Hj. rewrite list_lookup_imap in Hj. destruct (specs !! j) as [sp|] eqn:Hsp; [|done].
    injection Hj as <-. exists sp. split_and!; [done|done|apply Hwall].
  - rewrite list_lookup_imap, Hspec. cbn. eexists. split; [done|]. cbn. rewrite Hfake. by split_and!.
  - by apply empty_fan_out.
Qed.

(** C15: in a running server, the fan-out to a healthy emitter is exactly once and isolated: start
    it with any emitters (of any behaviour) under distinct names, on a database whose clock does
    not run backwards, let webhooks arrive and worker timers fire in any order, and let each worker
    poll the futures of its batches in any order.  Then what a
    healthy emitter has received so far are distinct stored webhooks; and once its own timer
    has fired as often as there are stored webhooks, whatever the other workers do in between,
    it has received exactly the stored webhooks, each once. *)
Theorem healthy_emitter_gets_every_webhook launch p0 specs horizon i spec s0 acts :
  TestServer.booted launch = Ok p0 → db p0 = empty_db → healthy p0 → calm p0 →
  (∀ j k, TestServer.wall (TestServer.streams launch j) k ≤ horizon) →
  NoDup (map EmitterSpec.name specs) → Forall (usable_spec horizon) specs →
  specs !! i = Some spec →
  EmitterSpec.fake spec = FakeEmitter.new (EmitterSpec.name spec) EmitterBehavior.Healthy →
  TestServer.start launch specs = Some (Ok s0) →
  let s := foldl perform s0 acts in
  ∃ fake, TestServer.emitter (EmitterSpec.name spec) s = Some fake ∧
    NoDup (received_receipts fake) ∧ (∀ id, id ∈ received_receipts fake → id ∈ stored s) ∧
    ∀ fires, (List.length (stored s) ≤ count_occ Nat.eq_dec (map fst fires) i)%nat →
      let s' := foldl perform s (map fire fires) in
      ∃ fake', TestServer.emitter (EmitterSpec.name spec) s' = Some fake' ∧
        stored s' = stored s ∧ received_receipts fake' ≡ₚ stored s.
Proof.
  intros Hboot Hdb Hh Hcalm Hwall Hnames Hspecs Hspec Hfake Hstart s.
  pose proof (started_serving _ _ _ _ _ _ _ Hnames Hspec Hboot Hdb Hh Hwall Hfake Hstart) as Hs0.
  destruct (perform_serving p0 specs horizon i spec Hcalm Hnames Hspecs Hspec acts s0 [] Hs0) as (received & Hs).
  fold s in Hs. destruct (serving_receives _ _ _ _ _ _ _ Hs) as (Hnd & Hin & _).
  pose proof (serving_emitter _ _ _ _ _ _ _ Hs) as (fake & He & Hr). exists fake. rewrite Hr.
  split_and!; [done..|]. intros fires Hcount s'.
  destruct (fires_serving p0 specs horizon i spec Hcalm Hnames Hspecs Hspec fires s received Hs)
    as (received' & Hs' & Hst & Hlen). fold s' in Hs', Hst.
  pose proof (serving_emitter _ _ _ _ _ _ _ Hs') as (fake' & He' & Hr'). exists fake'. rewrite Hr'.
  split_and!; [done|done|]. rewrite <- Hst in Hlen, Hcount |- *. apply (serving_receives _ _ _ _ _ _ _ Hs'). lia.
Qed.
End whole.

(** ** The server scenarios, and a witness *)

(** A session whose clock advances by a tenth of a second each round trip. *)
Definition moving_session (t : DateTime) (u : Uuid) : Pg :=
  mkPg empty_db 0 (λ n, mkClock (t + 100000000 * Z.of_nat n) (u + N.of_nat n)%N (λ _, false)) [].

Definition sample_launch : TestServer.Launch :=
  TestServer.mkLaunch (Ok (moving_session 1000 10%N)) (Ok tt) calm_env
    (λ j, TestServer.mkStreams (λ _, 1000) (λ _, 0.5%float) calm_env).

(** The workers take turns, before each step and while it waits. *)
Definition turns (_ : nat) : TestServer.Fires * list TestServer.Fires :=
  ([(0, []); (1, [])]%nat, repeat [(1, []); (0, [])]%nat 40).

Theorem server_features_pass :
  Forall (λ feature, (ServerSteps.run_scenario powi_iter feature turns ServerWorld.new).1 = Ok tt)
    [ServerSteps.server_fanout_feature powi_iter sample_launch sample_headers;
     ServerSteps.server_retry_feature powi_iter sample_launch sample_headers;
     ServerSteps.server_dlq_feature powi_iter sample_launch sample_headers].
Proof. repeat constructor; vm_compute; reflexivity. Qed.

Lemma new_spec_usable name fake : usable_spec 2000 (EmitterSpec.new name fake).
Proof.
  split_and!; [|vm_compute; discriminate..].
  split_and!; [vm_compute; discriminate..|]. exists 2. split; [lia|reflexivity].
Qed.

(** Two webhooks, with a broken emitter beside the healthy one. *)
Lemma healthy_emitter_gets_every_webhook_witness :
  let specs := [EmitterSpec.new "healthy" (FakeEmitter.new "healthy" EmitterBehavior.Healthy);
                EmitterSpec.new "broken" (FakeEmitter.new "broken" EmitterBehavior.AlwaysFail)] in
  ∃ s0, TestServer.start sample_launch specs = Some (Ok s0) ∧
    let s := foldl (perform powi_iter) s0
               [Fire 1 []; Post FAKE_PROVIDER sample_headers [Byte.x31]; Fire 1 [];
                Post FAKE_PROVIDER sample_headers [Byte.x32]; Fire 0 [0]%nat] in
    List.length (stored s) = 2%nat ∧
    ∃ fake', TestServer.emitter "healthy" (foldl (perform powi_iter) s (map fire [(0, []); (1, [0]); (0, [0; 0])]%nat)) = Some fake' ∧
             received_receipts fake' ≡ₚ stored s.
Proof.
  intros specs. eexists. split; [reflexivity|]. split; [vm_compute; reflexivity|].
  match goal with |- context [foldl _ (foldl _ ?s0 _) _] =>
  destruct (healthy_emitter_gets_every_webhook powi_iter sample_launch (moving_session 1000 10%N) specs 2000 0
    (EmitterSpec.new "healthy" (FakeEmitter.new "healthy" EmitterBehavior.Healthy)) s0
    [Fire 1 []; Post FAKE_PROVIDER sample_headers [Byte.x31]; Fire 1 [];
     Post FAKE_PROVIDER sample_headers [Byte.x32]; Fire 0 [0]%nat]) as (fake & _ & _ & _ & Hfires) end.
  - reflexivity.
  - reflexivity.
  - reflexivity.
  - split; [|reflexivity]. intros i j Hij. cbn. lia.
  - intros j k. vm_compute. discriminate.
  - vm_decide.
  - repeat constructor; apply new_spec_usable.
  - reflexivity.
  - reflexivity.
  - reflexivity.
  - destruct (Hfires [(0, []); (1, [0]); (0, [0; 0])]%nat) as (fake' & He & _ & Hr); [vm_compute; lia|]. exists fake'. split; [exact He|exact Hr].
Defined.
