(* ===== verification/Cli.v ===== *)
(** * crates/hookbox-cli: the command line

    The subcommands of [src/commands/] over the storage of [Postgres.v].  The machine the tool
    runs on (files, the console, the TOML parser, the JSON printer, the database connection) is
    the record [Host]; the world of a command is its database session and what it printed.  A
    command that panics returns [None].  Logging through [tracing] is not modelled. *)

From S2P Require Import Prelude RustStd F64 Types Traits Database Postgres Config ConfigToml Worker Json Emitters.
From stdpp Require Import pretty.
Local Open Scope Z_scope.
Local Open Scope rust_scope.

Inductive Stream : Type := Stdout | Stderr.

(** [toml_parse] is the parser of the [toml] crate, and [toml_error] the text of its error when the
    tree of a document is not a configuration. *)
Record Host : Type := mkHost {
  read_to_string : string → result string string;
  toml_parse : string → result Toml string;
  toml_error : string → DeError → string;
  to_string_pretty : Value → result string string;
  write_fails : Stream → string → option string;
  connect_fails : string → option string;
  migrate_fails : option string;
  utc_now : DateTime
}.

(** [toml::from_str::<HookboxConfig>], an error as its text. *)
Definition toml_from_str (host : Host) (raw : string) : result HookboxConfig.t string :=
  map_err (λ e, match e with Syntax message => message | Data e => toml_error host raw e end)
    (config_from_str (toml_parse host) raw).

Record Console : Type := mkConsole { session : Pg; printed : list (Stream * string) }.

(** ** Text *)

(** [{:<n}] and [{:>n}] *)
Definition spaces (n : nat) : string := Nat.iter n (String " ") EmptyString.
Definition pad (width : Z) (s : string) : string := spaces (Z.to_nat (width - chars_count s)).
Definition left_align (width : Z) (s : string) : string := s +:+ pad width s.
Definition right_align (width : Z) (s : string) : string := pad width s +:+ s.

(** [{:?}] of a sequence and of a [BTreeSet] of strings. *)
Definition vec_debug (l : list string) : string :=
  "[" +:+ RustStd.join ", " (List.map str_debug l) +:+ "]".
Definition set_debug (l : list string) : string :=
  "{" +:+ RustStd.join ", " (List.map str_debug l) +:+ "}".

(** [collect::<BTreeSet<String>>()], as the sorted list of its elements. *)
Definition str_le (s t : string) : Prop := Is_true (str_leb s t).
Definition btree_set (l : list string) : list string := merge_sort str_le (remove_dups l).

(** [{:?}] of a [DeliveryState] *)
Definition delivery_state_debug (s : DeliveryState.t) : string :=
  match s with
  | DeliveryState.Pending => "Pending"
  | DeliveryState.InFlight => "InFlight"
  | DeliveryState.Emitted => "Emitted"
  | DeliveryState.Failed => "Failed"
  | DeliveryState.DeadLettered => "DeadLettered"
  end.

Definition config_error_text (e : ConfigError.t string) : string := ConfigError.to_string id e.

(** ** chrono *)

(** [chrono::Duration::seconds] and its siblings panic out of range ([None]). *)
Definition delta_seconds (n : Z) : option Duration :=
  if Z.abs n <=? i64_max / 1000 then Some (Duration_from_secs n) else None.
(** The first instant [chrono] represents, in nanoseconds. *)
Definition datetime_min : DateTime := -8334601228800000000000.
(** [instant - duration] panics out of range. *)
Definition sub_delta (t : DateTime) (d : Duration) : option DateTime :=
  let r := t - d in
  if (datetime_min <=? r) && (r <=? datetime_max) then Some r else None.

(** The text of the [ParseIntError] of [s.parse::<i64>()], for an [s] that does not parse: the
    first digit that is not one or that overflows. *)
Fixpoint first_int_error (bound : Z) (overflow : string) (acc : Z) (s : string) : string :=
  match s with
  | EmptyString => "invalid digit found in string"
  | String a s' =>
      match digit_val a with
      | None => "invalid digit found in string"
      | Some d =>
          if bound <? 10 * acc + d then overflow
          else first_int_error bound overflow (10 * acc + d) s'
      end
  end.
Definition parse_i64_error (s : string) : string :=
  let positive := first_int_error i64_max "number too large to fit in target type" 0 in
  match s with
  | EmptyString => "cannot parse integer from empty string"
  | String "+" s' => positive s'
  | String "-" s' => first_int_error (- i64_min) "number too small to fit in target type" 0 s'
  | _ => positive s
  end.

(** [parse_duration] of commands/replay.rs *)
Definition parse_duration (s : string) : option (result Duration AnyhowError) :=
  let s := trim s in
  if decide (s = EmptyString) then Some (Err (anyhow "duration string must not be empty")) else
  match split_at_last s with
  | None => None
  | Some (num_str, unit) =>
      match parse_i64 num_str with
      | None =>
          Some (context ("invalid duration number: " +:+ str_debug num_str)
                  (Err (anyhow (parse_i64_error num_str))))
      | Some n =>
          let delta (o : option Duration) := match o with Some d => Some (Ok d) | None => None end in
          if decide (unit = "s") then delta (delta_seconds n)
          else if decide (unit = "m") then delta (delta_seconds (n * 60))
          else if decide (unit = "h") then delta (delta_seconds (n * 3600))
          else if decide (unit = "d") then delta (delta_seconds (n * 86400))
          else Some (Err (anyhow ("unknown duration unit " +:+ str_debug unit +:+
                                  " — expected s, m, h, or d")))
      end
  end.

(** ** Commands *)

Module ReceiptsCommand.
Inductive t : Type :=
| List (database_url : string) (provider state : option string) (limit : Z)
| Inspect (database_url : string) (receipt_id : Uuid)
| Search (database_url external_ref : string) (limit : Z).
End ReceiptsCommand.

Module ReplayCommand.
Inductive t : Type :=
| Id (database_url config : string) (receipt_id : Uuid) (emitter : option string)
| Failed (database_url : string) (provider : option string) (since : string) (limit : Z).
End ReplayCommand.

Module DlqCommand.
Inductive t : Type :=
| List (database_url : string) (emitter : option string) (limit offset : Z)
| Inspect (database_url : string) (delivery_id : Uuid)
| Retry (database_url config : string) (delivery_id : Uuid).
End DlqCommand.

Module EmittersCommand.
Inductive t : Type := List (config database_url : string).
End EmittersCommand.

Module ConfigCommand.
Inductive t : Type := Validate (path : string).
End ConfigCommand.

(** [Commands], without [Serve], which [Process.v] adds. *)
Module Commands.
Inductive t : Type :=
| Receipts (command : ReceiptsCommand.t)
| Replay (command : ReplayCommand.t)
| Dlq (command : DlqCommand.t)
| Emitters (command : EmittersCommand.t)
| Config (command : ConfigCommand.t).
End Commands.

Section commands.
Context `{SerdeJson} `{PgTypes} `{UuidText} `{Codecs} `{ChronoText}.
Variable host : Host.

(** [r.context(ctx)?] *)
Definition with_context {A} (ctx : string) (m : M Console (result A AnyhowError)) :
    M Console (result A AnyhowError) :=
  r <- m ;; ret (context ctx r).

(** A call of the storage, its error converted by [?]. *)
Definition call {A} (m : M Pg (result A StorageError.t)) : M Console (result A AnyhowError) :=
  λ w, let '(r, p) := m (session w) in
       (map_err (λ e, anyhow (StorageError.to_string e)) r, mkConsole p (printed w)).

Definition write (stream : Stream) (text : string) : M Console (result unit AnyhowError) :=
  λ w, match write_fails host stream text with
       | Some e => (Err (anyhow e), w)
       | None => (Ok tt, mkConsole (session w) (printed w ++ [(stream, text)]))
       end.

(** The outcome of a call that only the host answers. *)
Definition outcome (failure : option string) : M Console (result unit AnyhowError) :=
  ret (match failure with Some e => Err (anyhow e) | None => Ok tt end).

Definition newline : string := String "010" EmptyString.

(** db.rs *)
Definition connect (database_url : string) : M Console (result unit AnyhowError) :=
  with_context "failed to connect to database" (outcome (connect_fails host database_url)).

(** A command that does not panic. *)
Definition returns {A} (m : M Console (result A AnyhowError)) :
    M Console (option (result A AnyhowError)) :=
  r <- m ;; ret (Some r).

(** The prologue of the commands that need the configuration. *)
Definition load_config (config : string) : M Console (result HookboxConfig.t AnyhowError) :=
  raw <-? lift_result (context ("failed to read config file: " +:+ config)
            (map_err anyhow (read_to_string host config))) ;;
  '(parsed, warnings) <-? lift_result (context ("failed to parse config: " +:+ config)
            (map_err (λ e, anyhow (config_error_text e))
               (parse_and_normalize (toml_from_str host) raw))) ;;
  _ <-? for_try (λ warning, with_context "failed to write warning"
                   (write Stderr ("warning: " +:+ warning +:+ newline))) warnings ;;
  ret (Ok parsed).

(** Pretty JSON on standard output. *)
Definition print_json (what : string) (v : Value) : M Console (result unit AnyhowError) :=
  json <-? lift_result (context ("failed to serialize " +:+ what)
             (map_err anyhow (to_string_pretty host v))) ;;
  _ <-? with_context "failed to write to stdout" (write Stdout json) ;;
  with_context "failed to write newline" (write Stdout newline).

(** ** commands/replay.rs *)

Definition run_replay_id (database_url config : string) (receipt_id : Uuid)
    (emitter : option string) : M Console (result unit AnyhowError) :=
  parsed <-? load_config config ;;
  let configured := btree_set (List.map EmitterEntry.name (HookboxConfig.emitters parsed)) in
  _ <-? connect database_url ;;
  match emitter with
  | Some name =>
      if negb (bool_decide (name ∈ configured))
      then ret (Err (anyhow ("refusing to replay receipt " +:+ uuid_to_string receipt_id +:+
             ": emitter " +:+ str_debug name +:+ " is not present in " +:+ config +:+
             "; configured emitters: " +:+ set_debug configured)))
      else
        _ <-? with_context ("insert_replay failed for receipt " +:+ uuid_to_string receipt_id +:+
                            " emitter " +:+ name)
                (call (PostgresStorage.insert_replay (ReceiptId.mk receipt_id) name)) ;;
        ret (Ok tt)
  | None =>
      deliveries <-? with_context
        ("get_deliveries_for_receipt failed for " +:+ uuid_to_string receipt_id)
        (call (PostgresStorage.get_deliveries_for_receipt (ReceiptId.mk receipt_id))) ;;
      if decide (deliveries = [])
      then ret (Err (anyhow ("receipt " +:+ uuid_to_string receipt_id +:+
             " has no existing deliveries — cannot infer emitter set; pass --emitter explicitly")))
      else
        let historical := btree_set (List.map WebhookDelivery.emitter_name deliveries) in
        let stale := List.filter (λ n, negb (bool_decide (n ∈ configured))) historical in
        if decide (stale ≠ [])
        then ret (Err (anyhow ("refusing to replay receipt " +:+ uuid_to_string receipt_id +:+
               ": historical emitters " +:+ vec_debug stale +:+ " are no longer present in " +:+
               config +:+ "; configured emitters: " +:+ set_debug configured)))
        else
          _ <-? with_context ("insert_replays failed for receipt " +:+ uuid_to_string receipt_id)
                  (call (PostgresStorage.insert_replays (ReceiptId.mk receipt_id) historical)) ;;
          ret (Ok tt)
  end.

(** The arm [ReplayCommand::Failed].  The session is one of a migrated database, as every [Db] is:
    there [migrate] changes nothing ([migrate_brings_schema]) and only its outcome matters.  What it
    does to a database of version 1 is [migrate_0002]. *)
Definition run_replay_failed (database_url : string) (provider : option string) (since : string)
    (limit : Z) : M Console (option (result unit AnyhowError)) :=
  ready <- (_ <-? connect database_url ;;
            with_context "migration failed" (outcome (migrate_fails host))) ;;
  match ready with
  | Err e => ret (Some (Err e))
  | Ok _ =>
      match parse_duration since with
      | None => ret None
      | Some (Err e) => ret (Some (Err e))
      | Some (Ok duration) =>
          match sub_delta (utc_now host) duration with
          | None => ret None
          | Some since_dt =>
              returns (
                receipts <-? call (PostgresStorage.query_failed_since provider since_dt (Some limit)) ;;
                for_try (λ r, call (PostgresStorage.reset_for_retry
                                      (ReceiptId.uuid (WebhookReceipt.receipt_id r)))) receipts)
          end
      end
  end.

Definition run_replay (command : ReplayCommand.t) : M Console (option (result unit AnyhowError)) :=
  match command with
  | ReplayCommand.Id database_url config receipt_id emitter =>
      returns (run_replay_id database_url config receipt_id emitter)
  | ReplayCommand.Failed database_url provider since limit =>
      run_replay_failed database_url provider since limit
  end.

(** ** commands/dlq.rs *)

(** [get_delivery], where no row is an error. *)
Definition fetch_delivery (delivery_id : Uuid) :
    M Console (result (WebhookDelivery.t * WebhookReceipt.t) AnyhowError) :=
  found <-? with_context "failed to fetch delivery"
              (call (PostgresStorage.get_delivery (DeliveryId.mk delivery_id))) ;;
  ret (ok_or found (anyhow ("delivery " +:+ uuid_to_string delivery_id +:+ " not found"))).

Definition run_dlq_retry (database_url config : string) (delivery_id : Uuid) :
    M Console (result unit AnyhowError) :=
  parsed <-? load_config config ;;
  _ <-? connect database_url ;;
  '(delivery, receipt) <-? fetch_delivery delivery_id ;;
  if decide (WebhookDelivery.state delivery ≠ DeliveryState.DeadLettered)
  then ret (Err (anyhow ("refusing to replay delivery " +:+ uuid_to_string delivery_id +:+
         ": state is " +:+ delivery_state_debug (WebhookDelivery.state delivery) +:+
         ", expected DeadLettered. Use `hookbox replay id` for non-DLQ receipts.")))
  else if negb (existsb (λ e, bool_decide (EmitterEntry.name e = WebhookDelivery.emitter_name delivery))
                  (HookboxConfig.emitters parsed))
  then ret (Err (anyhow ("refusing to replay delivery " +:+ uuid_to_string delivery_id +:+
         ": emitter " +:+ str_debug (WebhookDelivery.emitter_name delivery) +:+
         " is no longer present in " +:+ config +:+ "; configured emitters: " +:+
         vec_debug (List.map EmitterEntry.name (HookboxConfig.emitters parsed)))))
  else
    _ <-? with_context "failed to insert replay delivery"
            (call (PostgresStorage.insert_replay (WebhookReceipt.receipt_id receipt)
                     (WebhookDelivery.emitter_name delivery))) ;;
    ret (Ok tt).

Definition run_dlq (command : DlqCommand.t) : M Console (result unit AnyhowError) :=
  match command with
  | DlqCommand.List database_url emitter limit offset =>
      _ <-? connect database_url ;;
      _ <-? with_context "failed to list dead-lettered deliveries"
              (call (PostgresStorage.list_dlq emitter limit offset)) ;;
      ret (Ok tt)
  | DlqCommand.Inspect database_url delivery_id =>
      _ <-? connect database_url ;;
      '(delivery, receipt) <-? fetch_delivery delivery_id ;;
      print_json "delivery"
        (VObject [("delivery", delivery_value delivery); ("receipt", receipt_value receipt)])
  | DlqCommand.Retry database_url config delivery_id =>
      run_dlq_retry database_url config delivery_id
  end.

(** ** commands/receipts.rs *)

(** The text in quotes is parsed as a variant name. *)
Definition parse_processing_state (s : string) : result ProcessingState.t string :=
  map_err (λ e, match e with
                | StorageError.Serialization m => m
                | _ => EmptyString
                end)
    (deserialize_enum ProcessingState.all ProcessingState.serde_name s).

(** [option.map(f).transpose()] *)
Definition transpose {A E} (o : option (result A E)) : result (option A) E :=
  match o with
  | None => Ok None
  | Some (Ok a) => Ok (Some a)
  | Some (Err e) => Err e
  end.

Definition run_receipts (command : ReceiptsCommand.t) : M Console (result unit AnyhowError) :=
  match command with
  | ReceiptsCommand.List database_url provider state limit =>
      _ <-? connect database_url ;;
      processing_state <-? lift_result (context "invalid --state value"
        (map_err anyhow (transpose (parse_processing_state <$> state)))) ;;
      let filter := ReceiptFilter.mk provider processing_state None None (Some limit) None in
      _ <-? call (PostgresStorage.query filter) ;;
      ret (Ok tt)
  | ReceiptsCommand.Inspect database_url receipt_id =>
      _ <-? connect database_url ;;
      found <-? call (PostgresStorage.get receipt_id) ;;
      receipt <-? lift_result (ok_or found (anyhow "receipt not found")) ;;
      print_json "receipt" (receipt_value receipt)
  | ReceiptsCommand.Search database_url external_ref limit =>
      _ <-? connect database_url ;;
      _ <-? call (PostgresStorage.query_by_external_reference external_ref (Some limit)) ;;
      ret (Ok tt)
  end.

(** ** commands/emitters.rs *)

Definition table_row (name type dlq pending in_flight : string) : string :=
  left_align 24 name +:+ " " +:+ left_align 10 type +:+ " " +:+ right_align 8 dlq +:+ " " +:+
  right_align 8 pending +:+ " " +:+ right_align 10 in_flight +:+ newline.

Definition emitter_row (emitter : EmitterEntry.t) : M Console (result unit AnyhowError) :=
  let name := EmitterEntry.name emitter in
  dlq <-? with_context ("count_dlq failed for " +:+ name) (call (PostgresStorage.count_dlq name)) ;;
  pending <-? with_context ("count_pending failed for " +:+ name)
                (call (PostgresStorage.count_pending name)) ;;
  in_flight <-? with_context ("count_in_flight failed for " +:+ name)
                  (call (PostgresStorage.count_in_flight name)) ;;
  with_context "failed to write row"
    (write Stdout (table_row name (EmitterEntry.emitter_type emitter) (pretty dlq) (pretty pending)
                     (pretty in_flight))).

Definition run_emitters (command : EmittersCommand.t) : M Console (result unit AnyhowError) :=
  match command with
  | EmittersCommand.List config database_url =>
      parsed <-? load_config config ;;
      _ <-? connect database_url ;;
      _ <-? with_context "failed to write header"
              (write Stdout (table_row "NAME" "TYPE" "DLQ" "PENDING" "IN_FLIGHT")) ;;
      for_try emitter_row (HookboxConfig.emitters parsed)
  end.

(** ** commands/config_validate.rs *)

(** What [println!] and [eprintln!] print; they panic when a write fails. *)
Definition validate_output (config : HookboxConfig.t) (warnings : list string) :
    list (Stream * string) :=
  List.map (λ w, (Stderr, "WARNING: " +:+ w +:+ newline)) warnings ++
  (Stdout, "OK: " +:+ pretty (Z.of_nat (List.length (HookboxConfig.emitters config))) +:+
           " emitter(s) configured" +:+ newline) ::
  List.map (λ e, (Stdout, "  - " +:+ EmitterEntry.name e +:+ " (type=" +:+
                          EmitterEntry.emitter_type e +:+ ")" +:+ newline))
    (HookboxConfig.emitters config).

Definition run_config (command : ConfigCommand.t) : M Console (option (result unit AnyhowError)) :=
  match command with
  | ConfigCommand.Validate path =>
      match context ("reading " +:+ path) (map_err anyhow (read_to_string host path)) with
      | Err e => ret (Some (Err e))
      | Ok raw =>
          match context ("normalizing config at " +:+ path)
                  (map_err (λ e, anyhow (config_error_text e))
                     (parse_and_normalize (toml_from_str host) raw)) with
          | Err e => ret (Some (Err e))
          | Ok (config, warnings) =>
              r <- for_try (λ line, write line.1 line.2) (validate_output config warnings) ;;
              ret (match r with Ok _ => Some (Ok tt) | Err _ => None end)
          end
      end
  end.

End commands.
