(* ===== verification/CliProps.v ===== *)
(** * What the operator commands do to the queue *)

From S2P Require Import Prelude RustStd F64 Types Traits Database Samples DatabaseProps Postgres PostgresProps Lifecycle Fleet Config ConfigToml Instances Worker Json Emitters Cli.
Local Open Scope Z_scope.

(** ** Sorted sets of strings *)

Lemma elem_of_btree_set n l : n ∈ btree_set l ↔ n ∈ l.
Proof. unfold btree_set. by rewrite merge_sort_Permutation, elem_of_remove_dups. Qed.

Lemma NoDup_btree_set l : NoDup (btree_set l).
Proof. unfold btree_set. rewrite merge_sort_Permutation. apply NoDup_remove_dups. Qed.

(** ** Durations *)

(** The number of seconds of a unit. *)
Definition unit_seconds (u : ascii) : option Z :=
  if decide (u = "s"%char) then Some 1
  else if decide (u = "m"%char) then Some 60
  else if decide (u = "h"%char) then Some 3600
  else if decide (u = "d"%char) then Some 86400
  else None.

Lemma unit_ascii u k :
  unit_seconds u = Some k →
  (0x80 <=? Z.of_nat (nat_of_ascii u)) && (Z.of_nat (nat_of_ascii u) <=? 0xBF) = false.
Proof. unfold unit_seconds. repeat (destruct (decide _) as [->|]; [done|]). done. Qed.

Lemma parse_duration_units num u s :
  trim s = num +:+ String u EmptyString →
  parse_duration s =
  if (0x80 <=? Z.of_nat (nat_of_ascii u)) && (Z.of_nat (nat_of_ascii u) <=? 0xBF) then None else
  match parse_i64 num with
  | None => Some (context ("invalid duration number: " +:+ str_debug num)
                    (Err (anyhow (parse_i64_error num))))
  | Some n =>
      match unit_seconds u with
      | Some k => Ok <$> delta_seconds (n * k)
      | None => Some (Err (anyhow ("unknown duration unit " +:+ str_debug (String u EmptyString) +:+
                                   " — expected s, m, h, or d")))
      end
  end.
Proof.
  intros Hs. unfold parse_duration. rewrite Hs.
  destruct (decide _) as [E|_]; [by destruct num|].
  unfold split_at_last. rewrite split_last_app. destruct (_ && _); [done|].
  destruct (parse_i64 num) as [n|]; [|done]. unfold unit_seconds.
  repeat match goal with
  | |- context [decide (u = ?c)] =>
      destruct (decide (u = c)) as [->|?];
      [rewrite ?Z.mul_1_r; cbn [decide]; by destruct (delta_seconds _)|
       rewrite (decide_False (P := String u EmptyString = String c EmptyString)) by congruence]
  end.
  done.
Qed.

Lemma delta_seconds_Some n d :
  delta_seconds n = Some d ↔ Z.abs n ≤ i64_max / 1000 ∧ d = Duration_from_secs n.
Proof.
  unfold delta_seconds. destruct (Z.leb_spec (Z.abs n) (i64_max / 1000)); split; try naive_solver lia.
Qed.

(** The durations accepted are a number of 64 bits and a unit, between white space, in the
    range of [chrono].  The function panics exactly when the text ends inside a character, or
    when a well-formed duration is out of that range. *)
Theorem parse_duration_exact s :
  (∀ d, parse_duration s = Some (Ok d) ↔
     ∃ num u n k, trim s = num +:+ String u EmptyString ∧ parse_i64 num = Some n ∧
       unit_seconds u = Some k ∧ Z.abs (n * k) ≤ i64_max / 1000 ∧ d = Duration_from_secs (n * k)) ∧
  (parse_duration s = None ↔
     ∃ num u, trim s = num +:+ String u EmptyString ∧
       (0x80 ≤ Z.of_nat (nat_of_ascii u) ≤ 0xBF ∨
        ∃ n k, parse_i64 num = Some n ∧ unit_seconds u = Some k ∧ i64_max / 1000 < Z.abs (n * k))).
Proof.
  destruct (split_last (trim s)) as [[num u]|] eqn:E.
  - apply split_last_Some in E. rewrite (parse_duration_units _ _ _ E).
    assert (∀ num' u', trim s = num' +:+ String u' EmptyString → num' = num ∧ u' = u) as Hu.
    { intros num' u' E'. rewrite E in E'. apply string_app_inj_length in E' as [-> [= ->]]; done. }
    setoid_rewrite <- delta_seconds_Some.
    destruct (_ && _) eqn:Ec.
    + split; [intros d; split; [done|]|].
      * intros (num' & u' & n & k & (-> & ->)%Hu & _ & Hk & _).
        apply unit_ascii in Hk. congruence.
      * split; [|done]. intros _. exists num, u. split; [done|]. left. lia.
    + assert (¬ (0x80 ≤ Z.of_nat (nat_of_ascii u) ≤ 0xBF)) as Hc by lia.
      destruct (parse_i64 num) as [n|] eqn:En; [|].
      2: { split; [intros d|]; (split; [done|]); [intros (? & ? & ? & ? & (-> & ->)%Hu & ? & _)|
             intros (? & ? & (-> & ->)%Hu & [?|(? & ? & ? & _)])]; congruence. }
      destruct (unit_seconds u) as [k|] eqn:Ek.
      2: { split; [intros d|]; (split; [done|]); [intros (? & ? & ? & ? & (-> & ->)%Hu & _ & ? & _)|
             intros (? & ? & (-> & ->)%Hu & [?|(? & ? & _ & ? & _)])]; congruence. }
      split; [intros d; split|split].
      * destruct (delta_seconds (n * k)) as [d'|] eqn:Ed; [|done]. intros [= <-]. eauto 10.
      * intros (num' & u' & n' & k' & (-> & ->)%Hu & ? & ? & Hd). simplify_eq. by rewrite Hd.
      * unfold delta_seconds. destruct (Z.leb_spec (Z.abs (n * k)) (i64_max / 1000)); [done|].
        intros _. exists num, u. eauto 10.
      * intros (num' & u' & (-> & ->)%Hu & [?|(n' & k' & ? & ? & ?)]); [done|]. simplify_eq.
        unfold delta_seconds. destruct (Z.leb_spec (Z.abs (n * k)) (i64_max / 1000)); [lia|done].
  - assert (trim s = EmptyString) as Ht.
    { destruct (trim s) as [|a t]; [done|]. cbn in E. by destruct (split_last t) as [[??]|]. }
    assert (∀ num u, EmptyString ≠ num +:+ String u EmptyString) as Hn.
    { intros [|??] u; discriminate. }
    unfold parse_duration. rewrite Ht. split; [intros d|]; (split; [done|]).
    + intros (num & u & n & k & H & _). by destruct (Hn num u).
    + intros (num & u & H & _). by destruct (Hn num u).
Qed.

Example parse_seconds : parse_duration "30s" = Some (Ok (Duration_from_secs 30)).
Proof. reflexivity. Qed.
Example parse_with_whitespace : parse_duration "  1h  " = Some (Ok (Duration_from_secs 3600)).
Proof. reflexivity. Qed.
Example parse_micro_sign_panics : parse_duration "5µ" = None.
Proof. reflexivity. Qed.
Example parse_huge_panics : parse_duration "99999999999999d" = None.
Proof. reflexivity. Qed.

(** ** The steps of a command *)

(** The configuration file [path] holds the valid configuration [cfg]. *)
Definition configures (host : Host) (path : string) (cfg : HookboxConfig.t) : Prop :=
  ∃ raw warnings, read_to_string host path = Ok raw ∧
    parse_and_normalize (toml_from_str host) raw = Ok (cfg, warnings).
Definition emitter_names (cfg : HookboxConfig.t) : list string :=
  List.map EmitterEntry.name (HookboxConfig.emitters cfg).
(** The console, the connection and the migrations work. *)
Definition working (host : Host) : Prop :=
  (∀ s t, write_fails host s t = None) ∧ (∀ url, connect_fails host url = None) ∧
  migrate_fails host = None.

Section steps.
Context `{SerdeJson} `{PgTypes} `{UuidText} `{Codecs} `{ChronoText}.
Variable host : Host.

Lemma with_context_inv {A} ctx (m : M Console (result A AnyhowError)) w res w' :
  with_context ctx m w = (res, w') → ∃ r, m w = (r, w') ∧ res = context ctx r.
Proof. unfold with_context, bind, ret. destruct (m w) as [r w1]. intros [= <- <-]. eauto. Qed.

Lemma context_Ok {A} ctx (r : result A AnyhowError) a : context ctx r = Ok a → r = Ok a.
Proof. by destruct r. Qed.

Lemma call_inv {A} (m : M Pg (result A StorageError.t)) w res w' :
  call m w = (res, w') →
  ∃ r, m (session w) = (r, session w') ∧
       match res with Ok a => r = Ok a | Err _ => ∃ e, r = Err e end.
Proof. unfold call. destruct (m (session w)) as [[a|e] p]; intros [= <- <-]; cbn; eauto. Qed.

(** A call with its context. *)
Lemma storage_call_inv {A} ctx (m : M Pg (result A StorageError.t)) w res w' :
  with_context ctx (call m) w = (res, w') →
  ∃ r, m (session w) = (r, session w') ∧
       match res with Ok a => r = Ok a | Err _ => ∃ e, r = Err e end.
Proof.
  intros (r & (r' & Hm & Hr)%call_inv & ->)%with_context_inv. exists r'.
  split; [done|]. by destruct r.
Qed.

Lemma write_session stream text w : session (write host stream text w).2 = session w.
Proof. unfold write. by destruct (write_fails _ _ _). Qed.

Lemma write_warnings_session ws w res w' :
  for_try (λ t, with_context "failed to write warning"
             (write host Stderr ("warning: " +:+ t +:+ newline))) ws w = (res, w') →
  session w' = session w.
Proof.
  revert w. induction ws as [|t ws IH]; intros w; cbn [for_try]; [by intros [= _ <-]|].
  intros [(e & (r & Hw & _)%with_context_inv & _)|(a & w1 & (r & Hw & _)%with_context_inv & Hrest)]%bind_try_inv.
  - pose proof (write_session Stderr ("warning: " +:+ t +:+ newline) w) as Hs. by rewrite Hw in Hs.
  - apply IH in Hrest as ->.
    pose proof (write_session Stderr ("warning: " +:+ t +:+ newline) w) as Hs. by rewrite Hw in Hs.
Qed.

Lemma load_config_inv path w res w' :
  load_config host path w = (res, w') →
  session w' = session w ∧ ∀ cfg, res = Ok cfg → configures host path cfg.
Proof.
  unfold load_config, lift_result, ret.
  intros [(e & [= _ <-] & ->)|(raw & w1 & [= Hraw <-] & Hrun)]%bind_try_inv; [done|].
  apply bind_try_inv in Hrun as [(e & [= _ <-] & ->)|([cfg ws] & w2 & [= Hcfg <-] & Hrun)]; [done|].
  apply context_Ok in Hraw, Hcfg.
  apply bind_try_inv in Hrun as [(e & Hw & ->)|([] & w3 & Hw & [= <- <-])];
    apply write_warnings_session in Hw; (split; [done|]); [done|].
  intros _ [= <-]. exists raw, ws.
  destruct (read_to_string host path), (parse_and_normalize _ _) as [[]|]; cbn in *; split; congruence.
Qed.

Lemma load_config_working path cfg w :
  working host → configures host path cfg →
  ∃ w', load_config host path w = (Ok cfg, w') ∧ session w' = session w.
Proof.
  intros (Hwrite & _ & _) (raw & ws & Hraw & Hcfg).
  assert (∀ w, ∃ w', for_try (λ t, with_context "failed to write warning"
             (write host Stderr ("warning: " +:+ t +:+ newline))) ws w = (Ok tt, w') ∧
             session w' = session w) as Hws.
  { clear Hcfg. induction ws as [|t ws IH]; intros w'; [by eexists|]. cbn [for_try].
    set (text := "warning: " +:+ t +:+ newline).
    destruct (IH (mkConsole (session w') (printed w' ++ [(Stderr, text)]))) as (w'' & Hrun & Hs).
    exists w''. erewrite bind_try_run; [by split|].
    unfold with_context, bind, write, ret. by rewrite Hwrite. }
  destruct (Hws w) as (w' & Hrun & Hs). exists w'. split; [|done].
  unfold load_config, lift_result. rewrite Hraw. cbn [map_err context]. rewrite bind_try_ok.
  rewrite Hcfg. cbn [map_err context]. rewrite bind_try_ok. by rewrite (bind_try_run _ _ _ _ _ Hrun).
Qed.

Lemma connect_inv url w res w' : connect host url w = (res, w') → w' = w.
Proof. unfold connect. by intros (r & [= _ <-] & _)%with_context_inv. Qed.

Lemma connect_working url w : working host → connect host url w = (Ok tt, w).
Proof. intros (_ & Hc & _). unfold connect, with_context, outcome, bind, ret. by rewrite Hc. Qed.
End steps.

(** ** hookbox replay id *)

(** The emitters a replay of receipt [id] goes to: the requested one, or each one that has a
    delivery of the receipt. *)
Definition wanted (id : Uuid) (requested : option string) (d : Db) (n : string) : Prop :=
  match requested with
  | Some name => n = name
  | None => n ∈ List.map DeliveryRow.emitter_name (deliveries_of id d)
  end.

(** One new pending row for each of them; there is at least one and all are configured. *)
Definition requeued (cfg : HookboxConfig.t) (id : Uuid) (requested : option string) (d d' : Db) :
    Prop :=
  ∃ names new, names ≠ [] ∧ NoDup names ∧ (∀ n, n ∈ names ↔ wanted id requested d n) ∧
    Forall (λ n, n ∈ emitter_names cfg) names ∧ replayed id names d d' new.

Section replay_id.
Context `{SerdeJson} `{PgTypes} `{UuidText} `{Codecs} `{ChronoText}.
Variable host : Host.

Lemma filter_stale_nil (names configured : list string) :
  List.filter (λ n, negb (bool_decide (n ∈ configured))) names = [] ↔
  Forall (λ n, n ∈ configured) names.
Proof.
  induction names as [|n l IH]; [by split|]. cbn [List.filter]. rewrite Forall_cons, <- IH.
  destruct (bool_decide (n ∈ configured)) eqn:E; cbn.
  - apply bool_decide_eq_true in E. naive_solver.
  - apply bool_decide_eq_false in E. naive_solver.
Qed.

(** The command after its configuration is loaded and the database connected. *)
Lemma run_replay_id_steps url config id emitter w res w' :
  run_replay_id host url config id emitter w = (res, w') →
  (∃ e, res = Err e ∧ db (session w') = db (session w)) ∨
  ∃ cfg names w1, configures host config cfg ∧ db (session w1) = db (session w) ∧
    names ≠ [] ∧ NoDup names ∧ (∀ n, n ∈ names ↔ wanted id emitter (db (session w)) n) ∧
    Forall (λ n, n ∈ emitter_names cfg) names ∧
    ((∃ n r, names = [n] ∧
        PostgresStorage.insert_replay (ReceiptId.mk id) n (session w1) = (r, session w') ∧
        match res with Ok _ => ∃ a, r = Ok a | Err _ => ∃ e, r = Err e end) ∨
     (∃ r, PostgresStorage.insert_replays (ReceiptId.mk id) names (session w1) = (r, session w') ∧
        match res with Ok _ => ∃ a, r = Ok a | Err _ => ∃ e, r = Err e end)).
Proof.
  unfold run_replay_id. intros [(e & Hl & ->)|(cfg & w1 & Hl & Hrun)]%bind_try_inv;
    apply load_config_inv in Hl as [Hs1 Hcfg]; [left; exists e; by rewrite Hs1|].
  specialize (Hcfg cfg eq_refl).
  apply bind_try_inv in Hrun as [(e & Hc & ->)|([] & w2 & Hc & Hrun)]; apply connect_inv in Hc as ->;
    [left; exists e; by rewrite Hs1|].
  rewrite <- Hs1. clear w Hs1. destruct emitter as [name|].
  - destruct (bool_decide _) eqn:Hn; cbn [negb] in Hrun; [|injection Hrun as <- <-; by eauto].
    apply bool_decide_eq_true in Hn. rewrite elem_of_btree_set in Hn. right.
    exists cfg, [name], w1. split; [done|]. split; [done|]. split; [done|].
    split; [apply NoDup_singleton|]. split; [intros n; cbn; by rewrite list_elem_of_singleton|].
    split; [by apply Forall_singleton|].
    left. apply bind_try_inv in Hrun as [(e & Hc & ->)|(a & w2 & Hc & [= <- <-])];
      apply storage_call_inv in Hc as (r & Hr & Hres); exists name, r; by eauto.
  - apply bind_try_inv in Hrun as [(e & Hg & ->)|(ds & w2 & Hg & Hrun)];
      apply storage_call_inv in Hg as (r & [Hdb Hds]%get_deliveries_inv & Hres); [by eauto|].
    specialize (Hds ds Hres). cbn [ReceiptId.uuid] in Hds.
    destruct (decide (ds = [])) as [->|Hne]; [injection Hrun as <- <-; by eauto|].
    destruct (decide _) as [Hst|Hst%dec_stable]; [injection Hrun as <- <-; by eauto|].
    rewrite filter_stale_nil in Hst. right.
    exists cfg, (btree_set (List.map WebhookDelivery.emitter_name ds)), w2. split; [done|]. split; [done|]. split_and!; [|apply NoDup_btree_set| | |].
    + intros Hnil. destruct ds as [|x ds]; [done|].
      apply (not_elem_of_nil (WebhookDelivery.emitter_name x)). rewrite <- Hnil, elem_of_btree_set.
      cbn [List.map]. apply elem_of_cons. by left.
    + intros n. rewrite elem_of_btree_set. cbn [wanted]. by rewrite Hds.
    + eapply Forall_impl; [exact Hst|]. intros n. by rewrite elem_of_btree_set.
    + right. apply bind_try_inv in Hrun as [(e & Hc & ->)|(a & w3 & Hc & [= <- <-])];
        apply storage_call_inv in Hc as (r' & Hr & Hres'); exists r'; by eauto.
Qed.

Lemma run_replay_id_progress url config id emitter w res w' cfg n0 :
  let d := db (session w) in
  run_replay_id host url config id emitter w = (res, w') →
  working host → configures host config cfg → healthy (session w) → db_wf d →
  fresh_draws (session w) d → id ∈ map ReceiptRow.receipt_id (webhook_receipts d) →
  wanted id emitter d n0 → (∀ n, wanted id emitter d n → n ∈ emitter_names cfg) →
  res = Ok tt.
Proof.
  intros d Hrun Hh Hcfg Hw Hwf Hf Hid Hn0 Hconf. subst d. revert Hrun. unfold run_replay_id.
  destruct (load_config_working host config cfg w Hh Hcfg) as (w1 & Hl & Hs).
  rewrite (bind_try_run _ _ _ _ _ Hl), (bind_try_run _ _ _ _ _ (connect_working host url w1 Hh)).
  rewrite <- Hs in Hw, Hwf, Hf, Hid, Hn0, Hconf. clear w Hs Hl.
  destruct emitter as [name|].
  + rewrite bool_decide_true by (rewrite elem_of_btree_set; by apply Hconf). cbn [negb].
    destruct (insert_replay_healthy (ReceiptId.mk id) name (session w1)) as (new & p & Hins); [done..|].
    unfold bind_try, with_context, call, bind, ret. rewrite Hins. by intros [= <- _].
  + destruct (get_deliveries_healthy id (session w1) Hw Hwf) as (ds & Hg & Hds).
    assert (map WebhookDelivery.emitter_name ds ≡ₚ
            map DeliveryRow.emitter_name (deliveries_of id (db (session w1)))) as Hn.
    { rewrite <- Hds, map_map. done. }
    erewrite bind_try_run;
      [|unfold with_context, call, bind, ret; rewrite Hg; reflexivity].
    destruct (decide (ds = [])) as [->|_].
    { cbn [wanted] in Hn0. rewrite <- Hn in Hn0. by apply elem_of_nil in Hn0. }
    rewrite decide_False.
    2: { intros Hst. apply Hst, filter_stale_nil, Forall_forall. intros n.
         rewrite !elem_of_btree_set, Hn. apply Hconf. }
    destruct (insert_replays_healthy (ReceiptId.mk id)
      (btree_set (List.map WebhookDelivery.emitter_name ds)) (tick (session w1))) as (new & p & Hins).
    * by apply healthy_tick.
    * done.
    * eapply fresh_draws_advanced; [apply advanced_tick|done].
    * unfold bind_try, with_context, call, bind, ret. cbn [session]. rewrite Hins. by intros [= <- _].
Qed.

(** C26: [hookbox replay id] answers success only after it added, in one transaction, one new
    pending row per wanted emitter, each of them configured: no row is stranded without a
    worker.  On an error either nothing was added or all of them.  And when the machine and the
    database work, a replay of a stored receipt to configured emitters succeeds. *)
Theorem replay_id_reaches_a_worker url config id emitter w res w' :
  run_replay_id host url config id emitter w = (res, w') →
  let d := db (session w) in
  match res with
  | Ok _ => ∃ cfg, configures host config cfg ∧ requeued cfg id emitter d (db (session w'))
  | Err _ => db (session w') = d ∨
             ∃ cfg, configures host config cfg ∧ requeued cfg id emitter d (db (session w'))
  end ∧
  (∀ cfg, working host → configures host config cfg → healthy (session w) → db_wf d →
     fresh_draws (session w) d → id ∈ map ReceiptRow.receipt_id (webhook_receipts d) →
     (∃ n, wanted id emitter d n) → (∀ n, wanted id emitter d n → n ∈ emitter_names cfg) →
     res = Ok tt).
Proof.
  intros Hrun. split.
  - destruct (run_replay_id_steps _ _ _ _ _ _ _ Hrun) as
      [(e & -> & Hdb)|(cfg & names & w1 & Hcfg & Hdb & Hne & Hnd & Hw & Hall & Hins)]; [by left|].
    assert (∀ new, replayed id names (db (session w)) (db (session w')) new →
      ∃ cfg, configures host config cfg ∧
        requeued cfg id emitter (db (session w)) (db (session w'))) as Hreq.
    { intros new Hnew. exists cfg. split; [done|]. exists names, new. by split_and!. }
    rewrite <- Hdb in Hreq |- *.
    destruct Hins as [(n & r & -> & Hins%insert_replay_inv & Hr)|(r & Hins%insert_replays_inv & Hr)];
      destruct res; destruct Hr as [? ->]; naive_solver.
  - intros cfg Hh Hcfg Hw Hwf Hf Hid [n0 Hn0] Hconf.
    by eapply run_replay_id_progress.
Qed.
End replay_id.

(** ** hookbox dlq retry *)

(** One new pending row for the receipt and the emitter of a dead-lettered row [id]. *)
Definition retried (cfg : HookboxConfig.t) (id : Uuid) (d d' : Db) : Prop :=
  ∃ x new, x ∈ webhook_deliveries d ∧ DeliveryRow.delivery_id x = id ∧
    DeliveryRow.state x = "dead_lettered" ∧ DeliveryRow.emitter_name x ∈ emitter_names cfg ∧
    replayed (DeliveryRow.receipt_id x) [DeliveryRow.emitter_name x] d d' new.

Section dlq.
Context `{SerdeJson} `{PgTypes} `{UuidText} `{Codecs} `{ChronoText}.
Variable host : Host.

Lemma existsb_configured n cfg :
  existsb (λ e, bool_decide (EmitterEntry.name e = n)) (HookboxConfig.emitters cfg) =
  bool_decide (n ∈ emitter_names cfg).
Proof.
  destruct (bool_decide (n ∈ _)) eqn:E.
  - apply bool_decide_eq_true in E. by apply existsb_of_in.
  - apply bool_decide_eq_false in E. by apply existsb_of_not_in.
Qed.

Lemma fetch_delivery_inv id w res w' :
  fetch_delivery id w = (res, w') → db_wf (db (session w)) →
  db (session w') = db (session w) ∧
  ∀ d r, res = Ok (d, r) →
    db_delivery d ∈ webhook_deliveries (db (session w)) ∧
    WebhookDelivery.delivery_id d = DeliveryId.mk id ∧
    ReceiptId.uuid (WebhookReceipt.receipt_id r) = ReceiptId.uuid (WebhookDelivery.receipt_id d).
Proof.
  unfold fetch_delivery. intros [(e & Hc & ->)|(o & w1 & Hc & [= <- <-])]%bind_try_inv Hwf;
    apply storage_call_inv in Hc as (r & Hr & Hres);
    destruct (get_delivery_inv _ _ _ _ Hr Hwf) as [Hdb Hd]; (split; [done|]); [done|].
  intros d r' Heq. destruct o as [p|]; [|done]. injection Heq as ->. by apply Hd.
Qed.

Lemma run_dlq_retry_safe url config id w res w' :
  run_dlq_retry host url config id w = (res, w') → db_wf (db (session w)) →
  match res with
  | Ok _ => ∃ cfg, configures host config cfg ∧ retried cfg id (db (session w)) (db (session w'))
  | Err _ => db (session w') = db (session w) ∨
             ∃ cfg, configures host config cfg ∧ retried cfg id (db (session w)) (db (session w'))
  end.
Proof.
  intros Hrun Hwf. revert Hrun. unfold run_dlq_retry.
  intros [(e & Hl & ->)|(cfg & w1 & Hl & Hrun)]%bind_try_inv;
    apply load_config_inv in Hl as [Hs1 Hcfg]; [left; by rewrite Hs1|].
  specialize (Hcfg cfg eq_refl).
  apply bind_try_inv in Hrun as [(e & Hc & ->)|([] & w2 & Hc & Hrun)]; apply connect_inv in Hc as ->;
    [left; by rewrite Hs1|].
  rewrite <- Hs1 in Hwf |- *. clear w Hs1.
  apply bind_try_inv in Hrun as [(e & Hc & ->)|([d r] & w2 & Hc & Hrun)];
    destruct (fetch_delivery_inv _ _ _ _ Hc Hwf) as [Hdb Hd]; [by left|].
  destruct (Hd d r eq_refl) as (Hin & Hid & Hr).
  destruct (decide _) as [_|Hst%dec_stable]; [injection Hrun as <- <-; by left|].
  rewrite existsb_configured in Hrun.
  destruct (bool_decide _) eqn:Hn; cbn [negb] in Hrun; [|injection Hrun as <- <-; by left].
  apply bool_decide_eq_true in Hn.
  assert (∀ new, replayed (ReceiptId.uuid (WebhookReceipt.receipt_id r))
      [WebhookDelivery.emitter_name d] (db (session w1)) (db (session w')) new →
    ∃ cfg, configures host config cfg ∧ retried cfg id (db (session w1)) (db (session w'))) as Hreq.
  { intros new Hnew. exists cfg. split; [done|]. exists (db_delivery d), new. rewrite Hr in Hnew.
    split_and!; [done|cbn; by rewrite Hid|cbn; by rewrite Hst|done|done]. }
  rewrite <- Hdb in Hreq |- *.
  apply bind_try_inv in Hrun as [(e & Hc' & ->)|(a & w3 & Hc' & [= <- <-])];
    apply storage_call_inv in Hc' as (r' & Hins%insert_replay_inv & Hr').
  + destruct Hr' as [? ->]. naive_solver.
  + rewrite Hr' in Hins. naive_solver.
Qed.

Lemma run_dlq_retry_progress url config id w res w' cfg x :
  let d := db (session w) in
  run_dlq_retry host url config id w = (res, w') → db_wf d →
  working host → configures host config cfg → healthy (session w) → fresh_draws (session w) d →
  x ∈ webhook_deliveries d → DeliveryRow.delivery_id x = id →
  DeliveryRow.state x = "dead_lettered" → DeliveryRow.emitter_name x ∈ emitter_names cfg →
  res = Ok tt.
Proof.
  intros d0 Hrun Hwf Hh Hcfg Hw Hf Hx Hid Hst Hn. subst d0. revert Hrun. unfold run_dlq_retry.
  destruct (load_config_working host config cfg w Hh Hcfg) as (w1 & Hl & Hs).
  rewrite (bind_try_run _ _ _ _ _ Hl), (bind_try_run _ _ _ _ _ (connect_working host url w1 Hh)).
  rewrite <- Hs in Hw, Hwf, Hf, Hx. clear w Hs Hl.
  destruct (get_delivery_healthy x (session w1) Hw Hwf Hx) as (d & r & Hg & Hd & Hr & Hrow).
  rewrite Hid in Hg.
  erewrite bind_try_run;
    [|unfold fetch_delivery, bind_try, with_context, call, bind, ret; rewrite Hg; reflexivity].
  rewrite <- Hd in Hst, Hn. cbn in Hst, Hn.
  cbv beta iota.
  rewrite decide_False by (intros Hne; apply Hne; by destruct (WebhookDelivery.state d)).
  rewrite existsb_configured, bool_decide_true by done. cbn [negb].
  destruct (insert_replay_healthy (WebhookReceipt.receipt_id r) (WebhookDelivery.emitter_name d)
    (tick (tick (session w1)))) as (new & p & Hins).
  + by do 2 apply healthy_tick.
  + apply elem_of_List_map. by exists (db_receipt r).
  + eapply (fresh_draws_advanced (session w1)); [|done]. etrans; apply advanced_tick.
  + unfold bind_try, with_context, call, bind, ret. cbn [session]. rewrite Hins. by intros [= <- _].
Qed.

(** C27: [hookbox dlq retry] queues a new delivery only for a row that is dead-lettered and whose
    emitter is configured, for the same receipt and emitter; the dead row stays.  On an error
    nothing else can have been added; and when the machine and the database work, the retry of
    such a row succeeds. *)
Theorem dlq_retry_requeues_dead_rows url config id w res w' :
  run_dlq_retry host url config id w = (res, w') → db_wf (db (session w)) →
  let d := db (session w) in
  match res with
  | Ok _ => ∃ cfg, configures host config cfg ∧ retried cfg id d (db (session w'))
  | Err _ => db (session w') = d ∨
             ∃ cfg, configures host config cfg ∧ retried cfg id d (db (session w'))
  end ∧
  (∀ cfg x, working host → configures host config cfg → healthy (session w) →
     fresh_draws (session w) d → x ∈ webhook_deliveries d → DeliveryRow.delivery_id x = id →
     DeliveryRow.state x = "dead_lettered" → DeliveryRow.emitter_name x ∈ emitter_names cfg →
     res = Ok tt).
Proof.
  intros Hrun Hwf. split.
  - by eapply run_dlq_retry_safe.
  - intros. by eapply run_dlq_retry_progress.
Qed.
End dlq.

(** ** hookbox replay failed *)

Section replay_failed.
Context `{SerdeJson} `{PgTypes} `{UuidText} `{Codecs} `{ChronoText}.
Variable host : Host.

Lemma query_failed_since_db provider since limit w :
  db (PostgresStorage.query_failed_since provider since limit w).2 = db w.
Proof.
  unfold PostgresStorage.query_failed_since, bind_try, bind, select_failed_since.
  pose proof (execute_read (λ _ d, limit_offset (unwrap_or limit 100) 0
    (order_asc ReceiptRow.received_at (List.filter (λ r,
       bool_decide (ReceiptRow.processing_state r ∈ ["emit_failed"; "dead_lettered"]) &&
       (timestamptz since <=? ReceiptRow.received_at r) &&
       opt_filter provider (Some (ReceiptRow.provider_name r))) (webhook_receipts d)))) w) as Hdb.
  by destruct (execute _ w) as [[rows|e] w1].
Qed.

(** When every receipt is [stored] the query finds none. *)
Lemma query_failed_since_stored provider since limit w l w' :
  PostgresStorage.query_failed_since provider since (Some limit) w = (Ok l, w') →
  all_stored (db w) → l = [].
Proof.
  unfold PostgresStorage.query_failed_since. intros Hrun Hst. cbn [unwrap_or] in Hrun.
  apply bind_try_inv in Hrun as [(e & _ & [=])|(rows & w1 & Hex & [= Hl <-])].
  apply execute_inv in Hex as [(e & [=] & _)|(a & Ha & [[= <-]|(e & [=])])].
  destruct (Z.ltb_spec limit 0) as [Hneg|Hpos].
  - unfold select_failed_since, read, limit_offset in Ha. by rewrite (proj2 (Z.ltb_lt _ _) Hneg) in Ha.
  - rewrite select_failed_since_stored in Ha by done. injection Ha as <- _. by injection Hl as <-.
Qed.

Lemma reset_for_retry_deliveries id w :
  webhook_deliveries (db (PostgresStorage.reset_for_retry id w).2) = webhook_deliveries (db w).
Proof.
  unfold PostgresStorage.reset_for_retry, bind_try, bind.
  destruct (execute (update_reset_for_retry id) w) as [r w1] eqn:E.
  assert (webhook_deliveries (db w1) = webhook_deliveries (db w)) as Hd.
  { by apply execute_inv in E as [(e & _ & ->)|(a & [= _ <-] & _)]. }
  destruct r as [n|e]; [|done]. by destruct (decide _).
Qed.

Lemma reset_all_deliveries (rs : list WebhookReceipt.t) w res w' :
  for_try (λ r, call (PostgresStorage.reset_for_retry (ReceiptId.uuid (WebhookReceipt.receipt_id r))))
    rs w = (res, w') →
  webhook_deliveries (db (session w')) = webhook_deliveries (db (session w)).
Proof.
  revert w. induction rs as [|r rs IH]; intros w; cbn [for_try]; [by intros [= _ <-]|].
  intros [(e & Hc & _)|(a & w1 & Hc & Hrest)]%bind_try_inv; [|apply IH in Hrest as ->];
    apply call_inv in Hc as (r' & Hr & _);
    pose proof (reset_for_retry_deliveries (ReceiptId.uuid (WebhookReceipt.receipt_id r)) (session w)) as Hd;
    by rewrite Hr in Hd.
Qed.

(** The command leaves the database alone, or resets the receipts its query found. *)
Lemma run_replay_failed_steps url provider since limit w res w' :
  run_replay_failed host url provider since limit w = (res, w') →
  db (session w') = db (session w) ∨
  ∃ dt l w1 r, db (session w1) = db (session w) ∧
    PostgresStorage.query_failed_since provider dt (Some limit) (session w) = (Ok l, session w1) ∧
    for_try (λ r, call (PostgresStorage.reset_for_retry
                          (ReceiptId.uuid (WebhookReceipt.receipt_id r)))) l w1 = (r, w').
Proof.
  unfold run_replay_failed, bind at 1. intros Hrun.
  destruct (bind_try _ _ w) as [ready w1] eqn:Hready. assert (w1 = w) as ->.
  { apply bind_try_inv in Hready as [(e & Hc & _)|([] & w2 & Hc & Hm)]; apply connect_inv in Hc as ->; [done|].
    by apply with_context_inv in Hm as (r & [= _ <-] & _). }
  destruct ready as [[]|e]; [|injection Hrun as <- <-; by left].
  destruct (parse_duration since) as [[d|e]|]; [|injection Hrun as <- <-; by left..].
  destruct (sub_delta _ _) as [dt|]; [|injection Hrun as <- <-; by left].
  unfold returns, bind, ret in Hrun. destruct (bind_try _ _ w) as [r w1] eqn:E.
  injection Hrun as _ <-.
  apply bind_try_inv in E as [(e & Hc & _)|(l & w2 & Hc & Hl)];
    apply call_inv in Hc as (q & Hq & Hok);
    pose proof (query_failed_since_db provider dt (Some limit) (session w)) as Hdb;
    rewrite Hq in Hdb; cbn in Hdb; [by left|]. subst q. right. by exists dt, l, w2, r.
Qed.

(** C38: [hookbox replay failed] queues nothing: on any migrated database it leaves the delivery
    rows as they are, although only those rows are dispatched.  On a database that servers produced it
    changes nothing at all, and reports success when nothing fails. *)
Theorem replay_failed_queues_nothing url provider since limit w res w' :
  run_replay_failed host url provider since limit w = (res, w') →
  webhook_deliveries (db (session w')) = webhook_deliveries (db (session w)) ∧
  ∀ os, trace os empty_db (db (session w)) → Forall server_op os →
    db (session w') = db (session w) ∧
    ∀ d dt, working host → healthy (session w) → 0 ≤ limit →
      parse_duration since = Some (Ok d) → sub_delta (utc_now host) d = Some dt →
      res = Some (Ok tt).
Proof.
  intros Hrun. split; [|intros os Ht Hos; pose proof (server_trace_all_stored os _ Ht Hos) as Hst; split].
  - apply run_replay_failed_steps in Hrun as [->|(dt & l & w1 & r & <- & _ & Hl)]; [done|].
    by apply reset_all_deliveries in Hl.
  - apply run_replay_failed_steps in Hrun as [->|(dt & l & w1 & r & <- & Hq & Hl)]; [done|].
    apply query_failed_since_stored in Hq as ->; [|done]. by injection Hl as _ <-.
  - intros d dt Hh Hw Hlim Hd Hdt. revert Hrun. unfold run_replay_failed.
    unfold bind at 1. rewrite (bind_try_run _ _ _ _ _ (connect_working host url w Hh)).
    destruct Hh as (_ & _ & Hm). unfold with_context, outcome, bind, ret. rewrite Hm. cbn [context map_err].
    rewrite Hd, Hdt. unfold returns, bind, bind_try, call, bind, ret, PostgresStorage.query_failed_since, bind_try, bind.
    rewrite execute_healthy by done. cbn [unwrap_or]. rewrite select_failed_since_stored by done.
    by intros [= <- _].
Qed.
End replay_failed.

(** ** Witnesses *)

Definition sample_entry : EmitterEntry.t :=
  EmitterEntry.mk "kafka" "channel" 5 1 None None None None None RetryPolicyConfig.default.
Definition sample_document : Toml :=
  TTable [("database", TTable [("url", TString "postgres://localhost")]);
          ("retry", TTable [("interval_seconds", TInteger 7); ("max_attempts", TInteger 3)]);
          ("emitters", TArray [TTable [("name", TString "kafka"); ("type", TString "channel")]])].
(** What it is read as. *)
Definition sample_toml : HookboxConfig.t :=
  HookboxConfig.mk ServerConfig.default (DatabaseConfig.mk "postgres://localhost" 10) ∅
    DedupeConfig.default AdminConfig.default (RetryConfig.mk 7 3) None [sample_entry].
Definition sample_host : Host :=
  mkHost (λ _, Ok "") (λ _, Ok sample_document) (λ _ _, "") (λ _, Ok "{}") (λ _ _, None) (λ _, None) None 5000.

Lemma sample_configures : configures sample_host "hookbox.toml" sample_toml.
Proof. exists "", []. split; [reflexivity|vm_compute; reflexivity]. Qed.
Lemma sample_working : working sample_host.
Proof. by repeat split. Qed.

(** A receipt with a dead-lettered delivery. *)
Definition dead_console : Console :=
  mkConsole (Samples.session (sample_db [sample_delivery 10%N "dead_lettered" 4 (Some 2000)]) 5000 50%N) [].

Lemma dead_console_fresh : fresh_draws (session dead_console) (db (session dead_console)).
Proof.
  intros i _. cbn. split; [|intros j _ ?; lia]. intros Hi%list_elem_of_singleton. lia.
Qed.

Lemma replay_id_reaches_a_worker_witness :
  ∃ w', run_replay_id sample_host "postgres://localhost" "hookbox.toml" 1%N None dead_console = (Ok tt, w') ∧
    ∃ cfg, configures sample_host "hookbox.toml" cfg ∧
      requeued cfg 1%N None (db (session dead_console)) (db (session w')).
Proof.
  destruct (run_replay_id sample_host "postgres://localhost" "hookbox.toml" 1%N None dead_console)
    as [res w'] eqn:E.
  pose proof (replay_id_reaches_a_worker sample_host _ _ _ _ _ _ _ E) as [Hs Hp].
  assert (res = Ok tt) as ->.
  { apply (Hp sample_toml).
    - exact sample_working.
    - exact sample_configures.
    - reflexivity.
    - vm_decide.
    - exact dead_console_fresh.
    - vm_decide.
    - exists "kafka". cbn. apply elem_of_cons. by left.
    - intros n Hn. exact Hn. }
  exists w'. split; [reflexivity|exact Hs].
Defined.

Lemma dlq_retry_requeues_dead_rows_witness :
  ∃ w', run_dlq_retry sample_host "postgres://localhost" "hookbox.toml" 10%N dead_console = (Ok tt, w') ∧
    ∃ cfg, configures sample_host "hookbox.toml" cfg ∧
      retried cfg 10%N (db (session dead_console)) (db (session w')).
Proof.
  destruct (run_dlq_retry sample_host "postgres://localhost" "hookbox.toml" 10%N dead_console)
    as [res w'] eqn:E.
  destruct (dlq_retry_requeues_dead_rows sample_host _ _ _ _ _ _ E) as [Hs Hp]; [vm_decide|].
  assert (res = Ok tt) as ->.
  { apply (Hp sample_toml (sample_delivery 10%N "dead_lettered" 4 (Some 2000))).
    - exact sample_working.
    - exact sample_configures.
    - reflexivity.
    - exact dead_console_fresh.
    - apply elem_of_cons. by left.
    - reflexivity.
    - reflexivity.
    - apply elem_of_cons. by left. }
  exists w'. split; [reflexivity|exact Hs].
Defined.

(** The database of a server that stored one webhook. *)
Definition stored_console : Console :=
  let o := StoreWithDeliveries sample_receipt ["kafka"] in
  mkConsole (Samples.session (db (run_op o (Samples.session empty_db 1000 10%N))) 5000 50%N) [].

Lemma replay_failed_queues_nothing_witness :
  ∃ w', run_replay_failed sample_host "postgres://localhost" None "1h" 100 stored_console =
          (Some (Ok tt), w') ∧
    db (session w') = db (session stored_console).
Proof.
  destruct (run_replay_failed sample_host "postgres://localhost" None "1h" 100 stored_console)
    as [res w'] eqn:E.
  destruct (replay_failed_queues_nothing sample_host _ _ _ _ _ _ _ E) as [_ Hs].
  destruct (Hs [StoreWithDeliveries sample_receipt ["kafka"]]) as [Hdb Hok].
  - exact (trace_one _ (Samples.session empty_db 1000 10%N)).
  - apply Forall_singleton. reflexivity.
  - exists w'. split; [|exact Hdb]. f_equal.
    apply (Hok (Duration_from_secs 3600) (5000 - 3600000000000));
      [exact sample_working|reflexivity|lia|reflexivity|reflexivity].
Defined.
