(* ===== verification/Process.v ===== *)
(** * The hookbox process

    [crates/hookbox-cli/src/{main,commands/serve}.rs]: the parsed command line, the [serve]
    command from its configuration file to the end of the process, and the dispatch of the other
    subcommands.  What the process gets from its machine is the record [Machine]. *)

From S2P Require Import Prelude Futures RustStd F64 Types Traits Dedupe Database Postgres Pipeline Config ConfigToml Providers Node Worker Dispatch Json Emitters Health Serve ServeProps Shutdown Cli Samples Instances.
From stdpp Require Import pretty.
Local Open Scope Z_scope.
Local Open Scope rust_scope.

(** The command line, parsed: [Serve], or one of the subcommands of Cli.v. *)
Inductive Subcommand : Type :=
| Serve
| Other (command : Commands.t).
Record Cli : Type := mkCli { cli_config : string; cli_command : Subcommand }.

(** [host] answers for files, the TOML parser and the database; [served] is how [axum::serve]
    ends, and [panicked] which of the spawned tasks end in a panic. *)
Record Machine : Type := mkMachine {
  host : Host;
  runtime : result unit string;
  install_recorder : result string string;
  tcp_bind : string → result unit string;
  served : result unit AnyhowError;
  panicked : string → bool
}.

Section process.
Context `{SerdeJson} `{PgTypes} `{UuidText} `{Codecs} `{Crypto} `{Rsa} `{ChronoText} `{JsonText}.
Context {W : Type} `{Rdkafka W} `{AsyncNats W} `{RedisClient W} `{AwsSqs W} `{Mpsc W}.
Variable machine : Machine.

(** The outcome of a call that fails with a message. *)
Definition failing (failure : option string) : result unit AnyhowError :=
  match failure with Some e => Err (anyhow e) | None => Ok tt end.

(** [serve_inner], to its end; [None] is the panic of an empty cache. *)
Definition serve_to_end (config : HookboxConfig.t) (rendered : string) :
    M W (option (result unit AnyhowError)) :=
  let url := DatabaseConfig.url (HookboxConfig.database config) in
  started <- serve_inner config rendered (failing (connect_fails (host machine) url))
               (failing (migrate_fails (host machine))) ;;
  ret (match started with
       | None => None
       | Some (Err e) => Some (Err e)
       | Some (Ok (_, spawned)) =>
           Some (after_serve (served machine)
             (List.map (λ name, (name, panicked machine name)) (worker_handles spawned)))
       end).

Definition bind_addr (config : HookboxConfig.t) : string :=
  ServerConfig.host (HookboxConfig.server config) +:+ ":" +:+
  pretty (ServerConfig.port (HookboxConfig.server config)).

Definition run_server (config : HookboxConfig.t) : M W (option (result unit AnyhowError)) :=
  match context "failed to install Prometheus recorder" (map_err anyhow (install_recorder machine)) with
  | Err e => ret (Some (Err e))
  | Ok prometheus =>
      let addr := bind_addr config in
      match context ("failed to bind to " +:+ addr) (map_err anyhow (tcp_bind machine addr)) with
      | Err e => ret (Some (Err e))
      | Ok _ => serve_to_end config prometheus
      end
  end.

Definition read_config (config_path : string) : result (HookboxConfig.t * list string) AnyhowError :=
  and_then (context ("failed to read config file: " +:+ config_path)
              (map_err anyhow (read_to_string (host machine) config_path))) (λ raw,
    context ("failed to parse config: " +:+ config_path)
      (map_err (λ e, anyhow (config_error_text e)) (parse_and_normalize (toml_from_str (host machine)) raw))).

Definition run_serve (config_path : string) : M W (option (result unit AnyhowError)) :=
  match read_config config_path with
  | Err e => ret (Some (Err e))
  | Ok (config, warnings) =>
      match context "failed to build Tokio runtime" (map_err anyhow (runtime machine)) with
      | Err e => ret (Some (Err e))
      | Ok _ => run_server config
      end
  end.

(** The subcommands other than [serve]. *)
Definition run_command (command : Commands.t) : M Console (option (result unit AnyhowError)) :=
  match command with
  | Commands.Receipts command => returns (run_receipts (host machine) command)
  | Commands.Replay command => run_replay (host machine) command
  | Commands.Dlq command => returns (run_dlq (host machine) command)
  | Commands.Emitters command => returns (run_emitters (host machine) command)
  | Commands.Config command => run_config (host machine) command
  end.

Definition main (cli : Cli) : M (Console * W) (option (result unit AnyhowError)) :=
  match cli_command cli with
  | Serve => on_snd (run_serve (cli_config cli))
  | Other command =>
      match map_err anyhow (runtime machine) with
      | Err e => ret (Some (Err e))
      | Ok _ => on_fst (run_command command)
      end
  end.

(** ** How the process ends *)

Lemma failing_Ok o : failing o = Ok tt ↔ o = None.
Proof. by destruct o. Qed.

(** The [serve] command exits without an error exactly when the configuration can be read and is
    valid, the machine gives it a runtime, a recorder and a listener, the server starts (retry
    settings, database, migrations, verifiers, cache and every emitter), [axum::serve] returns
    without an error, and no task it spawned panicked. *)
Theorem serve_exits_cleanly_iff config_path (w : W) :
  (run_serve config_path w).1 = Some (Ok tt) ↔
  ∃ config warnings prometheus state spawned w',
    read_config config_path = Ok (config, warnings) ∧
    runtime machine = Ok tt ∧ install_recorder machine = Ok prometheus ∧
    tcp_bind machine (bind_addr config) = Ok tt ∧
    serve_inner config prometheus
      (failing (connect_fails (host machine) (DatabaseConfig.url (HookboxConfig.database config))))
      (failing (migrate_fails (host machine))) w = (Some (Ok (state, spawned)), w') ∧
    served machine = Ok tt ∧
    ∀ name, name ∈ worker_handles spawned → panicked machine name = false.
Proof.
  assert (∀ (spawned : Spawned (W := W)),
    after_serve (served machine) (List.map (λ name, (name, panicked machine name)) (worker_handles spawned)) = Ok tt ↔
    served machine = Ok tt ∧ ∀ name, name ∈ worker_handles spawned → panicked machine name = false) as Hafter.
  { intros spawned. pose proof (after_serve_spec (served machine)
      (List.map (λ name, (name, panicked machine name)) (worker_handles spawned))) as Hs.
    destruct (after_serve _ _) as [[]|e].
    - destruct Hs as [-> Hnone]. split; [|done]. intros _. split; [done|]. intros name Hin.
      apply not_true_iff_false. intros Hp. apply (Hnone name), elem_of_List_map. exists name. by rewrite Hp.
    - split; [done|]. intros [Hok Hall]. destruct Hs as [(cause & Hc & _)|(_ & (name & Hin) & _)]; [congruence|].
      apply elem_of_List_map in Hin as (name' & Hin & [= -> Hp]). by rewrite (Hall name' Hin) in Hp. }
  unfold run_serve. destruct (read_config config_path) as [[config warnings]|e]; [|naive_solver].
  destruct (runtime machine) as [[]|e]; cbn; [|naive_solver]. unfold run_server.
  destruct (install_recorder machine) as [prometheus|e]; cbn; [|naive_solver].
  destruct (tcp_bind machine (bind_addr config)) as [[]|e] eqn:Eb; cbn.
  2: { split; [done|]. intros (? & ? & ? & ? & ? & ? & [= -> ->] & _ & _ & ? & _). congruence. }
  unfold serve_to_end. rewrite bind_run. cbn [fst ret].
  destruct (serve_inner config prometheus _ _ w) as [[[[state spawned]|e]|] w'] eqn:Es; cbn [fst snd].
  - split.
    + intros [= [Hok Hall]%Hafter]. exists config, warnings, prometheus, state, spawned, w'. by split_and!.
    + intros (c & ws & p & st & sp & w2 & [= <- <-] & _ & [= <-] & _ & Heq & Hok & Hall).
      rewrite Es in Heq. injection Heq as <- <- <-. f_equal. by apply Hafter.
  - split; [done|]. intros (c & ws & p & st & sp & w2 & [= <- <-] & _ & [= <-] & _ & Heq & _). congruence.
  - split; [done|]. intros (c & ws & p & st & sp & w2 & [= <- <-] & _ & [= <-] & _ & Heq & _). congruence.
Qed.

(** What [hookbox config validate] accepts, [hookbox serve] reads as the same configuration: its
    failures then come from the machine or from the start of the server. *)
Theorem validated_config_is_served path c :
  (run_config (host machine) (ConfigCommand.Validate path) c).1 = Some (Ok tt) →
  ∃ config warnings, read_config path = Ok (config, warnings) ∧
    ∀ w : W, runtime machine = Ok tt → run_serve path w = run_server config w.
Proof.
  unfold run_config, run_serve, read_config.
  destruct (read_to_string (host machine) path) as [raw|e]; cbn [map_err context and_then]; [|done].
  destruct (parse_and_normalize (toml_from_str (host machine)) raw) as [[config warnings]|e]; cbn; [|done].
  intros _. exists config, warnings. split; [done|]. by intros w ->.
Qed.
End process.

(** ** Witnesses *)

(** A machine whose files hold a document. *)
Definition sample_host (document : Toml) : Host :=
  mkHost (λ _, Ok "") (λ _, Ok document) (λ _ _, "") (λ _, Ok "") (λ _ _, None) (λ _, None) None 1000.
Definition sample_machine (document : Toml) : Machine :=
  mkMachine (sample_host document) (Ok tt) (Ok "") (λ _, Ok tt) (Ok tt) (λ _, false).
(** The document of [sample_config], with the legacy section. *)
Definition sample_document : Toml :=
  TTable [("database", TTable [("url", TString "postgres://localhost")]);
          ("providers", TTable [("stripe", TTable [("type", TString "stripe"); ("secret", TString "whsec");
                                                   ("tolerance_seconds", TInteger 60)])]);
          ("dedupe", TTable [("lru_capacity", TInteger 8)]);
          ("admin", TTable [("bearer_token", TString "s3cret")]);
          ("emitter", TTable [])].
Definition sample_console : Console := mkConsole (session (mkDb [] []) 1000 10%N) [].

Lemma serve_exits_cleanly_iff_witness :
  (run_serve (sample_machine sample_document) "hookbox.toml" tt).1 = Some (Ok tt).
Proof.
  apply serve_exits_cleanly_iff. eexists _, _, _, _, _, _.
  split_and!; [vm_compute; reflexivity|reflexivity|reflexivity|reflexivity|reflexivity|reflexivity|].
  intros name _. reflexivity.
Defined.

Lemma validated_config_is_served_witness :
  run_serve (sample_machine sample_document) "hookbox.toml" tt = run_server (sample_machine sample_document) sample_config tt.
Proof.
  destruct (validated_config_is_served (W := unit) (sample_machine sample_document) "hookbox.toml" sample_console)
    as (config & warnings & Hread & Hrun); [reflexivity|].
  rewrite (Hrun tt eq_refl). vm_compute in Hread. injection Hread as <- _. reflexivity.
Defined.

(** A configuration with an empty cache is accepted by [config validate], and panics in [serve]. *)
Definition empty_cache_document : Toml :=
  TTable [("database", TTable [("url", TString "postgres://localhost")]);
          ("dedupe", TTable [("lru_capacity", TInteger 0)]);
          ("emitters", TArray [TTable [("name", TString "dev"); ("type", TString "channel")]])].

Theorem validated_config_can_panic :
  (run_config (host (sample_machine empty_cache_document)) (ConfigCommand.Validate "hookbox.toml") sample_console).1 =
    Some (Ok tt) ∧
  (run_serve (sample_machine empty_cache_document) "hookbox.toml" tt).1 = None.
Proof. split; vm_compute; reflexivity. Qed.
