(* ===== verification/HarnessSerde.v ===== *)
(** * The other harnesses of crates/hookbox-verify

    The properties of [emitter_props.rs], and those of [hash_props.rs], [provider_props.rs],
    [state_props.rs] and [backoff_props.rs] that Harness.v leaves: each as a function of its
    sampled input, with what it takes of the libraries for it to hold on every input. *)

From S2P Require Import Prelude RustStd F64 Types Traits Transitions Pipeline Worker Json Emitters Channel Serde Harness Sha256 Instances TestKit.
From stdpp Require Import pretty.
Local Open Scope Z_scope.
Local Open Scope rust_scope.

Module BoleroSerde.

(** ** emitter_props.rs *)
Section emitter.
Context `{SerdeJson} `{Codecs} `{UuidText} `{ChronoText} `{!ChronoParse} `{JsonText}.
(** The identifier and the clock an event is made with. *)
Variables (new_id : Uuid) (now : DateTime).

Definition make_event (provider hash : string) : NormalizedEvent.t :=
  {| NormalizedEvent.receipt_id := ReceiptId.new new_id;
     NormalizedEvent.provider_name := provider;
     NormalizedEvent.event_type := Some "test.event";
     NormalizedEvent.external_reference := None;
     NormalizedEvent.parsed_payload := Some (VObject [("key", VString "value")]);
     NormalizedEvent.payload_hash := hash;
     NormalizedEvent.received_at := now;
     NormalizedEvent.metadata := VObject [] |}.

(** [assert_eq!] of two events; the order of their members is not looked at by [serde_json], nor
    does it change here. *)
Definition is_event (e : NormalizedEvent.t) (r : option NormalizedEvent.t) : Prop := r = Some e.

Definition normalized_event_always_serializes_to_json (provider hash : string) : Prop :=
  let event := make_event provider hash in
  let json := as_bytes (json_text (event_value event)) in
  is_event event (json_from_slice json ≫= event_of_value).

Definition normalized_event_round_trips_through_value (provider hash : string) : Prop :=
  let event := make_event provider hash in
  is_event event (event_of_value (event_value event)).

Definition arc_emitter_roundtrip {W} `{Mpsc W} (w : W) (provider : string) : bool :=
  expect (ChannelEmitter.new 16) (λ make,
    let '((emitter, rx), w1) := make w in
    let arc := arc_emitter (mkEmitter W (ChannelEmitter.emit emitter)) in
    let event := make_event provider "abc123" in
    let '(sent, w2) := emit arc event w1 in
    unwrap sent (λ _,
      match (mpsc_recv rx w2).1 with
      | Some (Some received) =>
          assert_eq (NormalizedEvent.provider_name received) (NormalizedEvent.provider_name event)
      | _ => false
      end)).

Definition contains_char (a : ascii) (s : string) : bool := negb (chars_all (λ b, negb (Ascii.eqb a b)) s).

Definition receipt_id_is_valid_message_key : bool :=
  let s := receipt_id_fmt (ReceiptId.new new_id) in
  negb (String.eqb s "") && negb (contains_char "010" s) && negb (contains_char "000" s).
End emitter.

(** ** What is left of the others *)
Section rest.
Context `{Codecs} `{Crypto}.

Definition different_inputs_produce_different_hashes (a b : bytes) : bool :=
  if bool_decide (a = b) then true
  else negb (String.eqb (compute_payload_hash a) (compute_payload_hash b)).

Definition hmac_sha256_verify_roundtrip (body : bytes) : bool :=
  let sig := hmac_sha256 (as_bytes "test-bolero-secret") body in
  let hex_sig := hex_encode sig in
  (List.length sig =? 32)%nat && (String.length hex_sig =? 64)%nat.

Fixpoint count_char (a : ascii) (s : string) : nat :=
  match s with EmptyString => 0 | String b s' => (if Ascii.eqb a b then 1 else 0) + count_char a s' end.

(** [from_utf8_lossy] replaces what is not UTF-8. *)
Definition svix_signed_content_format (from_utf8_lossy : bytes → string) (id : string) (ts : Z) (body : bytes) : bool :=
  let body_str := from_utf8_lossy body in
  let signed := id +:+ "." +:+ pretty ts +:+ "." +:+ body_str in
  (1 <=? count_char "." signed)%nat && (2 <=? count_char "." signed)%nat.

Definition dedupe_decision_exhaustive_variants (n : Z) : bool :=
  let decision :=
    if n mod 3 =? 0 then DedupeDecision.New
    else if n mod 3 =? 1 then DedupeDecision.Duplicate
    else DedupeDecision.Conflict in
  match decision with DedupeDecision.New | DedupeDecision.Duplicate | DedupeDecision.Conflict => true end.

Variable powi : f64 → Z → f64.

(** [rand] numbers the draws of [compute_backoff]. *)
Definition prop_backoff_monotonic_under_no_jitter (rand : nat → f64) (i d m a : Z) : bool :=
  let p := Bolero.bounded_policy i d m a in
  forallb (λ k,
    let attempt := Z.of_nat k in
    match compute_backoff powi (rand (2 * k)%nat) attempt p, compute_backoff powi (rand (2 * k + 1)%nat) (attempt + 1) p with
    | Some lo, Some hi => lo <=? hi
    | _, _ => false
    end) (seq 1 14).
End rest.

(** ** They hold *)

Lemma count_char_app a s t : count_char a (s +:+ t) = (count_char a s + count_char a t)%nat.
Proof. induction s as [|b s IH]; [done|]. rewrite str_app_cons. cbn. rewrite IH. lia. Qed.

Section hold.
Context `{SerdeJson} `{Codecs} `{UuidText} `{ChronoText} `{!ChronoParse} `{JsonText} `{Crypto}.

(** Through the tree, the round trip is that of the derived code; through the text, [serde_json]
    must read back the tree it wrote. *)
Lemma normalized_event_round_trips id now provider hash :
  let v := event_value (make_event id now provider hash) in
  normalized_event_round_trips_through_value id now provider hash ∧
  (json_from_slice (as_bytes (json_text v)) = Some v →
   normalized_event_always_serializes_to_json id now provider hash).
Proof.
  intros v. assert (event_of_value v = Some (make_event id now provider hash)) as Hv by by unfold v; rewrite event_reads_back.
  split; [exact Hv|]. intros Hr. unfold normalized_event_always_serializes_to_json, is_event. fold v.
  by rewrite Hr.
Qed.

Lemma arc_emitter_round_trips id now provider w :
  arc_emitter_roundtrip (H5 := queue_channel) id now w provider = true.
Proof. cbn. by apply bool_decide_eq_true. Qed.

(** For two inputs on which SHA-256 does not collide. *)
Lemma different_hashes a b :
  (sha256 a = sha256 b → a = b) → different_inputs_produce_different_hashes a b = true.
Proof.
  intros Hinj. unfold different_inputs_produce_different_hashes. case_bool_decide as Hab; [done|].
  destruct (String.eqb_spec (compute_payload_hash a) (compute_payload_hash b)) as [Heq|]; [|done].
  exfalso. apply Hab, Hinj. unfold compute_payload_hash in Heq.
  apply (f_equal hex_decode) in Heq. rewrite !hex_decode_encode in Heq. congruence.
Qed.

Lemma hmac_lengths body :
  List.length (hmac_sha256 (as_bytes "test-bolero-secret") body) = 32%nat → hmac_sha256_verify_roundtrip body = true.
Proof. intros Hl. unfold hmac_sha256_verify_roundtrip. by rewrite hex_encode_length, Hl. Qed.

Lemma svix_dots lossy id ts body : svix_signed_content_format lossy id ts body = true.
Proof.
  unfold svix_signed_content_format. rewrite !count_char_app.
  change (count_char "." ".") with 1%nat. apply andb_true_intro. split; apply Nat.leb_le; lia.
Qed.
End hold.

Lemma dedupe_decisions n : dedupe_decision_exhaustive_variants n = true.
Proof. unfold dedupe_decision_exhaustive_variants. by repeat destruct (_ =? _). Qed.

(** The length of an HMAC of the FIPS definition. *)
Lemma fips_hmac_lengths `{Codecs} body : hmac_sha256_verify_roundtrip (H0 := fips_crypto) body = true.
Proof. by apply (hmac_lengths (H5 := fips_crypto)). Qed.

(** Monotone delays are up to [powi]; those of the iterated product are monotone on a sample. *)
Example backoff_is_monotone :
  forallb (λ m, prop_backoff_monotonic_under_no_jitter powi_iter (λ _, 0%float) 7 200 m 5) [0; 10; 13; 25; 40; 255] = true.
Proof. vm_compute. reflexivity. Qed.
End BoleroSerde.
