(* ===== verification/CoreTests.v ===== *)
(** * The unit tests of crates/hookbox/src: transitions, hash, state, types, dedupe

    Each test of the sources, on the definitions of the model; one lemma per test module says
    that its tests pass. *)

From S2P Require Import Prelude RustStd F64 Types Traits Transitions Dedupe Metrics Pipeline Json Emitters Channel Serde Sha256 Instances TestKit.
Local Open Scope Z_scope.

(** ** transitions.rs, [backoff_tests] *)
Module BackoffTests.
Section tests.
Variables (powi : f64 → Z → f64) (draws : nat → f64).

(** [cargo test] builds with debug assertions; [draw] numbers the calls of [fastrand::f64]. *)
Definition backoff (draw : nat) (attempt : Z) (p : RetryPolicy.t) : option Duration :=
  compute_backoff_debug powi (draws draw) attempt p.

Definition policy_no_jitter : RetryPolicy.t :=
  RetryPolicy.mk 5 (Duration_from_secs 30) (Duration_from_secs 3600) 2%float 0%float.

Definition attempt_1_returns_initial_backoff : bool :=
  expect (backoff 0 1 policy_no_jitter) (λ d, assert_eq d (Duration_from_secs 30)).

Definition attempt_2_doubles : bool :=
  expect (backoff 0 2 policy_no_jitter) (λ d, assert_eq d (Duration_from_secs 60)).

Definition attempt_5_clamped_to_max : bool :=
  let p := RetryPolicy.mk 10 (Duration_from_secs 60) (Duration_from_secs 120) 4%float 0%float in
  expect (backoff 0 3 p) (λ d, assert_eq d (Duration_from_secs 120)).

Definition attempt_0_panics_in_debug : bool := opt_is_none (backoff 0 0 policy_no_jitter).

Definition within (d lo hi : Duration) : bool := (lo <=? d) && (d <=? hi).

Definition jitter_within_bounds : bool :=
  let p := RetryPolicy.mk 5 (Duration_from_secs 30) (Duration_from_secs 3600) 2%float 0.2%float in
  for_range 1000 (λ i,
    expect (backoff i 1 p) (λ d,
    expect (from_secs_f64 (30 * 0.8)%float) (λ lo,
    expect (from_secs_f64 (30 * 1.2)%float) (λ hi, within d lo hi)))).

Definition jittered_delay_never_exceeds_max_backoff : bool :=
  let p := RetryPolicy.mk 10 (Duration_from_secs 60) (Duration_from_secs 120) 4%float 1%float in
  let cap := RetryPolicy.max_backoff p in
  for_range 5000 (λ i, expect (backoff i 5 p) (λ d, d <=? cap)).

(** The next three have a body for the release build, [compute_backoff]. *)
Definition invalid_jitter_does_not_panic_in_release : bool :=
  let p := RetryPolicy.mk 5 (Duration_from_secs 30) (Duration_from_secs 3600) 2%float 2%float in
  for_range 1000 (λ i, opt_is_some (compute_backoff powi (draws i) 1 p)).

Definition invalid_backoff_multiplier_does_not_panic_in_release : bool :=
  let initial := Duration_from_secs 30 in
  let max := Duration_from_secs 3600 in
  forallb (λ bad,
    let p := RetryPolicy.mk 5 initial max bad 0%float in
    for_range 10 (λ i,
      expect (compute_backoff powi (draws i) (Z.of_nat i + 1) p) (λ d, assert_eq d (duration_min initial max))))
    [(-2)%float; 0%float; nan; infinity; neg_infinity].

Definition nan_multiplier_policy : RetryPolicy.t :=
  RetryPolicy.mk 5 (Duration_from_secs 30) (Duration_from_secs 3600) nan 0%float.

Definition nan_multiplier_returns_fallback_not_panic (debug : bool) : bool :=
  if debug then opt_is_none (backoff 0 1 nan_multiplier_policy)
  else expect (compute_backoff powi (draws 0%nat) 1 nan_multiplier_policy) (λ d,
         assert_eq d (duration_min (Duration_from_secs 30) (Duration_from_secs 3600))).

Definition zero_jitter_produces_deterministic_result : bool :=
  let p := RetryPolicy.mk 10 (Duration_from_secs 10) (Duration_from_secs 1000) 1%float 0%float in
  let expected := Duration_from_secs 10 in
  for_range 100 (λ i, expect (backoff i 1 p) (λ d, assert_eq d expected)).

Definition positive_jitter_deviates_from_base : bool :=
  let p := RetryPolicy.mk 10 (Duration_from_secs 100) (Duration_from_secs 10000) 1%float 0.5%float in
  let base := Duration_from_secs 100 in
  expect (from_secs_f64 (100 * (1 - 0.5))%float) (λ lo,
  expect (from_secs_f64 (100 * (1 + 0.5))%float) (λ hi,
    for_range 500 (λ i, expect (backoff i 1 p) (λ d, within d lo hi)) &&
    negb (for_range 500 (λ i, expect (backoff i 1 p) (λ d, bool_decide (d = base)))))).

Definition passed : bool :=
  attempt_1_returns_initial_backoff && attempt_2_doubles && attempt_5_clamped_to_max &&
  attempt_0_panics_in_debug && jitter_within_bounds && jittered_delay_never_exceeds_max_backoff &&
  invalid_jitter_does_not_panic_in_release && invalid_backoff_multiplier_does_not_panic_in_release &&
  nan_multiplier_returns_fallback_not_panic true && nan_multiplier_returns_fallback_not_panic false &&
  zero_jitter_produces_deterministic_result && positive_jitter_deviates_from_base.
End tests.

(** Draws that go round a sample of [0, 1). *)
Definition sample : list f64 := [0; 0.125; 0.25; 0.5; 0.75; 0.9; 0.999]%float.
Definition sample_draws (i : nat) : f64 := nth (i mod List.length sample) sample 0%float.

Lemma on_sample (P : f64 → Prop) : Forall P sample → ∀ i, P (sample_draws i).
Proof.
  intros H i. rewrite Forall_forall in H. apply H, list_elem_of_In, nth_In, Nat.mod_upper_bound. discriminate.
Qed.

(** Each test draws one number per round. *)
Ltac on_each_draw test :=
  unfold test, backoff; cbv zeta; apply for_range_all;
  let i := fresh "i" in intros i; pattern (sample_draws i);
  match goal with |- ?P _ => refine (on_sample P _ i) end;
  unfold sample; repeat (apply Forall_cons_2; [vm_compute; reflexivity|]); apply Forall_nil_2.

Lemma backoff_tests_pass : passed powi_iter sample_draws = true.
Proof.
  unfold passed.
  assert (jitter_within_bounds powi_iter sample_draws = true) as -> by on_each_draw jitter_within_bounds.
  assert (jittered_delay_never_exceeds_max_backoff powi_iter sample_draws = true) as ->
    by on_each_draw jittered_delay_never_exceeds_max_backoff.
  assert (invalid_jitter_does_not_panic_in_release powi_iter sample_draws = true) as ->
    by on_each_draw invalid_jitter_does_not_panic_in_release.
  assert (zero_jitter_produces_deterministic_result powi_iter sample_draws = true) as ->
    by on_each_draw zero_jitter_produces_deterministic_result.
  assert (positive_jitter_deviates_from_base powi_iter sample_draws = true) as ->.
  { unfold positive_jitter_deviates_from_base.
    destruct (from_secs_f64 (100 * (1 - 0.5))%float) as [lo|] eqn:El; [|vm_compute in El; discriminate].
    destruct (from_secs_f64 (100 * (1 + 0.5))%float) as [hi|] eqn:Eh; [|vm_compute in Eh; discriminate].
    vm_compute in El, Eh. injection El as <-. injection Eh as <-. cbn [expect]. apply andb_true_intro. split.
    - on_each_draw backoff.
    - apply negb_true_iff, (for_range_fails 500 _ 0); [lia|]. vm_compute. reflexivity. }
  vm_compute. reflexivity.
Qed.
End BackoffTests.

(** ** transitions.rs, [aggregate_tests] *)
Module AggregateTests.
Section tests.
Variables (now : DateTime) (uuid : Uuid).

Definition delivery (emitter : string) (state : DeliveryState.t) (immutable : bool)
    (created_offset_secs : Z) : WebhookDelivery.t :=
  WebhookDelivery.mk (DeliveryId.mk uuid) (ReceiptId.mk uuid) emitter state 0 None None now None
    immutable (now + created_offset_secs * 1000000000).

Definition aggregates_to (rows : list WebhookDelivery.t) (fallback expected : ProcessingState.t) : bool :=
  assert_eq (receipt_aggregate_state rows fallback) expected.

Definition empty_slice_returns_stored : bool := aggregates_to [] ProcessingState.Stored ProcessingState.Stored.

Definition all_immutable_falls_back_to_stored_processing_state : bool :=
  aggregates_to [delivery "legacy" DeliveryState.Failed true 0] ProcessingState.EmitFailed ProcessingState.EmitFailed.

Definition all_emitted_returns_emitted : bool :=
  aggregates_to [delivery "a" DeliveryState.Emitted false 0; delivery "b" DeliveryState.Emitted false 0]
    ProcessingState.Stored ProcessingState.Emitted.

Definition any_dead_lettered_returns_dead_lettered : bool :=
  aggregates_to [delivery "a" DeliveryState.Emitted false 0; delivery "b" DeliveryState.DeadLettered false 0]
    ProcessingState.Stored ProcessingState.DeadLettered.

Definition dead_lettered_wins_over_failed : bool :=
  aggregates_to [delivery "a" DeliveryState.Failed false 0; delivery "b" DeliveryState.DeadLettered false 0]
    ProcessingState.Stored ProcessingState.DeadLettered.

Definition any_failed_no_dead_lettered_returns_emit_failed : bool :=
  aggregates_to [delivery "a" DeliveryState.Emitted false 0; delivery "b" DeliveryState.Failed false 0]
    ProcessingState.Stored ProcessingState.EmitFailed.

Definition pending_and_in_flight_collapse_to_stored : bool :=
  aggregates_to [delivery "a" DeliveryState.Pending false 0; delivery "b" DeliveryState.InFlight false 0]
    ProcessingState.Stored ProcessingState.Stored.

Definition latest_mutable_row_wins_per_emitter : bool :=
  aggregates_to [delivery "a" DeliveryState.DeadLettered false 0; delivery "a" DeliveryState.Emitted false 10]
    ProcessingState.Stored ProcessingState.Emitted.

Definition replay_history_does_not_poison_state : bool :=
  aggregates_to [delivery "a" DeliveryState.DeadLettered false 0; delivery "a" DeliveryState.Emitted false 5;
                 delivery "b" DeliveryState.Emitted false 0]
    ProcessingState.Stored ProcessingState.Emitted.

Definition deliveries_summary_one_entry_per_emitter_latest_row : bool :=
  let summary := receipt_deliveries_summary
    [delivery "a" DeliveryState.DeadLettered false 0; delivery "a" DeliveryState.Emitted false 5;
     delivery "b" DeliveryState.Failed false 0] in
  assert_eq (size summary) 2%nat && assert_eq (summary !! "a") (Some DeliveryState.Emitted) &&
  assert_eq (summary !! "b") (Some DeliveryState.Failed).

Definition deliveries_summary_ignores_immutable_rows : bool :=
  assert_eq (size (receipt_deliveries_summary [delivery "legacy" DeliveryState.Emitted true 0])) 0%nat.

Definition equal_timestamps_first_entry_wins : bool :=
  let make_delivery emitter state := delivery emitter state false 0 in
  let summary := receipt_deliveries_summary
    [make_delivery "emitter-a" DeliveryState.Pending; make_delivery "emitter-a" DeliveryState.Failed] in
  assert_eq (size summary) 1%nat && assert_eq (summary !! "emitter-a") (Some DeliveryState.Pending).

Definition passed : bool :=
  empty_slice_returns_stored && all_immutable_falls_back_to_stored_processing_state &&
  all_emitted_returns_emitted && any_dead_lettered_returns_dead_lettered && dead_lettered_wins_over_failed &&
  any_failed_no_dead_lettered_returns_emit_failed && pending_and_in_flight_collapse_to_stored &&
  latest_mutable_row_wins_per_emitter && replay_history_does_not_poison_state &&
  deliveries_summary_one_entry_per_emitter_latest_row && deliveries_summary_ignores_immutable_rows &&
  equal_timestamps_first_entry_wins.
End tests.

Lemma aggregate_tests_pass : passed 1700000000000000000 7%N = true.
Proof. vm_compute. reflexivity. Qed.
End AggregateTests.

(** ** transitions.rs, [tests] *)
Module TransitionsTests.
Definition verification_status_label_maps_all_variants : bool :=
  assert_eq (verification_status_label VerificationStatus.Verified) "verified" &&
  assert_eq (verification_status_label VerificationStatus.Failed) "failed" &&
  assert_eq (verification_status_label VerificationStatus.Skipped) "skipped".

Definition dedupe_decision_label_maps_all_variants : bool :=
  assert_eq (dedupe_decision_label DedupeDecision.New) "new" &&
  assert_eq (dedupe_decision_label DedupeDecision.Duplicate) "duplicate" &&
  assert_eq (dedupe_decision_label DedupeDecision.Conflict) "conflict".

Definition retry_next_state_emits_before_exhaustion : bool :=
  assert_eq (retry_next_state 0 3) (1, ProcessingState.EmitFailed).

Definition retry_next_state_dead_letters_at_max : bool :=
  assert_eq (retry_next_state 2 3) (3, ProcessingState.DeadLettered).

Definition is_findable_by_worker_only_for_emit_failed_under_limit : bool :=
  is_findable_by_worker 0 ProcessingState.EmitFailed 3 &&
  negb (is_findable_by_worker 3 ProcessingState.EmitFailed 3) &&
  negb (is_findable_by_worker 0 ProcessingState.Emitted 3) &&
  negb (is_findable_by_worker 0 ProcessingState.DeadLettered 3).

Lemma transitions_tests_pass :
  verification_status_label_maps_all_variants && dedupe_decision_label_maps_all_variants &&
  retry_next_state_emits_before_exhaustion && retry_next_state_dead_letters_at_max &&
  is_findable_by_worker_only_for_emit_failed_under_limit = true.
Proof. reflexivity. Qed.
End TransitionsTests.

(** ** hash.rs *)
Module HashTests.
Section tests.
Context `{Codecs} `{Crypto}.

Definition empty_body_produces_known_sha256 : bool :=
  assert_eq (compute_payload_hash []) "e3b0c44298fc1c149afbf4c8996fb92427ae41e4649b934ca495991b7852b855".

Definition same_input_produces_same_hash : bool :=
  let body := bytes! "hello, webhook!" in
  assert_eq (compute_payload_hash body) (compute_payload_hash body).

Definition different_input_produces_different_hash : bool :=
  assert_ne (compute_payload_hash (bytes! "payload-a")) (compute_payload_hash (bytes! "payload-b")).
End tests.

Lemma hash_tests_pass :
  let H := fips_crypto in
  empty_body_produces_known_sha256 && same_input_produces_same_hash && different_input_produces_different_hash = true.
Proof. vm_compute. reflexivity. Qed.
End HashTests.

(** ** state.rs *)
Module StateTests.
Section tests.
Context `{SerdeJson} `{UuidText}.

(** [v4] is an identifier that [Uuid::new_v4] answers: it is not nil. *)
Definition receipt_id_default_is_valid (v4 : Uuid) : bool := assert_ne (ReceiptId.uuid (ReceiptId.default v4)) 0%N.

Definition delivery_state_display_non_empty_for_all_variants : bool :=
  forallb (λ '(state, expected),
    let formatted := DeliveryState.fmt state in
    assert_eq formatted expected && assert_ne formatted "")
    [(DeliveryState.Pending, "pending"); (DeliveryState.InFlight, "in_flight"); (DeliveryState.Emitted, "emitted");
     (DeliveryState.Failed, "failed"); (DeliveryState.DeadLettered, "dead_lettered")].

Definition delivery_state_serde_round_trip : bool :=
  forallb (λ '(state, expected_json),
    let json := json_of_str (DeliveryState.serde_name state) in
    assert_eq json (quote +:+ expected_json +:+ quote) &&
    expect (json_to_str json) (λ name,
    expect (de_enum DeliveryState.all DeliveryState.serde_name (VString name)) (λ decoded, assert_eq decoded state)))
    [(DeliveryState.Pending, "pending"); (DeliveryState.InFlight, "in_flight"); (DeliveryState.Emitted, "emitted");
     (DeliveryState.Failed, "failed"); (DeliveryState.DeadLettered, "dead_lettered")].

Definition delivery_id_display_is_uuid_string : bool :=
  assert_eq (delivery_id_fmt (DeliveryId.mk 0%N)) "00000000-0000-0000-0000-000000000000".

(** The last one is about the text of [uuid] alone. *)
Lemma state_tests_pass v4 :
  v4 ≠ 0%N → uuid_to_string 0%N = "00000000-0000-0000-0000-000000000000" →
  receipt_id_default_is_valid v4 && delivery_state_display_non_empty_for_all_variants &&
  delivery_state_serde_round_trip && delivery_id_display_is_uuid_string = true.
Proof.
  intros Hv Hnil.
  assert (receipt_id_default_is_valid v4 = true) as -> by (unfold receipt_id_default_is_valid, assert_ne; by rewrite bool_decide_false).
  assert (delivery_id_display_is_uuid_string = true) as ->
    by (unfold delivery_id_display_is_uuid_string, delivery_id_fmt, assert_eq; cbn [DeliveryId.uuid]; by rewrite Hnil, bool_decide_true).
  rewrite andb_true_r, andb_true_l. unfold delivery_state_serde_round_trip. cbn [forallb].
  unfold expect. cbn [DeliveryState.serde_name].
  by rewrite !json_of_plain, !json_to_plain.
Qed.
End tests.
End StateTests.

(** ** types.rs *)
Module TypesTests.
Section tests.
Context `{Codecs} `{UuidText} `{ChronoText} `{!ChronoParse}.

Definition dedupe_key_display : bool := assert_eq (DedupeKey.fmt (DedupeKey.mk "stripe:abc123")) "stripe:abc123".
Definition payload_hash_display : bool := assert_eq (PayloadHash.fmt (PayloadHash.mk "deadbeef")) "deadbeef".

(** The JSON text of the test, parsed; [id] and [received_at] are the texts of its identifier and
    instant. *)
Definition bad_json (id received_at : string) : Value :=
  VObject
    [("receipt_id", VString id); ("provider_name", VString "test"); ("provider_event_id", VNull);
     ("external_reference", VNull); ("dedupe_key", VString "k"); ("payload_hash", VString "h");
     ("raw_body", VString "!!!not-valid-base64!!!"); ("parsed_payload", VNull); ("raw_headers", VObject []);
     ("normalized_event_type", VNull); ("verification_status", VString "skipped");
     ("verification_reason", VNull); ("processing_state", VString "stored"); ("emit_count", VNumber "0");
     ("last_error", VNull); ("received_at", VString received_at); ("processed_at", VNull);
     ("metadata", VObject [])].

Definition raw_body_deserialize_rejects_bad_base64 (id received_at : string) : bool :=
  opt_is_none (receipt_of_value (bad_json id received_at)).

Definition receipt_id_new_is_unique (a b : Uuid) : bool := assert_ne (ReceiptId.new a) (ReceiptId.new b).

Definition receipt_id_display_matches_inner_uuid (uuid : Uuid) : bool :=
  assert_eq (receipt_id_fmt (ReceiptId.mk uuid)) (uuid_to_string uuid).

Definition webhook_receipt_raw_body_round_trips_via_serde (id : Uuid) (now : DateTime) : bool :=
  let raw_body := bytes! "hello webhook payload" in
  let receipt := WebhookReceipt.mk (ReceiptId.new id) "test-provider" None None "key-abc" "deadbeef" raw_body None
    (VObject []) None VerificationStatus.Skipped None ProcessingState.Stored 0 None now None (VObject []) in
  expect (receipt_of_value (receipt_value receipt)) (λ deserialized,
    assert_eq (WebhookReceipt.raw_body deserialized) raw_body).

(** With the base64 error of the test text as what the library says of it. *)
Lemma types_tests_pass a b id now text received_at :
  a ≠ b → base64_decode "!!!not-valid-base64!!!" = None →
  dedupe_key_display && payload_hash_display && raw_body_deserialize_rejects_bad_base64 text received_at &&
  receipt_id_new_is_unique a b && receipt_id_display_matches_inner_uuid id &&
  webhook_receipt_raw_body_round_trips_via_serde id now = true.
Proof.
  intros Hab Hbad.
  assert (receipt_id_new_is_unique a b = true) as -> by (unfold receipt_id_new_is_unique, assert_ne; rewrite bool_decide_false; [done|]; intros [=]; congruence).
  assert (receipt_id_display_matches_inner_uuid id = true) as -> by (by apply bool_decide_eq_true).
  unfold webhook_receipt_raw_body_round_trips_via_serde. rewrite receipt_reads_back by (split; vm_compute; discriminate).
  cbn [expect read_receipt WebhookReceipt.raw_body].
  assert (raw_body_deserialize_rejects_bad_base64 text received_at = true) as ->.
  { unfold raw_body_deserialize_rejects_bad_base64.
    assert (receipt_of_value (bad_json text received_at) = None) as ->; [|done].
    unfold receipt_of_value. eapply bind_Some_step; [reflexivity|]. cbn beta.
    change (required de_uuid _) with (uuid_from_str text). destruct (uuid_from_str text) as [u|]; [|done].
    do 6 (eapply bind_Some_step; [reflexivity|]; cbn beta).
    change (required serde_bytes_base64_deserialize _) with (base64_decode "!!!not-valid-base64!!!").
    by rewrite Hbad. }
  reflexivity.
Qed.
End tests.
End TypesTests.

(** ** dedupe.rs *)
Module DedupeTests.
Definition asked (o : result DedupeDecision.t DedupeError.t) (d : DedupeDecision.t) : bool :=
  match o with Ok d' => assert_eq d' d | Err _ => false end.

(** A cache as the world of its strategy. *)
Definition cache (capacity : nat) : DedupeStrategy InMemoryRecentDedupe.Inner :=
  InMemoryRecentDedupe.strategy capacity id (λ i _, i).

(** [InMemoryRecentDedupe::new(capacity)] followed by the calls of a test. *)
Definition on_cache (capacity : nat) (body : DedupeStrategy InMemoryRecentDedupe.Inner →
    M InMemoryRecentDedupe.Inner bool) : bool :=
  expect (InMemoryRecentDedupe.new capacity) (λ c, (body (cache capacity) (InMemoryRecentDedupe.inner c)).1).

Local Open Scope rust_scope.

Definition lru_new_key_returns_new : bool :=
  on_cache 10 (λ cache,
    result <- check cache "key-1" "hash-abc" ;;
    ret (asked result DedupeDecision.New)).

Definition lru_same_key_same_hash_returns_duplicate : bool :=
  on_cache 10 (λ cache,
    r <- record cache "key-1" "hash-abc" ;;
    result <- check cache "key-1" "hash-abc" ;;
    ret (res_is_ok r && asked result DedupeDecision.Duplicate)).

Definition lru_same_key_different_hash_returns_conflict : bool :=
  on_cache 10 (λ cache,
    r <- record cache "key-1" "hash-abc" ;;
    result <- check cache "key-1" "hash-xyz" ;;
    ret (res_is_ok r && asked result DedupeDecision.Conflict)).

Definition lru_eviction_makes_key_new_again : bool :=
  on_cache 2 (λ cache,
    r1 <- record cache "key-1" "hash-1" ;;
    r2 <- record cache "key-2" "hash-2" ;;
    r3 <- record cache "key-3" "hash-3" ;;
    evicted <- check cache "key-1" "hash-1" ;;
    key2 <- check cache "key-2" "hash-2" ;;
    key3 <- check cache "key-3" "hash-3" ;;
    ret (res_is_ok r1 && res_is_ok r2 && res_is_ok r3 && asked evicted DedupeDecision.New &&
         asked key2 DedupeDecision.Duplicate && asked key3 DedupeDecision.Duplicate)).

(** Two caches of ten entries, the fast layer first. *)
Definition Layers : Type := (InMemoryRecentDedupe.Inner * InMemoryRecentDedupe.Inner)%type.
Definition fast : DedupeStrategy Layers := InMemoryRecentDedupe.strategy 10 fst (λ i w, (i, w.2)).
Definition authoritative : DedupeStrategy Layers := InMemoryRecentDedupe.strategy 10 snd (λ i w, (w.1, i)).
Definition layered : DedupeStrategy Layers := LayeredDedupe.strategy (LayeredDedupe.mk fast authoritative).

Definition on_layers (body : M Layers bool) : bool :=
  expect (InMemoryRecentDedupe.new 10) (λ f,
  expect (InMemoryRecentDedupe.new 10) (λ a,
    (body (InMemoryRecentDedupe.inner f, InMemoryRecentDedupe.inner a)).1)).

Definition layered_returns_fast_path_duplicate : bool :=
  on_layers (
    r <- record fast "key-1" "hash-abc" ;;
    result <- check layered "key-1" "hash-abc" ;;
    ret (res_is_ok r && asked result DedupeDecision.Duplicate)).

Definition layered_falls_through_to_authoritative : bool :=
  on_layers (
    r <- record authoritative "key-1" "hash-abc" ;;
    result <- check layered "key-1" "hash-abc" ;;
    ret (res_is_ok r && asked result DedupeDecision.Duplicate)).

Definition layered_new_in_both_returns_new : bool :=
  on_layers (
    result <- check layered "key-1" "hash-abc" ;;
    ret (asked result DedupeDecision.New)).

(** The three instances of the test, each with layers of its own. *)
Definition layered_record_writes_to_both_layers : bool :=
  on_layers (
    r <- record layered "key-x" "hash-y" ;;
    result <- check layered "key-x" "hash-y" ;;
    ret (res_is_ok r && asked result DedupeDecision.Duplicate)) &&
  on_layers (
    r <- record layered "key-fast" "hash-fast" ;;
    result <- check layered "key-fast" "hash-fast" ;;
    ret (res_is_ok r && asked result DedupeDecision.Duplicate)) &&
  on_layers (
    r <- record layered "key-auth" "hash-auth" ;;
    result <- check layered "key-auth" "hash-auth" ;;
    never_seen <- check layered "key-never-seen" "hash-x" ;;
    ret (res_is_ok r && asked result DedupeDecision.Duplicate && asked never_seen DedupeDecision.New)).

Lemma dedupe_tests_pass :
  lru_new_key_returns_new && lru_same_key_same_hash_returns_duplicate &&
  lru_same_key_different_hash_returns_conflict && lru_eviction_makes_key_new_again &&
  layered_returns_fast_path_duplicate && layered_falls_through_to_authoritative &&
  layered_new_in_both_returns_new && layered_record_writes_to_both_layers = true.
Proof. vm_compute. reflexivity. Qed.
End DedupeTests.

(** ** emitter.rs *)
Module EmitterTests.
Definition test_event (id : Uuid) (now : DateTime) : NormalizedEvent.t :=
  NormalizedEvent.mk (ReceiptId.new id) "test" (Some "payment.completed") None
    (Some (VObject [("status", VString "ok")])) "abc123" now (VObject []).

Section callback.
Local Open Scope rust_scope.

(** The world is the counter of the handler. *)
Definition callback_emitter_calls_handler (id : Uuid) (now : DateTime) : bool :=
  let emitter := CallbackEmitter.new (λ _ c, (Ok tt, (c + 1)%nat)) in
  let '(result, counter) := CallbackEmitter.emit emitter (test_event id now) 0%nat in
  res_is_ok result && assert_eq counter 1%nat.
End callback.

(** The channel of a test, from [ChannelEmitter::new(buffer)] on. *)
Definition on_channel (buffer : Z) (event : NormalizedEvent.t)
    (wrap : Emitter Channel.Channel → Emitter Channel.Channel) (checks : NormalizedEvent.t → bool) : bool :=
  expect (ChannelEmitter.new (H := queue_channel) buffer) (λ created,
    let '((emitter, rx), w) := created (mkChannel [] 0 true true) in
    let pointer := wrap (mkEmitter _ (ChannelEmitter.emit emitter)) in
    let '(result, w) := emit pointer event w in
    res_is_ok result &&
    match (mpsc_recv rx w).1 with Some (Some received) => checks received | _ => false end).

Definition arc_emitter_delegates_to_inner (event : NormalizedEvent.t) : bool :=
  on_channel 16 event arc_emitter (λ _, true).

Definition same_receipt_id (a b : NormalizedEvent.t) : bool :=
  assert_eq (NormalizedEvent.receipt_id a) (NormalizedEvent.receipt_id b).
Definition same_hash (a b : NormalizedEvent.t) : bool :=
  assert_eq (NormalizedEvent.payload_hash a) (NormalizedEvent.payload_hash b).

Definition box_emitter_delegates_to_inner (event : NormalizedEvent.t) : bool :=
  on_channel 16 event box_emitter (λ received, same_receipt_id received event && same_hash received event).

Definition channel_emitter_sends_event (event : NormalizedEvent.t) : bool :=
  on_channel 8 event id (λ received,
    assert_eq (NormalizedEvent.provider_name received) (NormalizedEvent.provider_name event) &&
    assert_eq (NormalizedEvent.event_type received) (NormalizedEvent.event_type event) &&
    same_hash received event).

Lemma emitter_tests_pass :
  let event := test_event 7%N 1700000000000000000 in
  callback_emitter_calls_handler 7%N 1700000000000000000 && arc_emitter_delegates_to_inner event &&
  box_emitter_delegates_to_inner event && channel_emitter_sends_event event = true.
Proof. vm_compute. reflexivity. Qed.
End EmitterTests.
