(* ===== verification/PipelineTests.v ===== *)
(** * The unit tests of crates/hookbox/src/pipeline.rs

    The doubles of the test module, the builder calls and the assertions of each test. *)

From S2P Require Import Prelude RustStd F64 Types Traits Transitions Dedupe Metrics Pipeline Worker Json Memory Sha256 Instances TestKit.
Local Open Scope Z_scope.
Local Open Scope rust_scope.

(** ** The storage doubles *)

(** [MemoryStorage], whose vector is behind a mutex. *)
Module PipelineMemory.
Definition t : Type := Mutex (list WebhookReceipt.t).
Definition new : t := mutex_new [].

(** [self.receipts.lock().map_err(...)?] *)
Definition locked {A} (k : list WebhookReceipt.t → M t (result A StorageError.t)) : M t (result A StorageError.t) :=
  λ m, match lock m with
       | Ok receipts => k receipts m
       | Err e => (Err (StorageError.Internal e), m)
       end.

Definition store (receipt : WebhookReceipt.t) : M t (result StoreResult.t StorageError.t) :=
  locked (λ receipts m,
    match List.find (λ r, bool_decide (WebhookReceipt.dedupe_key r = WebhookReceipt.dedupe_key receipt)) receipts with
    | Some existing => (Ok (StoreResult.Duplicate (WebhookReceipt.receipt_id existing)), m)
    | None => (Ok StoreResult.Stored, with_content (receipts ++ [receipt]) m)
    end).

Definition get (id : Uuid) : M t (result (option WebhookReceipt.t) StorageError.t) :=
  locked (λ receipts m,
    (Ok (List.find (λ r, bool_decide (ReceiptId.uuid (WebhookReceipt.receipt_id r) = id)) receipts), m)).

Definition set_state (state : ProcessingState.t) (error : option string) (r : WebhookReceipt.t) : WebhookReceipt.t :=
  WebhookReceipt.mk (WebhookReceipt.receipt_id r) (WebhookReceipt.provider_name r)
    (WebhookReceipt.provider_event_id r) (WebhookReceipt.external_reference r) (WebhookReceipt.dedupe_key r)
    (WebhookReceipt.payload_hash r) (WebhookReceipt.raw_body r) (WebhookReceipt.parsed_payload r)
    (WebhookReceipt.raw_headers r) (WebhookReceipt.normalized_event_type r) (WebhookReceipt.verification_status r)
    (WebhookReceipt.verification_reason r) state (WebhookReceipt.emit_count r) error
    (WebhookReceipt.received_at r) (WebhookReceipt.processed_at r) (WebhookReceipt.metadata r).

(** The first receipt with the identifier is updated in place. *)
Fixpoint update_first (id : Uuid) (f : WebhookReceipt.t → WebhookReceipt.t) (rs : list WebhookReceipt.t) :
    list WebhookReceipt.t :=
  match rs with
  | [] => []
  | r :: rs => if decide (ReceiptId.uuid (WebhookReceipt.receipt_id r) = id) then f r :: rs else r :: update_first id f rs
  end.

Definition update_state (id : Uuid) (state : ProcessingState.t) (error : option string) :
    M t (result unit StorageError.t) :=
  locked (λ receipts m, (Ok tt, with_content (update_first id (set_state state error) receipts) m)).

Definition query (filter : ReceiptFilter.t) : M t (result (list WebhookReceipt.t) StorageError.t) :=
  locked (λ receipts m, (Ok receipts, m)).

(** It does not override [store_with_deliveries]. *)
Definition storage : Storage t :=
  mkStorage t store get update_state query (default_store_with_deliveries store).
End PipelineMemory.

(** [MockStorage]; [panicked] records the panic of [store]. *)
Module MockStorage.
Record t : Type := mk { calls : list (Uuid * list string); return_duplicate : bool; panicked : bool }.

Definition new : t := mk [] false false.
Definition new_returning_duplicate : t := mk [] true false.
Definition recorded_calls (m : t) : list (Uuid * list string) := calls m.

Definition store (receipt : WebhookReceipt.t) : M t (result StoreResult.t StorageError.t) :=
  λ m, (Ok StoreResult.Stored, mk (calls m) (return_duplicate m) true).
Definition get (id : Uuid) : M t (result (option WebhookReceipt.t) StorageError.t) := ret (Ok None).
Definition update_state (id : Uuid) (state : ProcessingState.t) (error : option string) :
    M t (result unit StorageError.t) := ret (Ok tt).
Definition query (filter : ReceiptFilter.t) : M t (result (list WebhookReceipt.t) StorageError.t) := ret (Ok []).

Definition store_with_deliveries (receipt : WebhookReceipt.t) (emitter_names : list string) :
    M t (result StoreResult.t StorageError.t) := λ m,
  let m' := mk (calls m ++ [(ReceiptId.uuid (WebhookReceipt.receipt_id receipt), emitter_names)])
              (return_duplicate m) (panicked m) in
  if return_duplicate m then (Ok (StoreResult.Duplicate (WebhookReceipt.receipt_id receipt)), m')
  else (Ok StoreResult.Stored, m').

Definition storage : Storage t := mkStorage t store get update_state query store_with_deliveries.
End MockStorage.

(** ** The verifier doubles *)

(** A verifier with one answer for every request. *)
Definition constant_verifier (status : VerificationStatus.t) (reason : option string) : SignatureVerifier :=
  mkVerifier "test-provider" (λ _ _ _, VerificationResult.mk status reason).

Definition UnitPassVerifier : SignatureVerifier := constant_verifier VerificationStatus.Verified (Some "signature_valid").
Definition UnitFailVerifier : SignatureVerifier := constant_verifier VerificationStatus.Failed (Some "invalid_signature").
Definition FailVerifierNoReason : SignatureVerifier := constant_verifier VerificationStatus.Failed None.
Definition PassVerifierNoReason : SignatureVerifier := constant_verifier VerificationStatus.Verified None.
Definition SkipVerifierNoReason : SignatureVerifier := constant_verifier VerificationStatus.Skipped None.

(** ** The tests *)
Module PipelineTests.
Section tests.
Context `{SerdeJson} `{Codecs} `{Crypto}.
Variables (ids : nat → Uuid) (verify_now : Z) (now : DateTime).

Section over.
Context {S : Type} (storage : Storage S) (fresh : S).

(** The storage double with the cache of the pipeline. *)
Definition on_storage {A} (m : M S A) : M (S * InMemoryRecentDedupe.Inner) A := on_fst m.

Definition paired : Storage (S * InMemoryRecentDedupe.Inner) :=
  mkStorage _ (λ r, on_storage (store storage r)) (λ id, on_storage (get storage id))
    (λ id st e, on_storage (update_state storage id st e)) (λ f, on_storage (query storage f))
    (λ r names, on_storage (store_with_deliveries storage r names)).

(** [HookboxPipeline::builder()...build()], and the test body on the pipeline and its world. *)
Definition with_pipeline (capacity : nat) (names : list string) (verifier : option SignatureVerifier)
    (body : HookboxPipeline.t (S * InMemoryRecentDedupe.Inner) → M (World (S * InMemoryRecentDedupe.Inner)) bool) : bool :=
  expect (InMemoryRecentDedupe.new capacity) (λ cache,
    let builder :=
      HookboxPipelineBuilder.with_emitter_names names
        (HookboxPipelineBuilder.with_dedupe
           (InMemoryRecentDedupe.strategy (InMemoryRecentDedupe.capacity cache) snd (λ i w, (w.1, i)))
           (HookboxPipelineBuilder.with_storage paired HookboxPipelineBuilder.builder)) in
    let builder := match verifier with
                   | Some v => HookboxPipelineBuilder.verifier_boxed v builder
                   | None => builder
                   end in
    expect (HookboxPipelineBuilder.build builder) (λ pipeline,
      (body pipeline ((fresh, InMemoryRecentDedupe.inner cache), [])).1)).
End over.

(** The [n]th [ingest] of a test draws [ids n]. *)
Definition ingest {S} (pipeline : HookboxPipeline.t S) (n : nat) (provider body : string) :
    M (World S) (result IngestResult.t IngestError.t) :=
  HookboxPipeline.ingest pipeline (ReceiptId.new (ids n)) verify_now now provider no_headers (bytes! body).

Definition accepted (r : result IngestResult.t IngestError.t) : bool :=
  match r with Ok (IngestResult.Accepted _) => true | _ => false end.
Definition duplicate (r : result IngestResult.t IngestError.t) : bool :=
  match r with Ok (IngestResult.Duplicate _) => true | _ => false end.
Definition rejected (reason : string) (r : result IngestResult.t IngestError.t) : bool :=
  match r with Ok (IngestResult.VerificationFailed reason') => assert_eq reason' reason | _ => false end.

Definition event (kind : string) : string := dq ("{'event':'" +:+ kind +:+ "'}").

Definition with_memory := with_pipeline PipelineMemory.storage PipelineMemory.new.

Definition ingest_accepted_on_valid_webhook : bool :=
  with_memory 100%nat [] (Some UnitPassVerifier) (λ pipeline,
    result <- ingest pipeline 0 "test-provider" (event "payment.completed") ;;
    ret (match result with
         | Ok (IngestResult.Accepted receipt_id) => assert_ne (ReceiptId.uuid receipt_id) 0%N
         | _ => false
         end)).

Definition ingest_duplicate_on_same_body : bool :=
  with_memory 100%nat [] (Some UnitPassVerifier) (λ pipeline,
    first <- ingest pipeline 0 "test-provider" (event "payment.completed") ;;
    second <- ingest pipeline 1 "test-provider" (event "payment.completed") ;;
    ret (accepted first && duplicate second)).

Definition ingest_verification_failed : bool :=
  with_memory 100%nat [] (Some UnitFailVerifier) (λ pipeline,
    result <- ingest pipeline 0 "test-provider" (event "payment.completed") ;;
    ret (rejected "invalid_signature" result)).

Definition ingest_skipped_verification_when_no_verifier : bool :=
  with_memory 100%nat [] None (λ pipeline,
    result <- ingest pipeline 0 "unknown-provider" (event "payment.completed") ;;
    ret (accepted result)).

Definition ingest_verification_failed_with_no_reason : bool :=
  with_memory 100%nat [] (Some FailVerifierNoReason) (λ pipeline,
    result <- ingest pipeline 0 "test-provider" (event "test") ;;
    ret (rejected "verification_failed" result)).

Definition ingest_verified_with_no_reason_label : bool :=
  with_memory 100%nat [] (Some PassVerifierNoReason) (λ pipeline,
    result <- ingest pipeline 0 "test-provider" (event "test") ;;
    ret (accepted result)).

Definition ingest_skipped_with_no_reason_label : bool :=
  with_memory 100%nat [] (Some SkipVerifierNoReason) (λ pipeline,
    result <- ingest pipeline 0 "test-provider" (event "test") ;;
    ret (accepted result)).

(** [pipeline.storage().get(...)] and [.query(...)] *)
Definition memory_storage_get_returns_stored_receipt : bool :=
  with_memory 100%nat [] (Some UnitPassVerifier) (λ pipeline,
    result <- ingest pipeline 0 "test-provider" (event "test") ;;
    match result with
    | Ok (IngestResult.Accepted receipt_id) =>
        found <- call (get (HookboxPipeline.storage pipeline) (ReceiptId.uuid receipt_id)) ;;
        all <- call (query (HookboxPipeline.storage pipeline) ReceiptFilter.default) ;;
        ret (unwrap found (λ found, expect found (λ r, assert_eq (WebhookReceipt.receipt_id r) receipt_id)) &&
             unwrap all (λ all, assert_ne (List.length all) 0%nat))
    | _ => ret false
    end).

(** The mock of the storage after the test body. *)
Definition mock_state {S} (k : S → bool) : M (World (S * InMemoryRecentDedupe.Inner)) bool := λ w, (k w.1.1, w).

Definition pipeline_calls_store_with_deliveries_with_correct_names : bool :=
  let names := ["kafka"; "sqs"] in
  with_pipeline MockStorage.storage MockStorage.new 100%nat names None (λ pipeline,
    result <- ingest pipeline 0 "test-provider" (event "fan-out-test") ;;
    checks <- mock_state (λ m,
      let calls := MockStorage.recorded_calls m in
      assert_eq (List.length calls) 1%nat && assert_eq (map snd calls) [names] && negb (MockStorage.panicked m)) ;;
    ret (accepted result && checks)).

Definition pipeline_returns_duplicate_when_storage_reports_conflict : bool :=
  with_pipeline MockStorage.storage MockStorage.new_returning_duplicate 100%nat ["kafka"] None (λ pipeline,
    result <- ingest pipeline 0 "test-provider" (event "duplicate-test") ;;
    checks <- mock_state (λ m,
      assert_eq (List.length (MockStorage.recorded_calls m)) 1%nat && negb (MockStorage.panicked m)) ;;
    ret (duplicate result && checks)).

Definition emitter_names_returns_configured_names : bool :=
  let names := ["alpha"; "beta"] in
  with_memory 10%nat names None (λ pipeline,
    let returned := HookboxPipeline.emitter_names pipeline in
    ret (assert_eq (List.length returned) 2%nat && assert_eq (nth 0 returned "") "alpha" &&
         assert_eq (nth 1 returned "") "beta" && assert_eq returned names)).

Definition as_str (v : option Value) : option string := match v with Some (VString s) => Some s | _ => None end.

Definition headers_to_json_produces_correct_object : bool :=
  match headers_to_json (header_map [("content-type", "application/json"); ("x-custom-header", "my-value")]) with
  | VObject obj =>
      assert_eq (as_str (map_get "content-type" obj)) (Some "application/json") &&
      assert_eq (as_str (map_get "x-custom-header" obj)) (Some "my-value")
  | _ => false
  end.

Definition headers_to_json_empty_map_returns_empty_object : bool :=
  match headers_to_json no_headers with VObject obj => assert_eq (List.length obj) 0%nat | _ => false end.

Definition default_store_with_deliveries_rejects_non_empty_emitter_names : bool :=
  let receipt := WebhookReceipt.mk (ReceiptId.new (ids 0%nat)) "test" None None "k" "h" [] None (VObject []) None
    VerificationStatus.Verified None ProcessingState.Stored 0 None now None (VObject []) in
  let '(ok, w) := store_with_deliveries PipelineMemory.storage receipt [] PipelineMemory.new in
  let '(result, _) := store_with_deliveries PipelineMemory.storage receipt ["kafka"] w in
  match ok with Ok StoreResult.Stored => true | _ => false end &&
  match result with Err StorageError.FanOutNotImplemented => true | _ => false end.

Definition passed : bool :=
  ingest_accepted_on_valid_webhook && ingest_duplicate_on_same_body && ingest_verification_failed &&
  ingest_skipped_verification_when_no_verifier && ingest_verification_failed_with_no_reason &&
  ingest_verified_with_no_reason_label && ingest_skipped_with_no_reason_label &&
  memory_storage_get_returns_stored_receipt && pipeline_calls_store_with_deliveries_with_correct_names &&
  pipeline_returns_duplicate_when_storage_reports_conflict && emitter_names_returns_configured_names &&
  headers_to_json_produces_correct_object && headers_to_json_empty_map_returns_empty_object &&
  default_store_with_deliveries_rejects_non_empty_emitter_names.
End tests.

Lemma pipeline_tests_pass :
  passed (H1 := fips_crypto) (λ n, N.of_nat (S n)) 1700000000 1700000000000000000 = true.
Proof. vm_compute. reflexivity. Qed.
End PipelineTests.
