(* ===== verification/ProviderTests.v ===== *)
(** * The unit tests of crates/hookbox-providers/src

    Each test signs its request as the test helpers do and looks at the answer of the verifier.
    [raw_now] is the clock of [chrono::Utc::now().timestamp()], read once by a test and by the
    verifier. *)

From S2P Require Import Prelude RustStd F64 Types Traits Providers Base64 Sha256 Instances TestKit.
From stdpp Require Import pretty.
Local Open Scope Z_scope.

(** The two assertions of most tests. *)
Definition answers (r : VerificationResult.t) (status : VerificationStatus.t) (reason : string) : bool :=
  assert_eq (VerificationResult.status r) status && assert_eq (VerificationResult.reason r) (Some reason).
Definition is_verified (r : VerificationResult.t) : bool := answers r VerificationStatus.Verified "signature_valid".
Definition is_failed (r : VerificationResult.t) (reason : string) : bool := answers r VerificationStatus.Failed reason.
Definition has_status (r : VerificationResult.t) (status : VerificationStatus.t) : bool :=
  assert_eq (VerificationResult.status r) status.

(** [now_secs] and [saturating_sub]. *)
Definition now_secs (raw_now : Z) : Z := unwrap_or (u64_try_from raw_now) 0.
Definition saturating_sub (a b : Z) : Z := Z.max 0 (a - b).

(** [format!("t={ts},v1={sig}")] *)
Definition t_v1 (ts : Z) (sig : string) : string := "t=" +:+ pretty ts +:+ ",v1=" +:+ sig.

(** ** stripe.rs *)
Module StripeTests.
Section tests.
Context `{Codecs} `{Crypto}.
Variable raw_now : Z.

Definition compute_stripe_sig (secret : string) (timestamp : Z) (body : bytes) : option string :=
  body_str ← from_utf8 body;
  let signed_payload := pretty timestamp +:+ "." +:+ body_str in
  Some (hex_encode (hmac_sha256 (as_bytes secret) (as_bytes signed_payload))).

Definition stripe_headers (value : string) : HeaderMap := header_map [("Stripe-Signature", value)].

(** A request signed with [secret] at [ts], and what [verifier] says of it. *)
Definition signed_request (verifier : StripeVerifier.t) (secret : string) (ts : Z) (body : bytes)
    (check : VerificationResult.t → bool) : bool :=
  expect (compute_stripe_sig secret ts body) (λ sig,
    check (StripeVerifier.verify verifier raw_now (stripe_headers (t_v1 ts sig)) body)).

Definition created : bytes := bytes! (dq "{'type':'payment_intent.created'}").
Definition test_verifier : StripeVerifier.t := StripeVerifier.new "stripe" "whsec_test_secret".

Definition valid_stripe_signature : bool :=
  signed_request test_verifier "whsec_test_secret" (now_secs raw_now) created is_verified.

Definition expired_timestamp_fails : bool :=
  signed_request test_verifier "whsec_test_secret" (saturating_sub (now_secs raw_now) 601) created
    (λ result, is_failed result "timestamp_expired").

Definition wrong_secret_fails : bool :=
  signed_request (StripeVerifier.new "stripe" "correct_secret") "wrong_secret" (now_secs raw_now) created
    (λ result, is_failed result "signature_mismatch").

Definition missing_stripe_header_fails : bool :=
  is_failed (StripeVerifier.verify test_verifier raw_now no_headers (bytes! "irrelevant body"))
    "missing_signature_header".

Definition with_tolerance_builder : bool :=
  signed_request (StripeVerifier.with_tolerance test_verifier (Duration_from_secs 60)) "whsec_test_secret"
    (now_secs raw_now) (bytes! "{}") (λ result, has_status result VerificationStatus.Verified).

Definition multiple_v1_signatures_during_rotation : bool :=
  let body := bytes! (dq "{'type':'charge.succeeded'}") in
  let ts := now_secs raw_now in
  expect (compute_stripe_sig "whsec_old_secret" ts body) (λ old_sig,
  expect (compute_stripe_sig "whsec_new_secret" ts body) (λ new_sig,
    is_verified (StripeVerifier.verify (StripeVerifier.new "stripe" "whsec_new_secret") raw_now
      (stripe_headers (t_v1 ts old_sig +:+ ",v1=" +:+ new_sig)) body))).

(** The header as it is, on [test_verifier]. *)
Definition answer_to (header : string) (body : bytes) : VerificationResult.t :=
  StripeVerifier.verify test_verifier raw_now (stripe_headers header) body.

Definition missing_timestamp_fails : bool :=
  is_failed (answer_to "v1=aabbccdd" (bytes! "{}")) "missing_timestamp".

Definition missing_v1_signature_fails : bool :=
  is_failed (answer_to ("t=" +:+ pretty (now_secs raw_now)) (bytes! "{}")) "missing_v1_signature".

Definition invalid_timestamp_fails : bool :=
  is_failed (answer_to "t=notanumber,v1=aabbccdd" (bytes! "{}")) "invalid_timestamp".

Definition non_utf8_body_fails : bool :=
  let bad_body := [Byte.xff; Byte.xfe; Byte.x00] in
  is_failed (answer_to (t_v1 (now_secs raw_now) "aabbccdd") bad_body) "invalid_body_encoding".

Definition invalid_hex_in_v1_skips_to_mismatch : bool :=
  is_failed (answer_to (t_v1 (now_secs raw_now) "ZZZZZZ") (bytes! "{}")) "signature_mismatch".

Definition provider_name_returns_configured_name : bool :=
  assert_eq (provider_name (StripeVerifier.verifier (StripeVerifier.new "stripe-prod" "secret"))) "stripe-prod".

Definition timestamp_exactly_at_tolerance_boundary_is_accepted : bool :=
  let tolerance_secs := 120 in
  signed_request (StripeVerifier.with_tolerance test_verifier (Duration_from_secs tolerance_secs))
    "whsec_test_secret" (saturating_sub (now_secs raw_now) tolerance_secs) created
    (λ result, has_status result VerificationStatus.Verified).

Definition passed : bool :=
  valid_stripe_signature && expired_timestamp_fails && wrong_secret_fails && missing_stripe_header_fails &&
  with_tolerance_builder && multiple_v1_signatures_during_rotation && missing_timestamp_fails &&
  missing_v1_signature_fails && invalid_timestamp_fails && non_utf8_body_fails &&
  invalid_hex_in_v1_skips_to_mismatch && provider_name_returns_configured_name &&
  timestamp_exactly_at_tolerance_boundary_is_accepted.
End tests.

Lemma stripe_tests_pass : passed (H := std_codecs) (H0 := fips_crypto) 1700000000 = true.
Proof. vm_compute. reflexivity. Qed.
End StripeTests.

(** ** generic_hmac.rs *)
Module GenericHmacTests.
Section tests.
Context `{Codecs} `{Crypto}.
Variable raw_now : Z.

Definition compute_sig (secret body : bytes) : string := hex_encode (hmac_sha256 secret body).

Definition secret : bytes := bytes! "test-secret".
Definition body : bytes := bytes! "hello world".
Definition test_verifier : GenericHmacVerifier.t := GenericHmacVerifier.new "test-provider" secret "X-Signature".
Definition answer_to (headers : HeaderMap) : VerificationResult.t :=
  GenericHmacVerifier.verify test_verifier raw_now headers body.

Definition valid_signature_passes : bool :=
  is_verified (answer_to (header_map [("X-Signature", compute_sig secret body)])).

Definition invalid_signature_fails : bool :=
  is_failed (answer_to (header_map
    [("X-Signature", "deadbeefdeadbeefdeadbeefdeadbeefdeadbeefdeadbeefdeadbeefdeadbeef")])) "signature_mismatch".

Definition missing_header_fails : bool := is_failed (answer_to no_headers) "missing_signature_header".

Definition invalid_hex_signature_fails : bool :=
  is_failed (answer_to (header_map [("X-Signature", "ZZZZZZNOTHEX")])) "invalid_hex_signature".

(** The bytes C3 A9, which [to_str] refuses. *)
Definition invalid_header_encoding_fails : bool :=
  is_failed (answer_to (header_values [("X-Signature", mkHeaderValue None)])) "invalid_signature_header_encoding".

Definition provider_name_returns_configured_name : bool :=
  assert_eq (provider_name (GenericHmacVerifier.verifier (GenericHmacVerifier.new "my-provider" (bytes! "secret") "X-Sig")))
    "my-provider".

Definition passed : bool :=
  valid_signature_passes && invalid_signature_fails && missing_header_fails && invalid_hex_signature_fails &&
  invalid_header_encoding_fails && provider_name_returns_configured_name.
End tests.

Lemma generic_hmac_tests_pass : passed (H := std_codecs) (H0 := fips_crypto) 1700000000 = true.
Proof. vm_compute. reflexivity. Qed.
End GenericHmacTests.

(** ** adyen.rs *)
Module AdyenTests.
Section tests.
Context `{Codecs} `{Crypto}.
Variable raw_now : Z.

Definition compute_sig (key_bytes body : bytes) : string := base64_encode (hmac_sha256 key_bytes body).

(** The verifier of a hexadecimal key, and its answer. *)
Definition answer_to (hex_key : string) (headers : HeaderMap) (body : bytes)
    (check : VerificationResult.t → bool) : bool :=
  expect (AdyenVerifier.new "adyen" hex_key) (λ verifier, check (AdyenVerifier.verify verifier raw_now headers body)).

Definition hex_key : string := "deadbeefdeadbeef".

Definition valid_signature_passes : bool :=
  expect (hex_decode hex_key) (λ key_bytes,
    let body := bytes! (dq "{'live':'false','notificationItems':[]}") in
    answer_to hex_key (header_map [("HmacSignature", compute_sig key_bytes body)]) body is_verified).

Definition invalid_signature_fails : bool :=
  answer_to hex_key (header_map [("HmacSignature", "AAAAAAAAAAAAAAAAAAAAAAAAAAAAAAAAAAAAAAAAAAA=")])
    (bytes! (dq "{'live':'false'}")) (λ result, is_failed result "signature_mismatch").

Definition missing_header_fails : bool :=
  answer_to hex_key no_headers (bytes! "irrelevant body") (λ result, is_failed result "missing_signature_header").

Definition invalid_hex_key_returns_none : bool := opt_is_none (AdyenVerifier.new "adyen" "not-valid-hex!!").
Definition empty_hex_key_returns_none : bool := opt_is_none (AdyenVerifier.new "adyen" "").

Definition invalid_base64_signature_fails : bool :=
  answer_to hex_key (header_map [("HmacSignature", "!!!not-base64!!!")]) (bytes! "body")
    (λ result, is_failed result "invalid_base64_signature").

Definition provider_name_returns_configured : bool :=
  expect (AdyenVerifier.new "adyen-prod" hex_key) (λ verifier,
    assert_eq (provider_name (AdyenVerifier.verifier verifier)) "adyen-prod").

Definition passed : bool :=
  valid_signature_passes && invalid_signature_fails && missing_header_fails && invalid_hex_key_returns_none &&
  empty_hex_key_returns_none && invalid_base64_signature_fails && provider_name_returns_configured.
End tests.

Lemma adyen_tests_pass : passed (H := std_codecs) (H0 := fips_crypto) 1700000000 = true.
Proof. vm_compute. reflexivity. Qed.
End AdyenTests.

(** ** bvnk.rs *)
Module BvnkTests.
Section tests.
Context `{Codecs} `{Crypto}.
Variable raw_now : Z.

Definition compute_sig (secret body : bytes) : string := base64_encode (hmac_sha256 secret body).

Definition secret : bytes := bytes! "bvnk-test-secret".
Definition answer_to (headers : HeaderMap) (body : bytes) : VerificationResult.t :=
  BvnkVerifier.verify (BvnkVerifier.new "bvnk" secret) raw_now headers body.

Definition valid_signature_passes : bool :=
  let body := bytes! (dq "{'type':'PAYMENT_RECEIVED','amount':100}") in
  is_verified (answer_to (header_map [("x-signature", compute_sig secret body)]) body).

Definition invalid_signature_fails : bool :=
  is_failed (answer_to (header_map [("x-signature", "AAAAAAAAAAAAAAAAAAAAAAAAAAAAAAAAAAAAAAAAAAA=")])
    (bytes! (dq "{'type':'PAYMENT_RECEIVED'}"))) "signature_mismatch".

Definition missing_header_fails : bool :=
  is_failed (answer_to no_headers (bytes! "irrelevant body")) "missing_signature_header".

Definition invalid_base64_signature_fails : bool :=
  is_failed (answer_to (header_map [("x-signature", "!!!not-base64!!!")]) (bytes! "body")) "invalid_base64_signature".

Definition provider_name_returns_configured : bool :=
  assert_eq (provider_name (BvnkVerifier.verifier (BvnkVerifier.new "bvnk-prod" (bytes! "secret")))) "bvnk-prod".

Definition passed : bool :=
  valid_signature_passes && invalid_signature_fails && missing_header_fails && invalid_base64_signature_fails &&
  provider_name_returns_configured.
End tests.

Lemma bvnk_tests_pass : passed (H := std_codecs) (H0 := fips_crypto) 1700000000 = true.
Proof. vm_compute. reflexivity. Qed.
End BvnkTests.

(** ** walapay.rs *)
Module WalapayTests.
Section tests.
Context `{Codecs} `{Crypto}.
Variable raw_now : Z.

Definition TEST_SECRET : string := "whsec_dGVzdF9rZXlfZm9yX3dhbGFwYXlfdGVzdHM=".
Definition TEST_KEY : bytes := bytes! "test_key_for_walapay_tests".

Definition compute_sig (key : bytes) (msg_id : string) (timestamp : Z) (body : bytes) : string :=
  let ts_str := pretty timestamp in
  let signed_content := as_bytes msg_id ++ [Byte.x2e] ++ as_bytes ts_str ++ [Byte.x2e] ++ body in
  base64_encode (hmac_sha256 key signed_content).

Definition svix_headers (msg_id : string) (ts : Z) (header_sig : string) : HeaderMap :=
  header_map [("svix-id", msg_id); ("svix-timestamp", pretty ts); ("svix-signature", header_sig)].

(** The verifier of [TEST_SECRET], and its answer. *)
Definition answer_to (headers : HeaderMap) (body : bytes) (check : VerificationResult.t → bool) : bool :=
  expect (WalapayVerifier.new "walapay" TEST_SECRET) (λ verifier,
    check (WalapayVerifier.verify verifier raw_now headers body)).

Definition completed : bytes := bytes! (dq "{'event':'payment.completed'}").

Definition valid_signature_passes : bool :=
  let ts := now_secs raw_now in
  let msg_id := "msg_abc123" in
  let sig := compute_sig TEST_KEY msg_id ts completed in
  answer_to (svix_headers msg_id ts ("v1," +:+ sig)) completed is_verified.

Definition missing_svix_id_fails : bool :=
  answer_to (header_map [("svix-timestamp", pretty (now_secs raw_now)); ("svix-signature", "v1,somesig")])
    (bytes! "{}") (λ result, is_failed result "missing_svix_id_header").

Definition missing_svix_timestamp_fails : bool :=
  answer_to (header_map [("svix-id", "msg_abc"); ("svix-signature", "v1,somesig")]) (bytes! "{}")
    (λ result, is_failed result "missing_svix_timestamp_header").

Definition expired_timestamp_fails : bool :=
  let ts := saturating_sub (now_secs raw_now) 601 in
  let msg_id := "msg_expired" in
  let sig := compute_sig TEST_KEY msg_id ts completed in
  answer_to (svix_headers msg_id ts ("v1," +:+ sig)) completed (λ result, is_failed result "timestamp_expired").

Definition wrong_secret_fails : bool :=
  let ts := now_secs raw_now in
  let msg_id := "msg_wrong" in
  let wrong_sig := compute_sig (bytes! "wrong_key") msg_id ts completed in
  answer_to (svix_headers msg_id ts ("v1," +:+ wrong_sig)) completed
    (λ result, is_failed result "signature_mismatch").

Definition multiple_signatures_any_match : bool :=
  let ts := now_secs raw_now in
  let msg_id := "msg_multi" in
  let good_sig := compute_sig TEST_KEY msg_id ts completed in
  let bad_sig := base64_encode (bytes! "not_a_real_signature") in
  answer_to (svix_headers msg_id ts ("v1," +:+ bad_sig +:+ " v1," +:+ good_sig)) completed is_verified.

Definition invalid_secret_no_prefix_returns_none : bool :=
  opt_is_none (WalapayVerifier.new "walapay" "no_whsec_prefix_here").
Definition invalid_secret_bad_base64_returns_none : bool :=
  opt_is_none (WalapayVerifier.new "walapay" "whsec_!!!not_valid_base64!!!").
Definition empty_whsec_key_returns_none : bool := opt_is_none (WalapayVerifier.new "walapay" "whsec_").

Definition provider_name_returns_configured_name : bool :=
  expect (WalapayVerifier.new "walapay-prod" TEST_SECRET) (λ verifier,
    assert_eq (provider_name (WalapayVerifier.verifier verifier)) "walapay-prod").

Definition timestamp_exactly_at_tolerance_boundary_is_accepted : bool :=
  let tolerance_secs := 120 in
  let ts := saturating_sub (now_secs raw_now) tolerance_secs in
  let msg_id := "msg_boundary_test" in
  let sig := compute_sig TEST_KEY msg_id ts completed in
  expect (WalapayVerifier.new "walapay" TEST_SECRET) (λ verifier,
    let verifier := WalapayVerifier.with_tolerance verifier (Duration_from_secs tolerance_secs) in
    has_status (WalapayVerifier.verify verifier raw_now (svix_headers msg_id ts ("v1," +:+ sig)) completed)
      VerificationStatus.Verified).

Definition passed : bool :=
  valid_signature_passes && missing_svix_id_fails && missing_svix_timestamp_fails && expired_timestamp_fails &&
  wrong_secret_fails && multiple_signatures_any_match && invalid_secret_no_prefix_returns_none &&
  invalid_secret_bad_base64_returns_none && empty_whsec_key_returns_none &&
  provider_name_returns_configured_name && timestamp_exactly_at_tolerance_boundary_is_accepted.
End tests.

Lemma walapay_tests_pass : passed (H := std_codecs) (H0 := fips_crypto) 1700000000 = true.
Proof. vm_compute. reflexivity. Qed.
End WalapayTests.

(** ** triplea_crypto.rs *)
Module TripleACryptoTests.
Section tests.
Context `{Codecs} `{Crypto}.
Variable raw_now : Z.

Definition compute_sig (secret : string) (timestamp : Z) (body : bytes) : option string :=
  body_str ← from_utf8 body;
  let signed_payload := pretty timestamp +:+ "." +:+ body_str in
  Some (hex_encode (hmac_sha256 (as_bytes secret) (as_bytes signed_payload))).

Definition triplea_headers (value : string) : HeaderMap := header_map [("triplea-signature", value)].

Definition signed_request (verifier : TripleACryptoVerifier.t) (secret : string) (ts : Z) (body : bytes)
    (check : VerificationResult.t → bool) : bool :=
  expect (compute_sig secret ts body) (λ sig,
    check (TripleACryptoVerifier.verify verifier raw_now (triplea_headers (t_v1 ts sig)) body)).

(** The request of the Triple-A documentation: its body, secret and header. *)
Definition official_body : bytes := bytes! (dq
    ("{'txs':[{'txid':'33d5d9af65fe63b12e1a4d67f6b05fcf01428764db840463aba621daa65323d3','status':'good','" +:+
     "t3a_id':'164f404b07bd6c1868f35e8e70d3c2a245b6be14ec067f0ab50c9f0785b0b3cf','vout_n':0,'status_date':" +:+
     "'2021-05-17T10:22:42.949Z','payment_tier':'good','order_currency':'USD','payment_amount':10,'receive" +:+
     "_amount':10,'payment_currency':'USD','payment_tier_date':'2021-05-17T10:22:42.949Z','payment_crypto_" +:+
     "amount':0.00023271}],'cart':{'items':[{'sku':'2736829','label':'A tale of 2 cities','amount':10.99,'" +:+
     "quantity':1}],'tax_cost':0.73,'shipping_cost':2.57,'shipping_discount':0},'event':'payment','api_id'" +:+
     ":'HA1587722191gQKF_t','status':'good','status_date':'2021-05-17T10:22:42.954Z','order_amount':10,'pa" +:+
     "yment_tier':'good','webhook_data':{'order_id':'ABC12345-2'},'crypto_amount':0.00023271,'exchange_rat" +:+
     "e':42971.44,'crypto_address':'n3XE3iEc2nyB44N43166XyzhEuKpcse9aQ','order_currency':'USD','payment_am" +:+
     "ount':10,'receive_amount':10,'crypto_currency':'testBTC','payment_currency':'USD','payment_reference" +:+
     "':'PMA-401443-PMT','payment_tier_date':'2021-05-17T10:22:42.954Z','payment_crypto_amount':0.00023271" +:+
     "}")).

Definition official_sample_data_verifies : bool :=
  let verifier :=
    TripleACryptoVerifier.with_tolerance (TripleACryptoVerifier.new "triplea" "Cf9mx4nAvRuy5vwBY2FCtaKr!@#")
      (Duration_from_secs (u64_max / 2)) in
  is_verified (TripleACryptoVerifier.verify verifier raw_now
    (triplea_headers "t=1621246963,v1=a0749b4b490e15701ab2c488037da9367e8421d8cbddf2450071758e2c6c9f7d")
    official_body).

Definition test_verifier : TripleACryptoVerifier.t := TripleACryptoVerifier.new "triplea" "test_notify_secret".
Definition payment : bytes := bytes! (dq "{'event':'payment'}").

Definition valid_signature_passes : bool :=
  signed_request test_verifier "test_notify_secret" (now_secs raw_now)
    (bytes! (dq "{'event':'payment','status':'good'}")) is_verified.

Definition expired_timestamp_fails : bool :=
  signed_request test_verifier "test_notify_secret" (saturating_sub (now_secs raw_now) 601) payment
    (λ result, is_failed result "timestamp_expired").

Definition wrong_secret_fails : bool :=
  signed_request (TripleACryptoVerifier.new "triplea" "correct_secret") "wrong_secret" (now_secs raw_now) payment
    (λ result, is_failed result "signature_mismatch").

Definition missing_header_fails : bool :=
  is_failed (TripleACryptoVerifier.verify test_verifier raw_now no_headers (bytes! "irrelevant body"))
    "missing_signature_header".

Definition with_tolerance_builder : bool :=
  signed_request (TripleACryptoVerifier.with_tolerance test_verifier (Duration_from_secs 60)) "test_notify_secret"
    (now_secs raw_now) (bytes! "{}") (λ result, has_status result VerificationStatus.Verified).

Definition provider_name_returns_configured_name : bool :=
  assert_eq (provider_name (TripleACryptoVerifier.verifier (TripleACryptoVerifier.new "triplea-prod" "secret")))
    "triplea-prod".

Definition timestamp_exactly_at_tolerance_boundary_is_accepted : bool :=
  let tolerance_secs := 120 in
  signed_request (TripleACryptoVerifier.with_tolerance test_verifier (Duration_from_secs tolerance_secs))
    "test_notify_secret" (saturating_sub (now_secs raw_now) tolerance_secs) payment
    (λ result, has_status result VerificationStatus.Verified).

Definition passed : bool :=
  official_sample_data_verifies && valid_signature_passes && expired_timestamp_fails && wrong_secret_fails &&
  missing_header_fails && with_tolerance_builder && provider_name_returns_configured_name &&
  timestamp_exactly_at_tolerance_boundary_is_accepted.
End tests.

Lemma triplea_crypto_tests_pass : passed (H := std_codecs) (H0 := fips_crypto) 1700000000 = true.
Proof. vm_compute. reflexivity. Qed.
End TripleACryptoTests.

(** ** triplea.rs

    A key pair is the text of its public key and its signing function. *)
Module TripleAFiatTests.
Section tests.
Context `{Codecs} `{Rsa}.
Variables (raw_now : Z) (pem : string) (sign : bytes → bytes).

Definition sign_body (body : bytes) : string := base64_encode (sign body).

Definition answer_to (headers : HeaderMap) (body : bytes) (check : VerificationResult.t → bool) : bool :=
  expect (TripleAFiatVerifier.new "triplea-fiat" pem) (λ verifier,
    check (TripleAFiatVerifier.verify verifier raw_now headers body)).

Definition valid_rsa_signature_passes : bool :=
  let body := bytes! (dq "{'payout_id':'abc123','status':'completed'}") in
  answer_to (header_map [("TripleA-Signature", sign_body body)]) body is_verified.

Definition invalid_signature_fails : bool :=
  let body := bytes! (dq "{'payout_id':'abc123'}") in
  let wrong_body := bytes! (dq "{'payout_id':'WRONG'}") in
  answer_to (header_map [("TripleA-Signature", sign_body wrong_body)]) body
    (λ result, is_failed result "signature_mismatch").

Definition missing_header_fails : bool :=
  answer_to no_headers (bytes! "body") (λ result, is_failed result "missing_signature_header").

Definition invalid_pem_returns_none : bool := opt_is_none (TripleAFiatVerifier.new "triplea-fiat" "not-a-valid-pem").

Definition provider_name_returns_configured : bool :=
  expect (TripleAFiatVerifier.new "triplea-prod" pem) (λ verifier,
    assert_eq (provider_name (TripleAFiatVerifier.verifier verifier)) "triplea-prod").

Definition passed : bool :=
  valid_rsa_signature_passes && invalid_signature_fails && missing_header_fails && invalid_pem_returns_none &&
  provider_name_returns_configured.
End tests.

(** One key, whose signatures are digests. *)
Definition digest_rsa : Rsa :=
  {| rsa_key := unit; rsa_signature := bytes;
     from_public_key_pem := λ pem, if decide (pem = "PEM") then Some tt else None;
     signature_try_from := Some; rsa_sha512_verify := λ _ body sig, bool_decide (sig = sha256_bytes body) |}.

Lemma triplea_fiat_tests_pass :
  passed (H := std_codecs) (H0 := digest_rsa) 1700000000 "PEM" sha256_bytes = true.
Proof. vm_compute. reflexivity. Qed.
End TripleAFiatTests.
