(* ===== verification/ServerTests.v ===== *)
(** * The unit tests of crates/hookbox-server/src: worker, bootstrap, emitter_factory, health, serve

    The doubles of the test modules and the tests, on the definitions of the model; one lemma per
    test module says that its tests pass. *)

From S2P Require Import Prelude Futures RustStd F64 Types Traits Transitions Instances Config Providers Metrics Worker Json Emitters Channel Health Serve Sha256 Base64 TestKit.
Local Open Scope Z_scope.
Local Open Scope rust_scope.

(** ** worker.rs *)

(** [FakeEmitter]: an emitter that always answers the same. *)
Module UnitFakeEmitter.
Record t : Type := mk { should_succeed : bool }.
Definition always_ok : t := mk true.
Definition always_err : t := mk false.
Definition emit {W} (self : t) (event : NormalizedEvent.t) : M W (result unit EmitError.t) :=
  ret (if should_succeed self then Ok tt else Err (EmitError.Downstream "fake failure")).
Definition emitter {W} (self : t) : Emitter W := mkEmitter W (emit self).
End UnitFakeEmitter.

(** The storage double; [drawn] counts the identifiers it has made. *)
Module MemDeliveryStorage.
Record t : Type := mk {
  deliveries : gmap Uuid WebhookDelivery.t;
  receipts : gmap Uuid WebhookReceipt.t;
  drawn : nat
}.

Section storage.
Context `{UuidText}.
Variables (now : DateTime) (ids : nat → Uuid).

Definition with_in_flight (delivery_id receipt_id : Uuid) (attempt_count : Z) : t :=
  let delivery :=
    {| WebhookDelivery.delivery_id := DeliveryId.mk delivery_id;
       WebhookDelivery.receipt_id := ReceiptId.mk receipt_id;
       WebhookDelivery.emitter_name := "test";
       WebhookDelivery.state := DeliveryState.InFlight;
       WebhookDelivery.attempt_count := attempt_count;
       WebhookDelivery.last_error := None;
       WebhookDelivery.last_attempt_at := Some now;
       WebhookDelivery.next_attempt_at := now;
       WebhookDelivery.emitted_at := None;
       WebhookDelivery.immutable := false;
       WebhookDelivery.created_at := now |} in
  let receipt :=
    {| WebhookReceipt.receipt_id := ReceiptId.mk receipt_id;
       WebhookReceipt.provider_name := "test";
       WebhookReceipt.provider_event_id := None;
       WebhookReceipt.external_reference := None;
       WebhookReceipt.dedupe_key := "test:" +:+ uuid_to_string receipt_id;
       WebhookReceipt.payload_hash := "h";
       WebhookReceipt.raw_body := bytes! "{}";
       WebhookReceipt.parsed_payload := None;
       WebhookReceipt.raw_headers := VObject [];
       WebhookReceipt.normalized_event_type := None;
       WebhookReceipt.verification_status := VerificationStatus.Verified;
       WebhookReceipt.verification_reason := None;
       WebhookReceipt.processing_state := ProcessingState.Stored;
       WebhookReceipt.emit_count := 0;
       WebhookReceipt.last_error := None;
       WebhookReceipt.received_at := now;
       WebhookReceipt.processed_at := None;
       WebhookReceipt.metadata := VObject [] |} in
  mk {[delivery_id := delivery]} {[receipt_id := receipt]} 0.

Definition get (self : t) (id : Uuid) : option WebhookDelivery.t := deliveries self !! id.

(** [if let Some(row) = d.get_mut(&id.0) { ... } Ok(())] *)
Definition get_mut (id : DeliveryId.t) (f : WebhookDelivery.t → WebhookDelivery.t) :
    M t (result unit StorageError.t) := λ self,
  (Ok tt, mk (alter f (DeliveryId.uuid id) (deliveries self)) (receipts self) (drawn self)).

Definition set_outcome (state : DeliveryState.t) (attempt_count : Z) (last_error : option string)
    (next_attempt_at : DateTime) (emitted_at : option DateTime) (row : WebhookDelivery.t) : WebhookDelivery.t :=
  WebhookDelivery.mk (WebhookDelivery.delivery_id row) (WebhookDelivery.receipt_id row)
    (WebhookDelivery.emitter_name row) state attempt_count last_error (WebhookDelivery.last_attempt_at row)
    next_attempt_at emitted_at (WebhookDelivery.immutable row) (WebhookDelivery.created_at row).

Definition mark_emitted (id : DeliveryId.t) : M t (result unit StorageError.t) :=
  get_mut id (λ row, set_outcome DeliveryState.Emitted (WebhookDelivery.attempt_count row)
    (WebhookDelivery.last_error row) (WebhookDelivery.next_attempt_at row) (Some now) row).

Definition mark_failed (id : DeliveryId.t) (attempt_count : Z) (next_at : DateTime) (error : string) :
    M t (result unit StorageError.t) :=
  get_mut id (λ row, set_outcome DeliveryState.Failed attempt_count (Some error) next_at
    (WebhookDelivery.emitted_at row) row).

Definition mark_dead_lettered (id : DeliveryId.t) (error : string) : M t (result unit StorageError.t) :=
  get_mut id (λ row, set_outcome DeliveryState.DeadLettered (WebhookDelivery.attempt_count row) (Some error)
    (WebhookDelivery.next_attempt_at row) (WebhookDelivery.emitted_at row) row).

Definition insert_replay (receipt_id : ReceiptId.t) (emitter_name : string) :
    M t (result DeliveryId.t StorageError.t) := λ self,
  (Ok (DeliveryId.mk (ids (drawn self))), mk (deliveries self) (receipts self) (S (drawn self))).

Definition get_delivery (id : DeliveryId.t) :
    M t (result (option (WebhookDelivery.t * WebhookReceipt.t)) StorageError.t) := λ self,
  (Ok (match deliveries self !! DeliveryId.uuid id with
       | None => None
       | Some delivery =>
           match receipts self !! ReceiptId.uuid (WebhookDelivery.receipt_id delivery) with
           | None => None
           | Some receipt => Some (delivery, receipt)
           end
       end), self).

(** [impl DeliveryStorage for MemDeliveryStorage]; [insert_replays] is the provided method. *)
Definition storage : DeliveryStorage t StorageError.t :=
  {| claim_pending := λ _ _, ret (Ok []);
     reclaim_expired := λ _ _, ret (Ok 0);
     Traits.mark_emitted := mark_emitted;
     Traits.mark_failed := mark_failed;
     Traits.mark_dead_lettered := mark_dead_lettered;
     count_dlq := λ _, ret (Ok 0);
     count_pending := λ _, ret (Ok 0);
     count_in_flight := λ _, ret (Ok 0);
     Traits.insert_replay := insert_replay;
     insert_replays := default_insert_replays insert_replay;
     Traits.get_delivery := get_delivery;
     get_deliveries_for_receipt := λ _, ret (Ok []);
     list_dlq := λ _ _ _, ret (Ok []) |}.
End storage.
End MemDeliveryStorage.

Module WorkerTests.
Section tests.
Context `{UuidText}.
(** The identifiers a test draws, the storage's clock, the worker's clock and random numbers. *)
Variables (powi : f64 → Z → f64) (ids : nat → Uuid) (now : DateTime) (wall_clock : nat → DateTime)
  (draws : nat → f64).

Notation Storage := MemDeliveryStorage.t.

Definition delivery_id : Uuid := ids 0%nat.
Definition receipt_id : Uuid := ids 1%nat.
Definition fresh_ids (n : nat) : Uuid := ids (n + 2)%nat.

Definition make_worker_with_storage (emitter : UnitFakeEmitter.t) (policy : RetryPolicy.t) :
    EmitterWorker.t Storage StorageError.t :=
  {| EmitterWorker.name := "test";
     EmitterWorker.emitter := UnitFakeEmitter.emitter emitter;
     EmitterWorker.storage := MemDeliveryStorage.storage now fresh_ids;
     EmitterWorker.policy := policy;
     EmitterWorker.concurrency := 1;
     EmitterWorker.poll_interval := Duration_from_secs 5;
     EmitterWorker.lease_duration := Duration_from_secs 60 |}.

(** The worker's world at the start of a test. *)
Definition fresh_world (storage : Storage) : WorkerWorld Storage :=
  mkWorld storage EmitterHealth.default [] wall_clock 0 draws 0.

(** [worker.dispatch_one(delivery, receipt).await] on the seeded row, and the row after it. *)
Definition dispatch_seeded (emitter : UnitFakeEmitter.t) (policy : RetryPolicy.t) (attempt_count : Z)
    (body : WebhookDelivery.t → bool) : bool :=
  let storage := MemDeliveryStorage.with_in_flight now delivery_id receipt_id attempt_count in
  let worker := make_worker_with_storage emitter policy in
  expect (MemDeliveryStorage.get storage delivery_id) (λ delivery,
  expect (MemDeliveryStorage.receipts storage !! receipt_id) (λ receipt,
  let '(finished, w) := block_on (EmitterWorker.dispatch_one powi worker (delivery, receipt)) (fresh_world storage) in
  unwrap finished (λ _, expect (MemDeliveryStorage.get (backend w) delivery_id) body))).

Definition with_max_attempts (n : Z) : RetryPolicy.t :=
  let d := RetryPolicy.default in
  RetryPolicy.mk n (RetryPolicy.initial_backoff d) (RetryPolicy.max_backoff d) (RetryPolicy.backoff_multiplier d)
    (RetryPolicy.jitter d).

Definition dispatch_one_success_marks_emitted : bool :=
  dispatch_seeded UnitFakeEmitter.always_ok (with_max_attempts 5) 0 (λ row,
    assert_eq (WebhookDelivery.state row) DeliveryState.Emitted &&
    opt_is_some (WebhookDelivery.emitted_at row)).

Definition dispatch_one_failure_below_max_marks_failed_with_backoff : bool :=
  let d := RetryPolicy.default in
  let policy := RetryPolicy.mk 5 (Duration_from_secs 30) (RetryPolicy.max_backoff d)
                  (RetryPolicy.backoff_multiplier d) 0%float in
  dispatch_seeded UnitFakeEmitter.always_err policy 0 (λ row,
    let earliest_next := now + 25 * 1000000000 in
    let latest_next := now + 35 * 1000000000 in
    assert_eq (WebhookDelivery.state row) DeliveryState.Failed &&
    assert_eq (WebhookDelivery.attempt_count row) 1 &&
    ((earliest_next <=? WebhookDelivery.next_attempt_at row) &&
     (WebhookDelivery.next_attempt_at row <=? latest_next))).

Definition dispatch_one_failure_at_max_marks_dead_lettered : bool :=
  dispatch_seeded UnitFakeEmitter.always_err (with_max_attempts 5) 4 (λ row,
    assert_eq (WebhookDelivery.state row) DeliveryState.DeadLettered).

Fixpoint repeat_m {W} (n : nat) (m : M W unit) : M W unit :=
  match n with O => ret tt | S n => m ;;; repeat_m n m end.

Definition health_state_consecutive_failures_threshold : bool :=
  let w := fresh_world (MemDeliveryStorage.with_in_flight now 0%N 0%N 0) in
  let nine := (repeat_m 9 (EmitterWorker.update_health false) w).2 in
  let ten := (EmitterWorker.update_health false nine).2 in
  let reset := (EmitterWorker.update_health true ten).2 in
  assert_eq (EmitterHealth.status (health nine)) HealthStatus.Degraded &&
  assert_eq (EmitterHealth.status (health ten)) HealthStatus.Unhealthy &&
  assert_eq (EmitterHealth.consecutive_failures (health reset)) 0.

Definition derive_status_healthy_with_no_failures : bool :=
  assert_eq (derive_status now 0 None) HealthStatus.Healthy.

(** [later] is the reading of [derive_status], after the one of the test. *)
Definition derive_status_degraded_within_window (later : DateTime) : bool :=
  let recent := now - 10 * 1000000000 in
  assert_eq (derive_status later 1 (Some recent)) HealthStatus.Degraded.

Definition derive_status_ages_back_to_healthy_after_window (later : DateTime) : bool :=
  let stale := now - 120 * 1000000000 in
  assert_eq (derive_status later 1 (Some stale)) HealthStatus.Healthy.

Definition derive_status_unhealthy_at_threshold (later : DateTime) : bool :=
  let recent := now - 5 * 1000000000 in
  assert_eq (derive_status later 10 (Some recent)) HealthStatus.Unhealthy &&
  assert_eq (derive_status later 99 None) HealthStatus.Unhealthy.

Definition mem_delivery_storage_stubs_are_callable : bool :=
  let storage := MemDeliveryStorage.storage now fresh_ids in
  let run {A} (m : M Storage A) (k : A → Storage → bool) : Storage → bool :=
    λ s, let '(a, s') := m s in k a s' in
  run (claim_pending storage "anything" 10) (λ r s1,
  unwrap r (λ claimed, assert_eq (List.length claimed) 0%nat) &&
  run (reclaim_expired storage "anything" (Duration_from_secs 30)) (λ r s2,
  unwrap r (λ n, assert_eq n 0) &&
  run (count_dlq storage "anything") (λ r s3, unwrap r (λ n, assert_eq n 0) &&
  run (count_pending storage "anything") (λ r s4, unwrap r (λ n, assert_eq n 0) &&
  run (count_in_flight storage "anything") (λ r s5, unwrap r (λ n, assert_eq n 0) &&
  run (insert_replay storage (ReceiptId.mk receipt_id) "anything") (λ r s6,
  unwrap r (λ replay, assert_ne (DeliveryId.uuid replay) delivery_id) &&
  run (insert_replays storage (ReceiptId.mk receipt_id) ["a"; "b"]) (λ r s7,
  unwrap r (λ batch, assert_eq (List.length batch) 2%nat) &&
  run (get_delivery storage (DeliveryId.mk delivery_id)) (λ r s8,
  unwrap r (λ found, expect found (λ found,
    assert_eq (DeliveryId.uuid (WebhookDelivery.delivery_id found.1)) delivery_id)) &&
  run (get_delivery storage (DeliveryId.mk (fresh_ids 10%nat))) (λ r s9,
  unwrap r opt_is_none &&
  run (get_deliveries_for_receipt storage (ReceiptId.mk receipt_id)) (λ r s10,
  unwrap r (λ rows, assert_eq (List.length rows) 0%nat) &&
  run (list_dlq storage (Some "anything") 10 0) (λ r s11,
  unwrap r (λ rows, assert_eq (List.length rows) 0%nat) &&
  run (list_dlq storage None 10 0) (λ r _,
  unwrap r (λ rows, assert_eq (List.length rows) 0%nat)) s11) s10) s9) s8) s7) s6) s5) s4) s3) s2) s1)
  (MemDeliveryStorage.with_in_flight now delivery_id receipt_id 0).

Definition passed (later : DateTime) : bool :=
  dispatch_one_success_marks_emitted && dispatch_one_failure_below_max_marks_failed_with_backoff &&
  dispatch_one_failure_at_max_marks_dead_lettered && health_state_consecutive_failures_threshold &&
  derive_status_healthy_with_no_failures && derive_status_degraded_within_window later &&
  derive_status_ages_back_to_healthy_after_window later && derive_status_unhealthy_at_threshold later &&
  mem_delivery_storage_stubs_are_callable.
End tests.

(** A clock that advances by a millisecond at each reading. *)
Lemma worker_tests_pass :
  passed powi_iter (λ n, N.of_nat (S n)) 1700000000000000000 (λ n, 1700000000000000000 + 1000000 * Z.of_nat n)
    (λ _, 0.5%float) 1700000000000500000 = true.
Proof. vm_compute. reflexivity. Qed.
End WorkerTests.

(** ** bootstrap.rs *)
Module BootstrapTests.
Section tests.
Context `{Codecs} `{Crypto} `{Rsa}.

Definition provider_with_secret (verifier_type secret : string) : ProviderConfig.t :=
  ProviderConfig.mk verifier_type (Some secret) None None None.
Definition provider_without_secret (verifier_type : string) : ProviderConfig.t :=
  ProviderConfig.mk verifier_type None None None None.

(** [expect_build_error], and [err.chain().any(|e| e.to_string().contains(text))]. *)
Definition expect_build_error (providers : gmap string ProviderConfig.t) (k : AnyhowError → bool) : bool :=
  match build_provider_verifiers providers with Ok _ => false | Err e => k e end.
Definition chain_contains (text : string) (e : AnyhowError) : bool := existsb (str_contains text) e.
(** [err.to_string()] *)
Definition to_string (e : AnyhowError) : string := List.hd EmptyString e.
Definition expect_err {A} (r : result A AnyhowError) (k : AnyhowError → bool) : bool :=
  match r with Ok _ => false | Err e => k e end.

Definition validate_retry_config_accepts_positive_values : bool :=
  res_is_ok (validate_retry_config (RetryConfig.mk 5 3)).

Definition validate_retry_config_rejects_zero_interval : bool :=
  expect_err (validate_retry_config (RetryConfig.mk 0 3)) (λ err, str_contains "interval_seconds" (to_string err)).

Definition validate_retry_config_rejects_zero_max_attempts : bool :=
  expect_err (validate_retry_config (RetryConfig.mk 5 0)) (λ err, str_contains "max_attempts" (to_string err)).

(** The first verifier answers for [name]. *)
Definition first_is (name : string) (verifiers : list SignatureVerifier) : bool :=
  expect (verifiers !! 0%nat) (λ v, assert_eq (provider_name v) name).
Definition builds (name : string) (provider : ProviderConfig.t) (k : list SignatureVerifier → bool) : bool :=
  unwrap (build_provider_verifiers {[name := provider]}) (λ verifiers, first_is name verifiers && k verifiers).
Definition fails (name : string) (provider : ProviderConfig.t) (text : string) : bool :=
  expect_build_error {[name := provider]} (chain_contains text).

Definition stripe_verifier_registers_with_tolerance : bool :=
  builds "stripe-test" (ProviderConfig.mk "stripe" (Some "whsec_test") None None (Some 600))
    (λ verifiers, assert_eq (List.length verifiers) 1%nat).

Definition adyen_verifier_registers_with_hex_key : bool :=
  builds "adyen-test"
    (provider_with_secret "adyen" "000102030405060708090a0b0c0d0e0f101112131415161718191a1b1c1d1e1f") (λ _, true).

Definition bvnk_verifier_registers : bool :=
  builds "bvnk-test" (provider_with_secret "bvnk" "shared-secret") (λ _, true).

Definition triplea_crypto_verifier_registers_with_tolerance : bool :=
  builds "ta-crypto" (ProviderConfig.mk "triplea-crypto" (Some "notify-secret") None None (Some 300)) (λ _, true).

Definition checkout_verifier_uses_default_header : bool :=
  builds "checkout-test" (provider_with_secret "checkout" "cko-secret") (λ _, true).

Definition checkout_verifier_honors_override_header : bool :=
  builds "checkout-test" (ProviderConfig.mk "checkout" (Some "cko-secret") None (Some "X-Custom-Sig") None) (λ _, true).

Definition hmac_sha256_registers_with_default_header : bool :=
  builds "github" (provider_with_secret "hmac-sha256" "gh-secret") (λ _, true).

Definition unknown_verifier_type_falls_back_to_generic_hmac : bool :=
  builds "weird" (provider_with_secret "made-up-kind" "some-secret") (λ _, true).

Definition stripe_missing_secret_errors : bool :=
  expect_build_error {["stripe-bad" := provider_without_secret "stripe"]} (λ err,
    str_contains "stripe-bad" (to_string err) || chain_contains "non-empty secret" err).

Definition stripe_empty_secret_errors : bool := fails "stripe-empty" (provider_with_secret "stripe" "") "non-empty".

Definition adyen_invalid_hex_key_errors : bool :=
  fails "adyen-bad" (provider_with_secret "adyen" "not-hex-at-all") "invalid hex key".

Definition adyen_missing_secret_errors : bool :=
  fails "adyen-missing" (provider_without_secret "adyen") "hex-encoded".

Definition bvnk_missing_secret_errors : bool := fails "bvnk-bad" (provider_without_secret "bvnk") "bvnk".

Definition triplea_fiat_missing_public_key_errors : bool :=
  fails "ta-fiat" (provider_without_secret "triplea-fiat") "public_key".

Definition triplea_fiat_invalid_pem_errors : bool :=
  fails "ta-fiat" (ProviderConfig.mk "triplea-fiat" None (Some "this is not a PEM") None None) "invalid PEM".

Definition triplea_crypto_missing_secret_errors : bool :=
  fails "ta-crypto-bad" (provider_without_secret "triplea-crypto") "notify_secret".

Definition walapay_missing_secret_errors : bool :=
  fails "walapay-bad" (provider_without_secret "walapay") "whsec_".

Definition walapay_invalid_secret_format_errors : bool :=
  fails "walapay-bad" (provider_with_secret "walapay" "not-a-whsec") "invalid Svix".

Definition walapay_valid_secret_with_tolerance_registers : bool :=
  let key := base64_encode (replicate 32 Byte.x00) in
  let whsec := "whsec_" +:+ key in
  builds "walapay-ok" (ProviderConfig.mk "walapay" (Some whsec) None None (Some 120)) (λ _, true).

Definition checkout_missing_secret_errors : bool := fails "co" (provider_without_secret "checkout") "checkout".

Definition hmac_missing_secret_errors : bool := fails "github" (provider_without_secret "hmac-sha256") "non-empty".

Definition multiple_providers_all_register : bool :=
  unwrap (build_provider_verifiers
    (<["g" := provider_with_secret "hmac-sha256" "gh"]> {["s" := provider_with_secret "stripe" "whsec_abc"]}))
    (λ verifiers, assert_eq (List.length verifiers) 2%nat).

Definition empty_providers_map_returns_empty_vec : bool :=
  unwrap (build_provider_verifiers ∅) (λ verifiers, assert_eq (List.length verifiers) 0%nat).

Definition passed : bool :=
  validate_retry_config_accepts_positive_values && validate_retry_config_rejects_zero_interval &&
  validate_retry_config_rejects_zero_max_attempts && stripe_verifier_registers_with_tolerance &&
  adyen_verifier_registers_with_hex_key && bvnk_verifier_registers &&
  triplea_crypto_verifier_registers_with_tolerance && checkout_verifier_uses_default_header &&
  checkout_verifier_honors_override_header && hmac_sha256_registers_with_default_header &&
  unknown_verifier_type_falls_back_to_generic_hmac && stripe_missing_secret_errors &&
  stripe_empty_secret_errors && adyen_invalid_hex_key_errors && adyen_missing_secret_errors &&
  bvnk_missing_secret_errors && triplea_fiat_missing_public_key_errors && triplea_fiat_invalid_pem_errors &&
  triplea_crypto_missing_secret_errors && walapay_missing_secret_errors && walapay_invalid_secret_format_errors &&
  walapay_valid_secret_with_tolerance_registers && checkout_missing_secret_errors && hmac_missing_secret_errors &&
  multiple_providers_all_register && empty_providers_map_returns_empty_vec.
End tests.

(** No text is a PEM key. *)
Definition no_pem : Rsa :=
  {| rsa_key := unit; rsa_signature := unit; from_public_key_pem := λ _, None;
     signature_try_from := λ _, None; rsa_sha512_verify := λ _ _ _, false |}.

Lemma bootstrap_tests_pass : passed (H := std_codecs) (H0 := fips_crypto) (H1 := no_pem) = true.
Proof. vm_compute. reflexivity. Qed.
End BootstrapTests.

(** ** emitter_factory.rs *)
Module EmitterFactoryTests.
Section tests.
Context {W : Type} `{Rdkafka W} `{AsyncNats W} `{RedisClient W} `{AwsSqs W} `{Mpsc W}
  `{UuidText} `{ChronoText} `{JsonText}.
Variables (w : W) (new_id : Uuid) (now : DateTime).

Definition cfg_with_type (t : string) : EmitterConfig.t := EmitterConfig.mk t None None None None.

Definition expect_build_error (cfg : EmitterConfig.t) (k : string → bool) : bool :=
  match (build_emitter cfg w).1 with Ok _ => false | Err e => k (List.hd EmptyString e) end.
Definition fails_with (cfg : EmitterConfig.t) (text : string) : bool :=
  expect_build_error cfg (str_contains text).

(** [BuiltEmitter::Ready(_)] is expected. *)
Definition builds_ready (cfg : EmitterConfig.t) : bool :=
  unwrap (build_emitter cfg w).1 (λ built, match built with Ready _ => true | Emitters.Channel _ _ => false end).

Definition unknown_type_returns_error : bool :=
  let cfg := cfg_with_type "bogus" in fails_with cfg "unknown emitter type" && fails_with cfg "bogus".

Definition kafka_missing_section_returns_error : bool := fails_with (cfg_with_type "kafka") "[emitter.kafka]".
Definition nats_missing_section_returns_error : bool := fails_with (cfg_with_type "nats") "[emitter.nats]".
Definition sqs_missing_section_returns_error : bool := fails_with (cfg_with_type "sqs") "[emitter.sqs]".
Definition redis_missing_section_returns_error : bool := fails_with (cfg_with_type "redis") "[emitter.redis]".

Definition kafka_with_section_builds_ready_variant : bool :=
  builds_ready (EmitterConfig.mk "kafka"
    (Some (KafkaEmitterConfig.mk "localhost:9092" "coverage-test" "hookbox-test" "all" 1000)) None None None).

Definition nats_with_section_fails_on_unreachable_broker : bool :=
  fails_with (EmitterConfig.mk "nats" None (Some (NatsEmitterConfig.mk "nats://127.0.0.1:1" "coverage-test")) None None)
    "failed to create NATS emitter".

Definition sqs_with_section_builds_ready_variant : bool :=
  builds_ready (EmitterConfig.mk "sqs" None None
    (Some (SqsEmitterConfig.mk "http://localhost:4566/000000000000/coverage-test" (Some "us-east-1") false
             (Some "http://localhost:4566"))) None).

Definition redis_with_section_fails_on_unreachable_server : bool :=
  fails_with (EmitterConfig.mk "redis" None None None
    (Some (RedisEmitterConfig.mk "redis://127.0.0.1:1" "coverage-test" None 200)))
    "failed to create Redis emitter".

Definition channel_returns_channel_variant : bool :=
  let '(built, w1) := build_emitter (cfg_with_type "channel") w in
  unwrap built (λ built,
    match built with
    | Emitters.Channel emitter rx =>
        let event := NormalizedEvent.mk (ReceiptId.new new_id) "test" None None None "h" now (VObject []) in
        let '(sent, w2) := emit emitter event w1 in
        unwrap sent (λ _,
          match (mpsc_recv rx w2).1 with
          | Some (Some received) => assert_eq (NormalizedEvent.provider_name received) "test"
          | _ => false
          end)
    | Ready _ => false
    end).

Definition passed : bool :=
  unknown_type_returns_error && kafka_missing_section_returns_error && nats_missing_section_returns_error &&
  sqs_missing_section_returns_error && redis_missing_section_returns_error &&
  kafka_with_section_builds_ready_variant && nats_with_section_fails_on_unreachable_broker &&
  sqs_with_section_builds_ready_variant && redis_with_section_fails_on_unreachable_server &&
  channel_returns_channel_variant.
End tests.

(** A machine whose ports are closed: the clients that connect when they are made fail, the lazy
    ones are made. *)
Definition closed_kafka : Rdkafka Channel :=
  {| kafka_producer := unit; kafka_create := λ _, Ok tt; kafka_send := λ _ _ _ _ _, ret (Err "Message timed out") |}.
Definition closed_nats : AsyncNats Channel :=
  {| nats_client := unit; nats_connect := λ _, ret (Err "IO error"); nats_publish := λ _ _ _, ret (Err "IO error") |}.
Definition closed_redis : RedisClient Channel :=
  {| redis_client := unit; redis_conn := unit; redis_open := λ _, Ok tt;
     redis_connect := λ _ _, ret (Some (Err "Connection refused")); redis_xadd := λ _ _ _ _ _ _, ret None |}.
Definition closed_sqs : AwsSqs Channel :=
  {| sqs_client := unit; sqs_load := λ _ _, ret tt; sqs_send := λ _ _ _ _ _, ret None |}.

Lemma emitter_factory_tests_pass :
  passed (W := Channel) (H := closed_kafka) (H0 := closed_nats) (H1 := closed_redis) (H2 := closed_sqs)
    (H3 := queue_channel) (H4 := unary_uuid) (H5 := {| rfc3339 := λ _, "" |}) (H6 := {| json_text := λ _, "" |})
    (mkChannel [] 0 true true) 1%N 1700000000000000000 = true.
Proof. vm_compute. reflexivity. Qed.
End EmitterFactoryTests.

(** ** routes/health.rs *)
Module HealthTests.
Notation Snapshots := (gmap string EmitterHealthSnapshot.t).

Definition healthy_snapshot : EmitterHealthSnapshot.t := EmitterHealthSnapshot.mk HealthStatus.Healthy None None 0 0 0.
Definition degraded_snapshot : EmitterHealthSnapshot.t := EmitterHealthSnapshot.mk HealthStatus.Degraded None None 1 0 0.
Definition unhealthy_snapshot : EmitterHealthSnapshot.t := EmitterHealthSnapshot.mk HealthStatus.Unhealthy None None 10 0 0.

Definition all_healthy_yields_healthy : bool :=
  let emitters : Snapshots := <["b" := healthy_snapshot]> (<["a" := healthy_snapshot]> ∅) in
  assert_eq (compute_overall_status HealthStatus.Healthy emitters) HealthStatus.Healthy.

Definition one_degraded_yields_degraded : bool :=
  let emitters : Snapshots := <["b" := degraded_snapshot]> (<["a" := healthy_snapshot]> ∅) in
  assert_eq (compute_overall_status HealthStatus.Healthy emitters) HealthStatus.Degraded.

Definition one_unhealthy_yields_unhealthy : bool :=
  let emitters : Snapshots := <["b" := unhealthy_snapshot]> (<["a" := healthy_snapshot]> ∅) in
  assert_eq (compute_overall_status HealthStatus.Healthy emitters) HealthStatus.Unhealthy.

Definition db_unhealthy_yields_unhealthy_regardless_of_emitters : bool :=
  let emitters : Snapshots := <["a" := healthy_snapshot]> ∅ in
  assert_eq (compute_overall_status HealthStatus.Unhealthy emitters) HealthStatus.Unhealthy.

(** [emitters[name].status], which panics without the entry. *)
Definition status_is (emitters : Snapshots) (name : string) (status : HealthStatus.t) : bool :=
  expect (emitters !! name) (λ s, assert_eq (EmitterHealthSnapshot.status s) status).

Definition synthesize_inserts_unhealthy_for_missing_emitter : bool :=
  let emitters : Snapshots := <["kafka" := healthy_snapshot]> ∅ in
  let emitters := synthesize_missing_emitters emitters ["kafka"; "sqs"; "nats"] in
  assert_eq (size emitters) 3%nat && status_is emitters "kafka" HealthStatus.Healthy &&
  status_is emitters "sqs" HealthStatus.Unhealthy && status_is emitters "nats" HealthStatus.Unhealthy &&
  assert_eq (compute_overall_status HealthStatus.Healthy emitters) HealthStatus.Unhealthy.

Definition synthesize_is_idempotent_when_all_present : bool :=
  let emitters : Snapshots := <["b" := degraded_snapshot]> (<["a" := healthy_snapshot]> ∅) in
  let emitters := synthesize_missing_emitters emitters ["a"; "b"] in
  assert_eq (size emitters) 2%nat && status_is emitters "a" HealthStatus.Healthy &&
  status_is emitters "b" HealthStatus.Degraded.

Definition degraded_and_unhealthy_yields_unhealthy : bool :=
  let emitters : Snapshots := <["b" := unhealthy_snapshot]> (<["a" := degraded_snapshot]> ∅) in
  assert_eq (compute_overall_status HealthStatus.Healthy emitters) HealthStatus.Unhealthy.

Lemma health_tests_pass :
  forallb id
    [all_healthy_yields_healthy; one_degraded_yields_degraded; one_unhealthy_yields_unhealthy;
     db_unhealthy_yields_unhealthy_regardless_of_emitters; synthesize_inserts_unhealthy_for_missing_emitter;
     synthesize_is_idempotent_when_all_present; degraded_and_unhealthy_yields_unhealthy] = true.
Proof. vm_compute. reflexivity. Qed.
End HealthTests.

(** ** serve.rs *)
Module ServeTests.
Section tests.
Variable wall_clock : nat → DateTime.

(** The task of the supervisor around the task [inner], from the default health. *)
Definition supervised_task (inner : M (WorkerWorld unit) (result unit Panic))
    (body : result unit Panic → EmitterHealth.t → bool) : bool :=
  let '(result, w) := supervised inner (mkWorld tt EmitterHealth.default [] wall_clock 0 (λ _, 0%float) 0) in
  body result (health w).

Definition supervise_worker_leaves_health_untouched_on_clean_exit : bool :=
  supervised_task (ret (Ok tt)) (λ result snapshot,
    res_is_ok result && assert_eq (EmitterHealth.status snapshot) HealthStatus.Healthy &&
    opt_is_none (EmitterHealth.last_failure_at snapshot) &&
    assert_eq (EmitterHealth.consecutive_failures snapshot) 0).

Definition supervise_worker_marks_unhealthy_and_propagates_on_panic : bool :=
  supervised_task (ret (Err panic)) (λ result snapshot,
    res_is_err result && assert_eq (EmitterHealth.status snapshot) HealthStatus.Unhealthy &&
    opt_is_some (EmitterHealth.last_failure_at snapshot) &&
    assert_eq (EmitterHealth.consecutive_failures snapshot) 1).
End tests.

(** On every clock. *)
Lemma serve_tests_pass wall_clock :
  supervise_worker_leaves_health_untouched_on_clean_exit wall_clock &&
  supervise_worker_marks_unhealthy_and_propagates_on_panic wall_clock = true.
Proof. reflexivity. Qed.
End ServeTests.
