(* ===== verification/RouteTests.v ===== *)
(** * The unit tests of crates/hookbox-server/src/routes/tests.rs

    The storage doubles, the test applications, and each test as the requests it sends to the
    router and the assertions on the answers.  A request is the [Admin.Request] that the router
    makes of it: the path segment of an identifier is read with [uuid_from_str] and a query is
    given by its parameters. *)

From S2P Require Import Prelude RustStd F64 Types Traits Transitions Dedupe Metrics Pipeline Worker Json Memory Sha256 Instances Database Emitters Serde Health Admin TestKit PipelineTests.
Local Open Scope Z_scope.
Local Open Scope rust_scope.

(** ** The storage doubles *)

(** [MemoryStorage], as in the tests of the pipeline but for its filtering [query] and its
    [store_with_deliveries]. *)
Module RouteMemory.
Definition t : Type := Mutex (list WebhookReceipt.t).
Definition new : t := mutex_new [].
Definition store : WebhookReceipt.t → M t (result StoreResult.t StorageError.t) := PipelineMemory.store.
Definition get : Uuid → M t (result (option WebhookReceipt.t) StorageError.t) := PipelineMemory.get.
Definition update_state : Uuid → ProcessingState.t → option string → M t (result unit StorageError.t) :=
  PipelineMemory.update_state.

Definition store_with_deliveries (receipt : WebhookReceipt.t) (emitter_names : list string) :
    M t (result StoreResult.t StorageError.t) := store receipt.

(** The filter of [query]; the other fields of it are not read. *)
Definition selected (filter : ReceiptFilter.t) (r : WebhookReceipt.t) : bool :=
  match ReceiptFilter.processing_state filter with
  | Some state => bool_decide (WebhookReceipt.processing_state r = state)
  | None => true
  end &&
  match ReceiptFilter.provider_name filter with
  | Some provider => bool_decide (WebhookReceipt.provider_name r = provider)
  | None => true
  end.

(** A negative limit is [usize::MAX]. *)
Definition query (filter : ReceiptFilter.t) : M t (result (list WebhookReceipt.t) StorageError.t) :=
  PipelineMemory.locked (λ receipts m,
    let iter := List.filter (selected filter) receipts in
    (Ok (match ReceiptFilter.limit filter with
         | Some limit => if limit <? 0 then iter else take (Z.to_nat limit) iter
         | None => iter
         end), m)).

Definition storage : Storage t := mkStorage t store get update_state query store_with_deliveries.
End RouteMemory.

Definition simulated {A} (what : string) : result A StorageError.t :=
  Err (StorageError.Internal ("simulated " +:+ what +:+ " failure")).

(** [FailingStorage]: every operation fails. *)
Module FailingStorage.
Definition store (receipt : WebhookReceipt.t) : M unit (result StoreResult.t StorageError.t) :=
  ret (simulated "store").
Definition get (id : Uuid) : M unit (result (option WebhookReceipt.t) StorageError.t) := ret (simulated "get").
Definition update_state (id : Uuid) (state : ProcessingState.t) (error : option string) :
    M unit (result unit StorageError.t) := ret (simulated "update_state").
Definition query (filter : ReceiptFilter.t) : M unit (result (list WebhookReceipt.t) StorageError.t) :=
  ret (simulated "query").
Definition storage : Storage unit :=
  mkStorage unit store get update_state query (default_store_with_deliveries store).
End FailingStorage.

(** [UpdateFailStorage] *)
Module UpdateFailStorage.
Record t : Type := mk { inner : RouteMemory.t }.
Definition new : t := mk RouteMemory.new.

Definition on_inner {A} (m : M RouteMemory.t A) : M t A := λ self,
  let '(a, inner') := m (inner self) in (a, mk inner').

Definition store (receipt : WebhookReceipt.t) : M t (result StoreResult.t StorageError.t) :=
  on_inner (RouteMemory.store receipt).
Definition get (id : Uuid) : M t (result (option WebhookReceipt.t) StorageError.t) := on_inner (RouteMemory.get id).
Definition update_state (id : Uuid) (state : ProcessingState.t) (error : option string) :
    M t (result unit StorageError.t) := ret (simulated "update_state").
Definition query (filter : ReceiptFilter.t) : M t (result (list WebhookReceipt.t) StorageError.t) :=
  on_inner (RouteMemory.query filter).
Definition storage : Storage t :=
  mkStorage t store get update_state query (default_store_with_deliveries store).
End UpdateFailStorage.

(** [DeliveryFailingStorage]: its [Storage] is the inner one, and its [DeliveryStorage] fails
    but for [get_delivery] of a storage made [with_canned]. *)
Module DeliveryFailingStorage.
Record t : Type := mk {
  inner : RouteMemory.t;
  canned_delivery : option (WebhookDelivery.t * WebhookReceipt.t)
}.
Definition new : t := mk RouteMemory.new None.
Definition with_canned (delivery : WebhookDelivery.t) (receipt : WebhookReceipt.t) : t :=
  mk RouteMemory.new (Some (delivery, receipt)).

Definition on_inner {A} (m : M RouteMemory.t A) : M t A := λ self,
  let '(a, inner') := m (inner self) in (a, mk inner' (canned_delivery self)).

Definition storage : Storage t :=
  mkStorage t (λ receipt, on_inner (RouteMemory.store receipt)) (λ id, on_inner (RouteMemory.get id))
    (λ id state error, on_inner (RouteMemory.update_state id state error))
    (λ filter, on_inner (RouteMemory.query filter))
    (λ receipt emitter_names, on_inner (RouteMemory.store_with_deliveries receipt emitter_names)).

Definition insert_replay (receipt_id : ReceiptId.t) (emitter_name : string) :
    M t (result DeliveryId.t StorageError.t) := ret (simulated "insert_replay").

Definition get_delivery (delivery_id : DeliveryId.t) :
    M t (result (option (WebhookDelivery.t * WebhookReceipt.t)) StorageError.t) := λ self,
  (match canned_delivery self with
   | Some canned => Ok (Some canned)
   | None => simulated "get_delivery"
   end, self).

Definition delivery_storage : DeliveryStorage t StorageError.t :=
  {| claim_pending := λ _ _, ret (simulated "claim");
     reclaim_expired := λ _ _, ret (simulated "reclaim");
     mark_emitted := λ _, ret (simulated "mark_emitted");
     mark_failed := λ _ _ _ _, ret (simulated "mark_failed");
     mark_dead_lettered := λ _ _, ret (simulated "mark_dlq");
     count_dlq := λ _, ret (simulated "count");
     count_pending := λ _, ret (simulated "count");
     count_in_flight := λ _, ret (simulated "count");
     Traits.insert_replay := insert_replay;
     insert_replays := default_insert_replays insert_replay;
     Traits.get_delivery := get_delivery;
     get_deliveries_for_receipt := λ _, ret (simulated "get_deliveries");
     list_dlq := λ _ _ _, ret (simulated "list_dlq") |}.
End DeliveryFailingStorage.

Module RouteTests.
Section tests.
Context `{SerdeJson} `{Codecs} `{Crypto} `{UuidText} `{ChronoText}.
(** The identifiers a test draws, those the storage draws, and the clocks. *)
Variables (ids delivery_ids : nat → Uuid) (verify_now : Z) (now : DateTime).

(** A storage double with the count of the identifiers it has drawn. *)
Definition counted {S} (st : Storage S) : Storage (S * nat) :=
  mkStorage _ (λ r, on_fst (store st r)) (λ id, on_fst (get st id))
    (λ id state e, on_fst (update_state st id state e)) (λ f, on_fst (query st f))
    (λ r names, on_fst (store_with_deliveries st r names)).

Section app.
Context {S : Type}.
Notation W := ((S * nat) * InMemoryRecentDedupe.Inner)%type.
Notation App := (Request → M (World W) Response).

(** [impl_noop_delivery_storage!]; [insert_replays] is the provided method. *)
Definition noop_insert_replay (receipt_id : ReceiptId.t) (emitter_name : string) :
    M W (result DeliveryId.t StorageError.t) := λ w,
  let '((s, drawn), cache) := w in (Ok (DeliveryId.new (delivery_ids drawn)), ((s, Datatypes.S drawn), cache)).

Definition noop_delivery_storage : DeliveryStorage W StorageError.t :=
  {| claim_pending := λ _ _, ret (Ok []);
     reclaim_expired := λ _ _, ret (Ok 0);
     mark_emitted := λ _, ret (Ok tt);
     mark_failed := λ _ _ _ _, ret (Ok tt);
     mark_dead_lettered := λ _ _, ret (Ok tt);
     count_dlq := λ _, ret (Ok 0);
     count_pending := λ _, ret (Ok 0);
     count_in_flight := λ _, ret (Ok 0);
     insert_replay := noop_insert_replay;
     insert_replays := default_insert_replays noop_insert_replay;
     get_delivery := λ _, ret (Ok None);
     get_deliveries_for_receipt := λ _, ret (Ok []);
     list_dlq := λ _ _ _, ret (Ok []) |}.

(** The application around a pipeline, and a test body on it. *)
Definition with_app (storage : Storage S) (deliveries : DeliveryStorage W StorageError.t) (fresh : S)
    (emitter_names : list string) (verifier : option SignatureVerifier) (admin_token prometheus : option string)
    (body : App → M (World W) bool) : bool :=
  PipelineTests.with_pipeline (counted storage) (fresh, 0%nat) 1000%nat emitter_names verifier (λ pipeline,
    body (build_router (AppState.mk pipeline false admin_token prometheus ∅) deliveries StorageError.to_string)).
End app.

Notation MemoryBody :=
  ((Request → M (World ((RouteMemory.t * nat) * InMemoryRecentDedupe.Inner)) Response) →
   M (World ((RouteMemory.t * nat) * InMemoryRecentDedupe.Inner)) bool).

Definition build_test_app (admin_token : option string) (body : MemoryBody) : bool :=
  with_app RouteMemory.storage noop_delivery_storage RouteMemory.new [] None admin_token None body.

(** [RejectVerifier] *)
Definition RejectVerifier : SignatureVerifier :=
  mkVerifier "reject-provider" (λ _ _ _,
    VerificationResult.mk VerificationStatus.Failed (Some "invalid_signature")).

Definition build_test_app_with_reject_verifier (body : MemoryBody) : bool :=
  with_app RouteMemory.storage noop_delivery_storage RouteMemory.new [] (Some RejectVerifier) None None body.

Definition build_failing_app := with_app FailingStorage.storage noop_delivery_storage tt [] None None None.

(** The failing deliveries of the storage inside the world. *)
Definition failing_deliveries :
    DeliveryStorage ((DeliveryFailingStorage.t * nat) * InMemoryRecentDedupe.Inner) StorageError.t :=
  let D := DeliveryFailingStorage.delivery_storage in
  {| claim_pending := λ e n, on_fst (on_fst (claim_pending D e n));
     reclaim_expired := λ e d, on_fst (on_fst (reclaim_expired D e d));
     mark_emitted := λ i, on_fst (on_fst (mark_emitted D i));
     mark_failed := λ i n t e, on_fst (on_fst (mark_failed D i n t e));
     mark_dead_lettered := λ i e, on_fst (on_fst (mark_dead_lettered D i e));
     count_dlq := λ e, on_fst (on_fst (count_dlq D e));
     count_pending := λ e, on_fst (on_fst (count_pending D e));
     count_in_flight := λ e, on_fst (on_fst (count_in_flight D e));
     insert_replay := λ r e, on_fst (on_fst (insert_replay D r e));
     insert_replays := λ r es, on_fst (on_fst (insert_replays D r es));
     get_delivery := λ i, on_fst (on_fst (get_delivery D i));
     get_deliveries_for_receipt := λ r, on_fst (on_fst (get_deliveries_for_receipt D r));
     list_dlq := λ e l o, on_fst (on_fst (list_dlq D e l o)) |}.

Definition build_delivery_failing_app (storage : DeliveryFailingStorage.t) (emitter_names : list string) :=
  with_app DeliveryFailingStorage.storage failing_deliveries storage emitter_names None None None.

(** ** Requests and answers *)

Definition body_json (response : Response) : option Value :=
  match body response with Json v => Some v | _ => None end.

(** [json[name]], [null] without the member. *)
Definition index (name : string) (json : Value) : Value := unwrap_or (value_get name json) VNull.
Definition as_str (v : Value) : option string := match v with VString s => Some s | _ => None end.
Definition as_array (v : Value) : option (list Value) := match v with VArray l => Some l | _ => None end.
Definition is_string (v : Value) : bool := opt_is_some (as_str v).
Definition is_array (v : Value) : bool := opt_is_some (as_array v).
Definition str_is (v : Value) (s : string) : bool := assert_eq (as_str v) (Some s).

Definition status_is (response : Response) (code : StatusCode.t) : bool := assert_eq (status_code response) code.
Definition with_json (response : Response) (k : Value → bool) : bool := expect (body_json response) k.
Definition has_status (s : string) (json : Value) : bool := str_is (index "status" json) s.

(** The error text of a 500 answer. *)
Definition fails_with (response : Response) (text : string) : bool :=
  status_is response StatusCode.INTERNAL_SERVER_ERROR &&
  with_json response (λ json, expect (as_str (index "error" json)) (str_contains text)).

Definition json_headers : HeaderMap := header_map [("content-type", "application/json")].

(** The [n]th webhook of a test. *)
Definition post_webhook (n : nat) (provider body : string) : Request :=
  PostWebhook provider json_headers (bytes! body) (ReceiptId.new (ids n)) verify_now now.

Definition all_receipts : ListReceiptsQuery.t := ListReceiptsQuery.mk None None None None.
Definition get_receipts (headers : HeaderMap) : Request := GetReceipts headers all_receipts.
Definition get_dlq (headers : HeaderMap) : Request := GetDlq headers (ListDlqQuery.mk None None None).
Definition post_replay (id : Uuid) : Request := PostReceiptReplay no_headers id (ReplayReceiptQuery.mk None).
Definition bearer (value : string) : HeaderMap := header_map [("authorization", value)].

(** [json["receipt_id"].as_str().unwrap()] in a path, read back by the extractor. *)
Definition receipt_id_of (response : Response) : option Uuid :=
  json ← body_json response; s ← as_str (index "receipt_id" json); uuid_from_str s.

Definition expect_m {W A} (o : option A) (k : A → M W bool) : M W bool :=
  match o with Some a => k a | None => ret false end.

(** [ingest_one], and what the test does with the identifier. *)
Definition ingest_one {W} (app : Request → M (World W) Response) (text : string) (k : Uuid → M (World W) bool) :
    M (World W) bool :=
  resp <- app (post_webhook 0 "test" text) ;;
  if status_is resp StatusCode.OK then expect_m (receipt_id_of resp) k else ret false.

(** [Uuid::new_v4()] in a test. *)
Definition random_id : Uuid := ids 7%nat.

(** ** Ingest *)

Definition ingest_valid_webhook_returns_200_accepted : bool :=
  build_test_app None (λ app,
    response <- app (post_webhook 0 "test" (dq "{'event':'test'}")) ;;
    ret (status_is response StatusCode.OK &&
         with_json response (λ json, has_status "accepted" json && is_string (index "receipt_id" json)))).

Definition ingest_duplicate_returns_200_duplicate : bool :=
  build_test_app None (λ app,
    resp1 <- app (post_webhook 0 "test" (dq "{'event':'dup'}")) ;;
    resp2 <- app (post_webhook 1 "test" (dq "{'event':'dup'}")) ;;
    ret (status_is resp1 StatusCode.OK && with_json resp1 (has_status "accepted") &&
         status_is resp2 StatusCode.OK && with_json resp2 (has_status "duplicate"))).

Definition ingest_no_verifier_returns_200_accepted : bool :=
  build_test_app None (λ app,
    response <- app (post_webhook 0 "unknown" (dq "{'event':'no-verifier'}")) ;;
    ret (status_is response StatusCode.OK && with_json response (has_status "accepted"))).

(** ** Health *)

Definition healthz_returns_200 : bool :=
  build_test_app None (λ app, response <- app GetHealthz ;; ret (status_is response StatusCode.OK)).

(** Whatever a ping would answer. *)
Definition readyz_without_pool_returns_503 : bool :=
  build_test_app None (λ app,
    response <- app (GetReadyz true) ;; ret (status_is response StatusCode.SERVICE_UNAVAILABLE)).

(** ** The administration API *)

Definition empty_array (response : Response) : bool :=
  status_is response StatusCode.OK &&
  with_json response (λ json, expect (as_array json) (λ l, assert_eq (List.length l) 0%nat)).
Definition nonempty_array (response : Response) : bool :=
  status_is response StatusCode.OK &&
  with_json response (λ json, expect (as_array json) (λ l, assert_ne (List.length l) 0%nat)).

Definition list_receipts_empty : bool :=
  build_test_app None (λ app, response <- app (get_receipts no_headers) ;; ret (empty_array response)).

Definition list_receipts_after_ingest : bool :=
  build_test_app None (λ app,
    ingest_resp <- app (post_webhook 0 "test" (dq "{'event':'listed'}")) ;;
    list_resp <- app (get_receipts no_headers) ;;
    ret (status_is ingest_resp StatusCode.OK && nonempty_array list_resp)).

Definition get_receipt_not_found : bool :=
  build_test_app None (λ app,
    response <- app (GetReceipt no_headers random_id) ;; ret (status_is response StatusCode.NOT_FOUND)).

Definition list_dlq_empty : bool :=
  build_test_app None (λ app, response <- app (get_dlq no_headers) ;; ret (empty_array response)).

Definition admin_missing_token_returns_401 : bool :=
  build_test_app (Some "secret") (λ app,
    response <- app (get_receipts no_headers) ;; ret (status_is response StatusCode.UNAUTHORIZED)).

Definition admin_wrong_token_returns_401 : bool :=
  build_test_app (Some "secret") (λ app,
    response <- app (get_receipts (bearer "Bearer wrong-token")) ;;
    ret (status_is response StatusCode.UNAUTHORIZED)).

Definition admin_correct_token_returns_200 : bool :=
  build_test_app (Some "secret") (λ app,
    response <- app (get_receipts (bearer "Bearer secret")) ;; ret (status_is response StatusCode.OK)).

Definition admin_no_token_configured_allows_all : bool :=
  build_test_app None (λ app,
    response <- app (get_receipts no_headers) ;; ret (status_is response StatusCode.OK)).

Definition metrics_endpoint_returns_200 : bool :=
  build_test_app None (λ app, response <- app GetMetrics ;; ret (status_is response StatusCode.OK)).

(** [installed]: the text the handle renders, if the recorder could be installed. *)
Definition metrics_endpoint_with_prometheus_handle_renders_metrics (installed : option string) : bool :=
  match installed with
  | None => true
  | Some prometheus =>
      with_app RouteMemory.storage noop_delivery_storage RouteMemory.new [] None None (Some prometheus) (λ app,
        response <- app GetMetrics ;;
        ret (status_is response StatusCode.OK &&
             match body response with
             | Text text => assert_ne (String.length text) 0%nat || assert_eq (String.length text) 0%nat
             | _ => false
             end))
  end.

(** A webhook is ingested and its receipt replayed. *)
Definition ingest_and_replay {W} (app : Request → M (World W) Response) (text : string) (k : Value → bool) :
    M (World W) bool :=
  ingest_one app text (λ receipt_id,
    replay_resp <- app (post_replay receipt_id) ;;
    ret (status_is replay_resp StatusCode.ACCEPTED && with_json replay_resp k)).

Definition replay_receipt_returns_200 : bool :=
  build_test_app None (λ app,
    ingest_and_replay app (dq "{'event':'replay-me','id':'unique-replay-1'}") (λ replay_json,
      expect (as_array (index "delivery_ids" replay_json)) (λ l, assert_eq (List.length l) 0%nat))).

Definition replay_receipt_with_configured_emitters_returns_delivery_ids : bool :=
  with_app RouteMemory.storage noop_delivery_storage RouteMemory.new ["kafka"; "sqs"] None None None (λ app,
    ingest_and_replay app (dq "{'event':'fan-out-replay','id':'fan-out-replay-1'}") (λ replay_json,
      expect (as_array (index "delivery_ids" replay_json)) (λ ids, assert_eq (List.length ids) 2%nat))).

Definition replay_nonexistent_returns_404 : bool :=
  build_test_app None (λ app,
    response <- app (post_replay random_id) ;; ret (status_is response StatusCode.NOT_FOUND)).

Definition list_receipts_with_provider_filter : bool :=
  build_test_app None (λ app,
    alpha_resp <- app (post_webhook 0 "alpha" (dq "{'event':'alpha-event','id':'alpha-1'}")) ;;
    beta_resp <- app (post_webhook 1 "beta" (dq "{'event':'beta-event','id':'beta-1'}")) ;;
    list_resp <- app (GetReceipts no_headers (ListReceiptsQuery.mk (Some "alpha") None None None)) ;;
    ret (status_is alpha_resp StatusCode.OK && status_is beta_resp StatusCode.OK && nonempty_array list_resp &&
         with_json list_resp (λ json, expect (as_array json) (λ receipts,
           forallb (λ receipt, str_is (index "provider_name" receipt) "alpha") receipts)))).

Definition list_receipts_with_state_filter : bool :=
  build_test_app None (λ app,
    ingest_resp <- app (post_webhook 0 "test" (dq "{'event':'state-filter','id':'state-1'}")) ;;
    list_resp <- app (GetReceipts no_headers
                        (ListReceiptsQuery.mk None (Some ProcessingState.Stored) None None)) ;;
    ret (status_is ingest_resp StatusCode.OK && nonempty_array list_resp)).

Definition list_receipts_with_limit : bool :=
  let body (i : nat) (seq : string) : string :=
    dq ("{'event':'limit-test','seq':" +:+ seq +:+ ",'uid':'" +:+ uuid_to_string (ids (10 + i)%nat) +:+ "'}") in
  build_test_app None (λ app,
    resp0 <- app (post_webhook 0 "test" (body 0%nat "0")) ;;
    resp1 <- app (post_webhook 1 "test" (body 1%nat "1")) ;;
    resp2 <- app (post_webhook 2 "test" (body 2%nat "2")) ;;
    list_resp <- app (GetReceipts no_headers (ListReceiptsQuery.mk None None (Some 2) None)) ;;
    ret (status_is resp0 StatusCode.OK && status_is resp1 StatusCode.OK && status_is resp2 StatusCode.OK &&
         status_is list_resp StatusCode.OK &&
         with_json list_resp (λ json, expect (as_array json) (λ receipts, (List.length receipts <=? 2)%nat)))).

Definition get_receipt_after_ingest : bool :=
  build_test_app None (λ app,
    ingest_one app (dq "{'event':'get-me','id':'get-receipt-1'}") (λ receipt_id,
      get_resp <- app (GetReceipt no_headers receipt_id) ;;
      ret (status_is get_resp StatusCode.OK &&
           with_json get_resp (λ json, forallb (λ name, is_string (index name json))
             ["receipt_id"; "provider_name"; "processing_state"; "payload_hash"])))).

Definition ingest_empty_body : bool :=
  build_test_app None (λ app,
    response <- app (PostWebhook "test" no_headers [] (ReceiptId.new (ids 0%nat)) verify_now now) ;;
    ret (status_is response StatusCode.OK && with_json response (has_status "accepted"))).

Definition ingest_non_json_body : bool :=
  build_test_app None (λ app,
    response <- app (PostWebhook "test" (header_map [("content-type", "text/plain")]) (bytes! "hello world")
                       (ReceiptId.new (ids 0%nat)) verify_now now) ;;
    ret (status_is response StatusCode.OK && with_json response (has_status "accepted"))).

Definition ingest_verification_failed_returns_401 : bool :=
  build_test_app_with_reject_verifier (λ app,
    response <- app (post_webhook 0 "reject-provider" (dq "{'event':'rejected'}")) ;;
    ret (status_is response StatusCode.UNAUTHORIZED &&
         with_json response (λ json,
           has_status "verification_failed" json && str_is (index "reason" json) "invalid_signature"))).

Definition replay_succeeds_without_inline_emit : bool :=
  build_test_app None (λ app,
    ingest_and_replay app (dq "{'event':'replay-no-emit','id':'unique-replay-no-emit-1'}") (λ json,
      is_array (index "delivery_ids" json))).

(** The value has a tab, which [to_str] reads. *)
Definition admin_non_utf8_auth_header_returns_401 : bool :=
  build_test_app (Some "secret") (λ app,
    response <- app (get_receipts (bearer ("Bearer " +:+ String "009" " bad"))) ;;
    ret (status_is response StatusCode.UNAUTHORIZED)).

(** ** Failing storages *)

Definition list_receipts_storage_error_returns_500 : bool :=
  build_failing_app (λ app,
    response <- app (get_receipts no_headers) ;; ret (fails_with response "simulated")).

Definition get_receipt_storage_error_returns_500 : bool :=
  build_failing_app (λ app,
    response <- app (GetReceipt no_headers random_id) ;; ret (fails_with response "simulated")).

Definition replay_receipt_storage_error_returns_500 : bool :=
  build_failing_app (λ app,
    response <- app (post_replay random_id) ;; ret (fails_with response "simulated")).

Definition list_dlq_with_failing_storage_returns_200_empty : bool :=
  build_failing_app (λ app, response <- app (get_dlq no_headers) ;; ret (empty_array response)).

Definition ingest_storage_error_returns_500 : bool :=
  build_failing_app (λ app,
    response <- app (post_webhook 0 "test" (dq "{'event':'will-fail'}")) ;;
    ret (status_is response StatusCode.INTERNAL_SERVER_ERROR && with_json response (has_status "error"))).

Definition get_receipt_missing_token_returns_401 : bool :=
  build_test_app (Some "secret") (λ app,
    response <- app (GetReceipt no_headers random_id) ;; ret (status_is response StatusCode.UNAUTHORIZED)).

Definition replay_receipt_missing_token_returns_401 : bool :=
  build_test_app (Some "secret") (λ app,
    response <- app (post_replay random_id) ;; ret (status_is response StatusCode.UNAUTHORIZED)).

Definition list_dlq_missing_token_returns_401 : bool :=
  build_test_app (Some "secret") (λ app,
    response <- app (get_dlq no_headers) ;; ret (status_is response StatusCode.UNAUTHORIZED)).

Definition replay_with_update_fail_storage_returns_202 : bool :=
  with_app UpdateFailStorage.storage noop_delivery_storage UpdateFailStorage.new [] None None None (λ app,
    ingest_and_replay app (dq "{'event':'update-fail','id':'unique-update-fail-1'}") (λ json,
      is_array (index "delivery_ids" json))).

Definition list_receipts_get_deliveries_error_returns_500 : bool :=
  build_delivery_failing_app DeliveryFailingStorage.new [] (λ app,
    ingest_one app (dq "{'event':'list-recv-1'}") (λ _,
      response <- app (get_receipts no_headers) ;; ret (fails_with response "get_deliveries"))).

Definition get_receipt_get_deliveries_error_returns_500 : bool :=
  build_delivery_failing_app DeliveryFailingStorage.new [] (λ app,
    ingest_one app (dq "{'event':'get-recv-1'}") (λ id,
      response <- app (GetReceipt no_headers id) ;; ret (fails_with response "get_deliveries"))).

Definition replay_receipt_insert_replays_error_returns_500 : bool :=
  build_delivery_failing_app DeliveryFailingStorage.new ["test-emitter"] (λ app,
    ingest_one app (dq "{'event':'replay-recv-1'}") (λ id,
      response <- app (post_replay id) ;; ret (fails_with response "insert_replay"))).

Definition get_delivery_storage_error_returns_500 : bool :=
  build_delivery_failing_app DeliveryFailingStorage.new [] (λ app,
    response <- app (GetDelivery no_headers random_id) ;; ret (fails_with response "get_delivery")).

Definition replay_delivery_fetch_error_returns_500 : bool :=
  build_delivery_failing_app DeliveryFailingStorage.new [] (λ app,
    response <- app (PostDeliveryReplay no_headers random_id) ;; ret (fails_with response "get_delivery")).

Definition replay_delivery_insert_error_returns_500 : bool :=
  let receipt := WebhookReceipt.mk (ReceiptId.new (ids 0%nat)) "test" None None "dedupe" "hash" (bytes! "{}") None
    (VObject []) None VerificationStatus.Verified None ProcessingState.Stored 0 None now None (VObject []) in
  let delivery := WebhookDelivery.mk (DeliveryId.new (ids 1%nat)) (WebhookReceipt.receipt_id receipt) "test-emitter"
    DeliveryState.Failed 1 (Some "prior") (Some now) now None false now in
  let delivery_id := DeliveryId.uuid (WebhookDelivery.delivery_id delivery) in
  build_delivery_failing_app (DeliveryFailingStorage.with_canned delivery receipt) ["test-emitter"] (λ app,
    response <- app (PostDeliveryReplay no_headers delivery_id) ;; ret (fails_with response "insert_replay")).

Definition list_dlq_storage_error_returns_500 : bool :=
  build_delivery_failing_app DeliveryFailingStorage.new [] (λ app,
    response <- app (get_dlq no_headers) ;; ret (fails_with response "list_dlq")).

Definition passed (installed : option string) : list bool :=
  [ingest_valid_webhook_returns_200_accepted; ingest_duplicate_returns_200_duplicate;
   ingest_no_verifier_returns_200_accepted; healthz_returns_200; readyz_without_pool_returns_503;
   list_receipts_empty; list_receipts_after_ingest; get_receipt_not_found; list_dlq_empty;
   admin_missing_token_returns_401; admin_wrong_token_returns_401; admin_correct_token_returns_200;
   admin_no_token_configured_allows_all; metrics_endpoint_returns_200;
   metrics_endpoint_with_prometheus_handle_renders_metrics installed; replay_receipt_returns_200;
   replay_receipt_with_configured_emitters_returns_delivery_ids; replay_nonexistent_returns_404;
   list_receipts_with_provider_filter; list_receipts_with_state_filter; list_receipts_with_limit;
   get_receipt_after_ingest; ingest_empty_body; ingest_non_json_body; ingest_verification_failed_returns_401;
   replay_succeeds_without_inline_emit; admin_non_utf8_auth_header_returns_401;
   list_receipts_storage_error_returns_500; get_receipt_storage_error_returns_500;
   replay_receipt_storage_error_returns_500; list_dlq_with_failing_storage_returns_200_empty;
   ingest_storage_error_returns_500; get_receipt_missing_token_returns_401;
   replay_receipt_missing_token_returns_401; list_dlq_missing_token_returns_401;
   replay_with_update_fail_storage_returns_202; list_receipts_get_deliveries_error_returns_500;
   get_receipt_get_deliveries_error_returns_500; replay_receipt_insert_replays_error_returns_500;
   get_delivery_storage_error_returns_500; replay_delivery_fetch_error_returns_500;
   replay_delivery_insert_error_returns_500; list_dlq_storage_error_returns_500].
End tests.

(** With and without a recorder. *)
Lemma route_tests_pass installed :
  installed ∈ [None; Some "# metrics"] →
  forallb id (passed (H1 := fips_crypto) (λ n, N.of_nat (S n)) (λ n, N.of_nat (100 + n)) 1700000000
    1700000000000000000 installed) = true.
Proof. intros [->|[->|[]%not_elem_of_nil]%elem_of_cons]%elem_of_cons; vm_compute; reflexivity. Qed.
End RouteTests.
