(* ===== verification/CliTests.v ===== *)
(** * The unit tests of hookbox-cli/src/commands/replay.rs and of hookbox-emitter-redis

    The tests of [parse_duration], and those of the connection of the Redis adapter.  The tests of
    the command line itself run [clap], which is not modelled. *)

From S2P Require Import Prelude RustStd F64 Types Traits Emitters Cli TestKit.
Local Open Scope Z_scope.

(** ** commands/replay.rs *)
Module ReplayTests.

(** The call returns ([expect] fails on a panic) and its answer is not an error. *)
Definition parses_to (s : string) (seconds : Z) : bool :=
  expect (parse_duration s) (λ r, unwrap r (λ d, assert_eq (Some d) (delta_seconds seconds))).
Definition is_error (s : string) : bool := expect (parse_duration s) res_is_err.

Definition parse_seconds : bool := parses_to "30s" 30.
Definition parse_minutes : bool := parses_to "5m" (5 * 60).
Definition parse_hours : bool := parses_to "2h" (2 * 3600).
Definition parse_days : bool := parses_to "7d" (7 * 86400).
Definition parse_zero : bool := parses_to "0s" 0.
Definition parse_large_number : bool := parses_to "365d" (365 * 86400).
Definition parse_with_whitespace : bool := parses_to "  1h  " 3600.
Definition invalid_unit : bool := is_error "10x".
Definition empty_string : bool := is_error "".
Definition just_unit_no_number : bool := is_error "h".
(** Any answer but a panic. *)
Definition negative_number : bool := opt_is_some (parse_duration "-1h").
Definition no_unit_just_number : bool := is_error "123".

Lemma replay_tests_pass :
  forallb id
    [parse_seconds; parse_minutes; parse_hours; parse_days; parse_zero; parse_large_number;
     parse_with_whitespace; invalid_unit; empty_string; just_unit_no_number; negative_number;
     no_unit_just_number] = true.
Proof. vm_compute. reflexivity. Qed.
End ReplayTests.

(** ** hookbox-emitter-redis *)
Module RedisTests.
Section tests.
Context {W : Type} `{RedisClient W}.
Variable w : W.

Definition fails_with (url : string) (timeout_ms : Z) (expected : EmitError.t → bool) : bool :=
  match (RedisEmitter.new url "stream" None timeout_ms w).1 with
  | Err e => expected e
  | Ok _ => false
  end.
Definition downstream (e : EmitError.t) : bool := match e with EmitError.Downstream _ => true | _ => false end.

Definition new_returns_downstream_error_for_unparseable_url : bool := fails_with "not a url at all" 100 downstream.

Definition new_returns_downstream_error_for_unsupported_scheme : bool :=
  fails_with "http://127.0.0.1:6379" 100 downstream.

Definition new_returns_timeout_error_when_endpoint_is_blackholed : bool :=
  fails_with "redis://192.0.2.1:6379" 50 (λ e,
    match e with EmitError.Timeout msg => str_contains "redis connect timed out" msg | _ => false end).
End tests.

(** A client that opens [redis] addresses only, on a network that drops its packets. *)
Definition blackholed : RedisClient unit :=
  {| redis_client := unit; redis_conn := unit;
     redis_open := λ url, match strip_prefix "redis://" url with Some _ => Ok tt | None => Err "Redis URL did not parse" end;
     redis_connect := λ _ _, ret None; redis_xadd := λ _ _ _ _ _ _, ret None |}.

Lemma redis_tests_pass :
  new_returns_downstream_error_for_unparseable_url (H := blackholed) tt &&
  new_returns_downstream_error_for_unsupported_scheme (H := blackholed) tt &&
  new_returns_timeout_error_when_endpoint_is_blackholed (H := blackholed) tt = true.
Proof. vm_compute. reflexivity. Qed.
End RedisTests.
