(* ===== verification/ConfigTests.v ===== *)
(** * The unit tests of crates/hookbox-server/src/config.rs

    The documents of the tests, read by a reader for the part of TOML they are written in (tables,
    arrays of tables, strings, integers, decimals, booleans), which stands for the [toml] crate. *)

From S2P Require Import Prelude RustStd F64 Types Config ConfigToml Emitters TestKit.
Local Open Scope Z_scope.

(** ** A reader of simple documents *)
Module TomlReader.
Notation Entries := (list (string * Toml)).

(** Escapes of a basic string. *)
Fixpoint unescape (s : string) : string :=
  match s with
  | String "092" (String "n" s) => String "010" (unescape s)
  | String "092" (String a s) => String a (unescape s)
  | String a s => String a (unescape s)
  | EmptyString => EmptyString
  end.

(** [12.34] as the nearest float. *)
Definition read_decimal (s : string) : option f64 :=
  match split_on "." s with
  | [whole; fraction] =>
      n ← parse_nat_str (whole +:+ fraction);
      Some (f64_of_Z n / f64_of_Z (10 ^ Z.of_nat (String.length fraction)))%float
  | _ => None
  end.

Definition read_value (s : string) : option Toml :=
  match s with
  | String "034" rest =>
      match split_last rest with
      | Some (text, last) => if Ascii.eqb last "034" then Some (TString (unescape text)) else None
      | None => None
      end
  | "true" => Some (TBoolean true)
  | "false" => Some (TBoolean false)
  | _ => match parse_i64 s with
         | Some n => Some (TInteger n)
         | None => TFloat <$> read_decimal s
         end
  end.

(** What stands at a key is changed in place, or added at the end. *)
Fixpoint alter_key (k : string) (f : option Toml → option Toml) (t : Entries) : option Entries :=
  match t with
  | [] => v ← f None; Some [(k, v)]
  | (n, v) :: rest =>
      if String.eqb n k then v' ← f (Some v); Some ((n, v') :: rest)
      else rest' ← alter_key k f rest; Some ((n, v) :: rest')
  end.

(** A path goes through tables, and through the last element of an array of tables. *)
Fixpoint in_table (path : list string) (f : Entries → option Entries) (t : Entries) : option Entries :=
  match path with
  | [] => f t
  | k :: path' =>
      alter_key k (λ v,
        match v with
        | None => TTable <$> in_table path' f []
        | Some (TTable t') => TTable <$> in_table path' f t'
        | Some (TArray l) =>
            match rev l with
            | TTable t' :: before => t'' ← in_table path' f t'; Some (TArray (rev (TTable t'' :: before)))
            | _ => None
            end
        | Some _ => None
        end) t
  end.

Definition new_element (k : string) (t : Entries) : option Entries :=
  alter_key k (λ v,
    match v with
    | None => Some (TArray [TTable []])
    | Some (TArray l) => Some (TArray (l ++ [TTable []]))
    | Some _ => None
    end) t.

(** The text without a given beginning and end. *)
Definition between (opening closing s : string) : option string :=
  rest ← strip_prefix opening s;
  let n := (String.length rest - String.length closing)%nat in
  if String.eqb (String.substring n (String.length closing) rest) closing
  then Some (String.substring 0 n rest) else None.

(** The table of the last header, and the document so far. *)
Definition read_line (acc : option (list string * Entries)) (line : string) : option (list string * Entries) :=
  p ← acc;
  let path := p.1 in
  let t := p.2 in
  let line := trim line in
  if String.eqb line EmptyString then Some (path, t)
  else match between "[[" "]]" line with
       | Some k => t' ← new_element k t; Some ([k], t')
       | None =>
           match between "[" "]" line with
           | Some keys => let path' := split_on "." keys in t' ← in_table path' Some t; Some (path', t')
           | None =>
               match split_on "=" line with
               | k :: ((_ :: _) as rest) =>
                   v ← read_value (trim (join "=" rest));
                   t' ← in_table path (alter_key (trim k) (λ old, match old with None => Some v | Some _ => None end)) t;
                   Some (path, t')
               | _ => None
               end
           end
       end.

Definition read (s : string) : result Toml string :=
  match foldl read_line (Some ([], [])) (split_on "010" s) with
  | Some (_, t) => Ok (TTable t)
  | None => Err "not a simple document"
  end.
End TomlReader.

(** The text of [serde]'s errors that the tests look for, which the one of the [toml] error contains. *)
Definition de_error_text (e : DeError) : string :=
  match e with
  | UnknownField name expected =>
      "unknown field `" +:+ name +:+ "`, expected one of " +:+
      join ", " (map (λ n, "`" +:+ n +:+ "`") expected)
  | MissingField name => "missing field `" +:+ name +:+ "`"
  | DuplicateField name => "duplicate field `" +:+ name +:+ "`"
  | InvalidType found expected => "invalid type: " +:+ found +:+ ", expected " +:+ expected
  | InvalidValue found expected => "invalid value: " +:+ found +:+ ", expected " +:+ expected
  | Outside => ""
  end.
Definition toml_error_text (e : TomlError) : string :=
  match e with Syntax message => message | Data e => de_error_text e end.

(** ** The tests *)
Module ConfigTests.
Section tests.
Variable parse : string → result Toml string.

Definition from_str (toml_str : string) : result HookboxConfig.t TomlError := config_from_str parse toml_str.
Definition parse_and_normalize (toml_str : string) : result (HookboxConfig.t * list string) (ConfigError.t TomlError) :=
  Config.parse_and_normalize from_str toml_str.
Definition validate (entries : list EmitterEntry.t) : result unit (ConfigError.t TomlError) :=
  validate_emitter_entries entries.

(** [.expect_err(...)] and [err.to_string()]. *)
Definition expect_err {A E} (r : result A E) (k : E → bool) : bool := match r with Ok _ => false | Err e => k e end.
Definition config_error_text (e : ConfigError.t TomlError) : string := ConfigError.to_string toml_error_text e.

Definition parse_minimal_config : bool :=
  unwrap (from_str (dq "
[database]
url = 'postgres://localhost/hookbox'
")) (λ config,
    assert_eq (ServerConfig.host (HookboxConfig.server config)) "0.0.0.0" &&
    assert_eq (ServerConfig.port (HookboxConfig.server config)) 8080 &&
    assert_eq (ServerConfig.body_limit (HookboxConfig.server config)) 1048576 &&
    assert_eq (DatabaseConfig.url (HookboxConfig.database config)) "postgres://localhost/hookbox" &&
    assert_eq (DatabaseConfig.max_connections (HookboxConfig.database config)) 10 &&
    assert_eq (size (HookboxConfig.providers config)) 0%nat &&
    assert_eq (DedupeConfig.lru_capacity (HookboxConfig.dedupe config)) 10000 &&
    opt_is_none (AdminConfig.bearer_token (HookboxConfig.admin config)) &&
    assert_eq (RetryConfig.interval_seconds (HookboxConfig.retry config)) 30 &&
    assert_eq (RetryConfig.max_attempts (HookboxConfig.retry config)) 5 &&
    opt_is_none (HookboxConfig.emitter config) &&
    assert_eq (List.length (HookboxConfig.emitters config)) 0%nat).

Definition parse_emitter_default : bool :=
  unwrap (from_str (dq "
[database]
url = 'postgres://localhost/hookbox'
")) (λ config, opt_is_none (HookboxConfig.emitter config)).

(** The emitter section of a document, and a section of it. *)
Definition with_emitter (toml_str : string) (k : EmitterConfig.t → bool) : bool :=
  unwrap (from_str toml_str) (λ config, expect (HookboxConfig.emitter config) k).

Definition parse_emitter_kafka : bool :=
  with_emitter (dq "
[database]
url = 'postgres://localhost/hookbox'

[emitter]
type = 'kafka'

[emitter.kafka]
brokers = 'localhost:9092'
topic = 'hookbox-events'
") (λ emitter,
    assert_eq (EmitterConfig.emitter_type emitter) "kafka" &&
    expect (EmitterConfig.kafka emitter) (λ kafka,
      assert_eq (KafkaEmitterConfig.brokers kafka) "localhost:9092" &&
      assert_eq (KafkaEmitterConfig.topic kafka) "hookbox-events" &&
      assert_eq (KafkaEmitterConfig.client_id kafka) "hookbox" &&
      assert_eq (KafkaEmitterConfig.acks kafka) "all" &&
      assert_eq (KafkaEmitterConfig.timeout_ms kafka) 5000)).

Definition parse_emitter_kafka_full : bool :=
  with_emitter (dq "
[database]
url = 'postgres://localhost/hookbox'

[emitter]
type = 'kafka'

[emitter.kafka]
brokers = 'broker1:9092,broker2:9092'
topic = 'my-topic'
client_id = 'my-client'
acks = '1'
timeout_ms = 3000
") (λ emitter,
    expect (EmitterConfig.kafka emitter) (λ kafka,
      assert_eq (KafkaEmitterConfig.brokers kafka) "broker1:9092,broker2:9092" &&
      assert_eq (KafkaEmitterConfig.topic kafka) "my-topic" &&
      assert_eq (KafkaEmitterConfig.client_id kafka) "my-client" &&
      assert_eq (KafkaEmitterConfig.acks kafka) "1" &&
      assert_eq (KafkaEmitterConfig.timeout_ms kafka) 3000)).

Definition parse_emitter_nats : bool :=
  with_emitter (dq "
[database]
url = 'postgres://localhost/hookbox'

[emitter]
type = 'nats'

[emitter.nats]
url = 'nats://localhost:4222'
subject = 'hookbox.events'
") (λ emitter,
    assert_eq (EmitterConfig.emitter_type emitter) "nats" &&
    expect (EmitterConfig.nats emitter) (λ nats,
      assert_eq (NatsEmitterConfig.url nats) "nats://localhost:4222" &&
      assert_eq (NatsEmitterConfig.subject nats) "hookbox.events")).

Definition parse_emitter_sqs : bool :=
  with_emitter (dq "
[database]
url = 'postgres://localhost/hookbox'

[emitter]
type = 'sqs'

[emitter.sqs]
queue_url = 'https://sqs.us-east-1.amazonaws.com/123456789012/hookbox-events'
") (λ emitter,
    assert_eq (EmitterConfig.emitter_type emitter) "sqs" &&
    expect (EmitterConfig.sqs emitter) (λ sqs,
      assert_eq (SqsEmitterConfig.queue_url sqs) "https://sqs.us-east-1.amazonaws.com/123456789012/hookbox-events" &&
      opt_is_none (SqsEmitterConfig.region sqs) && negb (SqsEmitterConfig.fifo sqs))).

Definition parse_emitter_sqs_full : bool :=
  with_emitter (dq "
[database]
url = 'postgres://localhost/hookbox'

[emitter]
type = 'sqs'

[emitter.sqs]
queue_url = 'https://sqs.us-east-1.amazonaws.com/123456789012/hookbox-events.fifo'
region = 'us-east-1'
fifo = true
") (λ emitter,
    expect (EmitterConfig.sqs emitter) (λ sqs,
      assert_eq (SqsEmitterConfig.region sqs) (Some "us-east-1") && SqsEmitterConfig.fifo sqs)).

Definition parse_emitter_redis : bool :=
  with_emitter (dq "
[database]
url = 'postgres://localhost/hookbox'

[emitter]
type = 'redis'

[emitter.redis]
url = 'redis://127.0.0.1:6379'
stream = 'hookbox.events'
") (λ emitter,
    assert_eq (EmitterConfig.emitter_type emitter) "redis" &&
    expect (EmitterConfig.redis emitter) (λ redis,
      assert_eq (RedisEmitterConfig.url redis) "redis://127.0.0.1:6379" &&
      assert_eq (RedisEmitterConfig.stream redis) "hookbox.events" &&
      assert_eq (RedisEmitterConfig.maxlen redis) None &&
      assert_eq (RedisEmitterConfig.timeout_ms redis) 5000)).

Definition parse_emitter_redis_full : bool :=
  with_emitter (dq "
[database]
url = 'postgres://localhost/hookbox'

[emitter]
type = 'redis'

[emitter.redis]
url = 'redis://10.0.0.5:6379'
stream = 'hookbox.events'
maxlen = 100000
timeout_ms = 10000
") (λ emitter,
    expect (EmitterConfig.redis emitter) (λ redis,
      assert_eq (RedisEmitterConfig.url redis) "redis://10.0.0.5:6379" &&
      assert_eq (RedisEmitterConfig.stream redis) "hookbox.events" &&
      assert_eq (RedisEmitterConfig.maxlen redis) (Some 100000) &&
      assert_eq (RedisEmitterConfig.timeout_ms redis) 10000)).

(** [config.providers.get(name).expect(...)] *)
Definition provider (config : HookboxConfig.t) (name : string) (k : ProviderConfig.t → bool) : bool :=
  expect (HookboxConfig.providers config !! name) k.

Definition parse_full_config : bool :=
  unwrap (from_str (dq "
[server]
host = '127.0.0.1'
port = 9090
body_limit = 2097152

[database]
url = 'postgres://user:pass@db:5432/hookbox'
max_connections = 20

[providers.stripe]
type = 'hmac-sha256'
secret = 'whsec_test123'
header = 'Stripe-Signature'
tolerance_seconds = 300

[providers.github]
secret = 'gh_secret'

[dedupe]
lru_capacity = 50000

[admin]
bearer_token = 'supersecret'

[retry]
interval_seconds = 15
max_attempts = 3
")) (λ config,
    assert_eq (ServerConfig.host (HookboxConfig.server config)) "127.0.0.1" &&
    assert_eq (ServerConfig.port (HookboxConfig.server config)) 9090 &&
    assert_eq (ServerConfig.body_limit (HookboxConfig.server config)) 2097152 &&
    assert_eq (DatabaseConfig.url (HookboxConfig.database config)) "postgres://user:pass@db:5432/hookbox" &&
    assert_eq (DatabaseConfig.max_connections (HookboxConfig.database config)) 20 &&
    provider config "stripe" (λ stripe,
      assert_eq (ProviderConfig.verifier_type stripe) "hmac-sha256" &&
      assert_eq (ProviderConfig.secret stripe) (Some "whsec_test123") &&
      assert_eq (ProviderConfig.header stripe) (Some "Stripe-Signature") &&
      assert_eq (ProviderConfig.tolerance_seconds stripe) (Some 300)) &&
    provider config "github" (λ github,
      assert_eq (ProviderConfig.verifier_type github) "hmac-sha256" &&
      assert_eq (ProviderConfig.secret github) (Some "gh_secret") &&
      opt_is_none (ProviderConfig.header github) && opt_is_none (ProviderConfig.tolerance_seconds github)) &&
    assert_eq (DedupeConfig.lru_capacity (HookboxConfig.dedupe config)) 50000 &&
    assert_eq (AdminConfig.bearer_token (HookboxConfig.admin config)) (Some "supersecret") &&
    assert_eq (RetryConfig.interval_seconds (HookboxConfig.retry config)) 15 &&
    assert_eq (RetryConfig.max_attempts (HookboxConfig.retry config)) 3).

Definition parse_all_new_provider_types : bool :=
  unwrap (from_str (dq "
[database]
url = 'postgres://localhost/hookbox'

[providers.my_stripe]
type = 'stripe'
secret = 'whsec_stripe'

[providers.my_adyen]
type = 'adyen'
secret = '0123456789abcdef'

[providers.my_bvnk]
type = 'bvnk'
secret = 'bvnk_secret'

[providers.my_triplea_fiat]
type = 'triplea-fiat'
public_key = '-----BEGIN PUBLIC KEY-----\nMFwwDQYJKoZIhvcNAQEBBQAD\n-----END PUBLIC KEY-----'

[providers.my_triplea_crypto]
type = 'triplea-crypto'
secret = 'notify_secret'
tolerance_seconds = 300

[providers.my_walapay]
type = 'walapay'
secret = 'whsec_walapay'

[providers.my_checkout]
type = 'checkout'
secret = 'checkout_secret'
")) (λ config,
    let says ty secret p :=
      assert_eq (ProviderConfig.verifier_type p) ty && assert_eq (ProviderConfig.secret p) (Some secret) in
    provider config "my_adyen" (says "adyen" "0123456789abcdef") &&
    provider config "my_bvnk" (says "bvnk" "bvnk_secret") &&
    provider config "my_triplea_fiat" (λ fiat,
      assert_eq (ProviderConfig.verifier_type fiat) "triplea-fiat" &&
      opt_is_some (ProviderConfig.public_key fiat) && opt_is_none (ProviderConfig.secret fiat)) &&
    provider config "my_triplea_crypto" (λ crypto,
      says "triplea-crypto" "notify_secret" crypto &&
      assert_eq (ProviderConfig.tolerance_seconds crypto) (Some 300)) &&
    provider config "my_walapay" (says "walapay" "whsec_walapay") &&
    provider config "my_checkout" (says "checkout" "checkout_secret")).

Definition normalize_both_emitter_and_emitters_is_error : bool :=
  expect_err (parse_and_normalize (dq "
[database]
url = 'postgres://localhost/test'
[emitter]
type = 'channel'
[[emitters]]
name = 'foo'
type = 'channel'
"))
    (λ err, str_contains "both" (config_error_text err)).

Definition normalize_neither_emitter_nor_emitters_is_error : bool :=
  expect_err (parse_and_normalize (dq "
[database]
url = 'postgres://localhost/test'
"))
    (λ err, str_contains "no emitters" (config_error_text err)).

(** [config.emitters[0]], which panics on an empty list. *)
Definition first_emitter (config : HookboxConfig.t) (k : EmitterEntry.t → bool) : bool :=
  expect (HookboxConfig.emitters config !! 0%nat) k.

Definition normalize_legacy_emitter_becomes_default_entry : bool :=
  unwrap (parse_and_normalize (dq "
[database]
url = 'postgres://localhost/test'
[emitter]
type = 'channel'
")) (λ '(config, warnings),
    assert_eq (List.length (HookboxConfig.emitters config)) 1%nat &&
    first_emitter config (λ e, assert_eq (EmitterEntry.name e) "default") &&
    existsb (str_contains "deprecated") warnings).

Definition normalize_emitters_array_passes_through : bool :=
  unwrap (parse_and_normalize (dq "
[database]
url = 'postgres://localhost/test'
[[emitters]]
name = 'kafka-billing'
type = 'kafka'
[emitters.kafka]
brokers = 'localhost:9092'
topic = 'events'
client_id = 'hookbox'
acks = 'all'
timeout_ms = 5000
")) (λ '(config, _),
    assert_eq (List.length (HookboxConfig.emitters config)) 1%nat &&
    first_emitter config (λ e, assert_eq (EmitterEntry.name e) "kafka-billing")).

(** [EmitterEntry { name, emitter_type, ..Default::default() }], with another concurrency, poll
    interval or retry policy. *)
Definition entry_with (name ty : string) (concurrency poll_interval : Z) (retry : RetryPolicyConfig.t) : EmitterEntry.t :=
  let d := EmitterEntry.default in
  EmitterEntry.mk name ty poll_interval concurrency (EmitterEntry.lease_duration_seconds d) (EmitterEntry.kafka d)
    (EmitterEntry.nats d) (EmitterEntry.sqs d) (EmitterEntry.redis d) retry.
Definition entry (name ty : string) : EmitterEntry.t :=
  let d := EmitterEntry.default in
  entry_with name ty (EmitterEntry.concurrency d) (EmitterEntry.poll_interval_seconds d) (EmitterEntry.retry d).
Definition fails (e : EmitterEntry.t) : bool := res_is_err (validate [e]).
Definition fails_with (e : EmitterEntry.t) (text : string) : bool :=
  expect_err (validate [e]) (λ err, str_contains text (config_error_text err)).
(** The error is a [Validation] whose message satisfies [k]. *)
Definition fails_validation (e : EmitterEntry.t) (k : string → bool) : bool :=
  expect_err (validate [e]) (λ err, match err with ConfigError.Validation msg => k msg | ConfigError.Parse _ => false end).

Definition validate_duplicate_emitter_names_is_error : bool :=
  expect_err (validate [entry "a" "channel"; entry "a" "channel"])
    (λ err, str_contains "duplicate" (config_error_text err)).

Definition validate_name_must_match_regex : bool :=
  fails (entry "has spaces!" "channel").

Definition validate_concurrency_zero_is_error : bool :=
  let d := EmitterEntry.default in
  fails_with (entry_with "a" "channel" 0 (EmitterEntry.poll_interval_seconds d) (EmitterEntry.retry d)) "concurrency".

Definition validate_poll_interval_zero_is_error : bool :=
  let d := EmitterEntry.default in
  fails_with (entry_with "a" "channel" (EmitterEntry.concurrency d) 0 (EmitterEntry.retry d)) "poll_interval_seconds".

Definition emitter_entry_rejects_unknown_fields : bool :=
  expect_err (from_str (dq "
[[emitters]]
name = 'a'
type = 'channel'
concurency = 4
")) (λ err,
    let msg := toml_error_text err in str_contains "concurency" msg || str_contains "unknown field" msg).

Definition retry_policy_rejects_unknown_fields : bool :=
  expect_err (from_str (dq "
[[emitters]]
name = 'a'
type = 'channel'

[emitters.retry]
jittr = 0.1
")) (λ err,
    let msg := toml_error_text err in str_contains "jittr" msg || str_contains "unknown field" msg).

Definition validate_jitter_outside_range_is_error : bool :=
  let d := EmitterEntry.default in
  let r := RetryPolicyConfig.default in
  let retry := RetryPolicyConfig.mk (RetryPolicyConfig.max_attempts r) (RetryPolicyConfig.initial_backoff_seconds r)
    (RetryPolicyConfig.max_backoff_seconds r) (RetryPolicyConfig.backoff_multiplier r) 1.5%float in
  fails (entry_with "a" "channel" (EmitterEntry.concurrency d) (EmitterEntry.poll_interval_seconds d) retry).

Definition validate_unknown_emitter_type_is_error : bool :=
  fails_validation (entry "a" "mystery") (λ msg, str_contains "unknown type" msg && str_contains "mystery" msg).

Definition validate_kafka_without_backend_section_is_error : bool :=
  fails_validation (entry "k" "kafka") (λ msg,
    str_contains "kafka" msg && (str_contains "section" msg || str_contains "requires" msg)).

Definition validate_nats_without_backend_section_is_error : bool :=
  fails (entry "n" "nats").

Definition validate_sqs_without_backend_section_is_error : bool :=
  fails (entry "s" "sqs").

Definition validate_redis_without_backend_section_is_error : bool :=
  fails (entry "r" "redis").

Definition validate_channel_without_backend_section_is_ok : bool :=
  res_is_ok (validate [entry "c" "channel"]).

Definition normalize_legacy_emitter_preserves_global_retry : bool :=
  unwrap (parse_and_normalize (dq "
[database]
url = 'postgres://localhost/test'
[retry]
interval_seconds = 7
max_attempts = 42
[emitter]
type = 'channel'
")) (λ '(config, _),
    assert_eq (List.length (HookboxConfig.emitters config)) 1%nat &&
    first_emitter config (λ e,
      assert_eq (RetryPolicyConfig.max_attempts (EmitterEntry.retry e)) 42 &&
      assert_eq (EmitterEntry.poll_interval_seconds e) 7)).

Definition partial_retry_table_uses_defaults_for_missing_fields : bool :=
  unwrap (parse_and_normalize (dq "
[database]
url = 'postgres://localhost/test'
[[emitters]]
name = 'ch'
type = 'channel'
[emitters.retry]
max_attempts = 9
")) (λ '(config, _),
    first_emitter config (λ e,
      assert_eq (RetryPolicyConfig.max_attempts (EmitterEntry.retry e)) 9 &&
      assert_eq (RetryPolicyConfig.initial_backoff_seconds (EmitterEntry.retry e)) 30 &&
      (RetryPolicyConfig.backoff_multiplier (EmitterEntry.retry e) =? 2)%float)).

Definition passed : bool :=
  parse_minimal_config && parse_emitter_default && parse_emitter_kafka && parse_emitter_kafka_full &&
  parse_emitter_nats && parse_emitter_sqs && parse_emitter_sqs_full && parse_emitter_redis &&
  parse_emitter_redis_full && parse_full_config && parse_all_new_provider_types &&
  normalize_both_emitter_and_emitters_is_error && normalize_neither_emitter_nor_emitters_is_error &&
  normalize_legacy_emitter_becomes_default_entry && normalize_emitters_array_passes_through &&
  validate_duplicate_emitter_names_is_error && validate_name_must_match_regex &&
  validate_concurrency_zero_is_error && validate_poll_interval_zero_is_error &&
  emitter_entry_rejects_unknown_fields && retry_policy_rejects_unknown_fields &&
  validate_jitter_outside_range_is_error && validate_unknown_emitter_type_is_error &&
  validate_kafka_without_backend_section_is_error && validate_nats_without_backend_section_is_error &&
  validate_sqs_without_backend_section_is_error && validate_redis_without_backend_section_is_error &&
  validate_channel_without_backend_section_is_ok && normalize_legacy_emitter_preserves_global_retry &&
  partial_retry_table_uses_defaults_for_missing_fields.
End tests.

Lemma config_tests_pass : passed TomlReader.read = true.
Proof. vm_compute. reflexivity. Qed.
End ConfigTests.
