(* ===== verification/StorageTests.v ===== *)
(** * The integration tests of the storage

    [integration-tests/tests/delivery_storage.rs], [storage_fault_injection.rs], [ingest_test.rs]
    and [migration_0002.rs]: the tests that run [PostgresStorage] against a live database, here
    against the tables of [Database].  A test is a computation over a session of a freshly
    migrated database, [false] on a failed assertion; the identifiers it makes and its clock are
    its arguments. *)

From S2P Require Import Prelude RustStd F64 Types Traits Transitions Dedupe Database Postgres Metrics Pipeline Worker Json Emitters Instances Sha256 Samples TestKit PipelineTests Rows Sql Schema.
Local Open Scope Z_scope.
Local Open Scope rust_scope.

(** [m.await.expect(...)], and the rest of the test. *)
Definition expect_ok {W A E} (m : M W (result A E)) (k : A → M W bool) : M W bool :=
  r <- m ;; match r with Ok a => k a | Err _ => ret false end.
(** [.expect(...).expect(...)] on an [Ok(Some(_))]. *)
Definition expect_some {W A E} (m : M W (result (option A) E)) (k : A → M W bool) : M W bool :=
  expect_ok m (λ o, match o with Some a => k a | None => ret false end).
Declare Scope test_scope.
Notation "x <-! m ;; k" := (expect_ok m (λ x, k))
  (at level 100, m at next level, right associativity) : test_scope.
Notation "x <-!! m ;; k" := (expect_some m (λ x, k))
  (at level 100, m at next level, right associativity) : test_scope.
(** [assert!(b)], and the rest of the test. *)
Notation "'assert' b ;; k" := (if (b : bool) then k else ret false)
  (at level 100, b at level 99, right associativity) : test_scope.
Local Open Scope test_scope.

Definition seconds (n : Z) : Z := n * 1000000000.

(** [PostgresStorage] on a pool that is one part of the world of a test. *)
Definition pool_deliveries `{SerdeJson} `{PgTypes} `{UuidText} {B} : DeliveryStorage (Pg * B) StorageError.t :=
  let D := PostgresStorage.delivery_storage in
  {| claim_pending := λ e n, on_fst (claim_pending D e n);
     reclaim_expired := λ e d, on_fst (reclaim_expired D e d);
     mark_emitted := λ i, on_fst (mark_emitted D i);
     mark_failed := λ i n t e, on_fst (mark_failed D i n t e);
     mark_dead_lettered := λ i e, on_fst (mark_dead_lettered D i e);
     count_dlq := λ e, on_fst (count_dlq D e);
     count_pending := λ e, on_fst (count_pending D e);
     count_in_flight := λ e, on_fst (count_in_flight D e);
     insert_replay := λ r e, on_fst (insert_replay D r e);
     insert_replays := λ r es, on_fst (insert_replays D r es);
     get_delivery := λ i, on_fst (get_delivery D i);
     get_deliveries_for_receipt := λ r, on_fst (get_deliveries_for_receipt D r);
     list_dlq := λ e l o, on_fst (list_dlq D e l o) |}.

(** ** Seeds *)

Section seeds.
Context `{UuidText}.

(** The [INSERT] of [seed_receipt], which has no conflict clause. *)
Definition seed_receipt_row (c : Clock) (receipt_id : Uuid) : ReceiptRow.t :=
  {| ReceiptRow.receipt_id := receipt_id;
     ReceiptRow.provider_name := "test";
     ReceiptRow.provider_event_id := None;
     ReceiptRow.external_reference := None;
     ReceiptRow.dedupe_key := "test:" +:+ uuid_to_string receipt_id;
     ReceiptRow.payload_hash := "h";
     ReceiptRow.raw_body := bytes! "{}";
     ReceiptRow.parsed_payload := None;
     ReceiptRow.raw_headers := VObject [];
     ReceiptRow.normalized_event_type := None;
     ReceiptRow.verification_status := "verified";
     ReceiptRow.verification_reason := None;
     ReceiptRow.processing_state := "stored";
     ReceiptRow.emit_count := 0;
     ReceiptRow.last_error := None;
     ReceiptRow.received_at := Database.now c;
     ReceiptRow.processed_at := None;
     ReceiptRow.metadata := VObject [] |}.

Definition insert_receipt_row (row : Clock → ReceiptRow.t) : Stmt unit := λ c d,
  if existsb (has_dedupe_key (ReceiptRow.dedupe_key (row c))) (webhook_receipts d)
  then Err "duplicate key value violates unique constraint webhook_receipts_dedupe_key_key"
  else if existsb (has_receipt_id (ReceiptRow.receipt_id (row c))) (webhook_receipts d)
  then Err "duplicate key value violates unique constraint webhook_receipts_pkey"
  else Ok (tt, mkDb (webhook_receipts d ++ [row c]) (webhook_deliveries d)).

Definition seed_receipt (receipt_id : Uuid) : M Pg (result unit StorageError.t) :=
  execute (insert_receipt_row (λ c, seed_receipt_row c receipt_id)).

Definition insert_delivery_row (row : Clock → DeliveryRow.t) : Stmt unit := λ c d,
  if existsb (has_delivery_id (DeliveryRow.delivery_id (row c))) (webhook_deliveries d)
  then Err "duplicate key value violates unique constraint webhook_deliveries_pkey"
  else if negb (existsb (has_receipt_id (DeliveryRow.receipt_id (row c))) (webhook_receipts d))
  then Err "insert or update on table webhook_deliveries violates foreign key constraint"
  else Ok (tt, mkDb (webhook_receipts d) (webhook_deliveries d ++ [row c])).

Definition seed_delivery (delivery_id receipt_id : Uuid) (emitter state : string) (immutable : bool)
    (next_attempt_at : DateTime) (last_attempt_at : option DateTime) : M Pg (result unit StorageError.t) :=
  execute (insert_delivery_row (λ c,
    {| DeliveryRow.delivery_id := delivery_id;
       DeliveryRow.receipt_id := receipt_id;
       DeliveryRow.emitter_name := emitter;
       DeliveryRow.state := state;
       DeliveryRow.attempt_count := 0;
       DeliveryRow.last_error := None;
       DeliveryRow.last_attempt_at := last_attempt_at;
       DeliveryRow.next_attempt_at := next_attempt_at;
       DeliveryRow.emitted_at := None;
       DeliveryRow.immutable := immutable;
       DeliveryRow.created_at := Database.now c |})).

(** [for id in ids { seed_delivery(...).await }] *)
Definition seed_deliveries (ids : list Uuid) (receipt_id : Uuid) (emitter state : string)
    (next_attempt_at : DateTime) (last_attempt_at : option DateTime) : M Pg (result unit StorageError.t) :=
  for_try (λ id, seed_delivery id receipt_id emitter state false next_attempt_at last_attempt_at) ids.
End seeds.

(** ** delivery_storage.rs *)

Module DeliveryStorageTests.
Section tests.
Context `{SerdeJson} `{PgTypes} `{UuidText}.
(** The identifiers of a test and its clock. *)
Variables (ids : nat → Uuid) (now : DateTime).

Definition receipt_id : Uuid := ids 0%nat.
Definition delivery_id : Uuid := ids 1%nat.

(** The receipt, and one delivery of it to [test-emitter]. *)
Definition with_delivery (state : string) (next_attempt_at : DateTime) (last_attempt_at : option DateTime)
    (k : M Pg bool) : M Pg bool :=
  _ <-! seed_receipt receipt_id ;;
  _ <-! seed_delivery delivery_id receipt_id "test-emitter" state false next_attempt_at last_attempt_at ;;
  k.

Definition ids_of (rows : list (WebhookDelivery.t * WebhookReceipt.t)) : list Uuid :=
  map (λ p, DeliveryId.uuid (WebhookDelivery.delivery_id p.1)) rows.

Definition claim_pending_returns_only_eligible_rows : M Pg bool :=
  _ <-! seed_receipt receipt_id ;;
  _ <-! seed_delivery (ids 1%nat) receipt_id "test-emitter" "pending" false (now - seconds 1) None ;;
  _ <-! seed_delivery (ids 2%nat) receipt_id "test-emitter" "pending" false (now + seconds 3600) None ;;
  _ <-! seed_delivery (ids 3%nat) receipt_id "test-emitter" "in_flight" false (now - seconds 1) (Some now) ;;
  claimed <-! PostgresStorage.claim_pending "test-emitter" 10 ;;
  ret (assert_eq (List.length claimed) 1%nat && assert_eq (head (ids_of claimed)) (Some (ids 1%nat))).

(** The two calls of [tokio::join!], whose statements the database serves one after the other. *)
Definition two_concurrent_claims_see_disjoint_sets : M Pg bool :=
  _ <-! seed_receipt receipt_id ;;
  _ <-! seed_deliveries (map ids (seq 1 10)) receipt_id "test-emitter" "pending" (now - seconds 1) None ;;
  batch_a <-! PostgresStorage.claim_pending "test-emitter" 5 ;;
  batch_b <-! PostgresStorage.claim_pending "test-emitter" 5 ;;
  let ids_a := remove_dups (ids_of batch_a) in
  let ids_b := remove_dups (ids_of batch_b) in
  ret (assert_eq (list_intersection ids_a ids_b) [] &&
       assert_eq (List.length ids_a + List.length ids_b)%nat 10%nat).

Definition claim_pending_skips_immutable_rows : M Pg bool :=
  _ <-! seed_receipt receipt_id ;;
  _ <-! seed_delivery delivery_id receipt_id "test-emitter" "pending" true (now - seconds 1) None ;;
  claimed <-! PostgresStorage.claim_pending "test-emitter" 10 ;;
  ret (assert_eq (List.length claimed) 0%nat).

Definition mark_emitted_sets_terminal_state : M Pg bool :=
  with_delivery "in_flight" (now - seconds 1) (Some now) (
    _ <-! PostgresStorage.mark_emitted (DeliveryId.mk delivery_id) ;;
    row <-!! PostgresStorage.get_delivery (DeliveryId.mk delivery_id) ;;
    ret (assert_eq (WebhookDelivery.state row.1) DeliveryState.Emitted &&
         opt_is_some (WebhookDelivery.emitted_at row.1))).

Definition mark_failed_increments_attempt_and_sets_next_attempt : M Pg bool :=
  with_delivery "in_flight" (now - seconds 1) (Some now) (
    let next_at := now + seconds 30 in
    _ <-! PostgresStorage.mark_failed (DeliveryId.mk delivery_id) 1 next_at "downstream error" ;;
    row <-!! PostgresStorage.get_delivery (DeliveryId.mk delivery_id) ;;
    ret (assert_eq (WebhookDelivery.state row.1) DeliveryState.Failed &&
         assert_eq (WebhookDelivery.attempt_count row.1) 1 &&
         (next_at - seconds 1 <=? WebhookDelivery.next_attempt_at row.1) &&
         assert_eq (WebhookDelivery.last_error row.1) (Some "downstream error"))).

Definition mark_dead_lettered_sets_terminal_state : M Pg bool :=
  with_delivery "in_flight" (now - seconds 1) (Some now) (
    _ <-! PostgresStorage.mark_dead_lettered (DeliveryId.mk delivery_id) "max retries exceeded" ;;
    row <-!! PostgresStorage.get_delivery (DeliveryId.mk delivery_id) ;;
    ret (assert_eq (WebhookDelivery.state row.1) DeliveryState.DeadLettered &&
         assert_eq (WebhookDelivery.last_error row.1) (Some "max retries exceeded"))).

Definition insert_replay_creates_fresh_row_leaving_original : M Pg bool :=
  with_delivery "dead_lettered" (now - seconds 1) (Some now) (
    new_id <-! PostgresStorage.insert_replay (ReceiptId.mk receipt_id) "test-emitter" ;;
    original <-!! PostgresStorage.get_delivery (DeliveryId.mk delivery_id) ;;
    assert (assert_eq (WebhookDelivery.state original.1) DeliveryState.DeadLettered) ;;
    new_row <-!! PostgresStorage.get_delivery new_id ;;
    ret (assert_eq (WebhookDelivery.state new_row.1) DeliveryState.Pending &&
         assert_eq (WebhookDelivery.attempt_count new_row.1) 0 &&
         assert_ne (DeliveryId.uuid (WebhookDelivery.delivery_id new_row.1)) delivery_id)).

Definition reclaim_expired_promotes_stale_in_flight_to_failed : M Pg bool :=
  with_delivery "in_flight" (now - seconds 600) (Some (now - seconds 600)) (
    reclaimed <-! PostgresStorage.reclaim_expired "test-emitter" (Duration_from_secs 60) ;;
    assert (assert_eq reclaimed 1) ;;
    row <-!! PostgresStorage.get_delivery (DeliveryId.mk delivery_id) ;;
    ret (assert_eq (WebhookDelivery.state row.1) DeliveryState.Failed &&
         str_contains "[reclaimed: lease expired]" (unwrap_or (WebhookDelivery.last_error row.1) ""))).

Definition reclaim_expired_does_not_touch_active_in_flight : M Pg bool :=
  with_delivery "in_flight" (now - seconds 1) (Some now) (
    reclaimed <-! PostgresStorage.reclaim_expired "test-emitter" (Duration_from_secs 60) ;;
    assert (assert_eq reclaimed 0) ;;
    row <-!! PostgresStorage.get_delivery (DeliveryId.mk delivery_id) ;;
    ret (assert_eq (WebhookDelivery.state row.1) DeliveryState.InFlight)).

Definition count_dlq_and_pending_correctness : M Pg bool :=
  _ <-! seed_receipt receipt_id ;;
  _ <-! seed_deliveries (map ids (seq 1 2)) receipt_id "test-emitter" "dead_lettered" (now - seconds 1) (Some now) ;;
  _ <-! seed_deliveries (map ids (seq 3 3)) receipt_id "test-emitter" "pending" (now - seconds 1) None ;;
  _ <-! seed_delivery (ids 6%nat) receipt_id "test-emitter" "emitted" false (now - seconds 1) (Some now) ;;
  dlq_depth <-! PostgresStorage.count_dlq "test-emitter" ;;
  pending_count <-! PostgresStorage.count_pending "test-emitter" ;;
  ret (assert_eq dlq_depth 2 && assert_eq pending_count 3).

Definition all : list (M Pg bool) :=
  [claim_pending_returns_only_eligible_rows; two_concurrent_claims_see_disjoint_sets;
   claim_pending_skips_immutable_rows; mark_emitted_sets_terminal_state;
   mark_failed_increments_attempt_and_sets_next_attempt; mark_dead_lettered_sets_terminal_state;
   insert_replay_creates_fresh_row_leaving_original; reclaim_expired_promotes_stale_in_flight_to_failed;
   reclaim_expired_does_not_touch_active_in_flight; count_dlq_and_pending_correctness].
End tests.

(** Each on a database of its own. *)
Lemma delivery_storage_tests_pass :
  forallb (λ t : M Pg bool, (t (session empty_db 1700000000000000000 1000%N)).1)
    (all (λ n, N.of_nat (S n)) 1700000000000000000) = true.
Proof. vm_compute. reflexivity. Qed.
End DeliveryStorageTests.

(** ** storage_fault_injection.rs *)

Module FaultTests.
Section tests.
Context `{SerdeJson} `{PgTypes} `{UuidText}.
Variables (ids : nat → Uuid) (now : DateTime).

(** [assert_internal], and the rest of the test on the message. *)
Definition assert_internal {A} (m : M Pg (result A StorageError.t)) (k : string → M Pg bool) : M Pg bool :=
  r <- m ;; match r with Err (StorageError.Internal msg) => k msg | _ => ret false end.

Definition sample_receipt : WebhookReceipt.t :=
  {| WebhookReceipt.receipt_id := ReceiptId.mk (ids 0%nat);
     WebhookReceipt.provider_name := "fault-inject";
     WebhookReceipt.provider_event_id := None;
     WebhookReceipt.external_reference := Some "ext-1";
     WebhookReceipt.dedupe_key := "fault:" +:+ uuid_to_string (ids 1%nat);
     WebhookReceipt.payload_hash := "h";
     WebhookReceipt.raw_body := bytes! "{}";
     WebhookReceipt.parsed_payload := None;
     WebhookReceipt.raw_headers := VObject [];
     WebhookReceipt.normalized_event_type := None;
     WebhookReceipt.verification_status := VerificationStatus.Verified;
     WebhookReceipt.verification_reason := None;
     WebhookReceipt.processing_state := ProcessingState.Stored;
     WebhookReceipt.emit_count := 0;
     WebhookReceipt.last_error := None;
     WebhookReceipt.received_at := now;
     WebhookReceipt.processed_at := None;
     WebhookReceipt.metadata := VObject [] |}.

Definition reset_for_retry_missing_receipt_returns_internal : M Pg bool :=
  assert_internal (PostgresStorage.reset_for_retry (ids 0%nat)) (λ rendered,
    ret (str_contains "no receipt found" rendered)).

(** A closed pool refuses every round trip. *)
Definition close (w : Pg) : Pg :=
  mkPg (db w) (Database.rounds w) (clock_at w) (replicate 100 (Some (Before "attempted to acquire a connection on a closed pool"))).

(** Every entry point of [DeliveryStorage], on the storage or behind an [Arc], which delegates. *)
Definition deliveries_surface_internal (S : DeliveryStorage Pg StorageError.t) (names : list string) : M Pg bool :=
  let emitter := "fault-emitter" in
  let delivery_id := DeliveryId.mk (ids 2%nat) in
  let receipt_id := ReceiptId.mk (ids 3%nat) in
  assert_internal (claim_pending S emitter 10) (λ _,
  assert_internal (reclaim_expired S emitter (Duration_from_secs 30)) (λ _,
  assert_internal (mark_emitted S delivery_id) (λ _,
  assert_internal (mark_failed S delivery_id 1 now "boom") (λ _,
  assert_internal (mark_dead_lettered S delivery_id "boom") (λ _,
  assert_internal (count_dlq S emitter) (λ _,
  assert_internal (count_pending S emitter) (λ _,
  assert_internal (count_in_flight S emitter) (λ _,
  assert_internal (insert_replay S receipt_id emitter) (λ _,
  assert_internal (insert_replays S receipt_id names) (λ _,
  assert_internal (get_delivery S delivery_id) (λ _,
  assert_internal (get_deliveries_for_receipt S receipt_id) (λ _,
  assert_internal (list_dlq S (Some emitter) 10 0) (λ _, ret true))))))))))))).

Definition all_methods_surface_internal_after_pool_close : M Pg bool := λ w,
  (let receipt := sample_receipt in
   let id := ReceiptId.uuid (WebhookReceipt.receipt_id receipt) in
   assert_internal (PostgresStorage.store receipt) (λ _,
   assert_internal (PostgresStorage.store_with_deliveries receipt ["emitter-a"]) (λ _,
   assert_internal (PostgresStorage.get id) (λ _,
   assert_internal (PostgresStorage.update_state id ProcessingState.Emitted None) (λ _,
   assert_internal (PostgresStorage.query ReceiptFilter.default) (λ _,
   assert_internal (PostgresStorage.query_for_retry 5) (λ _,
   assert_internal (PostgresStorage.retry_failed id 5) (λ _,
   assert_internal (PostgresStorage.reset_for_retry id) (λ _,
   assert_internal (PostgresStorage.query_by_external_reference "ext-1" None) (λ _,
   assert_internal (PostgresStorage.query_failed_since (Some "fault-inject") now (Some 10)) (λ _,
   ok <- deliveries_surface_internal PostgresStorage.delivery_storage ["a"; "b"] ;;
   assert ok ;;
   assert_internal (PostgresStorage.list_dlq None 10 0) (λ _,
   deliveries_surface_internal PostgresStorage.delivery_storage ["a"]))))))))))))
  (close w).
End tests.

Lemma fault_tests_pass :
  forallb (λ t : M Pg bool, (t (session empty_db 1700000000000000000 1000%N)).1)
    [reset_for_retry_missing_receipt_returns_internal (λ n, N.of_nat (S n));
     all_methods_surface_internal_after_pool_close (λ n, N.of_nat (S n)) 1700000000000000000] = true.
Proof. vm_compute. reflexivity. Qed.
End FaultTests.

(** ** ingest_test.rs *)

Module IngestTests.
Section tests.
Context `{SerdeJson} `{PgTypes} `{UuidText} `{Codecs} `{Crypto}.
Variables (ids : nat → Uuid) (verify_now : Z) (now : DateTime) (pool : Pg).

Notation W := (World (Pg * InMemoryRecentDedupe.Inner)).

(** The pipeline of a test and its storage, on one pool. *)
Definition with_pipeline (names : list string)
    (body : HookboxPipeline.t (Pg * InMemoryRecentDedupe.Inner) → M W bool) : bool :=
  PipelineTests.with_pipeline PostgresStorage.storage pool 100%nat names None body.
Definition on_pool {A} (m : M Pg A) : M W A := call (on_fst m).

Definition ingest (pipeline : HookboxPipeline.t (Pg * InMemoryRecentDedupe.Inner)) (n : nat) (provider body : string) :
    M W (result IngestResult.t IngestError.t) :=
  PipelineTests.ingest ids verify_now now pipeline n provider body.

Definition ingest_stores_and_deduplicates : bool :=
  with_pipeline [] (λ pipeline,
    let body := dq "{'event':'payment.completed','id':'pay_123'}" in
    result <- ingest pipeline 0 "test" body ;;
    result2 <- ingest pipeline 1 "test" body ;;
    ret (PipelineTests.accepted result && PipelineTests.duplicate result2)).

Definition has_receipt (id : ReceiptId.t) (rs : list WebhookReceipt.t) : bool :=
  existsb (λ r, bool_decide (WebhookReceipt.receipt_id r = id)) rs.

(** [let IngestResult::Accepted { receipt_id } = result else { panic!(...) }] *)
Definition expect_accepted (r : result IngestResult.t IngestError.t) (k : ReceiptId.t → M W bool) : M W bool :=
  match r with Ok (IngestResult.Accepted receipt_id) => k receipt_id | _ => ret false end.

Definition query_failed_since_returns_failed_receipts : bool :=
  with_pipeline [] (λ pipeline,
    result <- ingest pipeline 0 "stripe"
                (dq "{'event':'payment.failed','id':'" +:+ uuid_to_string (ids 1%nat) +:+ dq "'}") ;;
    expect_accepted result (λ receipt_id,
    _ <-! on_pool (PostgresStorage.update_state (ReceiptId.uuid receipt_id) ProcessingState.EmitFailed (Some "test error")) ;;
    let since := now - seconds 3600 in
    failed <-! on_pool (PostgresStorage.query_failed_since None since None) ;;
    failed_stripe <-! on_pool (PostgresStorage.query_failed_since (Some "stripe") since None) ;;
    failed_other <-! on_pool (PostgresStorage.query_failed_since (Some "github") since None) ;;
    ret (has_receipt receipt_id failed && has_receipt receipt_id failed_stripe &&
         negb (has_receipt receipt_id failed_other)))).

Definition query_with_provider_event_id_filter : bool :=
  with_pipeline [] (λ pipeline,
    result <- ingest pipeline 0 "stripe" (dq "{'event':'order','id':'" +:+ uuid_to_string (ids 1%nat) +:+ dq "'}") ;;
    assert (PipelineTests.accepted result) ;;
    let d := ReceiptFilter.default in
    results <-! on_pool (PostgresStorage.query
      (ReceiptFilter.mk (ReceiptFilter.provider_name d) (ReceiptFilter.processing_state d)
         (ReceiptFilter.external_reference d) (Some "nonexistent-event-id") (ReceiptFilter.limit d)
         (ReceiptFilter.offset d))) ;;
    ret (assert_eq (List.length results) 0%nat)).

Definition retry_failed_on_nonexistent_id_logs_warn_and_succeeds : bool :=
  res_is_ok (PostgresStorage.retry_failed (ids 0%nat) 5 pool).1.

Definition update_state_on_nonexistent_id_logs_warn_and_succeeds : bool :=
  res_is_ok (PostgresStorage.update_state (ids 0%nat) ProcessingState.Emitted None pool).1.
End tests.

Lemma ingest_tests_pass :
  let ids n := N.of_nat (S n) in
  let now := 1700000000000000000 in
  let pool := session empty_db now 1000%N in
  ingest_stores_and_deduplicates (H3 := fips_crypto) ids 1700000000 now pool &&
  query_failed_since_returns_failed_receipts (H3 := fips_crypto) ids 1700000000 now pool &&
  query_with_provider_event_id_filter (H3 := fips_crypto) ids 1700000000 now pool &&
  retry_failed_on_nonexistent_id_logs_warn_and_succeeds ids pool &&
  update_state_on_nonexistent_id_logs_warn_and_succeeds ids pool = true.
Proof. vm_compute. reflexivity. Qed.
End IngestTests.

(** ** migration_0002.rs *)

Module MigrationTests.
Section tests.
Context `{SerdeJson} `{PgTypes} `{UuidText}.
(** The identifiers of a test, those of the server, and the clock. *)
Variables (ids draw : nat → Uuid) (now : DateTime).

(** A test on the tables of a database; a statement that fails fails the test. *)
Definition run_sql (script : list Ddl) (s : SqlDb) (k : SqlDb → bool) : bool :=
  unwrap (run_script now draw script s) k.

(** The tables are dropped, so the database is empty. *)
Definition setup_pre_migration (k : SqlDb → bool) : bool := run_sql create_webhook_receipts empty_sql k.
Definition apply_migration_0002 (s : SqlDb) (k : SqlDb → bool) : bool := run_sql create_webhook_deliveries s k.

Definition seed_insert : Insert :=
  mkInsert "webhook_receipts"
    ["receipt_id"; "provider_name"; "dedupe_key"; "payload_hash"; "raw_body"; "raw_headers";
     "verification_status"; "processing_state"; "received_at"]
    [Param 1; Lit (CText "test-provider"); Param 2; Lit (CText "deadbeef"); Param 3; Lit (CJsonb (VObject []));
     Lit (CText "verified"); Param 4; Now] None.

(** [seed_receipt]: the [n]th of a test. *)
Definition seed_receipt (n : nat) (state : string) (s : SqlDb) (k : Uuid → SqlDb → bool) : bool :=
  let id := ids (2 * n)%nat in
  let dedupe_key := uuid_to_string (ids (2 * n + 1)%nat) in
  let env := mkEnv (mkClock now 0%N (λ _, false)) [CUuid id; CText dedupe_key; CBytea []; CText state] [] in
  unwrap (insert_row env seed_insert s) (λ r, k id r.2).

(** [SELECT ... FROM webhook_deliveries WHERE column = value] *)
Definition deliveries_where (column : string) (value : Cell) (s : SqlDb) : list PgRow :=
  match relation "webhook_deliveries" s with
  | Some rel => List.filter (λ r, cell_eq (cell_at column r) value) (rows rel)
  | None => []
  end.
Definition count_for (id : Uuid) (s : SqlDb) : nat := List.length (deliveries_where "receipt_id" (CUuid id) s).
Definition column_is (column : string) (value : Cell) (r : PgRow) : bool := cell_eq (cell_at column r) value.

Definition migration_backfills_one_row_per_receipt : bool :=
  setup_pre_migration (λ s,
  seed_receipt 0 "emitted" s (λ emitted_id s,
  seed_receipt 1 "emit_failed" s (λ failed_id s,
  seed_receipt 2 "stored" s (λ stored_id s,
  seed_receipt 3 "dead_lettered" s (λ dead_id s,
  apply_migration_0002 s (λ s,
    assert_eq (count_for emitted_id s) 1%nat && assert_eq (count_for failed_id s) 1%nat &&
    assert_eq (count_for stored_id s) 1%nat && assert_eq (count_for dead_id s) 1%nat)))))).

Definition migration_backfill_rows_are_immutable : bool :=
  setup_pre_migration (λ s, seed_receipt 0 "emitted" s (λ _ s, apply_migration_0002 s (λ s,
    let rows := deliveries_where "emitter_name" (CText "legacy") s in
    assert_ne (List.length rows) 0%nat && forallb (column_is "immutable" (CBool true)) rows))).

Definition migration_stored_receipt_maps_to_failed_immutable : bool :=
  setup_pre_migration (λ s, seed_receipt 0 "stored" s (λ id s, apply_migration_0002 s (λ s,
    expect (head (deliveries_where "receipt_id" (CUuid id) s)) (λ row,
      column_is "state" (CText "failed") row && column_is "immutable" (CBool true) row)))).

Definition migration_dead_lettered_maps_correctly : bool :=
  setup_pre_migration (λ s, seed_receipt 0 "dead_lettered" s (λ id s, apply_migration_0002 s (λ s,
    expect (head (deliveries_where "receipt_id" (CUuid id) s)) (column_is "state" (CText "dead_lettered"))))).

(** The cases, with the identifiers of their receipts. *)
Definition cases : list (Uuid * string * string * ProcessingState.t * ProcessingState.t) :=
  [(ids 0%nat, "stored", "emitted", ProcessingState.Stored, ProcessingState.Stored);
   (ids 1%nat, "emit_failed", "failed", ProcessingState.EmitFailed, ProcessingState.EmitFailed);
   (ids 2%nat, "dead_lettered", "dead_lettered", ProcessingState.DeadLettered, ProcessingState.DeadLettered)].

Definition seed_case (case : Uuid * string * string * ProcessingState.t * ProcessingState.t) :
    M Pg (result unit StorageError.t) :=
  let '(receipt_id, stored_state, delivery_state, _, _) := case in
  _ <-? execute (insert_receipt_row (λ c,
    ReceiptRow.set_state stored_state 0 None (seed_receipt_row c receipt_id))) ;;
  execute (insert_delivery_row (λ c,
    {| DeliveryRow.delivery_id := gen_random_uuid c;
       DeliveryRow.receipt_id := receipt_id;
       DeliveryRow.emitter_name := "legacy";
       DeliveryRow.state := delivery_state;
       DeliveryRow.attempt_count := 0;
       DeliveryRow.last_error := None;
       DeliveryRow.last_attempt_at := Some (Database.now c);
       DeliveryRow.next_attempt_at := Database.now c;
       DeliveryRow.emitted_at := None;
       DeliveryRow.immutable := true;
       DeliveryRow.created_at := Database.now c |})).

Fixpoint check_cases (cs : list (Uuid * string * string * ProcessingState.t * ProcessingState.t)) : M Pg bool :=
  match cs with
  | [] => ret true
  | (receipt_id, _, _, fallback, expected) :: cs =>
      deliveries <-! PostgresStorage.get_deliveries_for_receipt (ReceiptId.mk receipt_id) ;;
      assert (forallb WebhookDelivery.immutable deliveries) ;;
      assert (assert_eq (receipt_aggregate_state deliveries fallback) expected) ;;
      check_cases cs
  end.

Definition test_migration_all_immutable_fallback_to_processing_state : M Pg bool :=
  _ <-! for_try seed_case cases ;;
  check_cases cases.
End tests.

Lemma migration_tests_pass :
  let ids n := N.of_nat (S n) in
  let draw n := N.of_nat (100 + n) in
  let now := 1700000000000000000 in
  migration_backfills_one_row_per_receipt ids draw now && migration_backfill_rows_are_immutable ids draw now &&
  migration_stored_receipt_maps_to_failed_immutable ids draw now && migration_dead_lettered_maps_correctly ids draw now &&
  (test_migration_all_immutable_fallback_to_processing_state ids (session empty_db now 1000%N)).1 = true.
Proof. vm_compute. reflexivity. Qed.
End MigrationTests.
