(* ===== verification/FanoutTests.v ===== *)
(** * The integration tests of the workers

    [integration-tests/tests/fanout.rs] and [worker_test.rs]: the dispatch worker and the legacy
    retry worker over [PostgresStorage] and a live database, here over the tables of [Database].
    A worker has a world of its own around the pool; what it sends through its channel is the
    second half of its backend. *)

From S2P Require Import Prelude Futures RustStd F64 Types Traits Transitions Dedupe Database Postgres Metrics Pipeline Worker Json Emitters Instances Sha256 Samples TestKit PipelineTests StorageTests.
Local Open Scope Z_scope.
Local Open Scope rust_scope.
Local Open Scope test_scope.

(** ** fanout.rs *)

Module DeliveryWorkerTests.
Section tests.
Context `{SerdeJson} `{PgTypes} `{UuidText} `{Codecs} `{Crypto}.
(** The identifiers of a test, its clock and that of its workers, and the random numbers. *)
Variables (powi : f64 → Z → f64) (ids : nat → Uuid) (verify_now : Z) (now : DateTime) (wall_clock : nat → DateTime)
  (draws : nat → f64).

(** The pool, and the events a channel has received. *)
Notation Backend := (Pg * list NormalizedEvent.t)%type.

(** [ChannelEmitter] of the test, whose receiver lives to the end of it. *)
Definition ChannelEmitter : Emitter Backend := mkEmitter _ (λ event w, (Ok tt, (w.1, w.2 ++ [event]))).
Definition AlwaysFailEmitter : Emitter Backend := mkEmitter _ (λ _, ret (Err (EmitError.Downstream "injected failure"))).

Definition make_worker (emitter : Emitter Backend) (name : string) (policy : RetryPolicy.t) (concurrency : Z) :
    EmitterWorker.t Backend StorageError.t :=
  {| EmitterWorker.name := name;
     EmitterWorker.emitter := emitter;
     EmitterWorker.storage := pool_deliveries;
     EmitterWorker.policy := policy;
     EmitterWorker.concurrency := concurrency;
     EmitterWorker.poll_interval := Duration_from_millis 50;
     EmitterWorker.lease_duration := Duration_from_secs 60 |}.

(** A worker at work: a fresh world around the pool, and the events of its channel. *)
Definition with_worker {A} (m : M (WorkerWorld Backend) A) (k : A → list NormalizedEvent.t → M Pg bool) : M Pg bool :=
  λ p, let '(a, w) := m (mkWorld (p, []) EmitterHealth.default [] wall_clock 0 draws 0) in
       k a (backend w).2 (backend w).1.

(** [drive_to_terminal]; the error is a panic of the test. *)
Fixpoint drive_to_terminal (worker : EmitterWorker.t Backend StorageError.t) (max_cycles : nat) :
    M (WorkerWorld Backend) (result unit Panic) :=
  match max_cycles with
  | O => ret (Ok tt)
  | S max_cycles =>
      _ <- on_backend (reclaim_expired (EmitterWorker.storage worker) (EmitterWorker.name worker)
                         (EmitterWorker.lease_duration worker)) ;;
      rows <- on_backend (claim_pending (EmitterWorker.storage worker) (EmitterWorker.name worker)
                            (EmitterWorker.concurrency worker)) ;;
      match rows with
      | Err _ => ret (Err panic)
      | Ok [] => ret (Ok tt)
      | Ok rows =>
          _ <-? join_all [] (map (EmitterWorker.dispatch_one powi worker) rows) ;;
          drive_to_terminal worker max_cycles
      end
  end.

(** The worker is driven, and the test goes on with the events it emitted. *)
Definition drive (emitter : Emitter Backend) (name : string) (policy : RetryPolicy.t) (concurrency : Z)
    (max_cycles : nat) (k : list NormalizedEvent.t → M Pg bool) : M Pg bool :=
  with_worker (drive_to_terminal (make_worker emitter name policy concurrency) max_cycles) (λ r events,
    match r with Ok _ => k events | Err _ => ret false end).

(** A webhook through a pipeline of its own around the pool, whose receipt the test goes on with. *)
Definition ingest_through (capacity : nat) (emitter_names : list string) (provider body : string)
    (k : ReceiptId.t → M Pg bool) : M Pg bool := λ p,
  match InMemoryRecentDedupe.new capacity with
  | None => (false, p)
  | Some cache =>
      let builder :=
        HookboxPipelineBuilder.with_emitter_names emitter_names
          (HookboxPipelineBuilder.with_dedupe
             (InMemoryRecentDedupe.strategy (InMemoryRecentDedupe.capacity cache) snd (λ i w, (w.1, i)))
             (HookboxPipelineBuilder.with_storage (PipelineTests.paired PostgresStorage.storage)
                HookboxPipelineBuilder.builder)) in
      match HookboxPipelineBuilder.build builder with
      | None => (false, p)
      | Some pipeline =>
          let '(result, w) :=
            PipelineTests.ingest ids verify_now now pipeline 0 provider body ((p, InMemoryRecentDedupe.inner cache), []) in
          match result with
          | Ok (IngestResult.Accepted receipt_id) => k receipt_id w.1.1
          | _ => (false, p)
          end
      end
  end.

(** [ingest_one] *)
Definition ingest_one (emitter_names : list string) (k : ReceiptId.t → M Pg bool) : M Pg bool :=
  ingest_through 100 emitter_names "test"
    (dq "{'event':'payment.completed','id':'" +:+ uuid_to_string (ids 1%nat) +:+ dq "'}") k.

Definition rows_of (name : string) (ds : list WebhookDelivery.t) : list WebhookDelivery.t :=
  List.filter (λ d, bool_decide (WebhookDelivery.emitter_name d = name)) ds.
(** [find(...).expect(...)], and its state. *)
Definition row_is (name : string) (state : DeliveryState.t) (ds : list WebhookDelivery.t) : bool :=
  expect (head (rows_of name ds)) (λ d, assert_eq (WebhookDelivery.state d) state).
Definition some_row_is (state : DeliveryState.t) (ds : list WebhookDelivery.t) : bool :=
  existsb (λ d, bool_decide (WebhookDelivery.state d = state)) ds.
Definition aggregate_is (state : ProcessingState.t) (ds : list WebhookDelivery.t) : bool :=
  assert_eq (receipt_aggregate_state ds ProcessingState.Stored) state.
(** One event, of the receipt. *)
Definition received_one (receipt_id : ReceiptId.t) (events : list NormalizedEvent.t) : bool :=
  assert_eq (map NormalizedEvent.receipt_id events) [receipt_id].

(** The policy without backoff. *)
Definition fail_policy : RetryPolicy.t :=
  RetryPolicy.mk 2 0 0 (RetryPolicy.backoff_multiplier RetryPolicy.default) 0%float.

Definition deliveries_for (receipt_id : ReceiptId.t) : M Pg (result (list WebhookDelivery.t) StorageError.t) :=
  PostgresStorage.get_deliveries_for_receipt receipt_id.

Definition test_fan_out_two_emitters : M Pg bool :=
  ingest_one ["chan-a"; "chan-b"] (λ receipt_id,
    deliveries <-! deliveries_for receipt_id ;;
    assert (assert_eq (List.length deliveries) 2%nat) ;;
    assert (bool_decide ("chan-a" ∈ map WebhookDelivery.emitter_name deliveries)) ;;
    assert (bool_decide ("chan-b" ∈ map WebhookDelivery.emitter_name deliveries)) ;;
    drive ChannelEmitter "chan-a" RetryPolicy.default 1 10 (λ rx_a,
    drive ChannelEmitter "chan-b" RetryPolicy.default 1 10 (λ rx_b,
    ret (received_one receipt_id rx_a && received_one receipt_id rx_b)))).

(** The emitter that works and the one that does not, driven to their ends. *)
Definition scenario_2 (ok fail : string) (k : ReceiptId.t → M Pg bool) : M Pg bool :=
  ingest_one [ok; fail] (λ receipt_id,
    drive ChannelEmitter ok RetryPolicy.default 1 10 (λ _,
    drive AlwaysFailEmitter fail fail_policy 1 20 (λ _, k receipt_id))).

Definition test_one_emitter_fails_other_succeeds : M Pg bool :=
  scenario_2 "chan-ok" "always-fail" (λ receipt_id,
    deliveries <-! deliveries_for receipt_id ;;
    ret (assert_eq (List.length deliveries) 2%nat && row_is "chan-ok" DeliveryState.Emitted deliveries &&
         row_is "always-fail" DeliveryState.DeadLettered deliveries &&
         aggregate_is ProcessingState.DeadLettered deliveries)).

Definition test_replay_one_emitter_only : M Pg bool :=
  scenario_2 "chan-ok" "always-fail" (λ receipt_id,
    _ <-! PostgresStorage.insert_replay receipt_id "chan-ok" ;;
    deliveries <-! deliveries_for receipt_id ;;
    let ok_rows := rows_of "chan-ok" deliveries in
    let fail_rows := rows_of "always-fail" deliveries in
    ret (assert_eq (List.length ok_rows) 2%nat && some_row_is DeliveryState.Emitted ok_rows &&
         some_row_is DeliveryState.Pending ok_rows && assert_eq (List.length fail_rows) 1%nat &&
         row_is "always-fail" DeliveryState.DeadLettered deliveries)).

Definition test_concurrent_dispatch_no_double_emit : M Pg bool :=
  let receipt_id := ids 0%nat in
  _ <-! seed_receipt receipt_id ;;
  _ <-! seed_deliveries (map ids (seq 1 100)) receipt_id "bulk-emitter" "pending" (now - seconds 1) None ;;
  drive ChannelEmitter "bulk-emitter" RetryPolicy.default 4 50 (λ events,
    in_flight <-! PostgresStorage.count_in_flight "bulk-emitter" ;;
    ret (assert_eq (List.length events) 100%nat && assert_eq in_flight 0)).

Definition test_replay_history_does_not_poison_state : M Pg bool :=
  scenario_2 "ok" "broken" (λ receipt_id,
    deliveries_before <-! deliveries_for receipt_id ;;
    assert (aggregate_is ProcessingState.DeadLettered deliveries_before) ;;
    _ <-! PostgresStorage.insert_replay receipt_id "broken" ;;
    drive ChannelEmitter "broken" RetryPolicy.default 1 10 (λ _,
    deliveries_after <-! deliveries_for receipt_id ;;
    let broken_rows := rows_of "broken" deliveries_after in
    ret (assert_eq (List.length broken_rows) 2%nat && some_row_is DeliveryState.Emitted broken_rows &&
         aggregate_is ProcessingState.Emitted deliveries_after))).

Definition test_aggregate_state_pending_in_flight_collapse_to_stored : M Pg bool :=
  ingest_one ["slow"] (λ receipt_id,
    deliveries <-! deliveries_for receipt_id ;;
    assert (assert_eq (map WebhookDelivery.state deliveries) [DeliveryState.Pending]) ;;
    assert (aggregate_is ProcessingState.Stored deliveries) ;;
    claimed <-! PostgresStorage.claim_pending "slow" 1 ;;
    match claimed with
    | [(in_flight_delivery, _)] =>
        assert (assert_eq (WebhookDelivery.state in_flight_delivery) DeliveryState.InFlight) ;;
        deliveries_in_flight <-! deliveries_for receipt_id ;;
        assert (aggregate_is ProcessingState.Stored deliveries_in_flight) ;;
        _ <-! PostgresStorage.mark_emitted (WebhookDelivery.delivery_id in_flight_delivery) ;;
        deliveries_emitted <-! deliveries_for receipt_id ;;
        ret (aggregate_is ProcessingState.Emitted deliveries_emitted)
    | _ => ret false
    end).

(** The task of [spawn] on a schedule of wake-ups: it ended, and the test goes on. *)
Definition spawned (emitter : Emitter Backend) (name : string) (schedule : list (EmitterWorker.Wake * list nat * bool))
    (k : list NormalizedEvent.t → EmitterHealth.t → M Pg bool) : M Pg bool := λ p,
  let '(r, w) := EmitterWorker.run powi (make_worker emitter name RetryPolicy.default 1) schedule
                   (mkWorld (p, []) EmitterHealth.default [] wall_clock 0 draws 0) in
  match r with Ok true => k (backend w).2 (health w) (backend w).1 | _ => (false, p) end.

(** The timer fires; the flag is set before the end of the batch, or at the next wake-up. *)
Definition spawn_polls_and_shuts_down_gracefully (before_end_of_batch : bool) : M Pg bool :=
  ingest_one ["spawn-test"] (λ receipt_id,
    spawned ChannelEmitter "spawn-test"
      [(EmitterWorker.Timer, [], before_end_of_batch); (EmitterWorker.Changed true, [], true)] (λ events _,
    assert (received_one receipt_id events) ;;
    deliveries <-! deliveries_for receipt_id ;;
    ret (assert_eq (map WebhookDelivery.state deliveries) [DeliveryState.Emitted]))).

(** The sender is dropped before or after polls of the empty table. *)
Definition spawn_exits_when_watch_sender_dropped (polls : nat) : M Pg bool :=
  spawned AlwaysFailEmitter "no-work"
    (replicate polls (EmitterWorker.Timer, [], false) ++ [(EmitterWorker.SenderDropped, [], false)]) (λ _ _, ret true).

(** The health is stored again, with the gauges of an empty table. *)
Definition spawn_handles_empty_claim_and_shuts_down : M Pg bool :=
  spawned AlwaysFailEmitter "empty" [(EmitterWorker.Timer, [], false); (EmitterWorker.Changed true, [], true)]
    (λ _ health, ret (assert_eq (EmitterHealth.pending_count health) 0)).

Definition all : list (M Pg bool) :=
  [test_fan_out_two_emitters; test_one_emitter_fails_other_succeeds; test_replay_one_emitter_only;
   test_concurrent_dispatch_no_double_emit; test_replay_history_does_not_poison_state;
   test_aggregate_state_pending_in_flight_collapse_to_stored;
   spawn_polls_and_shuts_down_gracefully true; spawn_polls_and_shuts_down_gracefully false;
   spawn_exits_when_watch_sender_dropped 0; spawn_exits_when_watch_sender_dropped 2;
   spawn_handles_empty_claim_and_shuts_down].
End tests.

(** A fresh database, whose clock goes on from one round trip to the next. *)
Definition ticking (start : DateTime) : Pg :=
  mkPg empty_db 0 (λ n, mkClock (start + 1000 * Z.of_nat n) (1000 + N.of_nat n)%N (λ _, false)) [].

Lemma fanout_tests_pass :
  forallb (λ t : M Pg bool, (t (ticking 1700000000000000000)).1)
    (all (H3 := fips_crypto) powi_iter (λ n, N.of_nat (S n)) 1700000000 1700000000000000000
       (λ _, 1700000000000000000) (λ _, 0.5%float)) = true.
Proof. vm_compute. reflexivity. Qed.
End DeliveryWorkerTests.

(** ** worker_test.rs *)

Module RetryWorkerTests.
(** A channel of the test, told by whether its receiver is there; one that is there is drained
    by a task, so there is room for every event. *)
Definition test_channel : Mpsc Pg :=
  {| mpsc_sender := bool; mpsc_receiver := unit; mpsc_channel := λ _, ret (true, tt);
     mpsc_send := λ receiver_left _, ret (if receiver_left : bool then Ok tt else Err "channel closed");
     mpsc_recv := λ _, ret None |}.

Section tests.
Context `{SerdeJson} `{PgTypes} `{UuidText} `{Codecs} `{Crypto}.
Variables (ids : nat → Uuid) (verify_now : Z) (now : DateTime).

Definition channel_emitter (receiver_left : bool) : Emitter Pg :=
  mkEmitter Pg (ChannelEmitter.emit (H := test_channel) (ChannelEmitter.mk (H := test_channel) receiver_left)).

(** A receipt that was ingested, then forced to [EmitFailed]. *)
Definition with_failed_receipt (k : Uuid → M Pg bool) : M Pg bool :=
  DeliveryWorkerTests.ingest_one ids verify_now now [] (λ receipt_id,
    let id := ReceiptId.uuid receipt_id in
    _ <-! PostgresStorage.update_state id ProcessingState.EmitFailed (Some "forced for test") ;;
    k id).

(** [worker.spawn()] until the test aborts it: some iterations of its loop. *)
Definition spawn (emitter : Emitter Pg) (iterations : nat) (k : M Pg bool) : M Pg bool :=
  RetryWorker.run (RetryWorker.mk emitter (Duration_from_millis 100) 5) iterations ;;; k.

Definition worker_retries_emit_failed_receipt (iterations : nat) : M Pg bool :=
  with_failed_receipt (λ id,
    receipt <-!! PostgresStorage.get id ;;
    assert (assert_eq (WebhookReceipt.processing_state receipt) ProcessingState.EmitFailed) ;;
    spawn (channel_emitter true) iterations (
    receipt <-!! PostgresStorage.get id ;;
    ret (assert_eq (WebhookReceipt.processing_state receipt) ProcessingState.Emitted))).

Definition worker_promotes_to_dlq_after_max_attempts (iterations : nat) : M Pg bool :=
  with_failed_receipt (λ id,
    _ <-! for_try (λ _, PostgresStorage.retry_failed id 5) (seq 0 4) ;;
    receipt <-!! PostgresStorage.get id ;;
    assert (assert_eq (WebhookReceipt.emit_count receipt) 4) ;;
    assert (assert_eq (WebhookReceipt.processing_state receipt) ProcessingState.EmitFailed) ;;
    spawn (channel_emitter false) iterations (
    receipt <-!! PostgresStorage.get id ;;
    ret (assert_eq (WebhookReceipt.processing_state receipt) ProcessingState.DeadLettered &&
         assert_eq (WebhookReceipt.emit_count receipt) 5))).
End tests.

(** However many iterations the worker gets before it is aborted, from the first on. *)
Lemma retry_worker_tests_pass :
  forallb (λ n,
    let ids i := N.of_nat (S i) in
    let pool := DeliveryWorkerTests.ticking 1700000000000000000 in
    (worker_retries_emit_failed_receipt (H3 := fips_crypto) ids 1700000000 1700000000000000000 (S n) pool).1 &&
    (worker_promotes_to_dlq_after_max_attempts (H3 := fips_crypto) ids 1700000000 1700000000000000000 (S n) pool).1)
    (seq 0 50) = true.
Proof. vm_compute. reflexivity. Qed.
End RetryWorkerTests.
