(* ===== verification/ApiTests.v ===== *)
(** * The integration tests of the HTTP interface

    [integration-tests/tests/admin_api_test.rs] and [http_test.rs]: requests to the router over
    [PostgresStorage] and a live database, here over the tables of [Database].  A path segment
    with an identifier is what the extractor reads of it, and a query is given by its parameters. *)

From S2P Require Import Prelude RustStd F64 Types Traits Transitions Dedupe Database Postgres Metrics Pipeline Node Worker Json Emitters Serde Health Admin AdminProps Instances Sha256 Samples TestKit PipelineTests RouteTests StorageTests.
Local Open Scope Z_scope.
Local Open Scope rust_scope.
Local Open Scope test_scope.
Import RouteTests.

(** ** admin_api_test.rs *)

Module AdminApiTests.
Section tests.
Context `{SerdeJson} `{PgTypes} `{UuidText} `{Codecs} `{Crypto} `{ChronoText}.
Variables (ids : nat → Uuid) (now : DateTime).

Notation Backend := (Pg * InMemoryRecentDedupe.Inner)%type.
Notation App := (Request → M (World Backend) Response).

(** The router on the pool, and the rest of the test with it. *)
Definition with_router (emitter_names : list string) (admin_token : option string)
    (emitter_health : gmap string EmitterHealth.t) (body : App → M (World Backend) bool) : M Pg bool := λ pool,
  (PipelineTests.with_pipeline PostgresStorage.storage pool 100%nat emitter_names None (λ pipeline,
     body (build_router (AppState.mk pipeline true admin_token None emitter_health) pool_deliveries
             StorageError.to_string)), pool).

Definition build_test_router (body : App → M (World Backend) bool) : M Pg bool := with_router [] None ∅ body.
Definition build_test_router_with_token (token : string) (body : App → M (World Backend) bool) : M Pg bool :=
  with_router ["a"] (Some token) ∅ body.

Definition receipt_id : Uuid := ids 0%nat.
Definition delivery_id : Uuid := ids 1%nat.

(** [seed_receipt] and one [seed_delivery]. *)
Definition with_delivery (emitter state : string) (immutable : bool) (last_attempt_at : option DateTime)
    (k : M Pg bool) : M Pg bool :=
  _ <-! seed_receipt receipt_id ;;
  _ <-! seed_delivery delivery_id receipt_id emitter state immutable now last_attempt_at ;;
  k.

(** One request, and the assertions on its answer. *)
Definition oneshot (app : App) (request : Request) (k : Response → bool) : M (World Backend) bool :=
  response <- app request ;; ret (k response).

Definition id_is (v : Value) (id : Uuid) : bool := str_is v (uuid_to_string id).
Definition error_contains (text : string) (json : Value) : bool :=
  expect (as_str (index "error" json)) (str_contains text).

Definition get_receipts_includes_deliveries_summary : M Pg bool :=
  _ <-! seed_receipt receipt_id ;;
  _ <-! seed_delivery (ids 1%nat) receipt_id "a" "emitted" false now (Some now) ;;
  _ <-! seed_delivery (ids 2%nat) receipt_id "b" "failed" false now (Some now) ;;
  build_test_router (λ app, oneshot app (get_receipts no_headers) (λ response,
    status_is response StatusCode.OK &&
    with_json response (λ body, expect (as_array body) (λ items,
      expect (head (List.filter (λ v, id_is (index "receipt_id" v) receipt_id) items)) (λ item,
        str_is (index "a" (index "deliveries_summary" item)) "emitted" &&
        str_is (index "b" (index "deliveries_summary" item)) "failed"))))).

Definition get_receipt_by_id_includes_embedded_deliveries_array : M Pg bool :=
  _ <-! seed_receipt receipt_id ;;
  _ <-! seed_delivery (ids 1%nat) receipt_id "a" "emitted" false now (Some now) ;;
  _ <-! seed_delivery (ids 2%nat) receipt_id "b" "pending" false now None ;;
  build_test_router (λ app, oneshot app (GetReceipt no_headers receipt_id) (λ response,
    status_is response StatusCode.OK &&
    with_json response (λ body, expect (as_array (index "deliveries" body)) (λ deliveries,
      assert_eq (List.length deliveries) 2%nat &&
      forallb (λ d, is_string (index "emitter_name" d)) deliveries &&
      existsb (λ d, str_is (index "emitter_name" d) "a") deliveries &&
      existsb (λ d, str_is (index "emitter_name" d) "b") deliveries)))).

Definition get_receipt_processing_state_is_derived_from_deliveries : M Pg bool :=
  with_delivery "a" "dead_lettered" false (Some now) (
    build_test_router (λ app, oneshot app (GetReceipt no_headers receipt_id) (λ response,
      status_is response StatusCode.OK &&
      with_json response (λ body, str_is (index "processing_state" body) "dead_lettered")))).

Definition get_delivery_returns_delivery_plus_receipt : M Pg bool :=
  with_delivery "test-emitter" "pending" false None (
    build_test_router (λ app, oneshot app (GetDelivery no_headers delivery_id) (λ response,
      status_is response StatusCode.OK &&
      with_json response (λ body,
        id_is (index "delivery_id" (index "delivery" body)) delivery_id &&
        id_is (index "receipt_id" (index "receipt" body)) receipt_id)))).

Definition get_delivery_unknown_id_returns_404 : M Pg bool :=
  build_test_router (λ app, oneshot app (GetDelivery no_headers (ids 0%nat)) (λ response,
    status_is response StatusCode.NOT_FOUND && with_json response (error_contains "not found"))).

(** [SELECT COUNT( * ) ... WHERE delivery_id = $1 AND state = 'pending'], read as an identifier. *)
Definition one_pending_row (text : Value) : M (World Backend) bool :=
  match as_str text ≫= uuid_from_str with
  | None => ret false
  | Some new_id =>
      count <-! call (on_fst (execute (count_where (λ _ d,
        has_delivery_id new_id d && bool_decide (DeliveryRow.state d = "pending"))))) ;;
      ret (assert_eq count 1)
  end.

Definition with_json_m (response : Response) (k : Value → M (World Backend) bool) : M (World Backend) bool :=
  match body_json response with Some json => k json | None => ret false end.

Definition post_delivery_replay_creates_new_pending_row : M Pg bool :=
  with_delivery "test-emitter" "dead_lettered" true (Some now) (
    with_router ["test-emitter"] None ∅ (λ app,
      response <- app (PostDeliveryReplay no_headers delivery_id) ;;
      assert (status_is response StatusCode.ACCEPTED) ;;
      with_json_m response (λ body, one_pending_row (index "delivery_id" body)))).

Definition post_delivery_replay_rejects_legacy_emitter_name : M Pg bool :=
  with_delivery "legacy-emitter" "dead_lettered" true (Some now) (
    build_test_router (λ app, oneshot app (PostDeliveryReplay no_headers delivery_id) (λ response,
      status_is response StatusCode.BAD_REQUEST &&
      with_json response (λ body, error_contains "not currently configured" body && is_string (index "hint" body))))).

Definition get_emitters_returns_all_configured_emitters_with_health : M Pg bool :=
  let h := EmitterHealth.mk None None 0 HealthStatus.Healthy 0 0 in
  with_router ["alpha"; "beta"] None {["alpha" := h; "beta" := h]} (λ app,
    oneshot app (GetEmitters no_headers) (λ response,
      status_is response StatusCode.OK &&
      with_json response (λ body, expect (as_array body) (λ items,
        match items with
        | [alpha; beta] =>
            str_is (index "name" alpha) "alpha" && str_is (index "name" beta) "beta" &&
            str_is (index "status" alpha) "healthy"
        | _ => false
        end)))).

Definition post_receipt_replay_with_emitter_filter_creates_one_delivery : M Pg bool :=
  _ <-! seed_receipt receipt_id ;;
  with_router ["test-emitter"] None ∅ (λ app,
    response <- app (PostReceiptReplay no_headers receipt_id (ReplayReceiptQuery.mk (Some "test-emitter"))) ;;
    assert (status_is response StatusCode.ACCEPTED) ;;
    with_json_m response (λ body,
      match as_array (index "delivery_ids" body) with
      | Some [id] => one_pending_row id
      | _ => ret false
      end)).

Definition get_dlq_with_emitter_filter_returns_only_matching : M Pg bool :=
  _ <-! seed_receipt receipt_id ;;
  _ <-! seed_delivery (ids 1%nat) receipt_id "foo" "dead_lettered" true now (Some now) ;;
  _ <-! seed_delivery (ids 2%nat) receipt_id "bar" "dead_lettered" true now (Some now) ;;
  build_test_router (λ app, oneshot app (GetDlq no_headers (ListDlqQuery.mk (Some "foo") None None)) (λ response,
    status_is response StatusCode.OK &&
    with_json response (λ body, expect (as_array body) (λ items,
      match items with
      | [item] =>
          str_is (index "emitter_name" (index "delivery" item)) "foo" &&
          id_is (index "delivery_id" (index "delivery" item)) (ids 1%nat) &&
          id_is (index "receipt_id" (index "receipt" item)) receipt_id
      | _ => false
      end)))).

Definition get_delivery_wrong_token_returns_401 : M Pg bool :=
  build_test_router_with_token "correct-token" (λ app,
    oneshot app (GetDelivery (bearer "Bearer wrong-token") (ids 0%nat)) (λ response,
      status_is response StatusCode.UNAUTHORIZED)).

Definition replay_delivery_missing_auth_header_returns_401 : M Pg bool :=
  build_test_router_with_token "correct-token" (λ app,
    oneshot app (PostDeliveryReplay no_headers (ids 0%nat)) (λ response,
      status_is response StatusCode.UNAUTHORIZED)).

(** A header whose [to_str] fails. *)
Definition opaque_authorization : HeaderMap := header_values [("authorization", mkHeaderValue None)].

Definition list_emitters_non_ascii_auth_header_returns_401 : M Pg bool :=
  build_test_router_with_token "correct-token" (λ app,
    oneshot app (GetEmitters opaque_authorization) (λ response, status_is response StatusCode.UNAUTHORIZED)).

Definition replay_receipt_rejects_unconfigured_emitter : M Pg bool :=
  _ <-! seed_receipt receipt_id ;;
  build_test_router_with_token "t" (λ app,
    oneshot app (PostReceiptReplay (bearer "Bearer t") receipt_id (ReplayReceiptQuery.mk (Some "bogus"))) (λ response,
      status_is response StatusCode.BAD_REQUEST &&
      with_json response (error_contains "not currently configured"))).

Definition replay_delivery_unknown_id_returns_404 : M Pg bool :=
  build_test_router (λ app, oneshot app (PostDeliveryReplay no_headers (ids 0%nat)) (λ response,
    status_is response StatusCode.NOT_FOUND &&
    with_json response (λ body, str_is (index "error" body) "delivery not found"))).

Definition replay_receipt_unknown_id_returns_404 : M Pg bool :=
  build_test_router (λ app, oneshot app (post_replay (ids 0%nat)) (λ response,
    status_is response StatusCode.NOT_FOUND &&
    with_json response (λ body, str_is (index "error" body) "receipt not found"))).

Definition get_receipt_unknown_id_returns_404 : M Pg bool :=
  build_test_router (λ app, oneshot app (GetReceipt no_headers (ids 0%nat)) (λ response,
    status_is response StatusCode.NOT_FOUND)).

Definition all : list (M Pg bool) :=
  [get_receipts_includes_deliveries_summary; get_receipt_by_id_includes_embedded_deliveries_array;
   get_receipt_processing_state_is_derived_from_deliveries; get_delivery_returns_delivery_plus_receipt;
   get_delivery_unknown_id_returns_404; post_delivery_replay_creates_new_pending_row;
   post_delivery_replay_rejects_legacy_emitter_name; get_emitters_returns_all_configured_emitters_with_health;
   post_receipt_replay_with_emitter_filter_creates_one_delivery;
   get_dlq_with_emitter_filter_returns_only_matching; get_delivery_wrong_token_returns_401;
   replay_delivery_missing_auth_header_returns_401; list_emitters_non_ascii_auth_header_returns_401;
   replay_receipt_rejects_unconfigured_emitter; replay_delivery_unknown_id_returns_404;
   replay_receipt_unknown_id_returns_404; get_receipt_unknown_id_returns_404].
End tests.

Lemma admin_api_tests_pass :
  forallb (λ t : M Pg bool, (t (session empty_db 1700000000000000000 1000%N)).1)
    (all (λ n, N.of_nat (S n)) 1700000000000000000) = true.
Proof. vm_compute. reflexivity. Qed.
End AdminApiTests.

(** ** http_test.rs *)

Module HttpTests.
Section tests.
Context `{SerdeJson} `{PgTypes} `{UuidText} `{Codecs} `{Crypto} `{ChronoText}.
Variables (ids : nat → Uuid) (verify_now : Z) (now : DateTime) (pool : Pg).

(** [AlwaysFailVerifier] *)
Definition AlwaysFailVerifier : SignatureVerifier :=
  mkVerifier "reject-provider" (λ _ _ _, VerificationResult.mk VerificationStatus.Failed (Some "test_rejection")).

(** The application of a test: the pipeline with both dedupe layers, over a migrated database.
    The server on its socket, or [oneshot], answers each request with the router. *)
Definition with_app (verifiers : list SignatureVerifier) (has_pool : bool) (admin_token prometheus : option string)
    (body : (Request → M (World Node) Response) → M (World Node) bool) : bool :=
  expect (InMemoryRecentDedupe.new 100) (λ cache,
  expect (build_pipeline 100 [] verifiers) (λ pipeline,
    (body (build_router (AppState.mk pipeline has_pool admin_token prometheus ∅) node_deliveries StorageError.to_string)
       (mkNode pool (InMemoryRecentDedupe.inner cache), [])).1)).

Definition post_json (n : nat) (provider text : string) : Request := post_webhook ids verify_now now n provider text.

(** [ping]: the database answers; [prometheus]: what the recorder renders, if it could be installed. *)
Definition full_http_flow (prometheus : option string) : bool :=
  with_app [] true None prometheus (λ app,
    let event := dq "{'event':'payment.completed'}" in
    resp1 <- app (post_json 0 "test" event) ;;
    assert (status_is resp1 StatusCode.OK && with_json resp1 (has_status "accepted")) ;;
    expect_m (receipt_id_of resp1) (λ receipt_id,
    resp2 <- app (post_json 1 "test" event) ;;
    assert (status_is resp2 StatusCode.OK && with_json resp2 (has_status "duplicate")) ;;
    resp3 <- app (get_receipts no_headers) ;;
    resp4 <- app (GetReceipt no_headers receipt_id) ;;
    resp5 <- app GetHealthz ;;
    resp6 <- app (GetReadyz true) ;;
    assert (forallb (λ resp, status_is resp StatusCode.OK) [resp3; resp4; resp5; resp6]) ;;
    resp7 <- app GetMetrics ;;
    assert (status_is resp7 StatusCode.OK &&
            match body resp7 with
            | Text text => str_contains "hookbox_" text || str_contains "no prometheus" text
            | _ => false
            end) ;;
    resp8 <- app (get_dlq no_headers) ;;
    assert (status_is resp8 StatusCode.OK) ;;
    resp9 <- app (post_replay receipt_id) ;;
    assert (status_is resp9 StatusCode.ACCEPTED &&
            with_json resp9 (λ json, expect (as_array (index "delivery_ids" json)) (λ l,
              assert_eq (List.length l) 0%nat))) ;;
    resp10 <- app (GetReceipt no_headers (ids 7%nat)) ;;
    ret (status_is resp10 StatusCode.NOT_FOUND))).

Definition admin_auth_token_enforcement (prometheus : option string) : bool :=
  with_app [] true (Some "secret-token") prometheus (λ app,
    missing <- app (get_receipts no_headers) ;;
    wrong <- app (get_receipts (bearer "Bearer wrong-token")) ;;
    correct <- app (get_receipts (bearer "Bearer secret-token")) ;;
    ret (status_is missing StatusCode.UNAUTHORIZED && status_is wrong StatusCode.UNAUTHORIZED &&
         status_is correct StatusCode.OK)).

Definition admin_auth_non_ascii_header_rejected (prometheus : option string) : bool :=
  with_app [] true (Some "secret") prometheus (λ app,
    response <- app (get_receipts AdminApiTests.opaque_authorization) ;;
    ret (status_is response StatusCode.UNAUTHORIZED)).

Definition ingest_verification_failed_returns_401 (prometheus : option string) : bool :=
  with_app [AlwaysFailVerifier] true None prometheus (λ app,
    resp <- app (post_json 0 "reject-provider" (dq "{'event':'test'}")) ;;
    ret (status_is resp StatusCode.UNAUTHORIZED &&
         with_json resp (λ body, has_status "verification_failed" body &&
                                 str_is (index "reason" body) "test_rejection"))).

Definition metrics_no_recorder_returns_fallback_message : bool :=
  with_app [] true None None (λ app,
    response <- app GetMetrics ;;
    ret (status_is response StatusCode.OK &&
         match body response with Text text => str_contains "no prometheus" text | _ => false end)).

Definition readyz_no_pool_returns_503 : bool :=
  with_app [] false None None (λ app,
    response <- app (GetReadyz true) ;; ret (status_is response StatusCode.SERVICE_UNAVAILABLE)).

Definition passed (prometheus : option string) : bool :=
  full_http_flow prometheus && admin_auth_token_enforcement prometheus &&
  admin_auth_non_ascii_header_rejected prometheus && ingest_verification_failed_returns_401 prometheus &&
  metrics_no_recorder_returns_fallback_message && readyz_no_pool_returns_503.
End tests.

(** With and without a recorder. *)
Lemma http_tests_pass prometheus :
  prometheus ∈ [None; Some "hookbox_ingest_results_total 1"] →
  passed (H3 := fips_crypto) (λ n, N.of_nat (S n)) 1700000000 1700000000000000000
    (session empty_db 1700000000000000000 1000%N) prometheus = true.
Proof. intros [->|[->|[]%not_elem_of_nil]%elem_of_cons]%elem_of_cons; vm_compute; reflexivity. Qed.
End HttpTests.
