(* ===== verification/CliHandlerTests.v ===== *)
(** * The integration tests of the command line

    [integration-tests/tests/cli_test.rs], [cli_handlers_test.rs] and [cli_emitters_test.rs]: the
    storage as the command line uses it, and the handlers of its subcommands on a live database
    and on configuration files the tests write.  A test that runs a handler is a computation over
    the console of [Cli]; the files it has written are those of its host, and it shares its
    database session with the handler. *)

From S2P Require Import Prelude RustStd F64 Types Traits Transitions Dedupe Database Postgres Config ConfigToml Metrics Pipeline Worker Json Emitters Serde Instances Sha256 Samples Cli TestKit PipelineTests StorageTests FanoutTests ConfigTests.
Local Open Scope Z_scope.
Local Open Scope rust_scope.
Local Open Scope test_scope.

(** ** cli_test.rs *)

Module StorageCliTests.
Section tests.
Context `{SerdeJson} `{PgTypes} `{UuidText} `{Codecs} `{Crypto}.
(** The identifiers of a test and its clock. *)
Variables (ids : nat → Uuid) (verify_now : Z) (now : DateTime).

(** [ingest_test_receipt] *)
Definition ingest_test_receipt (provider : string) (k : Uuid → M Pg bool) : M Pg bool :=
  DeliveryWorkerTests.ingest_through ids verify_now now 100 [] provider (uuid_to_string (ids 1%nat))
    (λ receipt_id, k (ReceiptId.uuid receipt_id)).

(** [for _ in 0..n { storage.retry_failed(id, 5).await.unwrap() }] *)
Definition retry_times (n : nat) (id : Uuid) : M Pg (result unit StorageError.t) :=
  for_try (λ _, PostgresStorage.retry_failed id 5) (seq 0 n).

Definition query_by_external_reference_returns_matching : M Pg bool :=
  results <-! PostgresStorage.query_by_external_reference "cli_test_pay_999" (Some 10) ;;
  ret (assert_eq (List.length results) 0%nat).

Definition query_for_retry_returns_empty_when_none_failed : M Pg bool :=
  ingest_test_receipt "cli_retry_empty" (λ _,
    results <-! PostgresStorage.query_for_retry 5 ;;
    ret (forallb (λ r, assert_eq (WebhookReceipt.processing_state r) ProcessingState.EmitFailed) results)).

Definition reset_for_retry_makes_receipt_retryable : M Pg bool :=
  ingest_test_receipt "cli_reset" (λ id,
    _ <-! PostgresStorage.update_state id ProcessingState.EmitFailed None ;;
    _ <-! retry_times 3 id ;;
    receipt <-!! PostgresStorage.get id ;;
    assert (assert_eq (WebhookReceipt.emit_count receipt) 3) ;;
    _ <-! PostgresStorage.reset_for_retry id ;;
    receipt <-!! PostgresStorage.get id ;;
    ret (assert_eq (WebhookReceipt.processing_state receipt) ProcessingState.EmitFailed &&
         assert_eq (WebhookReceipt.emit_count receipt) 0)).

Definition retry_failed_promotes_to_dlq_at_max : M Pg bool :=
  ingest_test_receipt "cli_dlq" (λ id,
    _ <-! PostgresStorage.update_state id ProcessingState.EmitFailed None ;;
    _ <-! retry_times 5 id ;;
    receipt <-!! PostgresStorage.get id ;;
    ret (assert_eq (WebhookReceipt.processing_state receipt) ProcessingState.DeadLettered &&
         assert_eq (WebhookReceipt.emit_count receipt) 5)).

Definition query_failed_since_filters_correctly : M Pg bool :=
  ingest_test_receipt "cli_failed_since" (λ id,
    _ <-! PostgresStorage.update_state id ProcessingState.EmitFailed None ;;
    let since := now - seconds 3600 in
    results <-! PostgresStorage.query_failed_since (Some "cli_failed_since") since (Some 10) ;;
    assert (existsb (λ r, bool_decide (WebhookReceipt.receipt_id r = ReceiptId.mk id)) results) ;;
    results <-! PostgresStorage.query_failed_since (Some "nonexistent_provider_xyz") since (Some 10) ;;
    ret (assert_eq (List.length results) 0%nat)).

Definition all : list (M Pg bool) :=
  [query_by_external_reference_returns_matching; query_for_retry_returns_empty_when_none_failed;
   reset_for_retry_makes_receipt_retryable; retry_failed_promotes_to_dlq_at_max;
   query_failed_since_filters_correctly].
End tests.

Lemma storage_cli_tests_pass :
  forallb (λ t : M Pg bool, (t (Samples.session empty_db 1700000000000000000 1000%N)).1)
    (all (H3 := fips_crypto) (λ n, N.of_nat (S n)) 1700000000 1700000000000000000) = true.
Proof. vm_compute. reflexivity. Qed.
End StorageCliTests.

(** ** What the tests of the handlers share *)

(** The console of a test: its database session, and nothing printed. *)
Definition in_console (t : M Console bool) : M Pg bool :=
  λ p, let '(b, w) := t (mkConsole p []) in (b, Cli.session w).

(** A call of the test itself, on the session it shares with the handlers. *)
Definition on_pool {A} (m : M Pg A) : M Console A :=
  λ w, let '(a, p) := m (Cli.session w) in (a, mkConsole p (printed w)).

(** The environment variable, or the database of the tests. *)
Definition database_url (var : option string) : string :=
  default "postgres://localhost/hookbox_test" var.

(** The machine of a test: the files the test wrote and a database that answers at every address
    but the one the tests call invalid. *)
Definition host_with (files : list (string * string)) (now : DateTime) : Host :=
  {| read_to_string := λ path,
       match find (λ f, String.eqb f.1 path) files with
       | Some f => Ok f.2
       | None => Err "No such file or directory (os error 2)"
       end;
     toml_parse := TomlReader.read;
     toml_error := λ _ e, de_error_text e;
     to_string_pretty := λ _, Ok "{}";
     write_fails := λ _ _, None;
     connect_fails := λ url,
       if String.eqb url "postgres://invalid:5432/nonexistent"
       then Some "failed to lookup address information" else None;
     migrate_fails := None;
     utc_now := now |}.

(** [run(cmd).await.expect(...)], and [.expect_err(...)] with what the test finds in its text; a
    panic fails both. *)
Definition run_expect (run : M Console (option (result unit AnyhowError))) (k : M Console bool) : M Console bool :=
  r <- run ;; match r with Some (Ok _) => k | _ => ret false end.
Definition run_expect_err (run : M Console (option (result unit AnyhowError))) (k : string → bool) : M Console bool :=
  r <- run ;; match r with Some (Err e) => ret (k (List.hd EmptyString e)) | _ => ret false end.
Definition is_err (run : M Console (option (result unit AnyhowError))) : M Console bool := run_expect_err run (λ _, true).
Definition runs (run : M Console (option (result unit AnyhowError))) : M Console bool := run_expect run (ret true).

(** A line feed. *)
Definition nl : string := String "010" EmptyString.
Definition quoted (s : string) : string := quote +:+ s +:+ quote.

(** The [database] table the documents of the tests begin with, and its tables of emitters. *)
Definition database_table : string :=
  nl +:+ "[database]" +:+ nl +:+ "url = " +:+ quoted "postgres://localhost/hookbox_test" +:+ nl.
Definition channel_emitter_table (name : string) : string :=
  nl +:+ "[[emitters]]" +:+ nl +:+ "name = " +:+ quoted name +:+ nl +:+ "type = " +:+ quoted "channel" +:+ nl.
Definition legacy_document : string :=
  database_table +:+ nl +:+ "[emitter]" +:+ nl +:+ "type = " +:+ quoted "channel" +:+ nl.

(** ** cli_emitters_test.rs *)

Module EmittersListTests.
Section tests.
Context `{SerdeJson} `{PgTypes} `{UuidText}.
(** [DATABASE_URL], the text of an identifier without hyphens, the identifiers of a test and its clock. *)
Variables (var : option string) (simple : Uuid → string) (ids : nat → Uuid) (now : DateTime).

Definition config_path : string := "/tmp/hookbox-emitters-test-" +:+ uuid_to_string (ids 0%nat) +:+ ".toml".

(** [write_config(body)], and [run] of [EmittersCommand::List] on the file. *)
Definition list_of (body : string) : M Console (option (result unit AnyhowError)) :=
  returns (run_emitters (host_with [(config_path, body)] now) (EmittersCommand.List config_path (database_url var))).

Definition list_empty_emitters_is_rejected_by_config_validator : M Console bool :=
  run_expect_err (list_of database_table) (str_contains "failed to parse config").

Definition list_single_channel_emitter_counts_zero : M Console bool :=
  runs (list_of (database_table +:+ channel_emitter_table ("cli-emitters-test-" +:+ simple (ids 1%nat)))).

Definition list_emits_legacy_section_warning : M Console bool := runs (list_of legacy_document).

Definition list_missing_config_file_errors : M Console bool :=
  let path := "/tmp/nonexistent-" +:+ uuid_to_string (ids 0%nat) +:+ ".toml" in
  run_expect_err (returns (run_emitters (host_with [] now) (EmittersCommand.List path (database_url var))))
    (str_contains "failed to read config file").

Definition list_bad_toml_errors : M Console bool :=
  run_expect_err (list_of "this is [[ not valid toml") (str_contains "failed to parse config").

Definition all : list (M Console bool) :=
  [list_empty_emitters_is_rejected_by_config_validator; list_single_channel_emitter_counts_zero;
   list_emits_legacy_section_warning; list_missing_config_file_errors; list_bad_toml_errors].
End tests.

Lemma emitters_list_tests_pass :
  forallb (λ t : M Console bool, (in_console t (Samples.session empty_db 1700000000000000000 1000%N)).1)
    (all None uuid_to_string (λ n, N.of_nat (S n)) 1700000000000000000) = true.
Proof. vm_compute. reflexivity. Qed.
End EmittersListTests.

(** ** cli_handlers_test.rs *)

Module HandlerTests.
Section tests.
Context `{SerdeJson} `{PgTypes} `{UuidText} `{Codecs} `{ChronoText}.
(** [DATABASE_URL], the identifiers of a test and its clock. *)
Variables (var : option string) (ids : nat → Uuid) (now : DateTime).

Definition url : string := database_url var.
Definition config_path : string := "/tmp/hookbox-cli-test-" +:+ uuid_to_string (ids 0%nat) +:+ ".toml".
(** A receipt of a test, or an identifier no receipt has. *)
Definition id : Uuid := ids 1%nat.

(** The handlers, on a machine whose only file is the configuration of the test. *)
Definition host (document : string) : Host := host_with [(config_path, document)] now.
Definition write_test_config : string := database_table +:+ channel_emitter_table "test-emitter".
Definition write_test_config_with_emitters (emitters : list string) : string :=
  foldl (λ body name, body +:+ channel_emitter_table name) database_table emitters.
Definition receipts_run (cmd : ReceiptsCommand.t) : M Console (option (result unit AnyhowError)) :=
  returns (run_receipts (host write_test_config) cmd).
Definition dlq_run (cmd : DlqCommand.t) : M Console (option (result unit AnyhowError)) :=
  returns (run_dlq (host write_test_config) cmd).
Definition replay_run (document : string) (cmd : ReplayCommand.t) : M Console (option (result unit AnyhowError)) :=
  run_replay (host document) cmd.

(** The [UPDATE] of [force_dead_lettered], which is not guarded by a lease. *)
Definition force_dead_lettered (delivery_id : DeliveryId.t) (note : string) : M Pg (result unit StorageError.t) :=
  _ <-? execute (update_deliveries (λ _, has_delivery_id (DeliveryId.uuid delivery_id))
                   (λ _, DeliveryRow.set_dead_lettered note)) ;;
  ret (Ok tt).

(** The receipts the tests store; [prefix] begins the deduplication key. *)
Definition receipt_with (provider prefix : string) (external_reference : option string) (raw_body : bytes)
    (parsed_payload : option Value) (normalized_event_type : option string) : WebhookReceipt.t :=
  {| WebhookReceipt.receipt_id := ReceiptId.mk id;
     WebhookReceipt.provider_name := provider;
     WebhookReceipt.provider_event_id := None;
     WebhookReceipt.external_reference := external_reference;
     WebhookReceipt.dedupe_key := prefix +:+ uuid_to_string id;
     WebhookReceipt.payload_hash := "sha256:" +:+ uuid_to_string id;
     WebhookReceipt.raw_body := raw_body;
     WebhookReceipt.parsed_payload := parsed_payload;
     WebhookReceipt.raw_headers := VObject [];
     WebhookReceipt.normalized_event_type := normalized_event_type;
     WebhookReceipt.verification_status := VerificationStatus.Skipped;
     WebhookReceipt.verification_reason := None;
     WebhookReceipt.processing_state := ProcessingState.Stored;
     WebhookReceipt.emit_count := 0;
     WebhookReceipt.last_error := None;
     WebhookReceipt.received_at := now;
     WebhookReceipt.processed_at := None;
     WebhookReceipt.metadata := VObject [] |}.
Definition test_receipt (provider prefix : string) (external_reference : option string) : WebhookReceipt.t :=
  receipt_with provider prefix external_reference (bytes! (dq "{'test':true}"))
    (Some (VObject [("test", VBool true)])) (Some "test.event").

(** [ingest_receipt]; the identifier of the receipt is [id]. *)
Definition ingest_receipt (provider : string) (k : M Console bool) : M Console bool :=
  result <-! on_pool (PostgresStorage.store (test_receipt provider "test:" None)) ;;
  assert (match result with StoreResult.Stored => true | _ => false end) ;;
  k.
Definition ingest_receipt_with_ref (provider external_ref : string) (k : M Console bool) : M Console bool :=
  _ <-! on_pool (PostgresStorage.store (test_receipt provider "test-ref:" (Some external_ref))) ;;
  k.
(** A receipt of the replay tests, with its deliveries. *)
Definition seed_history (prefix : string) (emitters : list string) (k : M Console bool) : M Console bool :=
  _ <-! on_pool (PostgresStorage.store_with_deliveries
                   (receipt_with "test-provider" prefix None (bytes! "{}") None None) emitters) ;;
  k.

(** The deliveries of the receipt after the handler has run. *)
Definition deliveries_then (k : list WebhookDelivery.t → bool) : M Console bool :=
  deliveries <-! on_pool (PostgresStorage.get_deliveries_for_receipt (ReceiptId.mk id)) ;;
  ret (k deliveries).
(** A dead-lettered delivery of the receipt. *)
Definition with_dead_letter (emitter note : string) (k : DeliveryId.t → M Console bool) : M Console bool :=
  ingest_receipt "test-provider" (
    delivery_id <-! on_pool (PostgresStorage.insert_replay (ReceiptId.mk id) emitter) ;;
    _ <-! on_pool (force_dead_lettered delivery_id note) ;;
    k delivery_id).

(** db::connect *)

(** [SELECT 1] *)
Definition select_one : Stmt Z := λ _ d, Ok (1, d).

Definition db_connect_succeeds : M Console bool :=
  run_expect (returns (connect (host write_test_config) url)) (
    row <-! on_pool (execute select_one) ;;
    ret (assert_eq row 1)).
Definition db_connect_bad_url_fails : M Console bool :=
  is_err (returns (connect (host write_test_config) "postgres://invalid:5432/nonexistent")).

(** receipts::run *)

Definition receipts_list (provider state : option string) (limit : Z) : M Console (option (result unit AnyhowError)) :=
  receipts_run (ReceiptsCommand.List url provider state limit).

Definition receipts_list_runs_successfully : M Console bool :=
  ingest_receipt "test-provider" (runs (receipts_list None None 20)).
Definition receipts_list_with_provider_filter : M Console bool :=
  ingest_receipt "alpha" (runs (receipts_list (Some "alpha") None 20)).
Definition receipts_list_with_state_filter : M Console bool :=
  ingest_receipt "test-provider" (runs (receipts_list None (Some "stored") 10)).
Definition receipts_list_with_invalid_state_fails : M Console bool :=
  is_err (receipts_list None (Some "not_a_real_state") 10).
Definition receipts_inspect_existing : M Console bool :=
  ingest_receipt "test-provider" (runs (receipts_run (ReceiptsCommand.Inspect url id))).
Definition receipts_inspect_nonexistent : M Console bool :=
  is_err (receipts_run (ReceiptsCommand.Inspect url id)).
Definition receipts_search_empty_results : M Console bool :=
  runs (receipts_run (ReceiptsCommand.Search url "nonexistent-ref" 20)).
Definition receipts_search_with_results : M Console bool :=
  let unique_ref := "order-" +:+ uuid_to_string (ids 2%nat) in
  ingest_receipt_with_ref "test-provider" unique_ref (
    runs (receipts_run (ReceiptsCommand.Search url unique_ref 20))).

(** dlq::run *)

Definition dlq_list_empty : M Console bool := runs (dlq_run (DlqCommand.List url None 20 0)).
Definition dlq_list_with_provider_filter : M Console bool :=
  runs (dlq_run (DlqCommand.List url (Some "some-emitter") 20 0)).
Definition dlq_inspect_nonexistent : M Console bool := is_err (dlq_run (DlqCommand.Inspect url id)).
Definition dlq_inspect_existing : M Console bool :=
  with_dead_letter "test-emitter" "test dead letter" (λ delivery_id,
    runs (dlq_run (DlqCommand.Inspect url (DeliveryId.uuid delivery_id)))).
Definition dlq_retry_nonexistent : M Console bool := is_err (dlq_run (DlqCommand.Retry url config_path id)).
Definition dlq_retry_existing : M Console bool :=
  with_dead_letter "test-emitter" "test dead letter" (λ original,
    run_expect (dlq_run (DlqCommand.Retry url config_path (DeliveryId.uuid original)))
      (deliveries_then (λ deliveries, assert_eq (List.length deliveries) 2%nat))).
Definition dlq_list_with_results : M Console bool :=
  let emitter_name := "test-emitter-" +:+ uuid_to_string (ids 2%nat) in
  with_dead_letter emitter_name "test" (λ delivery_id,
    run_expect (dlq_run (DlqCommand.List url (Some emitter_name) 20 0)) (
      rows <-! on_pool (PostgresStorage.list_dlq (Some emitter_name) 20 0) ;;
      ret (assert_eq (map (λ r, WebhookDelivery.delivery_id r.1) rows) [delivery_id]))).

(** replay::run *)

Definition replay_id (document : string) (emitter : option string) : M Console (option (result unit AnyhowError)) :=
  replay_run document (ReplayCommand.Id url config_path id emitter).
Definition replay_failed (provider : option string) : M Console (option (result unit AnyhowError)) :=
  replay_run write_test_config (ReplayCommand.Failed url provider "1h" 100).

Definition replay_single_existing_explicit_emitter : M Console bool :=
  ingest_receipt "test-provider" (
    run_expect (replay_id write_test_config (Some "test-emitter")) (
      deliveries_then (λ deliveries,
        assert_eq (map WebhookDelivery.emitter_name deliveries) ["test-emitter"]))).
Definition replay_single_without_emitter_bails_without_history : M Console bool :=
  ingest_receipt "test-provider" (is_err (replay_id write_test_config None)).
Definition replay_single_nonexistent : M Console bool := is_err (replay_id write_test_config None).
Definition replay_failed_empty : M Console bool := runs (replay_failed None).
Definition replay_failed_with_provider_filter : M Console bool := runs (replay_failed (Some "nonexistent-provider")).
Definition replay_failed_replays_emit_failed_receipts : M Console bool :=
  ingest_receipt "test-provider" (
    _ <-! on_pool (PostgresStorage.update_state id ProcessingState.EmitFailed (Some "test failure")) ;;
    runs (replay_failed None)).

Definition replay_single_explicit_emitter_not_in_config_errors : M Console bool :=
  ingest_receipt "test-provider" (
    run_expect_err (replay_id write_test_config (Some "ghost-emitter")) (λ rendered,
      str_contains "ghost-emitter" rendered && str_contains (uuid_to_string id) rendered)).
Definition replay_single_historical_emitters_stale_errors : M Console bool :=
  seed_history "replay-stale:" ["legacy-emitter"] (
    run_expect_err (replay_id write_test_config None) (str_contains "legacy-emitter")).
Definition replay_single_fans_out_across_historical_emitters : M Console bool :=
  seed_history "replay-fanout:" ["emitter-a"; "emitter-b"] (
    run_expect (replay_id (write_test_config_with_emitters ["emitter-a"; "emitter-b"]) None) (
      deliveries_then (λ deliveries,
        let count name := List.length (List.filter (λ d, bool_decide (WebhookDelivery.emitter_name d = name)) deliveries) in
        assert_eq (count "emitter-a") 2%nat && assert_eq (count "emitter-b") 2%nat))).
(** The file of this test has a name of its own, which no assertion reads. *)
Definition replay_single_explicit_emitter_writes_legacy_warning : M Console bool :=
  ingest_receipt "test-provider" (
    match parse_and_normalize (toml_from_str (host legacy_document)) legacy_document with
    | Err _ => ret false
    | Ok (_, warnings) =>
        assert (assert_ne warnings []) ;;
        assert (existsb (λ w, str_contains "deprecated" w || str_contains "[[emitters]]" w) warnings) ;;
        runs (replay_id legacy_document (Some "default"))
    end).

Definition all : list (M Console bool) :=
  [db_connect_succeeds; db_connect_bad_url_fails; receipts_list_runs_successfully;
   receipts_list_with_provider_filter; receipts_list_with_state_filter;
   receipts_list_with_invalid_state_fails; receipts_inspect_existing; receipts_inspect_nonexistent;
   receipts_search_empty_results; receipts_search_with_results; dlq_list_empty;
   dlq_list_with_provider_filter; dlq_inspect_nonexistent; dlq_inspect_existing; dlq_retry_nonexistent;
   dlq_retry_existing; dlq_list_with_results; replay_single_existing_explicit_emitter;
   replay_single_without_emitter_bails_without_history; replay_single_nonexistent; replay_failed_empty;
   replay_failed_with_provider_filter; replay_failed_replays_emit_failed_receipts;
   replay_single_explicit_emitter_not_in_config_errors; replay_single_historical_emitters_stale_errors;
   replay_single_fans_out_across_historical_emitters;
   replay_single_explicit_emitter_writes_legacy_warning].
End tests.

Lemma handler_tests_pass :
  forallb (λ t : M Console bool, (in_console t (Samples.session empty_db 1700000000000000000 1000%N)).1)
    (all None (λ n, N.of_nat (S n)) 1700000000000000000) = true.
Proof. vm_compute. reflexivity. Qed.
End HandlerTests.

(** ** hookbox-cli/tests/config_validate_cli.rs *)

Module ConfigValidateTests.
Section tests.
Context `{UuidText}.
Variables (ids : nat → Uuid) (now : DateTime).

Definition path : string := "/tmp/hookbox-test-" +:+ uuid_to_string (ids 0%nat) +:+ ".toml".

(** [hookbox config validate path]: how it ends and its standard output. *)
Definition validate (text : string) (k : option (result unit AnyhowError) → string → bool) : M Console bool :=
  λ w, let '(status, w') := run_config (host_with [(path, text)] now) (ConfigCommand.Validate path) w in
       (k status (RustStd.join EmptyString (map snd (List.filter (λ p, match p.1 with Stdout => true | Stderr => false end) (printed w')))), w').
Definition success (status : option (result unit AnyhowError)) : bool :=
  match status with Some (Ok _) => true | _ => false end.

Definition config_validate_exits_nonzero_on_bad_toml : M Console bool :=
  validate "[this is not valid toml!!!" (λ status _, negb (success status)).

Definition config_validate_ok_output_on_valid_config : M Console bool :=
  validate
    (nl +:+ "[database]" +:+ nl +:+ "url = " +:+ quoted "postgres://localhost/test" +:+ nl +:+
     channel_emitter_table "default")
    (λ status stdout, success status && str_contains "OK: 1 emitter(s) configured" stdout).
End tests.

Lemma config_validate_tests_pass :
  forallb (λ t : M Console bool, (in_console t (Samples.session empty_db 1700000000000000000 1000%N)).1)
    [config_validate_exits_nonzero_on_bad_toml (λ n, N.of_nat (S n)) 1700000000000000000;
     config_validate_ok_output_on_valid_config (λ n, N.of_nat (S n)) 1700000000000000000] = true.
Proof. vm_compute. reflexivity. Qed.
End ConfigValidateTests.
